(* ===== verification/_CoqProject ===== *)
-Q . S2P
Prelude.v
Strs.v
Config.v
Stores.v
Http.v
Routes.v
Plugins.v
Oauth2.v
Middleware.v
Router.v
HttpLb.v
Discovery.v
RouteTable.v
HealthCheck.v
DiskCache.v
Caching.v
Lifecycle.v
Aborts.v
Outage.v
Answers.v
AsyncIo.v
Logger.v
Docker.v
AcmeStorage.v
LetsEncrypt.v
Coverage.v
Issuance.v
Reload.v
Background.v
Startup.v
Restart.v
AccessLog.v
Prototypes.v
UnitTests.v
