(* ===== verification/Prelude.v ===== *)
(** * Proksi: a verification library

    Proksi (src/crates/proksi) is a reverse proxy built on Pingora. A request
    of a client goes through the callbacks of [Router] (HTTPS) or [HttpLB]
    (plain HTTP); the routes it is matched against are put in a shared store by
    background services, which take them from the configuration and from the
    labels of Docker; certificates and ACME challenges live in a store with an
    in-memory and a Redis implementation. This library models that code as
    executable definitions and proves what it does, the places where it does
    not do what it means to included.

    ** Files

    Every file requires the ones it calls; paths are under crates/proksi/src.

    - Prelude.v (this file): outcomes [res] (a [Result], or a panic, which the
      release profile turns into an abort of the process), the monad [M] of
      stateful fallible code, whose state survives errors and panics as [&mut]
      references do, and the tactics [munfold] and [mcases].
    - Strs.v: the text operations of the Rust standard library that the code
      uses, on byte strings (split, trim, paths, decimal numbers, UTF-8).
    - Config.v: config/mod.rs and config/validate.rs. The data model, its
      defaults and deserialisers, [check_config], [load].
    - Stores.v: stores/. The certificate codec; the [Store] trait as a class
      with its contract [StoreSpec]; [MemoryStore] and [RedisStore] (connection
      pool, local caches) as instances that meet it; the global store cell and
      the cache-routing table.
    - Http.v: header maps, URIs, responses and Pingora's session, as what the
      handlers read of it and the log of what they write to the client.
    - Routes.v: stores/routes.rs (containers, path matcher, route store), the
      request context, and the framing of filters: what they keep ([frames]),
      what their outcome depends on ([input_driven]), with the hint database
      [frames] and the tactic [frame_auto].
    - Plugins.v: plugins/mod.rs, plugins/basic_auth, plugins/request_id.
    - Oauth2.v: plugins/oauth2 and plugins/jwt.
    - Middleware.v: proxy_server/middleware.rs, the chain of plugins.
    - Router.v: proxy_server/https_proxy.rs and the peer options.
    - HttpLb.v: proxy_server/http_proxy.rs and proxy_server/cert_store.rs,
      clients of the [Store] interface.
    - Discovery.v: services/discovery/mod.rs, and the messages of main.rs.
    - RouteTable.v: the abstract specification of the routing service, a table
      from hosts to the announcement (configured route or message) that
      counts, and the refinement of it by the route store.
    - HealthCheck.v: services/health_check/mod.rs as a step relation that
      interleaves it with the routing service.
    - DiskCache.v: cache/disk/.
    - Caching.v: the cache callbacks of [Router] with the disk cache under them.
    - Lifecycle.v: a whole request: the callbacks of [Router] in the order in
      which Pingora runs them, over the disk cache and upstreams that are a
      parameter, up to what the client was sent.
    - Aborts.v: which requests, and which answers, end the process.
    - Outage.v: which requests end in an error that Pingora has to answer.
    - Answers.v: what a client is sent, with a judgement on the log of the
      session ([sends]).
    - AsyncIo.v: the AsyncWrite trait and tokio's BufWriter over it.
    - Logger.v: services/logger/.
    - Docker.v: services/docker/mod.rs.
    - AcmeStorage.v: services/letsencrypt/storage.rs, where the ACME account
      is kept.
    - LetsEncrypt.v: services/letsencrypt/http01.rs: bundles, challenges,
      orders, the self-signed fallback and the two loops, a client of the
      [Store] interface; what the service changes is proved with a small
      Hoare logic ([spec], [stable]).
    - Coverage.v: what a tick of the Let's Encrypt service leaves its hosts
      with, by the way the authority treats their domains.
    - Issuance.v: the Let's Encrypt service with the components it works
      through, the HTTP front, the stores, the TLS callback.
    - Reload.v: services/config/mod.rs (file watcher) and config/hcl.rs.
    - Background.v: services/mod.rs: the start of the five background services
      and their turns on one thread, over the route store, the certificate
      store and the broadcast channel they share.
    - Startup.v: main.rs up to run_forever, and the global store as a trait
      object.
    - Restart.v: Reload.v, Startup.v, Background.v and HttpLb.v together: the
      process over its life, from start-up with the start of its services
      through their turns, handshakes and requests to the events of its watcher
      that replace it.
    - AccessLog.v: from the logging callback of a request through the
      subscriber of main.rs to the log file.
    - Prototypes.v: code that nothing calls (the plugin interface of
      crates/plugins_api, the JavaScript prototype, tools/mod.rs), and the
      benchmark.
    - UnitTests.v: the unit tests of the stores and of the oauth2 validations,
      run on the model.

    ** How the code is modelled

    A handler is a function in [M S E], [S] being the objects it receives by
    mutable reference and the statics it reads or writes: [Exchange] (session
    and context) for plugins, [World] (route store, cache routing, exchange)
    for the request filter, [Registry] for the routing service, [Sys] for it
    and the health checks, [Front] for the plain-HTTP front, [DiskState] for
    the disk cache, [Proxy] ([World] with [DiskState]) for a whole request,
    [LeWorld] (store and outside world) for the Let's Encrypt service,
    [Background] for all background services, [Main] for start-up, [Running] for a process
    that its watcher may replace. [?] is the monad's bind; [unwrap], [expect]
    and [unreachable!] give [Panic]; [.ok()] and [is_ok_and] are [catch_ok] and
    [is_ok_and], which stop errors but not panics. Downstream writes can fail:
    a session carries the outcomes of the coming ones ([io]), and a healthy
    exchange is one where all succeed. Time and fresh identifiers come in as
    [Env]: a signed clock, which [get_current_timestamp] panics on before 1970;
    the freshness of cached responses is counted from the epoch, at which an
    earlier clock stands. The resolver [Dns] is that of one moment: the theorems
    on requests to stored routes take the one at the registration of a route and
    the one at the request apart (interleavings_serviceable,
    configured_route_answers), and Restart.v has one with each event. [HashMap]s are finite maps; where the code iterates over one, the
    order is a parameter. u64 arithmetic wraps ([wrap64]).

    Third-party code is a parameter, a class of functions with a class of
    laws that state its documented behaviour: [HttpApi], [CacheMetaApi] (http,
    pingora), [LbApi], [Dns], [PathTreeApi] (load balancing), [Base64], [Pki]
    (OpenSSL), [RedisApi], [CertJson], [MetaJson], [JwtApi], [ShortCrypt],
    [CookieApi], [HttpClient], [Network] (the upstreams), [Formatter],
    [TimeApi], [UriBuilder], [AcmeApi], [DockerApi], [Broadcast] and
    [BufWriterApi] (tokio), [StartApi], [HclApi] and so on. [CacheHash] is
    Pingora's hash of a cache key, over namespace and primary key written one
    after the other and without the tag of the user; it is taken to have no
    collisions, so that host and path are told apart only as far as that text
    tells them apart (prefix_hosts_share_memory). Each has a concrete instance (toy_...) at which the witnesses evaluate the theorems.

    ** What the theorems show

    - A request: what is forwarded and what is refused (Router_forwards_iff,
      Router_unroutable_404); what the upstream and the client then get, header
      by header (forwarded_exchange), with a configured route
      (configured_route_answers), and the second time, from the cache
      (second_request_from_cache); what is not reached without credentials
      (wrong_credentials_reach_nothing); what its log line says and when it is
      written (forwarded_request_logged, requests_logged). By callback: the peer
      (upstream_peer_sound), response_headers_spec, request_id_consistent,
      cache_lifecycle.
    - Aborts: all the causes of a panic in a request (abort_causes), exactly
      when oauth2 is one (oauth2_route_aborts_iff), and the answer of an
      upstream that is (binary_header_aborts). Errors: exactly when a request
      ends in one, which is 503 when no backend is selected and no fresh copy
      cached (only_outage_fails). Answers: well formed on any connection, oauth2
      aside (answers_well_formed).
    - Services: whatever is configured, announced and health-checked, in any
      interleaving, every stored host can be served as long as its upstreams
      resolve as they did, and panics the request when they do not at all
      (served_hosts_find_upstream, interleavings_serviceable); how updates are
      applied, ignored or lost (add_new_route_stores, has_new_backend_iff,
      unchanged_backends_ignored, checks_lose_own_updates, service_stops_watching).
      Against the specification: the route store is at all times the one of
      the abstract table (route_store_refines_table), which says which of
      several announcements of a host counts (stored_route_is_last_change).
    - Across components: from an order to the certificate in the handshake, the front answering the authority (issuance_end_to_end,
      challenge_served_by_replica); from a label to a routed host with a
      certificate, with an authority and a store that work
      (announced_hosts_certified), the flood of messages after which no host is
      added any more (flood_ends_discovery), and the label that ends the process
      (label_header_aborts).
    - Start-up: when it gets to run_forever and what runs then
      (main_runs_iff), a valid configuration it panics on
      (redis_without_url_panics), the trait object of the store
      (dyn_store_contract).
    - Reloading: exactly when a proxy runs after a change of the configuration,
      and with what, the start of the background services included
      (reload_survives_iff); what any sequence of watcher events, service turns,
      handshakes and requests leaves (reload_history); that certificates in Redis survive it
      (reload_keeps_redis).
    - Authentication: exactly which requests pass basic_auth; safety of the
      oauth2 callback and the round trips of its state and cookie; the ways
      round it (malformed_credentials_pass, unauthorised_request_forwarded,
      container_routes_have_no_plugins); the logins that are lost
      (other_cookie_first_redirects, username_login_refused).
    - Stores: the Redis store implements the contract; certificates round
      trip between replicas; challenges and certificates are served from the
      store whichever it is (acme_challenge_served, certificate_presented);
      the answers of the front are well formed on every path
      (front_answers_well_formed).
    - Certificates: how an order ends and that it does (order_completes,
      order_installs_certificate), what is read of a bundle
      (insert_certificate_bundle), when renewal acts (renewal_only_when_due),
      the states the loops do not leave (self_signed_sticks,
      unusable_certificate_never_served).
    - Caching: admission, lookup and reading round trip for any chunks and
      read sizes (admitted_body_read_back); what re-admission, repeated headers
      and the in-memory copy do to it (memory_copy_outlives_updates); to which
      requests a cached response is served and until when
      (cached_response_served), that it stays with its host and path
      (cached_responses_isolated), unless one of two hosts begins with the other
      (prefix_hosts_share_memory), and that one cut short is served too
      (interrupted_response_served).
    - Logging: rollover boundaries; that the log is what the write of each
      message took of it, and that the receiver catches up
      (rotation_catches_up); what stays in memory without
      rotation (short_log_never_written).
    - Configuration: validation decides validity; what loading merges; which
      files are watched and which events restart the process
      (restart_needs_hcl).

    ** Bounds and fuel

    Recursion is structural everywhere except trimming ([trim_start_matches],
    [trim]), whose fuel is the length of the text: each turn removes at least
    one byte. The loop of an ACME order, which may run for ever, is given a
    number of rounds and ends in [Running] when they are over; order_completes
    and issuance_end_to_end show that two are enough when the authority can be
    reached,
    refresh_errors_ignored that none are while only refreshes fail. Nested HCL
    imports are bounded by the depth of the stack. Service loops run over the
    list of what they receive (messages, ticks, log lines); reading a cache
    file over the list of what the system returns, and admitted_body_read_back
    shows that one call more than there are bytes is enough.

    ** Not modelled

    figment's extraction, clap's parsing, the Docker API, Pingora's server and
    the TLS handshake (library calls), except for the order of the phases of a
    request and the limit on the size of what is cached, which Lifecycle.v takes
    from Pingora's documentation. Its [serve] is for requests that are neither
    conditional nor HEAD, to upstreams that answer in full; Pingora's memory
    cache and the lock of its cache are left out. A write to a cache file is
    taken to be done when the call returns, although nothing flushes it. In
    Restart.v a request to the HTTPS proxy only matters by whether it panics;
    which do is in Aborts.v.
    Of the tests: those of config/mod.rs, which exercise figment's extraction,
    of discovery/mod.rs, which exercise the standard library's addresses, and
    the one that looks into the nodes of a PathTree. The files channel/mod.rs,
    server/mod.rs, cache/memory_storage.rs and cache/tinyufo/mod.rs are empty. *)
From stdpp Require Export prelude gmap strings list fin_maps.
From Stdlib Require Export ZArith Lia.

(** ** Outcomes of fallible Rust code

    [Ok]/[Err] are the constructors of [Result]; [Panic] is an unwinding
    [unwrap]/[expect]/[unreachable!], which no [?] or [.ok()] intercepts. *)
Inductive res (E A : Type) : Type :=
| Ok (a : A)
| Err (e : E)
| Panic.
Arguments Ok {E A} a.
Arguments Err {E A} e.
Arguments Panic {E A}.

#[export] Instance res_ret E : MRet (res E) := λ A a, Ok a.
#[export] Instance res_bind E : MBind (res E) := λ A B f m,
  match m with Ok a => f a | Err e => Err e | Panic => Panic end.
#[export] Instance res_fmap E : FMap (res E) := λ A B f m,
  match m with Ok a => Ok (f a) | Err e => Err e | Panic => Panic end.

(** [option::ok_or] *)
Definition ok_or {E A} (e : E) (o : option A) : res E A :=
  match o with Some a => Ok a | None => Err e end.

(** [Option::unwrap] and [Result::unwrap] *)
Definition unwrap {E A} (o : option A) : res E A :=
  match o with Some a => Ok a | None => Panic end.

(** [Result::map_err] *)
Definition map_err {E F A} (f : E → F) (r : res E A) : res F A :=
  match r with Ok a => Ok a | Err e => Err (f e) | Panic => Panic end.

(** ** Stateful fallible code: the state survives errors and panics *)
Definition M (S E A : Type) : Type := S → res E A * S.

#[export] Instance M_ret S E : MRet (M S E) := λ A a s, (Ok a, s).
#[export] Instance M_bind S E : MBind (M S E) := λ A B f m s,
  match m s with
  | (Ok a, s') => f a s'
  | (Err e, s') => (Err e, s')
  | (Panic, s') => (Panic, s')
  end.

Section monad.
Context {S E : Type}.
Definition throw {A} (e : E) : M S E A := λ s, (Err e, s).
Definition crash {A} : M S E A := λ s, (Panic, s).
Definition lift {A} (r : res E A) : M S E A := λ s, (r, s).
Definition get_state : M S E S := λ s, (Ok s, s).
Definition gets {A} (f : S → A) : M S E A := λ s, (Ok (f s), s).
Definition modify (f : S → S) : M S E unit := λ s, (Ok tt, f s).

(** [r.ok()]: the error is dropped, a panic is not. *)
Definition catch_ok {F A} (m : M S F A) : M S E (option A) := λ s,
  match m s with
  | (Ok a, s') => (Ok (Some a), s')
  | (Err _, s') => (Ok None, s')
  | (Panic, s') => (Panic, s')
  end.

(** [r.is_ok_and(|v| v)] *)
Definition is_ok_and {F} (m : M S F bool) : M S E bool := λ s,
  match m s with
  | (Ok b, s') => (Ok b, s')
  | (Err _, s') => (Ok false, s')
  | (Panic, s') => (Panic, s')
  end.
End monad.

(** Runs [m] on a part of a larger state. *)
Definition zoom {S T E A} (get : T → S) (set : S → T → T) (m : M S E A) : M T E A :=
  λ t, let '(r, s) := m (get t) in (r, set s t).

(** A bind, when its first part succeeds; where a panic or an error of it comes
    from. *)
Lemma bind_ok {S E A B} (m : M S E A) (f : A → M S E B) s a s' :
  m s = (Ok a, s') → (m ≫= f) s = f a s'.
Proof. intros E1. unfold mbind, M_bind. by rewrite E1. Qed.

Lemma bind_panics {S E A B} (m : M S E A) (f : A → M S E B) s :
  fst ((m ≫= f) s) = Panic → fst (m s) = Panic ∨ ∃ a s', m s = (Ok a, s') ∧ fst (f a s') = Panic.
Proof. unfold mbind, M_bind. destruct (m s) as [[a|e|] s'] eqn:Em; [|done|by left]. right. by exists a, s'. Qed.

Lemma bind_errs {S E A B} (m : M S E A) (f : A → M S E B) s e :
  fst ((m ≫= f) s) = Err e → fst (m s) = Err e ∨ ∃ a s', m s = (Ok a, s') ∧ fst (f a s') = Err e.
Proof. unfold mbind, M_bind. destruct (m s) as [[a|e'|] s'] eqn:Em; [|intros [= ->]; by left|done]. right. by exists a, s'. Qed.

(** ** Automation *)
Create HintDb proksi discriminated.

Ltac munfold :=
  unfold mbind, mret, M_bind, M_ret, res_bind, res_ret, throw, crash, lift,
    get_state, gets, modify, catch_ok, is_ok_and, zoom, ok_or, unwrap in *.

(** Splits every match of the hypotheses and the goal, keeping consistent branches. *)
Ltac mcases := munfold; repeat (case_match; simplify_eq/=).
