(* ===== verification/Strs.v ===== *)
(** Rust's [str]/[String] operations that the program calls, on strings of
    UTF-8 bytes (one [ascii] per byte), with the lemmas the components share.
    These are standard-library functions, not code of the repository. *)
From Stdlib Require Export Ascii.
From Stdlib Require Import DecimalString DecimalN.
From S2P Require Import Prelude.
#[local] Open Scope string_scope.
#[local] Open Scope list_scope.

(** ** Definitions *)

(** [s.contains(c)] for a character. *)
Fixpoint has_char (c : ascii) (s : string) : bool :=
  match s with
  | EmptyString => false
  | String a s' => bool_decide (a = c) || has_char c s'
  end.

(** [s.split(c)]: one element more than there are separators. *)
Fixpoint split_char (c : ascii) (s : string) : list string :=
  match s with
  | EmptyString => [EmptyString]
  | String a s' =>
      if bool_decide (a = c) then EmptyString :: split_char c s'
      else match split_char c s' with
           | [] => [String a EmptyString]
           | p :: ps => String a p :: ps
           end
  end.

(** [parts.join(sep)] *)
Definition join (sep : string) (parts : list string) : string := String.concat sep parts.

(** [s.starts_with(p)] *)
Definition starts_with (p s : string) : bool := String.prefix p s.

(** [s.contains(p)] for a string pattern. *)
Fixpoint contains (p s : string) : bool :=
  starts_with p s || match s with EmptyString => false | String _ s' => contains p s' end.

(** [s.strip_prefix(p)] *)
Fixpoint strip_prefix (p s : string) : option string :=
  match p, s with
  | EmptyString, _ => Some s
  | String a p', String b s' => if bool_decide (a = b) then strip_prefix p' s' else None
  | String _ _, EmptyString => None
  end.

(** [s.trim_start_matches(p)]: strips [p] as long as it is a prefix; each
    round removes at least one byte, so [length s] rounds are enough. *)
Fixpoint trim_fuel (fuel : nat) (p s : string) : string :=
  match fuel with
  | O => s
  | S n => match strip_prefix p s with Some s' => trim_fuel n p s' | None => s end
  end.
Definition trim_start_matches (p s : string) : string := trim_fuel (String.length s) p s.

(** [s.split_once(c)] *)
Fixpoint split_once (c : ascii) (s : string) : option (string * string) :=
  match s with
  | EmptyString => None
  | String a s' =>
      if bool_decide (a = c) then Some (EmptyString, s')
      else match split_once c s' with
           | Some (l, r) => Some (String a l, r)
           | None => None
           end
  end.

(** [s.rsplit_once(c)] *)
Fixpoint rsplit_once (c : ascii) (s : string) : option (string * string) :=
  match s with
  | EmptyString => None
  | String a s' =>
      match rsplit_once c s' with
      | Some (l, r) => Some (String a l, r)
      | None => if bool_decide (a = c) then Some (EmptyString, s') else None
      end
  end.

(** [match s { "a" => x, ... }]: the value of the first arm equal to [s]. *)
Definition case_str {A} (arms : list (string * A)) (s : string) : option A :=
  snd <$> List.find (λ arm, String.eqb (fst arm) s) arms.

(** [Path::extension]: the part after the last dot of the last component,
    none for a component without a dot or whose only dot is its first byte. *)
Definition path_file_name (p : string) : option string :=
  let comps := List.filter (λ x, negb (String.eqb x "") && negb (String.eqb x ".")) (split_char "/" p) in
  match List.rev comps with
  | [] => None
  | x :: _ => if String.eqb x ".." then None else Some x
  end.
Definition path_extension (p : string) : option string :=
  match path_file_name p with
  | None => None
  | Some f => match rsplit_once "." f with
              | Some (stem, ext) => if String.eqb stem "" then None else Some ext
              | None => None
              end
  end.

(** [Path::join]: an absolute second path replaces the first. *)
Definition path_join (base rel : string) : string :=
  if starts_with "/" rel then rel
  else if String.eqb base "" then rel
  else match rsplit_once "/" base with
       | Some (_, EmptyString) => base +:+ rel
       | _ => base +:+ "/" +:+ rel
       end.

Definition ascii_lower (a : ascii) : ascii :=
  let n := N_of_ascii a in
  if (65 <=? n)%N && (n <=? 90)%N then ascii_of_N (n + 32) else a.

(** [s.eq_ignore_ascii_case] compares these. *)
Fixpoint ascii_lowercase (s : string) : string :=
  match s with
  | EmptyString => EmptyString
  | String a s' => String (ascii_lower a) (ascii_lowercase s')
  end.

(** [s.to_lowercase()], exact wherever the result is an ASCII string: the
    capital letters and the Kelvin sign (U+212A, bytes E2 84 AA) are the only
    non-identity characters whose lowercase is ASCII; the other non-ASCII
    characters are left as they are (their lowercase is not ASCII either). *)
Fixpoint to_lowercase (s : string) : string :=
  match s with
  | EmptyString => EmptyString
  | String a s' =>
      match s' with
      | String b (String c s'') =>
          if (N_of_ascii a =? 226)%N && (N_of_ascii b =? 132)%N && (N_of_ascii c =? 170)%N
          then String "k" (to_lowercase s'')
          else String (ascii_lower a) (to_lowercase s')
      | _ => String (ascii_lower a) (to_lowercase s')
      end
  end.

(** [String::from_utf8]: the byte sequences of the Unicode standard. *)
Definition utf8_cont (n : N) : bool := (128 <=? n)%N && (n <=? 191)%N.
Definition in_range (lo n hi : N) : bool := (lo <=? n)%N && (n <=? hi)%N.

Fixpoint utf8_valid (s : string) : bool :=
  match s with
  | EmptyString => true
  | String a s1 =>
      let x := N_of_ascii a in
      if (x <? 128)%N then utf8_valid s1 else
      match s1 with
      | EmptyString => false
      | String b s2 =>
          let y := N_of_ascii b in
          if in_range 194 x 223 && utf8_cont y then utf8_valid s2 else
          match s2 with
          | EmptyString => false
          | String c s3 =>
              let z := N_of_ascii c in
              if ((N.eqb x 224 && in_range 160 y 191)
                  || ((in_range 225 x 236 || in_range 238 x 239) && utf8_cont y)
                  || (N.eqb x 237 && in_range 128 y 159)) && utf8_cont z
              then utf8_valid s3 else
              match s3 with
              | EmptyString => false
              | String d s4 =>
                  if ((N.eqb x 240 && in_range 144 y 191)
                      || (in_range 241 x 243 && utf8_cont y)
                      || (N.eqb x 244 && in_range 128 y 143))
                     && utf8_cont z && utf8_cont (N_of_ascii d)
                  then utf8_valid s4 else false
              end
          end
      end
  end.

Definition from_utf8 (bytes : string) : option string :=
  if utf8_valid bytes then Some bytes else None.

(** Machine widths. *)
Definition u64_max : N := 18446744073709551615.
Definition wrap64 (n : N) : N := N.modulo n 18446744073709551616.

(** [n.to_string()] for an unsigned integer. *)
Definition show_N (n : N) : string := NilZero.string_of_uint (N.to_uint n).

(** [s.parse::<u64>()]: an optional plus sign, one digit or more, no overflow. *)
Definition parse_u64 (s : string) : option N :=
  let digits := match s with String "+" s' => s' | _ => s end in
  match NilZero.uint_of_string digits with
  | Some d => let n := N.of_uint d in if (n <=? u64_max)%N then Some n else None
  | None => None
  end.

(** An injective text for any countable value, for concrete codecs. *)
Definition to_text `{Countable A} (x : A) : string := show_N (Npos (encode x)).
Definition of_text `{Countable A} (s : string) : option A :=
  match NilZero.uint_of_string s with
  | Some d => match N.of_uint d with Npos p => decode p | N0 => None end
  | None => None
  end.

(** [&s[..n]] and [&s[n..]] on bytes, clipped to the length. *)
Fixpoint str_take (n : nat) (s : string) : string :=
  match n, s with
  | S n', String a s' => String a (str_take n' s')
  | _, _ => EmptyString
  end.
Fixpoint str_drop (n : nat) (s : string) : string :=
  match n, s with
  | S n', String a s' => str_drop n' s'
  | _, _ => s
  end.

(** [parts.concat()] *)
Definition concat_str (l : list string) : string := fold_right String.append "" l.

(** [bool::to_string] *)
Definition show_bool (b : bool) : string := if b then "true" else "false".

(** [s.split(c).last().unwrap()]: there is always a last part. *)
Definition last_segment (c : ascii) (s : string) : string := List.last (split_char c s) "".

(** The first part of [s.split(c)], the code's [split(..).collect::<Vec<_>>()[0]]. *)
Definition first_segment (c : ascii) (s : string) : string := hd "" (split_char c s).

(** [s.split_inclusive(p)] for a non-empty pattern: the pieces up to and with
    each leftmost match; no piece after the last match when nothing follows.
    [k] is what is left of the match being crossed. *)
Definition cons_head (a : ascii) (l : list string) : list string :=
  match l with [] => [String a ""] | x :: xs => String a x :: xs end.
Fixpoint split_inclusive_from (p : string) (k : nat) (s : string) : list string :=
  match s with
  | EmptyString => []
  | String a s' =>
      match (if Nat.eqb k 0 then if starts_with p s then String.length p else 0 else k)%nat with
      | 0 => cons_head a (split_inclusive_from p 0 s')
      | 1 => String a "" :: split_inclusive_from p 0 s'
      | S k' => cons_head a (split_inclusive_from p k' s')
      end
  end.
Definition split_inclusive (p s : string) : list string := split_inclusive_from p 0 s.

(** [s.trim()]: the UTF-8 encodings of the characters with the property
    White_Space, removed at both ends; each round removes a byte or more. *)
Definition utf8_bytes (l : list nat) : string := String.string_of_list_ascii (ascii_of_nat <$> l).
Definition white_space : list string :=
  utf8_bytes <$> ([[9]; [10]; [11]; [12]; [13]; [32]; [194; 133]; [194; 160]; [225; 154; 128];
    [226; 128; 168]; [226; 128; 169]; [226; 128; 175]; [226; 129; 159]; [227; 128; 128]] ++
    ((λ n, [226; 128; n]) <$> seq 128 11)).
Fixpoint strip_any (ps : list string) (s : string) : option string :=
  match ps with
  | [] => None
  | p :: ps' => match strip_prefix p s with Some s' => Some s' | None => strip_any ps' s end
  end.
Fixpoint trim_any (fuel : nat) (ps : list string) (s : string) : string :=
  match fuel with
  | O => s
  | S n => match strip_any ps s with Some s' => trim_any n ps s' | None => s end
  end.
Definition str_rev (s : string) : string := String.string_of_list_ascii (rev (String.list_ascii_of_string s)).
Definition trim_start (s : string) : string := trim_any (String.length s) white_space s.
Definition trim_end (s : string) : string :=
  str_rev (trim_any (String.length s) (str_rev <$> white_space) (str_rev s)).
Definition trim (s : string) : string := trim_end (trim_start s).

(** The components of a path, and [path::absolute] (Unix) in the working
    directory [cwd], [None] standing for an unavailable one. *)
Definition path_components (p : string) : list string :=
  List.filter (λ x, negb (String.eqb x "") && negb (String.eqb x ".")) (split_char "/" p).
Definition path_absolute (cwd : option string) (p : string) : option string :=
  if String.eqb p "" then None
  else
    base ← (if starts_with "/" p
            then Some (if starts_with "//" p && negb (starts_with "///" p) then "//" else "/")
            else cwd);
    let normalized := fold_left path_join (path_components p) base in
    Some (match rsplit_once "/" p with
          | Some (_, EmptyString) => path_join normalized ""
          | _ => normalized
          end).

#[local] Arguments String.append : simpl nomatch.

(** ** Concatenation *)

Lemma app_cons_str a (s t : string) : String a s +:+ t = String a (s +:+ t).
Proof. reflexivity. Qed.

Lemma app_nil_r_str (s : string) : s +:+ "" = s.
Proof. induction s as [|a s IH]; simpl; [done|by rewrite IH]. Qed.

Lemma app_assoc_str (a b c : string) : (a +:+ b) +:+ c = a +:+ (b +:+ c).
Proof. induction a as [|x a IH]; simpl; [done|by rewrite IH]. Qed.

Lemma length_app_str (a b : string) :
  String.length (a +:+ b) = (String.length a + String.length b)%nat.
Proof. induction a as [|x a IH]; simpl; [done|by rewrite IH]. Qed.

Lemma str_take_drop n s : str_take n s +:+ str_drop n s = s.
Proof. revert n. induction s as [|a s IH]; intros [|n]; simpl; [done..|]. by rewrite IH. Qed.

Lemma concat_str_app l l' : concat_str (l ++ l') = concat_str l +:+ concat_str l'.
Proof. induction l as [|s l IH]; [done|]. simpl. by rewrite IH, app_assoc_str. Qed.
Lemma str_take_all s : str_take (String.length s) s = s.
Proof. induction s as [|a s IH]; [done|]. simpl. by rewrite IH. Qed.
Lemma length_nil_str s : String.length s = 0 → s = "".
Proof. by destruct s. Qed.
Lemma length_str_take n s : String.length (str_take n s) = Nat.min n (String.length s).
Proof. revert n. induction s as [|a s IH]; intros [|n]; simpl; [done..|]. by rewrite IH. Qed.

Lemma str_take_min n s : str_take (Nat.min n (String.length s)) s = str_take n s.
Proof. revert s. induction n as [|n IH]; intros [|a s]; [done..|]. simpl. by rewrite IH. Qed.
Lemma length_str_drop n s : String.length (str_drop n s) = String.length s - n.
Proof. revert n. induction s as [|a s IH]; intros [|n]; simpl; [done..|]. by rewrite IH. Qed.

Lemma str_drop_app p s : str_drop (String.length p) (p +:+ s) = s.
Proof. induction p as [|a p IH]; simpl; [done|]. apply IH. Qed.

Lemma str_drop_min n s : str_drop (Nat.min n (String.length s)) s = str_drop n s.
Proof. revert n. induction s as [|a s IH]; intros [|n]; simpl; [done..|]. apply IH. Qed.

Lemma str_drop_drop n m s : str_drop n (str_drop m s) = str_drop (m + n) s.
Proof.
  revert m. induction s as [|a s IH]; intros [|m]; simpl; [by destruct n..|done|]. apply IH.
Qed.

Lemma str_take_split n s : s = str_take n s +:+ str_drop (String.length (str_take n s)) s.
Proof. rewrite length_str_take, str_drop_min. by rewrite str_take_drop. Qed.

Lemma ascii_lower_idem a : ascii_lower (ascii_lower a) = ascii_lower a.
Proof. destruct a as [[] [] [] [] [] [] [] []]; reflexivity. Qed.

Lemma ascii_lowercase_idem s : ascii_lowercase (ascii_lowercase s) = ascii_lowercase s.
Proof. induction s as [|a s IH]; simpl; [done|]. by rewrite ascii_lower_idem, IH. Qed.

Lemma has_char_app c a b : has_char c (a +:+ b) = has_char c a || has_char c b.
Proof. induction a as [|x a IH]; simpl; [done|by rewrite IH, orb_assoc]. Qed.

(** ** Splitting *)

Lemma split_char_nonempty c s : split_char c s ≠ [].
Proof. destruct s; simpl; [done|]. case_bool_decide; [done|]. by case_match. Qed.

Lemma split_char_no_sep c s : has_char c s = false → split_char c s = [s].
Proof.
  induction s as [|a s IH]; simpl; [done|].
  intros [Ha Hs]%orb_false_iff. rewrite Ha, IH by done. done.
Qed.

Lemma split_char_app c p s :
  has_char c p = false → split_char c (p +:+ String c s) = p :: split_char c s.
Proof.
  induction p as [|a p IH]; simpl; intros H.
  - by rewrite bool_decide_true.
  - apply orb_false_iff in H as [Ha Hp]. by rewrite Ha, IH.
Qed.

Lemma split_char_parts c s : Forall (λ p, has_char c p = false) (split_char c s).
Proof.
  induction s as [|a s IH]; simpl; [by repeat constructor|].
  case_bool_decide as E; [by constructor|].
  destruct (split_char c s) as [|p ps]; simpl.
  - constructor; [|constructor]. simpl. by rewrite bool_decide_false.
  - inversion IH; subst. constructor; [|done]. simpl. by rewrite bool_decide_false.
Qed.

Lemma join_cons sep p ps :
  ps ≠ [] → join sep (p :: ps) = p +:+ sep +:+ join sep ps.
Proof. destruct ps; [done|]. intros _. reflexivity. Qed.

Lemma join_app sep l1 l2 :
  l1 ≠ [] → l2 ≠ [] → join sep (l1 ++ l2) = join sep l1 +:+ sep +:+ join sep l2.
Proof.
  intros H1 H2. induction l1 as [|p [|q ps] IH]; [done| |].
  - simpl app. rewrite join_cons by done. done.
  - change ((p :: q :: ps) ++ l2) with (p :: (q :: ps) ++ l2).
    rewrite !join_cons by done. rewrite IH by done. by rewrite !app_assoc_str.
Qed.

Lemma join_split c s : join (String c "") (split_char c s) = s.
Proof.
  induction s as [|a s IH]; [done|]. simpl.
  case_bool_decide as E.
  - subst a. rewrite join_cons by apply split_char_nonempty. simpl. by rewrite IH.
  - pose proof (split_char_nonempty c s) as Hne.
    destruct (split_char c s) as [|p ps] eqn:Es; [done|].
    destruct ps as [|q qs]; [by unfold join in *; simpl in *; subst|].
    rewrite join_cons in IH |- * by done. by rewrite app_cons_str, IH.
Qed.

Lemma split_join c ps :
  ps ≠ [] → Forall (λ p, has_char c p = false) ps →
  split_char c (join (String c "") ps) = ps.
Proof.
  induction ps as [|p ps IH]; [done|]. intros _ [Hp Hps]%Forall_cons.
  destruct ps as [|q qs]; [by apply split_char_no_sep|].
  rewrite join_cons by done.
  change (String c "" +:+ join (String c "") (q :: qs)) with (String c (join (String c "") (q :: qs))).
  rewrite split_char_app by done. rewrite IH by done. done.
Qed.

Lemma split_char_first c p s :
  has_char c p = false → first_segment c (p +:+ String c s) = p.
Proof. intros H. unfold first_segment. by rewrite split_char_app. Qed.

Lemma first_segment_no_sep c s : has_char c s = false → first_segment c s = s.
Proof. intros H. unfold first_segment. by rewrite split_char_no_sep. Qed.

Lemma first_segment_clean c s : has_char c (first_segment c s) = false.
Proof.
  unfold first_segment. pose proof (split_char_parts c s) as H.
  destruct (split_char c s); simpl; [done|]. by inversion H.
Qed.

Lemma last_segment_app c p s :
  has_char c s = false → last_segment c (p +:+ String c s) = s.
Proof.
  intros Hs. unfold last_segment. induction p as [|a p IH]; simpl.
  - rewrite bool_decide_true by done. by rewrite (split_char_no_sep c s).
  - pose proof (split_char_nonempty c (p +:+ String c s)) as Hne.
    assert (∃ q qs, split_char c (p +:+ String c s) = q :: qs ∧ qs ≠ []) as (q & qs & Eq & Hqs).
    { clear IH Hne. induction p as [|b p IHp]; simpl.
      - rewrite bool_decide_true by done. eexists _, _. split; [done|apply split_char_nonempty].
      - destruct IHp as (q & qs & -> & Hqs). case_bool_decide; eauto. }
    rewrite Eq in *. destruct qs as [|q' qs]; [done|].
    case_bool_decide; apply IH.
Qed.

Lemma split_once_app c p s :
  has_char c p = false → split_once c (p +:+ String c s) = Some (p, s).
Proof.
  induction p as [|a p IH]; simpl; intros H.
  - by rewrite bool_decide_true.
  - apply orb_false_iff in H as [Ha Hp]. by rewrite Ha, IH.
Qed.

Lemma split_once_Some c s l r :
  split_once c s = Some (l, r) → s = l +:+ String c r ∧ has_char c l = false.
Proof.
  revert l. induction s as [|a s IH]; simpl; [done|]. intros l.
  case_bool_decide as E; [intros [= <- <-]; by subst|].
  destruct (split_once c s) as [[l' r']|]; [|done].
  intros [= <- <-]. destruct (IH l' eq_refl) as [-> Hl].
  split; [done|]. simpl. by rewrite bool_decide_false.
Qed.

Lemma split_once_None c s : split_once c s = None ↔ has_char c s = false.
Proof.
  induction s as [|a s IH]; simpl; [done|].
  case_bool_decide; simpl; [done|].
  rewrite <- IH. destruct (split_once c s) as [[]|]; done.
Qed.

Lemma path_join_dot base p : ∃ pre, ∀ x, path_join base (p +:+ String "." x) = pre +:+ x.
Proof.
  assert (Hs : ∀ x y, starts_with "/" (p +:+ String "." x) = starts_with "/" (p +:+ String "." y))
    by (intros x y; destruct p as [|a p]; [done|]; unfold starts_with; simpl;
        case_match; [|done]; by destruct p).
  assert (Happ : ∀ x, p +:+ String "." x = (p +:+ ".") +:+ x) by (intros x; by rewrite app_assoc_str).
  unfold path_join. setoid_rewrite (Hs _ ""). setoid_rewrite Happ.
  destruct (starts_with _ _); [by exists (p +:+ ".")|].
  destruct (String.eqb base ""); [by exists (p +:+ ".")|].
  destruct (rsplit_once "/" base) as [[l [|a r]]|];
    [exists (base +:+ (p +:+ "."))|exists (base +:+ "/" +:+ (p +:+ "."))..];
    intros x; by rewrite !app_assoc_str.
Qed.


(** ** Prefixes *)

Lemma strip_prefix_app p s : strip_prefix p (p +:+ s) = Some s.
Proof. induction p as [|a p IH]; simpl; [done|]. by rewrite bool_decide_true. Qed.

Lemma strip_prefix_Some p s r : strip_prefix p s = Some r → s = p +:+ r.
Proof.
  revert s. induction p as [|a p IH]; intros s; simpl; [by intros [= ->]|].
  destruct s as [|b s]; [done|]. case_bool_decide; [|done]. subst.
  intros H. f_equal/=. by apply IH.
Qed.

Lemma starts_with_strip p s :
  starts_with p s = match strip_prefix p s with Some _ => true | None => false end.
Proof.
  unfold starts_with. revert s. induction p as [|a p IH]; intros [|b s]; simpl; try done.
  destruct (ascii_dec a b) as [->|Hne].
  - rewrite bool_decide_true by done. apply IH.
  - rewrite (bool_decide_false (a = b)) by done. done.
Qed.

Lemma starts_with_app p s : starts_with p (p +:+ s) = true.
Proof. rewrite starts_with_strip, strip_prefix_app. done. Qed.

Lemma starts_with_true p s : starts_with p s = true → ∃ r, s = p +:+ r.
Proof.
  rewrite starts_with_strip. destruct (strip_prefix p s) as [r|] eqn:Hr; [|done].
  intros _. exists r. by apply strip_prefix_Some.
Qed.

Lemma trim_start_matches_once p s :
  p ≠ "" → starts_with p s = false → trim_start_matches p (p +:+ s) = s.
Proof.
  intros Hp Hs. unfold trim_start_matches.
  assert (strip_prefix p s = None) as HN.
  { rewrite starts_with_strip in Hs. by destruct (strip_prefix p s). }
  rewrite length_app_str.
  assert (0 < String.length p)%nat by (destruct p; simpl; [done|lia]).
  destruct (String.length p + String.length s)%nat as [|n] eqn:En; [lia|]. simpl.
  rewrite strip_prefix_app. destruct n; simpl; [done|]. by rewrite HN.
Qed.

(** ** Inclusive splitting and trimming *)

(** [b] ends with the pattern, and holds it nowhere before. *)
Fixpoint ends_at (p b : string) : bool :=
  String.eqb b p ||
  match b with EmptyString => false | String _ b' => negb (starts_with p b) && ends_at p b' end.

Lemma ends_at_length p b : ends_at p b = true → (String.length p ≤ String.length b)%nat.
Proof.
  induction b as [|a b IH]; intros Hb; unfold ends_at in Hb; fold ends_at in Hb;
    apply orb_true_iff in Hb as [<-%String.eqb_eq|Hb]; [done|done|done|].
  apply andb_true_iff in Hb as [_ Hb%IH]. simpl. lia.
Qed.

Lemma starts_with_longer p s r :
  (String.length p ≤ String.length s)%nat → starts_with p (s +:+ r) = starts_with p s.
Proof.
  revert s. unfold starts_with. induction p as [|a p IH]; intros [|b s] Hl; simpl in *.
  - by destruct r.
  - done.
  - lia.
  - destruct (ascii_dec a b); [|done]. apply IH. lia.
Qed.

Lemma split_inclusive_skip p q r :
  q ≠ "" → split_inclusive_from p (String.length q) (q +:+ r) = q :: split_inclusive_from p 0 r.
Proof.
  induction q as [|a q IH]; [done|]. intros _. destruct q as [|b q]; [done|].
  transitivity (cons_head a (split_inclusive_from p (String.length (String b q)) (String b q +:+ r)));
    [done|]. by rewrite (IH ltac:(done)).
Qed.

Lemma split_inclusive_start p r :
  p ≠ "" → split_inclusive_from p 0 (p +:+ r) = split_inclusive_from p (String.length p) (p +:+ r).
Proof.
  pose proof (starts_with_app p r) as Hs. destruct p as [|a p]; [done|]. intros _.
  rewrite app_cons_str in *. cbn [split_inclusive_from Nat.eqb String.length]. by rewrite Hs.
Qed.

Lemma split_inclusive_ends_at p b r :
  p ≠ "" → ends_at p b = true →
  split_inclusive p (b +:+ r) = b :: split_inclusive p r.
Proof.
  intros Hp. unfold split_inclusive. induction b as [|a b IH]; intros Hb.
  { apply orb_true_iff in Hb as [E%String.eqb_eq|]; [by subst|done]. }
  destruct (String.eqb_spec (String a b) p) as [Heq|Hne].
  - rewrite Heq. rewrite <- (split_inclusive_skip p p r) by done. by apply split_inclusive_start.
  - pose proof (ends_at_length _ _ Hb) as Hlen. unfold ends_at in Hb. fold ends_at in Hb.
    apply String.eqb_neq in Hne. rewrite Hne in Hb.
    apply andb_true_iff in Hb as [Hs%negb_true_iff Hb].
    rewrite app_cons_str. cbn [split_inclusive_from Nat.eqb].
    rewrite <- app_cons_str, starts_with_longer, Hs by done.
    by rewrite (IH Hb).
Qed.


Lemma trim_newline b : trim (utf8_bytes [10] +:+ b) = trim b.
Proof. reflexivity. Qed.

(** ** Decimal numbers *)

Lemma uint_of_show n : NilZero.uint_of_string (show_N n) = Some (N.to_uint n).
Proof.
  unfold show_N. apply NilZero.usu. intros H.
  destruct n as [|p]; [done|].
  pose proof (DecimalN.Unsigned.of_to (N.pos p)) as E. by rewrite H in E.
Qed.

Lemma of_to_text `{Countable A} (x : A) : of_text (to_text x) = Some x.
Proof.
  unfold of_text, to_text. rewrite uint_of_show, DecimalN.Unsigned.of_to. apply decode_encode.
Qed.

Lemma show_N_no_plus n s : show_N n = String "+" s → False.
Proof.
  intros H. pose proof (uint_of_show n) as U. rewrite H in U. simpl in U.
  destruct (NilEmpty.uint_of_string s); discriminate U.
Qed.

Lemma parse_show n : (n ≤ u64_max)%N → parse_u64 (show_N n) = Some n.
Proof.
  intros Hn. unfold parse_u64.
  assert (match show_N n with String "+" s' => s' | _ => show_N n end = show_N n) as ->.
  { destruct (show_N n) as [|a s] eqn:E; [done|].
    destruct (ascii_dec a "+") as [->|Hne]; [by apply show_N_no_plus in E|].
    destruct a as [[] [] [] [] [] [] [] []]; done. }
  rewrite uint_of_show, DecimalN.Unsigned.of_to.
  by rewrite (proj2 (N.leb_le _ _)).
Qed.

(** Digits only: no character of a printed number is below ['0'] or above ['9']. *)
Lemma show_N_no_char c n :
  (N_of_ascii c <? 48)%N || (57 <? N_of_ascii c)%N = true → has_char c (show_N n) = false.
Proof.
  intros Hc.
  assert (∀ d, has_char c (NilEmpty.string_of_uint d) = false) as H.
  { induction d; simpl; [done|..]; (rewrite IHd, orb_false_r;
      apply bool_decide_false; intros <-; vm_compute in Hc; discriminate). }
  unfold show_N. destruct (N.to_uint n) eqn:E; [|apply (H (_ _))..].
  simpl. rewrite orb_false_r. apply bool_decide_false. intros <-. by vm_compute in Hc.
Qed.

#[export] Hint Resolve split_char_nonempty split_char_parts first_segment_clean
  starts_with_app : proksi.

(** ** Path components *)

Lemma rsplit_once_Some c s l r : rsplit_once c s = Some (l, r) → s = l +:+ String c r.
Proof.
  revert l r. induction s as [|a s IH]; intros l r; simpl; [done|].
  destruct (rsplit_once c s) as [[l' r']|].
  - intros [= <- <-]. simpl. f_equal. by apply IH.
  - case_bool_decide as E; [|done]. intros [= <- <-]. by rewrite E.
Qed.

(** The last component of a joined path is the name joined to it. *)
Lemma last_segment_join base f : has_char "/" f = false → last_segment "/" (path_join base f) = f.
Proof.
  intros Hf. unfold path_join.
  assert (Hs : last_segment "/" f = f) by (unfold last_segment; by rewrite split_char_no_sep).
  destruct (starts_with "/" f); [done|]. destruct (String.eqb base ""); [done|].
  destruct (rsplit_once "/" base) as [[l [|a r]]|] eqn:E; [|by apply last_segment_app..].
  apply rsplit_once_Some in E as ->. rewrite app_assoc_str. by apply last_segment_app.
Qed.

Lemma app_inj_prefix p x y : p +:+ x = p +:+ y → x = y.
Proof. induction p as [|a p IH]; simpl; [done|]. intros [= ?]; auto. Qed.

(** Of two texts with a common extension, one begins with the other. *)
Lemma app_eq_prefix a b x y : a +:+ x = b +:+ y → starts_with a b = true ∨ starts_with b a = true.
Proof.
  rewrite !starts_with_strip. revert b. induction a as [|c a IH]; intros b E; [by left|].
  destruct b as [|d b]; [by right|]. simpl in E. injection E as -> E. simpl. rewrite !bool_decide_true by done.
  by apply IH.
Qed.

Lemma app_inj_suffix a b s : a +:+ s = b +:+ s → a = b.
Proof.
  revert b. induction a as [|x a IH]; intros [|y b]; simpl; intros E; [done| | |].
  - apply (f_equal String.length) in E. simpl in E. rewrite length_app_str in E. lia.
  - apply (f_equal String.length) in E. simpl in E. rewrite length_app_str in E. lia.
  - injection E as -> E. f_equal. by apply IH.
Qed.
