(* ===== verification/Config.v ===== *)
(** The configuration of crates/proksi/src/config: the data model and its
    defaults (mod.rs), the custom deserialisers, the validation (validate.rs)
    and the layering of the sources done by [load_from_path].
    [figment] and [clap] are parameters: [extract] merges a list of sources,
    the parsed command line is an argument. *)
From S2P Require Import Prelude Strs.
#[local] Open Scope string_scope.
#[local] Open Scope list_scope.

(** ** JSON values ([serde_json::Value]) *)

Inductive Value : Type :=
| VNull
| VBool (b : bool)
| VNumber (repr : string)
| VString (s : string)
| VArray (items : list Value)
| VObject (fields : list (string * Value)).

Definition as_str (v : Value) : option string :=
  match v with VString s => Some s | _ => None end.
Definition as_array (v : Value) : option (list Value) :=
  match v with VArray l => Some l | _ => None end.
Definition as_object (v : Value) : option (list (string * Value)) :=
  match v with VObject o => Some o | _ => None end.
(** [Map::get] *)
Definition obj_get (key : string) (o : list (string * Value)) : option Value :=
  case_str o key.

(** ** Enumerations *)

Inductive StoreType := StoreType_Memory | StoreType_Redis.
Inductive DockerServiceMode := DockerServiceMode_Swarm | DockerServiceMode_Container.
Inductive ProtoVersion := V1_1 | V1_2 | V1_3.
Inductive RouteCacheType := RouteCacheType_Disk | RouteCacheType_MemCache.
Inductive LogLevel :=
  LogLevel_Debug | LogLevel_Info | LogLevel_Warn | LogLevel_Error | LogLevel_Trace.
Inductive LogRotation :=
  LogRotation_Never | LogRotation_Daily | LogRotation_Hourly | LogRotation_Minutely.
Inductive LogFormat := LogFormat_Json | LogFormat_Pretty.

#[export] Instance StoreType_eq_dec : EqDecision StoreType.
Proof. solve_decision. Defined.
#[export] Instance RouteCacheType_eq_dec : EqDecision RouteCacheType.
Proof. solve_decision. Defined.
#[export] Instance LogRotation_eq_dec : EqDecision LogRotation.
Proof. solve_decision. Defined.
#[export] Instance LogFormat_eq_dec : EqDecision LogFormat.
Proof. solve_decision. Defined.

(** [tracing]'s [LevelFilter] constants. *)
Inductive LevelFilter := DEBUG | INFO | WARN | ERROR | TRACE.

Definition LevelFilter_from (val : LogLevel) : LevelFilter :=
  match val with
  | LogLevel_Debug => DEBUG
  | LogLevel_Info => INFO
  | LogLevel_Warn => WARN
  | LogLevel_Error => ERROR
  | LogLevel_Trace => TRACE
  end.

(** OpenSSL's [SslVersion] constants that exist. *)
Inductive SslVersion := SSL3 | TLS1 | TLS1_1 | TLS1_2 | TLS1_3.

Definition ProtoVersion_from (v : SslVersion) : ProtoVersion :=
  match v with
  | TLS1_1 => V1_1
  | TLS1_2 => V1_2
  | _ => V1_3
  end.

(** ** Structures *)

Record StoreConfig := mkStoreConfig {
  store_type : StoreType;
  redis_url : option string }.

Definition StoreConfig_default : StoreConfig := mkStoreConfig StoreType_Memory None.

Definition bool_true : bool := true.
Definition default_proto_version : ProtoVersion := V1_3.
Definition default_proto_version_min : ProtoVersion := V1_2.
Definition default_stale_secs : N := 60.
Definition default_cache_expire_secs : N := 3600.
Definition default_cache_type : RouteCacheType := RouteCacheType_MemCache.
Definition default_cache_path : string := "/tmp".

Record Docker := mkDocker {
  docker_interval_secs : option N;
  docker_endpoint : option string;
  docker_enabled : option bool;
  docker_mode : DockerServiceMode }.

Definition Docker_default : Docker :=
  mkDocker (Some 15%N) (Some "unix:///var/run/docker.sock") (Some false)
    DockerServiceMode_Container.

Record LetsEncrypt := mkLetsEncrypt {
  le_email : string;
  le_enabled : option bool;
  le_staging : option bool;
  le_renew_interval_secs : option N }.

Definition LetsEncrypt_default : LetsEncrypt :=
  mkLetsEncrypt "contact@example.com" (Some false) (Some true) (Some 84600%N).

Record Path := mkPath { paths_lets_encrypt : string }.

Definition Path_default : Path := mkPath "/etc/proksi/letsencrypt".

Record RouteHeaderAdd := mkRouteHeaderAdd { rha_name : string; rha_value : string }.
Record RouteHeaderRemove := mkRouteHeaderRemove { rhr_name : string }.
Record RouteHeader := mkRouteHeader {
  rh_add : option (list RouteHeaderAdd);
  rh_remove : option (list RouteHeaderRemove) }.

Record RouteUpstream := mkRouteUpstream {
  up_ip : string;
  up_port : N;                        (* u16 *)
  up_network : option string;
  up_weight : option Z;               (* i8 *)
  up_sni : option string;
  up_headers : option RouteHeader }.

Definition RouteUpstream_default : RouteUpstream :=
  mkRouteUpstream "127.0.0.1" 80 None None None None.

Record RouteSslCertificate := mkRouteSslCertificate { self_signed_on_failure : option bool }.
Record RoutePathMatcher := mkRoutePathMatcher { patterns : list string }.
Record RouteMatcher := mkRouteMatcher { matcher_path : option RoutePathMatcher }.
Record RoutePlugin := mkRoutePlugin {
  plugin_name : string;
  plugin_config : option (gmap string Value) }.
Record RouteSslPath := mkRouteSslPath { ssl_key : string; ssl_pem : string }.
Record RouteSsl := mkRouteSsl {
  ssl_path : option RouteSslPath;
  ssl_min_proto : ProtoVersion;
  ssl_max_proto : ProtoVersion;
  ssl_self_signed_fallback : bool }.

Record RouteCache := mkRouteCache {
  rc_enabled : option bool;
  rc_cache_type : RouteCacheType;
  rc_expires_in_secs : N;             (* u64 *)
  rc_stale_if_error_secs : N;         (* u32 *)
  rc_stale_while_revalidate_secs : N; (* u32 *)
  rc_path : string }.

Record Route := mkRoute {
  route_host : string;
  route_cache : option RouteCache;
  route_plugins : option (list RoutePlugin);
  route_ssl_certificate : option RouteSslCertificate;
  route_ssl : option RouteSsl;
  route_headers : option RouteHeader;
  route_upstreams : list RouteUpstream;
  route_match_with : option RouteMatcher }.

Record Logging := mkLogging {
  log_enabled : bool;
  log_level : LogLevel;
  log_access_logs_enabled : bool;
  log_error_logs_enabled : bool;
  log_format : LogFormat;
  log_path : option string;
  log_rotation : LogRotation }.

Record AutoReload := mkAutoReload {
  ar_enabled : option bool;
  ar_interval_secs : option N;
  ar_paths : list string }.

Definition AutoReload_default : AutoReload := mkAutoReload (Some false) (Some 30%N) [].

Record ServerCfg := mkServerCfg {
  https_address : option string;
  http_address : option string }.

Record Config := mkConfig {
  service_name : string;
  cfg_store : StoreConfig;
  cfg_server : ServerCfg;
  cfg_daemon : bool;
  cfg_upgrade : bool;
  worker_threads : option N;          (* usize *)
  config_path : option string;
  cfg_logging : Logging;
  cfg_auto_reload : AutoReload;
  cfg_docker : Docker;
  cfg_lets_encrypt : LetsEncrypt;
  cfg_paths : Path;
  cfg_routes : list Route }.

Definition Config_default : Config := {|
  config_path := Some "/etc/proksi/config";
  service_name := "proksi";
  cfg_server := mkServerCfg (Some "0.0.0.0:443") (Some "0.0.0.0:80");
  worker_threads := Some 2%N;
  cfg_upgrade := false;
  cfg_daemon := false;
  cfg_docker := Docker_default;
  cfg_lets_encrypt := LetsEncrypt_default;
  cfg_routes := [];
  cfg_auto_reload := AutoReload_default;
  cfg_store := StoreConfig_default;
  cfg_logging := mkLogging true LogLevel_Info true true LogFormat_Json None LogRotation_Never;
  cfg_paths := Path_default |}.

(** ** Deserialisers

    The argument is the outcome of [String::deserialize(deserializer)]. *)

Definition enum_deser {A} (arms : list (string * A)) (msg : string)
    (input : res string string) : res string A :=
  s ← input; ok_or msg (case_str arms (to_lowercase s)).

Definition log_level_deser : res string string → res string LogLevel :=
  enum_deser [("debug", LogLevel_Debug); ("info", LogLevel_Info); ("warn", LogLevel_Warn);
              ("error", LogLevel_Error); ("trace", LogLevel_Trace)]
    "expected one of DEBUG, INFO, WARN, ERROR, TRACE".

Definition docker_mode_deser : res string string → res string DockerServiceMode :=
  enum_deser [("swarm", DockerServiceMode_Swarm); ("container", DockerServiceMode_Container)]
    "expected one of: Swarm, Container".

Definition log_format_deser : res string string → res string LogFormat :=
  enum_deser [("json", LogFormat_Json); ("pretty", LogFormat_Pretty)]
    "expected one of: json, pretty".

Definition log_rotation_deser : res string string → res string LogRotation :=
  enum_deser [("daily", LogRotation_Daily); ("hourly", LogRotation_Hourly);
              ("minutely", LogRotation_Minutely); ("never", LogRotation_Never)]
    "expected one of: daily, hourly, minutely, never".

Definition proto_version_deser : res string string → res string ProtoVersion :=
  enum_deser [("v1.1", V1_1); ("v1.2", V1_2); ("v1.3", V1_3)]
    "expected one of: v1.1, v1.2, v1.3".

Definition deserialize_cache_type : res string string → res string RouteCacheType :=
  enum_deser [("disk", RouteCacheType_Disk); ("memcache", RouteCacheType_MemCache)]
    "expected one of: disk, memcache".

Definition store_type_deser : res string string → res string StoreType :=
  enum_deser [("memory", StoreType_Memory); ("redis", StoreType_Redis)]
    "expected one of: memory, redis".

(** What [#[derive(Serialize)]] writes for a unit variant: its name. These
    are the strings that [Serialized::defaults] feeds back to the
    deserialisers above. *)
Definition LogLevel_ser (x : LogLevel) : string :=
  match x with LogLevel_Debug => "Debug" | LogLevel_Info => "Info" | LogLevel_Warn => "Warn"
  | LogLevel_Error => "Error" | LogLevel_Trace => "Trace" end.
Definition DockerServiceMode_ser (x : DockerServiceMode) : string :=
  match x with DockerServiceMode_Swarm => "Swarm" | DockerServiceMode_Container => "Container" end.
Definition LogFormat_ser (x : LogFormat) : string :=
  match x with LogFormat_Json => "Json" | LogFormat_Pretty => "Pretty" end.
Definition LogRotation_ser (x : LogRotation) : string :=
  match x with LogRotation_Never => "Never" | LogRotation_Daily => "Daily"
  | LogRotation_Hourly => "Hourly" | LogRotation_Minutely => "Minutely" end.
Definition ProtoVersion_ser (x : ProtoVersion) : string :=
  match x with V1_1 => "V1_1" | V1_2 => "V1_2" | V1_3 => "V1_3" end.
Definition RouteCacheType_ser (x : RouteCacheType) : string :=
  match x with RouteCacheType_Disk => "Disk" | RouteCacheType_MemCache => "MemCache" end.
Definition StoreType_ser (x : StoreType) : string :=
  match x with StoreType_Memory => "Memory" | StoreType_Redis => "Redis" end.

(** ** Validation (validate.rs) *)

(** The inner loop, from upstream index [j]. *)
Fixpoint check_upstreams (i j : nat) (us : list RouteUpstream) : res string unit :=
  match us with
  | [] => Ok tt
  | u :: us' =>
      if String.eqb (up_ip u) "" then
        Err ("routes" +:+ show_N (N.of_nat i) +:+ ".upstreams" +:+ show_N (N.of_nat j) +:+ ".id cannot be empty")
      else if (up_port u =? 0)%N then
        Err ("routes" +:+ show_N (N.of_nat i) +:+ ".upstreams" +:+ show_N (N.of_nat j) +:+ ".port must be greater than 0")
      else check_upstreams i (S j) us'
  end.

(** The outer loop, from route index [i]. *)
Fixpoint check_routes (i : nat) (rs : list Route) : res string unit :=
  match rs with
  | [] => Ok tt
  | r :: rs' => _ ← check_upstreams i 0 (route_upstreams r); check_routes (S i) rs'
  end.

Definition check_config (config : Config) : res string unit :=
  if bool_decide (worker_threads config = Some 0%N) then
    Err "Worker threads must be greater than 0"
  else
    interval ← unwrap (docker_interval_secs (cfg_docker config));
    if (interval =? 0)%N then Err "docker.interval_secs must be greater than 0"
    else if default false (le_enabled (cfg_lets_encrypt config))
            && (contains "@example" (le_email (cfg_lets_encrypt config))
                || String.eqb (le_email (cfg_lets_encrypt config)) "") then
      Err "lets_encrypt.email cannot be empty or an email from @example.com (the default value)"
    else if String.eqb (paths_lets_encrypt (cfg_paths config)) "" then
      Err "paths.lets_encrypt cannot be empty"
    else check_routes 0 (cfg_routes config).

(** ** Loading *)

(** What is merged into a [Figment], in order. *)
Inductive FigmentSource :=
| SerializedDefaults (c : Config)
| YamlFile (path : string)
| HclFile (path : string)
| EnvPrefixed (prefix split : string).

(** [impl Provider for Config]: [data] ignores [self]. *)
Definition Config_data (self : Config) : FigmentSource := SerializedDefaults Config_default.

Definition create_minimal_default_config : Config :=
  let config := Config_default in
  {| config_path := config_path config;
     service_name := service_name config;
     cfg_server := cfg_server config;
     worker_threads := worker_threads config;
     cfg_upgrade := cfg_upgrade config;
     cfg_daemon := cfg_daemon config;
     cfg_docker := cfg_docker config;
     cfg_lets_encrypt :=
       mkLetsEncrypt (le_email (cfg_lets_encrypt config)) (Some false)
         (le_staging (cfg_lets_encrypt config)) (le_renew_interval_secs (cfg_lets_encrypt config));
     cfg_routes := cfg_routes config;
     cfg_auto_reload := cfg_auto_reload config;
     cfg_store := cfg_store config;
     cfg_logging := cfg_logging config;
     cfg_paths := cfg_paths config |}.

Section load.
(** The file system as [Path::is_file] and [Path::exists] see it, and
    [Figment::extract] on a list of merged sources. *)
Context (is_file exists_ : string → bool).
Context (extract : list FigmentSource → res string Config).

Definition directory_sources (path : string) : list FigmentSource :=
  [YamlFile (path +:+ "/proksi.yml"); YamlFile (path +:+ "/proksi.yaml");
   HclFile (path +:+ "/proksi.hcl")].

(** The sources that [load_from_path] merges before the environment. *)
Definition figment_sources (path : string) (parsed_commands : Config)
    (use_minimal_default : bool) : list FigmentSource :=
  let figment := [Config_data Config_default; SerializedDefaults parsed_commands] in
  if is_file path then
    match path_extension path with
    | Some extension =>
        if String.eqb extension "yml" || String.eqb extension "yaml"
        then figment ++ [YamlFile path]
        else if String.eqb extension "hcl" then figment ++ [HclFile path]
        else figment ++ [YamlFile path; HclFile path]
    | None => figment ++ [YamlFile path; HclFile path]
    end
  else
    let config_files_found :=
      existsb exists_ [path +:+ "/proksi.yml"; path +:+ "/proksi.yaml"; path +:+ "/proksi.hcl"] in
    if config_files_found then figment ++ directory_sources path
    else if use_minimal_default then
      figment ++ [SerializedDefaults create_minimal_default_config]
    else figment ++ directory_sources path.

Definition load_from_path (path : string) (parsed_commands : Config)
    (use_minimal_default : bool) : res string Config :=
  config ← extract (figment_sources path parsed_commands use_minimal_default
                      ++ [EnvPrefixed "PROKSI_" "__"]);
  _ ← check_config config;
  Ok config.

(** [parsed_commands] is the result of clap's [Config::parse()]. *)
Definition load (parsed_commands : Config) (fallback : string) : res string Config :=
  let path_with_fallback :=
    match config_path parsed_commands with Some path => path | None => fallback end in
  let use_minimal_default := bool_decide (config_path parsed_commands = None) in
  load_from_path path_with_fallback parsed_commands use_minimal_default.

(** What the tests load with: the defaults for the command line, and never the
    minimal configuration. *)
Definition load_for_test (fallback : string) : res string Config :=
  let default_config := Config_default in
  load_from_path fallback default_config false.
End load.

(** ** What a valid configuration is *)

Definition valid_upstream (u : RouteUpstream) : Prop := up_ip u ≠ "" ∧ up_port u ≠ 0%N.

Definition valid_config (c : Config) : Prop :=
  worker_threads c ≠ Some 0%N ∧
  (∃ n, docker_interval_secs (cfg_docker c) = Some n ∧ n ≠ 0%N) ∧
  (le_enabled (cfg_lets_encrypt c) = Some true →
     contains "@example" (le_email (cfg_lets_encrypt c)) = false ∧
     le_email (cfg_lets_encrypt c) ≠ "") ∧
  paths_lets_encrypt (cfg_paths c) ≠ "" ∧
  Forall (λ r, Forall valid_upstream (route_upstreams r)) (cfg_routes c).

(** ** Lemmas *)

Lemma check_upstreams_ok i j us : check_upstreams i j us = Ok tt ↔ Forall valid_upstream us.
Proof.
  revert j. induction us as [|u us IH]; intros j; simpl; [done|].
  rewrite Forall_cons. unfold valid_upstream at 1.
  destruct (String.eqb_spec (up_ip u) ""); [naive_solver|].
  destruct (N.eqb_spec (up_port u) 0); [naive_solver|]. rewrite IH. naive_solver.
Qed.

Lemma check_upstreams_no_panic i j us : check_upstreams i j us ≠ Panic.
Proof. revert j. induction us; intros; simpl; [done|]. by repeat case_match. Qed.

Lemma check_routes_ok i rs :
  check_routes i rs = Ok tt ↔ Forall (λ r, Forall valid_upstream (route_upstreams r)) rs.
Proof.
  revert i. induction rs as [|r rs IH]; intros i; simpl; [done|].
  rewrite Forall_cons, <- (check_upstreams_ok i 0), <- (IH (S i)).
  unfold mbind, res_bind. destruct (check_upstreams _ _ _) as [[]| |]; naive_solver.
Qed.

Lemma check_routes_no_panic i rs : check_routes i rs ≠ Panic.
Proof.
  revert i. induction rs as [|r rs IH]; intros i; simpl; [done|].
  unfold mbind, res_bind. pose proof (check_upstreams_no_panic i 0 (route_upstreams r)).
  destruct (check_upstreams _ _ _) as [[]| |]; [apply IH|done|done].
Qed.

(** The tests load what the program loads for the default command line, at the
    path that names; the minimal configuration is never reached from them. *)
Lemma load_for_test_load is_file exists_ extract fallback :
  load is_file exists_ extract Config_default fallback =
  load_for_test is_file exists_ extract (default fallback (config_path Config_default)).
Proof. done. Qed.

Lemma default_false (o : option bool) : default false o = true ↔ o = Some true.
Proof. destruct o as [[]|]; naive_solver. Qed.

Lemma email_guard c :
  default false (le_enabled (cfg_lets_encrypt c))
    && (contains "@example" (le_email (cfg_lets_encrypt c))
        || String.eqb (le_email (cfg_lets_encrypt c)) "") = false ↔
  (le_enabled (cfg_lets_encrypt c) = Some true →
     contains "@example" (le_email (cfg_lets_encrypt c)) = false ∧
     le_email (cfg_lets_encrypt c) ≠ "").
Proof.
  rewrite <- default_false, andb_false_iff, orb_false_iff, String.eqb_neq.
  destruct (default false _); naive_solver.
Qed.

Lemma check_config_Ok c : check_config c = Ok tt ↔ valid_config c.
Proof.
  unfold check_config, valid_config, mbind, res_bind, unwrap.
  rewrite <- (check_routes_ok 0), <- email_guard.
  case_bool_decide as Hw; [naive_solver|].
  destruct (docker_interval_secs _) as [n|]; [|naive_solver].
  destruct (N.eqb_spec n 0); [naive_solver|].
  destruct (_ && _); [naive_solver|].
  destruct (String.eqb_spec (paths_lets_encrypt (cfg_paths c)) ""); naive_solver.
Qed.

Lemma check_config_Panic c :
  check_config c = Panic ↔
  worker_threads c ≠ Some 0%N ∧ docker_interval_secs (cfg_docker c) = None.
Proof.
  unfold check_config, mbind, res_bind, unwrap.
  case_bool_decide as Hw; [naive_solver|].
  destruct (docker_interval_secs _) as [n|]; [|naive_solver].
  pose proof (check_routes_no_panic 0 (cfg_routes c)).
  repeat case_match; naive_solver.
Qed.

Lemma case_str_Some {A} (arms : list (string * A)) k v :
  case_str arms k = Some v → (k, v) ∈ arms.
Proof.
  unfold case_str. induction arms as [|[k' v'] arms IH]; simpl; [done|].
  destruct (String.eqb_spec k' k) as [->|]; simpl.
  - intros [= ->]. by left.
  - intros H. right. by apply IH.
Qed.

Lemma figment_sources_prefix is_file ex path parsed min :
  ∃ files, figment_sources is_file ex path parsed min =
    [SerializedDefaults Config_default; SerializedDefaults parsed] ++ files.
Proof. unfold figment_sources, Config_data. repeat case_match; by eexists. Qed.

Lemma load_from_path_Ok is_file ex extract path parsed min c :
  load_from_path is_file ex extract path parsed min = Ok c →
  extract (figment_sources is_file ex path parsed min ++ [EnvPrefixed "PROKSI_" "__"]) = Ok c ∧
  valid_config c.
Proof.
  unfold load_from_path, mbind, res_bind.
  destruct (extract _) as [c'| |]; [|done..].
  destruct (check_config c') as [[]| |] eqn:E; [|done..].
  intros [= <-]. split; [done|]. by apply check_config_Ok.
Qed.

Lemma load_from_path_minimal is_file ex extract path parsed :
  (∀ before c after,
    extract (before ++ SerializedDefaults c :: after) = extract (SerializedDefaults c :: after)) →
  is_file path = false → (∀ file, ex (path +:+ file) = false) →
  load_from_path is_file ex extract path parsed true =
    (c ← extract [SerializedDefaults create_minimal_default_config; EnvPrefixed "PROKSI_" "__"];
     _ ← check_config c; Ok c).
Proof.
  intros Hl Hf He. unfold load_from_path, figment_sources. rewrite Hf. simpl.
  rewrite !He. simpl.
  pose proof (Hl [Config_data Config_default; SerializedDefaults parsed]) as E. simpl in E.
  by rewrite E.
Qed.

Lemma check_upstreams_Err i k us msg :
  check_upstreams i k us = Err msg →
  ∃ j u, us !! j = Some u ∧ Forall valid_upstream (take j us) ∧
    ((up_ip u = "" ∧
      msg = "routes" +:+ show_N (N.of_nat i) +:+ ".upstreams" +:+ show_N (N.of_nat (k + j))
              +:+ ".id cannot be empty") ∨
     (up_ip u ≠ "" ∧ up_port u = 0%N ∧
      msg = "routes" +:+ show_N (N.of_nat i) +:+ ".upstreams" +:+ show_N (N.of_nat (k + j))
              +:+ ".port must be greater than 0")).
Proof.
  revert k. induction us as [|u us IH]; intros k; [done|]. simpl.
  destruct (String.eqb_spec (up_ip u) "") as [E|E].
  { intros [= <-]. exists 0%nat, u. rewrite Nat.add_0_r. auto. }
  destruct (N.eqb_spec (up_port u) 0) as [F|F].
  { intros [= <-]. exists 0%nat, u. rewrite Nat.add_0_r. auto 7. }
  intros (j & v & Hj & Hb & Hm)%IH. exists (S j), v. rewrite Nat.add_succ_r. simpl.
  split_and!; [done| |done]. by constructor.
Qed.

Lemma check_routes_Err k rs msg :
  check_routes k rs = Err msg →
  ∃ i r, rs !! i = Some r ∧ Forall (λ r, Forall valid_upstream (route_upstreams r)) (take i rs) ∧
    check_upstreams (k + i) 0 (route_upstreams r) = Err msg.
Proof.
  revert k. induction rs as [|r rs IH]; intros k; [done|]. simpl.
  unfold mbind, res_bind. destruct (check_upstreams k 0 _) as [[]| |] eqn:E; [..|done].
  - intros (i & r' & Hi & Hb & Hm)%IH. exists (S i), r'. rewrite Nat.add_succ_r. simpl.
    split_and!; [done| |done]. constructor; [|done]. by apply check_upstreams_ok in E.
  - intros [= ->]. exists 0%nat, r. rewrite Nat.add_0_r. auto.
Qed.

(** Merging a complete serialised configuration hides what was merged before
    it: figment documents that the later provider wins key by key, and a
    serialised [Config] has every key. *)
Definition later_wins (extract : list FigmentSource → res string Config) : Prop :=
  ∀ before c after,
    extract (before ++ SerializedDefaults c :: after) = extract (SerializedDefaults c :: after).

(** A small figment for the examples: the last serialised configuration. *)
Definition last_serialized (sources : list FigmentSource) : res string Config :=
  Ok (fold_left (λ acc s, match s with SerializedDefaults c => c | _ => acc end)
        sources Config_default).

Lemma last_serialized_later_wins : later_wins last_serialized.
Proof.
  intros before c after. unfold last_serialized. by rewrite fold_left_app.
Qed.

(** ** Properties *)

(** Validation accepts exactly the valid configurations (threads and
    Docker interval not zero, no placeholder email while Let's Encrypt is
    enabled, a certificate directory, no upstream without address or port),
    and it panics exactly when the Docker interval is absent. *)
Theorem check_config_spec (c : Config) :
  (check_config c = Ok tt ↔ valid_config c) ∧
  (check_config c = Panic ↔
     worker_threads c ≠ Some 0%N ∧ docker_interval_secs (cfg_docker c) = None).
Proof. split; [apply check_config_Ok|apply check_config_Panic]. Qed.

(** A rejected route list is rejected for its first invalid upstream: the
    error names the indices of a route and of an upstream in it that has no
    address or no port, and everything before it is valid. *)
Theorem check_routes_first_error (rs : list Route) (msg : string) :
  check_routes 0 rs = Err msg →
  ∃ i r j u,
    rs !! i = Some r ∧ route_upstreams r !! j = Some u ∧
    Forall (λ r, Forall valid_upstream (route_upstreams r)) (take i rs) ∧
    Forall valid_upstream (take j (route_upstreams r)) ∧
    ((up_ip u = "" ∧
      msg = "routes" +:+ show_N (N.of_nat i) +:+ ".upstreams" +:+ show_N (N.of_nat j)
              +:+ ".id cannot be empty") ∨
     (up_ip u ≠ "" ∧ up_port u = 0%N ∧
      msg = "routes" +:+ show_N (N.of_nat i) +:+ ".upstreams" +:+ show_N (N.of_nat j)
              +:+ ".port must be greater than 0")).
Proof.
  intros H. destruct (check_routes_Err 0 rs msg H) as (i & r & Hr & Hb & Hu).
  destruct (check_upstreams_Err _ 0 _ _ Hu) as (j & u & Hj & Hbu & Hm).
  exists i, r, j, u. by rewrite !Nat.add_0_l in Hm.
Qed.

(** A configuration that loads is valid, and it is what the sources give
    with the defaults and the command line first and the [PROKSI_]
    environment last. *)
Theorem load_validates is_file exists_ extract (parsed : Config) (fallback : string) (c : Config) :
  load is_file exists_ extract parsed fallback = Ok c →
  valid_config c ∧
  ∃ files, extract ([SerializedDefaults Config_default; SerializedDefaults parsed]
                      ++ files ++ [EnvPrefixed "PROKSI_" "__"]) = Ok c.
Proof.
  intros [He Hv]%load_from_path_Ok. split; [done|].
  edestruct figment_sources_prefix as [files Hf]. rewrite Hf, <- app_assoc in He. eauto.
Qed.

(** Without a configuration path and without a configuration file at the
    fallback path, the minimal default configuration is merged over the
    command line, so every command line loads the same configuration. *)
Theorem load_ignores_command_line is_file exists_ extract (fallback : string) (p1 p2 : Config) :
  later_wins extract →
  config_path p1 = None → config_path p2 = None →
  is_file fallback = false →
  (∀ file, exists_ (fallback +:+ file) = false) →
  load is_file exists_ extract p1 fallback = load is_file exists_ extract p2 fallback.
Proof.
  intros Hl H1 H2 Hf He.
  assert (∀ p, config_path p = None → load is_file exists_ extract p fallback =
    (c ← extract [SerializedDefaults create_minimal_default_config; EnvPrefixed "PROKSI_" "__"];
     _ ← check_config c; Ok c)) as E.
  { intros p Hp. unfold load. rewrite Hp. apply load_from_path_minimal; done. }
  by rewrite !E.
Qed.

(** Every enumeration survives the serialisation of the defaults except
    the TLS versions: [derive(Serialize)] writes ["V1_2"] where the
    deserialiser reads ["v1.2"], so no [ProtoVersion] round-trips. *)
Theorem enum_roundtrips :
  (∀ x, log_level_deser (Ok (LogLevel_ser x)) = Ok x) ∧
  (∀ x, docker_mode_deser (Ok (DockerServiceMode_ser x)) = Ok x) ∧
  (∀ x, log_format_deser (Ok (LogFormat_ser x)) = Ok x) ∧
  (∀ x, log_rotation_deser (Ok (LogRotation_ser x)) = Ok x) ∧
  (∀ x, deserialize_cache_type (Ok (RouteCacheType_ser x)) = Ok x) ∧
  (∀ x, store_type_deser (Ok (StoreType_ser x)) = Ok x) ∧
  (∀ x, proto_version_deser (Ok (ProtoVersion_ser x)) =
        Err "expected one of: v1.1, v1.2, v1.3").
Proof. repeat split; by intros []. Qed.

(** ** Witnesses *)

Definition bad_port_route : Route :=
  mkRoute "a.test" None None None None None
    [RouteUpstream_default; mkRouteUpstream "10.0.0.1" 0 None None None None] None.

Lemma check_routes_first_error_witness : ∃ i r j u,
  [bad_port_route] !! i = Some r ∧ route_upstreams r !! j = Some u ∧ up_port u = 0%N.
Proof.
  destruct (check_routes_first_error [bad_port_route]
              "routes0.upstreams1.port must be greater than 0")
    as (i & r & j & u & Hi & Hj & _ & _ & [[_ Hm]|(_ & Hp & _)]).
  - vm_compute. reflexivity.
  - exfalso. apply (f_equal (contains "port")) in Hm. revert Hm.
    destruct i as [|[|i]]; [|discriminate Hi..]. injection Hi as <-.
    destruct j as [|[|[|j]]]; [..|discriminate Hj]; vm_compute; discriminate.
  - exists i, r, j, u. auto.
Defined.

Definition no_path_command_line (level : LogLevel) : Config :=
  let d := Config_default in
  {| config_path := None;
     service_name := service_name d; cfg_server := cfg_server d;
     worker_threads := worker_threads d; cfg_upgrade := false; cfg_daemon := false;
     cfg_docker := cfg_docker d; cfg_lets_encrypt := cfg_lets_encrypt d; cfg_routes := [];
     cfg_auto_reload := cfg_auto_reload d; cfg_store := cfg_store d;
     cfg_logging := mkLogging true level true true LogFormat_Json None LogRotation_Never;
     cfg_paths := cfg_paths d |}.

Lemma load_validates_witness : valid_config create_minimal_default_config.
Proof.
  apply (load_validates (λ _, false) (λ _, false) last_serialized
           (no_path_command_line LogLevel_Debug) "/etc/proksi/configs").
  vm_compute. reflexivity.
Defined.

Lemma load_ignores_command_line_witness :
  load (λ _, false) (λ _, false) last_serialized (no_path_command_line LogLevel_Debug) "/etc" =
  load (λ _, false) (λ _, false) last_serialized (no_path_command_line LogLevel_Error) "/etc".
Proof.
  apply (load_ignores_command_line _ _ _ _ _ _ last_serialized_later_wins);
    [reflexivity|reflexivity|reflexivity|]. intros file. reflexivity.
Defined.
