(* ===== verification/Stores.v ===== *)
(** The certificate and challenge stores of crates/proksi/src/stores: the
    [Store] trait as a type class with its contract, the in-memory and the
    Redis implementations, the certificate codec, the global store cell and
    the cache-routing table.
    OpenSSL, serde_json, r2d2/Redis are parameters (classes [Base64], [Pki],
    [CertJson], [RedisApi]); [papaya::HashMap] is a finite map. *)
From S2P Require Import Prelude Strs.
#[local] Open Scope string_scope.
#[local] Open Scope list_scope.

(** ** External code *)

(** [openssl::base64] *)
Class Base64 := {
  encode_block : string → string;
  decode_block : string → option string }.
Class Base64Laws `{Base64} : Prop := {
  block_roundtrip s : decode_block (encode_block s) = Some s }.

(** [openssl::pkey::PKey<Private>] and [openssl::x509::X509] *)
Class Pki := {
  PKey : Type;
  X509 : Type;
  private_key_to_pem_pkcs8 : PKey → option string;
  private_key_from_pem : string → option PKey;
  x509_to_pem : X509 → option string;
  x509_from_pem : string → option X509 }.
Class PkiLaws `{Pki} : Prop := {
  pkey_pem k p : private_key_to_pem_pkcs8 k = Some p → private_key_from_pem p = Some k;
  x509_pem c p : x509_to_pem c = Some p → x509_from_pem p = Some c }.

(** ** Certificates (certificates.rs) *)

Record Certificate `{Pki} := mkCertificate {
  cert_key : PKey;
  cert_leaf : X509;
  cert_chain : option X509 }.

Record SerializableCertificate := mkSerializable {
  sc_key : string;
  sc_leaf : string;
  sc_chain : option string }.

Section certificate.
Context `{Base64, Pki}.

Definition to_serializable (self : Certificate) : res string SerializableCertificate :=
  key ← ok_or "pkey" (private_key_to_pem_pkcs8 (cert_key self));
  leaf ← ok_or "x509" (x509_to_pem (cert_leaf self));
  Ok (mkSerializable (encode_block key) (encode_block leaf)
        ((λ c, encode_block (default "" (x509_to_pem c))) <$> cert_chain self)).

Definition from_serializable (cert : SerializableCertificate) : res string Certificate :=
  key_data ← ok_or "base64" (decode_block (sc_key cert));
  leaf_data ← ok_or "base64" (decode_block (sc_leaf cert));
  key ← ok_or "pkey" (private_key_from_pem key_data);
  leaf ← ok_or "x509" (x509_from_pem leaf_data);
  chain ← match sc_chain cert with
          | Some chain_b64 =>
              chain_data ← ok_or "base64" (decode_block chain_b64);
              c ← ok_or "x509" (x509_from_pem chain_data);
              Ok (Some c)
          | None => Ok None
          end;
  Ok (mkCertificate _ key leaf chain).
End certificate.

(** ** The [Store] trait (store_trait.rs)

    Every method works on the store behind [&self]; the error type is the
    boxed error's message. *)
Class Store `{Pki} (T : Type) := {
  get_certificate : string → M T string (option Certificate);
  set_certificate : string → Certificate → M T string unit;
  get_certificates : M T string (gmap string Certificate);
  get_challenge : string → M T string (option (string * string));
  set_challenge : string → string → string → M T string unit }.

(** What a store holds, as far as its callers can tell. *)
Class StoreView `{Pki} (T : Type) := {
  certs_of : T → string → option Certificate;
  challenges_of : T → string → option (string * string) }.

Definition same_certs `{StoreView T} (s s' : T) : Prop := ∀ d, certs_of s' d = certs_of s d.
Definition same_challenges `{StoreView T} (s s' : T) : Prop :=
  ∀ d, challenges_of s' d = challenges_of s d.
Definition same_view `{StoreView T} (s s' : T) : Prop :=
  same_certs s s' ∧ same_challenges s s'.

(** The contract. Lookups return what is held and change nothing observable;
    a successful write updates one entry; a failed one nothing. A lookup may
    panic (a remote backend that cannot be reached). *)
Class StoreSpec `{Pki} (T : Type) `{!Store T, !StoreView T} : Prop := {
  get_certificate_spec d (s : T) r s' :
    get_certificate d s = (r, s') →
    same_view s s' ∧ (r = Ok (certs_of s d) ∨ r = Panic);
  set_certificate_spec d c (s : T) r s' :
    set_certificate d c s = (r, s') →
    (r = Ok tt ∧ same_challenges s s' ∧
       ∀ d', certs_of s' d' = if decide (d = d') then Some c else certs_of s d') ∨
    ((∃ e, r = Err e) ∧ same_view s s');
  get_certificates_spec (s : T) r s' :
    get_certificates s = (r, s') →
    same_view s s' ∧
    ((∃ m, r = Ok m ∧ ∀ d c, m !! d = Some c → certs_of s d = Some c) ∨ r = Panic);
  get_challenge_spec d (s : T) r s' :
    get_challenge d s = (r, s') →
    same_view s s' ∧ (r = Ok (challenges_of s d) ∨ r = Panic);
  set_challenge_spec d tok prf (s : T) r s' :
    set_challenge d tok prf s = (r, s') →
    (r = Ok tt ∧ same_certs s s' ∧
       ∀ d', challenges_of s' d' = if decide (d = d') then Some (tok, prf) else challenges_of s d') ∨
    ((∃ e, r = Err e) ∧ same_view s s') }.

(** ** The in-memory store (memory_store.rs) *)

Record MemoryStore `{Pki} := mkMemoryStore {
  inner_certs : gmap string Certificate;
  inner_challenges : gmap string (string * string) }.

Section memory_store.
Context `{Pki}.

Definition MemoryStore_new : MemoryStore := mkMemoryStore _ ∅ ∅.

Definition MemoryStore_get_certificate (host : string) : M MemoryStore string (option Certificate) :=
  gets (λ s, inner_certs s !! host).

Definition MemoryStore_set_certificate (host : string) (cert : Certificate)
    : M MemoryStore string unit :=
  modify (λ s, mkMemoryStore _ (<[host := cert]> (inner_certs s)) (inner_challenges s)).

Definition MemoryStore_get_certificates : M MemoryStore string (gmap string Certificate) :=
  gets inner_certs.

Definition MemoryStore_get_challenge (domain : string)
    : M MemoryStore string (option (string * string)) :=
  gets (λ s, inner_challenges s !! domain).

Definition MemoryStore_set_challenge (domain token proof : string) : M MemoryStore string unit :=
  modify (λ s, mkMemoryStore _ (inner_certs s) (<[domain := (token, proof)]> (inner_challenges s))).

#[export] Instance MemoryStore_Store : Store MemoryStore := {|
  get_certificate := MemoryStore_get_certificate;
  set_certificate := MemoryStore_set_certificate;
  get_certificates := MemoryStore_get_certificates;
  get_challenge := MemoryStore_get_challenge;
  set_challenge := MemoryStore_set_challenge |}.

#[export] Instance MemoryStore_StoreView : StoreView MemoryStore := {|
  certs_of := λ s d, inner_certs s !! d;
  challenges_of := λ s d, inner_challenges s !! d |}.
End memory_store.

(** ** The Redis store (redis_store.rs) *)

(** A Redis connection pool: [pool_get] tells whether a connection can be
    obtained; [None] is an error reply of the command. *)
Class RedisApi := {
  Redis : Type;
  pool_get : Redis → bool;
  redis_get : Redis → string → option (option string);
  redis_set : string → string → Redis → option Redis;
  redis_set_ex : string → string → N → Redis → option Redis;
  redis_keys : string → Redis → option (list string) }.
(** A successful write is what the next read of the key returns, and it
    leaves the other keys and the pool alone. *)
Class RedisLaws `{RedisApi} : Prop := {
  redis_get_set k v db db' k' :
    redis_set k v db = Some db' →
    redis_get db' k' = if decide (k = k') then Some (Some v) else redis_get db k';
  redis_get_set_ex k v ttl db db' k' :
    redis_set_ex k v ttl db = Some db' →
    redis_get db' k' = if decide (k = k') then Some (Some v) else redis_get db k' }.

(** [serde_json] on the two types the store writes. *)
Class CertJson := {
  cert_to_json : SerializableCertificate → option string;
  cert_from_json : string → option SerializableCertificate;
  challenge_to_json : string * string → option string;
  challenge_from_json : string → option (string * string) }.
Class CertJsonLaws `{CertJson} : Prop := {
  cert_json c s : cert_to_json c = Some s → cert_from_json s = Some c;
  challenge_json c s : challenge_to_json c = Some s → challenge_from_json s = Some c }.

Definition CHALLENGE_TTL_SECONDS : N := 300.

(** [temp_map] is the static that [get_certificates] refills. *)
Record RedisStore `{Pki, RedisApi} := mkRedisStore {
  pool : Redis;
  cert_cache : gmap string Certificate;
  challenge_cache : gmap string (string * string);
  temp_map : gmap string Certificate }.

Section redis_store.
Context `{Base64, Pki, RedisApi, CertJson}.

Definition certificate_key (domain : string) : string := "proksi:cert:" +:+ domain.
Definition challenge_key (domain : string) : string := "proksi:challenge:" +:+ domain.

Definition set_pool (db : Redis) (s : RedisStore) : RedisStore :=
  mkRedisStore _ _ db (cert_cache s) (challenge_cache s) (temp_map s).
Definition cache_cert (d : string) (c : Certificate) (s : RedisStore) : RedisStore :=
  mkRedisStore _ _ (pool s) (<[d := c]> (cert_cache s)) (challenge_cache s) (temp_map s).
Definition cache_challenge (d : string) (c : string * string) (s : RedisStore) : RedisStore :=
  mkRedisStore _ _ (pool s) (cert_cache s) (<[d := c]> (challenge_cache s)) (temp_map s).
Definition set_temp (m : gmap string Certificate) (s : RedisStore) : RedisStore :=
  mkRedisStore _ _ (pool s) (cert_cache s) (challenge_cache s) m.

Definition RedisStore_new (client : Redis) : RedisStore := mkRedisStore _ _ client ∅ ∅ ∅.

(** What a stored JSON text decodes to, errors dropped. *)
Definition decode_cert (data : string) : option Certificate :=
  serializable_cert ← cert_from_json data;
  match from_serializable serializable_cert with Ok c => Some c | _ => None end.

(** Both loaders: [None] in the result is the outer [Option]. The connection
    is obtained with [self.pool.get().unwrap()]. *)
Definition load_from_redis (s : RedisStore) (domain : string) : res string (option Certificate) :=
  if pool_get (pool s) then
    Ok (match redis_get (pool s) (certificate_key domain) with
        | Some (Some data) => decode_cert data
        | _ => None
        end)
  else Panic.

Definition load_challenge_from_redis (s : RedisStore) (domain : string)
    : res string (option (string * string)) :=
  if pool_get (pool s) then
    Ok (match redis_get (pool s) (challenge_key domain) with
        | Some (Some data) => challenge_from_json data
        | _ => None
        end)
  else Panic.

Definition RedisStore_get_certificate (domain : string)
    : M RedisStore string (option Certificate) :=
  s ← get_state;
  match cert_cache s !! domain with
  | Some cert => mret (Some cert)
  | None =>
      loaded ← lift (load_from_redis s domain);
      match loaded with
      | Some cert => _ ← modify (cache_cert domain cert); mret (Some cert)
      | None => mret None
      end
  end.

Definition RedisStore_set_certificate (domain : string) (cert : Certificate)
    : M RedisStore string unit :=
  s ← get_state;
  if pool_get (pool s) then
    serializable_cert ← lift (to_serializable cert);
    cert_json ← lift (ok_or "json" (cert_to_json serializable_cert));
    db ← lift (ok_or "redis" (redis_set (certificate_key domain) cert_json (pool s)));
    _ ← modify (set_pool db);
    modify (cache_cert domain cert)
  else throw "r2d2".

(** One turn of the loop over the keys found in Redis. *)
Definition load_key (key : string) (s : RedisStore) : RedisStore :=
  match strip_prefix "proksi:cert:" key with
  | None => s
  | Some domain =>
      if decide (is_Some (temp_map s !! domain)) then s
      else match redis_get (pool s) key with
           | Some (Some cert_data) =>
               match decode_cert cert_data with
               | Some cert => cache_cert domain cert (set_temp (<[domain := cert]> (temp_map s)) s)
               | None => s
               end
           | _ => s
           end
  end.

Definition RedisStore_get_certificates : M RedisStore string (gmap string Certificate) :=
  _ ← modify (set_temp ∅);
  _ ← modify (λ s, set_temp (map_fold (λ key value m, <[key := value]> m) (temp_map s) (cert_cache s)) s);
  s ← get_state;
  if pool_get (pool s) then
    _ ← modify (λ s, match redis_keys "proksi:cert:*" (pool s) with
                     | Some keys => fold_left (λ s key, load_key key s) keys s
                     | None => s
                     end);
    gets temp_map
  else crash.

Definition RedisStore_get_challenge (domain : string)
    : M RedisStore string (option (string * string)) :=
  s ← get_state;
  match challenge_cache s !! domain with
  | Some challenge => mret (Some challenge)
  | None =>
      loaded ← lift (load_challenge_from_redis s domain);
      match loaded with
      | Some challenge => _ ← modify (cache_challenge domain challenge); mret (Some challenge)
      | None => mret None
      end
  end.

Definition RedisStore_set_challenge (domain token proof : string) : M RedisStore string unit :=
  s ← get_state;
  if pool_get (pool s) then
    let challenge_tuple := (token, proof) in
    challenge_json ← lift (ok_or "json" (challenge_to_json challenge_tuple));
    db ← lift (ok_or "redis" (redis_set_ex (challenge_key domain) challenge_json
                                CHALLENGE_TTL_SECONDS (pool s)));
    _ ← modify (set_pool db);
    modify (cache_challenge domain challenge_tuple)
  else throw "r2d2".

#[export] Instance RedisStore_Store : Store RedisStore := {|
  get_certificate := RedisStore_get_certificate;
  set_certificate := RedisStore_set_certificate;
  get_certificates := RedisStore_get_certificates;
  get_challenge := RedisStore_get_challenge;
  set_challenge := RedisStore_set_challenge |}.

(** A Redis store holds what it has cached and, for the other domains, what
    can be decoded from Redis. *)
Definition redis_cert (db : Redis) (d : string) : option Certificate :=
  match redis_get db (certificate_key d) with Some (Some data) => decode_cert data | _ => None end.
Definition redis_challenge (db : Redis) (d : string) : option (string * string) :=
  match redis_get db (challenge_key d) with
  | Some (Some data) => challenge_from_json data
  | _ => None
  end.

#[export] Instance RedisStore_StoreView : StoreView RedisStore := {|
  certs_of := λ s d,
    match cert_cache s !! d with Some c => Some c | None => redis_cert (pool s) d end;
  challenges_of := λ s d,
    match challenge_cache s !! d with Some c => Some c | None => redis_challenge (pool s) d end |}.
End redis_store.

(** ** The global store cell (global.rs) *)

Definition init_store {T} (store : T) (cell : option T) : option T :=
  match cell with None => Some store | Some s => Some s end.

Definition get_store {T} (cell : option T) : res string T := unwrap cell.

(** ** The cache-routing table (mod.rs, cache.rs) *)

Definition PathCacheStorage := gmap string string.

Definition get_cache_routing_by_key (key : string) (table : PathCacheStorage) : option string :=
  table !! key.

Definition insert_cache_routing (key new_value : string) (should_override : bool)
    (table : PathCacheStorage) : PathCacheStorage :=
  match table !! key with
  | Some _ => if should_override then <[key := new_value]> table else table
  | None => <[key := new_value]> table
  end.

(** ** Lemmas *)

Section view.
Context `{Pki} {T : Type} `{!StoreView T}.
Lemma same_view_refl (s : T) : same_view s s.
Proof. by split; intros d. Qed.
Lemma same_view_trans (s1 s2 s3 : T) : same_view s1 s2 → same_view s2 s3 → same_view s1 s3.
Proof. intros [A B] [C D]. split; intros d; congruence. Qed.
End view.
#[export] Hint Resolve same_view_refl : proksi.

Section memory_lemmas.
Context `{Pki}.

#[export] Instance MemoryStore_spec : StoreSpec MemoryStore.
Proof.
  split; simpl; unfold MemoryStore_get_certificate, MemoryStore_set_certificate,
    MemoryStore_get_certificates, MemoryStore_get_challenge, MemoryStore_set_challenge, gets, modify.
  - intros * [= <- <-]. auto with proksi.
  - intros * [= <- <-]. left. split_and!; [done|done|]. intros d'. simpl. apply lookup_insert.
  - intros * [= <- <-]. split; [auto with proksi|]. left. eauto.
  - intros * [= <- <-]. auto with proksi.
  - intros * [= <- <-]. left. split_and!; [done|done|]. intros d'. simpl. apply lookup_insert.
Qed.
End memory_lemmas.

Lemma certificate_key_inj d d' : certificate_key d = certificate_key d' → d = d'.
Proof. unfold certificate_key. intros H. by simplify_eq. Qed.
Lemma challenge_key_inj d d' : challenge_key d = challenge_key d' → d = d'.
Proof. unfold challenge_key. intros H. by simplify_eq. Qed.
Lemma key_spaces_disjoint d d' : certificate_key d ≠ challenge_key d'.
Proof. unfold certificate_key, challenge_key. discriminate. Qed.

Section redis_lemmas.
Context `{Base64, Pki, RedisApi, CertJson}.
Implicit Types s : RedisStore.

Lemma view_cache_cert d c s d' :
  certs_of (cache_cert d c s) d' = if decide (d = d') then Some c else certs_of s d'.
Proof. simpl. rewrite lookup_insert. by case_decide. Qed.

Lemma view_cache_challenge d c s d' :
  challenges_of (cache_challenge d c s) d' =
  if decide (d = d') then Some c else challenges_of s d'.
Proof. simpl. rewrite lookup_insert. by case_decide. Qed.

(** Caching what the store already holds is invisible. *)
Lemma cache_cert_same d c s : certs_of s d = Some c → same_view s (cache_cert d c s).
Proof.
  intros Hc. split; [|done]. intros d'. rewrite view_cache_cert. by case_decide; subst.
Qed.

Lemma cache_challenge_same d c s :
  challenges_of s d = Some c → same_view s (cache_challenge d c s).
Proof.
  intros Hc. split; [done|]. intros d'. rewrite view_cache_challenge. by case_decide; subst.
Qed.

Lemma load_from_redis_eq s d :
  load_from_redis s d = if pool_get (pool s) then Ok (redis_cert (pool s) d) else Panic.
Proof. done. Qed.

Lemma RedisStore_get_certificate_view d s r s' :
  RedisStore_get_certificate d s = (r, s') →
  same_view s s' ∧ (r = Ok (certs_of s d) ∨ r = Panic).
Proof.
  unfold RedisStore_get_certificate. munfold. simpl. rewrite load_from_redis_eq.
  destruct (cert_cache s !! d) as [c|] eqn:Ec; [intros [= <- <-]; auto with proksi|].
  destruct (pool_get _); [|intros [= <- <-]; auto with proksi].
  destruct (redis_cert (pool s) d) as [c|] eqn:El; intros [= <- <-]; auto with proksi.
  split; [|by left]. apply cache_cert_same. simpl. by rewrite Ec.
Qed.

Lemma RedisStore_get_challenge_view d s r s' :
  RedisStore_get_challenge d s = (r, s') →
  same_view s s' ∧ (r = Ok (challenges_of s d) ∨ r = Panic).
Proof.
  unfold RedisStore_get_challenge, load_challenge_from_redis. munfold. simpl.
  fold (redis_challenge (pool s) d).
  destruct (challenge_cache s !! d) as [c|] eqn:Ec; [intros [= <- <-]; auto with proksi|].
  destruct (pool_get _); [|intros [= <- <-]; auto with proksi].
  destruct (redis_challenge (pool s) d) as [c|] eqn:El; intros [= <- <-]; auto with proksi.
  split; [|by left]. apply cache_challenge_same. simpl. by rewrite Ec.
Qed.

Lemma map_fold_insert_copy (m : gmap string Certificate) :
  map_fold (λ key value m', <[key := value]> m') (∅ : gmap string Certificate) m = m.
Proof.
  apply (map_fold_weak_ind (λ r m, r = m)); [done|]. by intros i x m' r _ ->.
Qed.

(** The invariant of the loop over the Redis keys: nothing observable has
    changed, and the temporary map holds the cached certificates and only
    certificates of the view. *)
Definition loading (s0 s : RedisStore) : Prop :=
  pool s = pool s0 ∧ same_view s0 s ∧
  (∀ d c, temp_map s !! d = Some c → certs_of s0 d = Some c) ∧
  (∀ d, is_Some (cert_cache s !! d) → is_Some (temp_map s !! d)).

Lemma load_key_loading s0 s key : loading s0 s → loading s0 (load_key key s).
Proof.
  intros Hl. unfold load_key.
  destruct (strip_prefix _ key) as [d|] eqn:Hk; [|done].
  apply strip_prefix_Some in Hk. case_decide as Ht; [done|].
  destruct (redis_get (pool s) key) as [[data|]|] eqn:Hg; [|done..].
  destruct (decode_cert data) as [c|] eqn:Hd; [|done].
  destruct Hl as (Hp & Hv & Hm & Hs).
  assert (Hc : certs_of s d = Some c).
  { simpl. destruct (cert_cache s !! d) eqn:E; [naive_solver|].
    unfold redis_cert, certificate_key. by rewrite <- Hk, Hg. }
  split_and!; [done| |..].
  - eapply same_view_trans; [exact Hv|].
    change (same_view s (cache_cert d c s)). by apply cache_cert_same.
  - intros d' c'. simpl. rewrite lookup_insert. case_decide; [|apply Hm].
    intros [= <-]. subst d'. rewrite <- Hc. symmetry. apply Hv.
  - intros d'. simpl. rewrite !lookup_insert. case_decide; [done|apply Hs].
Qed.

Lemma load_keys_loading s0 s keys :
  loading s0 s → loading s0 (fold_left (λ s key, load_key key s) keys s).
Proof. revert s. induction keys; simpl; auto using load_key_loading. Qed.

Lemma RedisStore_get_certificates_view s r s' :
  RedisStore_get_certificates s = (r, s') →
  same_view s s' ∧
  ((∃ m, r = Ok m ∧ ∀ d c, m !! d = Some c → certs_of s d = Some c) ∨ r = Panic).
Proof.
  unfold RedisStore_get_certificates. munfold. simpl. rewrite map_fold_insert_copy.
  set (s1 := set_temp (cert_cache s) (set_temp ∅ s)).
  assert (loading s s1) as L1.
  { split_and!; [done|done| |done]. intros d c Hd. simpl in *. by rewrite Hd. }
  destruct (pool_get (pool s)); [|intros [= <- <-]; split; [apply L1|by right]].
  destruct (redis_keys _ _) as [keys|]; intros [= <- <-].
  - destruct (load_keys_loading s s1 keys L1) as (_ & Hv & Hm & _).
    split; [done|]. left. eauto.
  - destruct L1 as (_ & Hv & Hm & _). split; [done|]. left. eauto.
Qed.

Section laws.
Context `{!RedisLaws}.

Lemma RedisStore_set_certificate_view d c s r s' :
  RedisStore_set_certificate d c s = (r, s') →
  (r = Ok tt ∧ same_challenges s s' ∧
     ∀ d', certs_of s' d' = if decide (d = d') then Some c else certs_of s d') ∨
  ((∃ e, r = Err e) ∧ same_view s s').
Proof.
  unfold RedisStore_set_certificate, to_serializable. munfold.
  intros E. repeat (case_match; simplify_eq/=); eauto with proksi.
  match goal with E : redis_set _ _ _ = Some _ |- _ => rename E into Hset end.
  pose proof (λ k, redis_get_set _ _ _ _ k Hset) as Hget.
  left. split_and!; [done| |].
  - intros d'. simpl. unfold redis_challenge. rewrite Hget.
    rewrite decide_False by apply key_spaces_disjoint. done.
  - intros d'. simpl. rewrite lookup_insert. case_decide; [done|].
    unfold redis_cert. rewrite Hget, decide_False by (by intros ?%certificate_key_inj). done.
Qed.

Lemma RedisStore_set_challenge_view d tok prf s r s' :
  RedisStore_set_challenge d tok prf s = (r, s') →
  (r = Ok tt ∧ same_certs s s' ∧
     ∀ d', challenges_of s' d' = if decide (d = d') then Some (tok, prf) else challenges_of s d') ∨
  ((∃ e, r = Err e) ∧ same_view s s').
Proof.
  unfold RedisStore_set_challenge. munfold.
  intros E. repeat (case_match; simplify_eq/=); eauto with proksi.
  match goal with E : redis_set_ex _ _ _ _ = Some _ |- _ => rename E into Hset end.
  pose proof (λ k, redis_get_set_ex _ _ _ _ _ k Hset) as Hget.
  left. split_and!; [done| |].
  - intros d'. simpl. unfold redis_cert. rewrite Hget.
    rewrite decide_False by (intros E; by apply (key_spaces_disjoint d' d)). done.
  - intros d'. simpl. rewrite lookup_insert. case_decide; [done|].
    unfold redis_challenge. rewrite Hget, decide_False by (by intros ?%challenge_key_inj). done.
Qed.

#[export] Instance RedisStore_spec : StoreSpec RedisStore.
Proof.
  split.
  - exact RedisStore_get_certificate_view.
  - exact RedisStore_set_certificate_view.
  - exact RedisStore_get_certificates_view.
  - exact RedisStore_get_challenge_view.
  - exact RedisStore_set_challenge_view.
Qed.
End laws.
End redis_lemmas.

Section codec_lemmas.
Context `{Base64, Pki, RedisApi, CertJson}.

(** A certificate whose parts can be written as PEM. *)
Definition pem_ready (c : Certificate) : Prop :=
  ∀ ch, cert_chain c = Some ch → is_Some (x509_to_pem ch).

Lemma to_from_serializable `{!Base64Laws, !PkiLaws} c s :
  pem_ready c → to_serializable c = Ok s → from_serializable s = Ok c.
Proof.
  intros Hr. destruct c as [k l ch]. unfold pem_ready, to_serializable in *. munfold. simpl in *.
  destruct (private_key_to_pem_pkcs8 k) as [kp|] eqn:Ek; [|done].
  destruct (x509_to_pem l) as [lp|] eqn:El; [|done].
  intros [= <-]. unfold from_serializable. munfold. simpl.
  rewrite !block_roundtrip, (pkey_pem _ _ Ek), (x509_pem _ _ El).
  destruct ch as [ch|]; simpl; [|done].
  destruct (Hr ch eq_refl) as [chp Ech]. rewrite Ech. simpl.
  rewrite block_roundtrip. by rewrite (x509_pem _ _ Ech).
Qed.

Lemma decode_cert_json `{!Base64Laws, !PkiLaws, !CertJsonLaws} c sc json :
  pem_ready c → to_serializable c = Ok sc → cert_to_json sc = Some json →
  decode_cert json = Some c.
Proof.
  intros Hr Hs Hj. unfold decode_cert. munfold. simpl. unfold option_bind.
  rewrite (cert_json _ _ Hj). by rewrite (to_from_serializable _ _ Hr Hs).
Qed.

Lemma set_certificate_writes `{!Base64Laws, !PkiLaws, !CertJsonLaws, !RedisLaws} d c s s' :
  pem_ready c → RedisStore_set_certificate d c s = (Ok tt, s') →
  redis_cert (pool s') d = Some c.
Proof.
  intros Hr. unfold RedisStore_set_certificate. munfold. simpl.
  destruct (pool_get _); [|done].
  destruct (to_serializable c) as [sc| |] eqn:Es; [|done..].
  destruct (cert_to_json sc) as [json|] eqn:Ej; [|done].
  destruct (redis_set _ _ _) as [db|] eqn:Eset; [|done].
  intros [= <-]. simpl. unfold redis_cert.
  rewrite (redis_get_set _ _ _ _ _ Eset), decide_True by done. by apply decode_cert_json with sc.
Qed.

Lemma set_challenge_writes `{!CertJsonLaws, !RedisLaws} d tok prf s s' :
  RedisStore_set_challenge d tok prf s = (Ok tt, s') →
  redis_challenge (pool s') d = Some (tok, prf).
Proof.
  unfold RedisStore_set_challenge. munfold. simpl.
  destruct (pool_get _); [|done].
  destruct (challenge_to_json (tok, prf)) as [json|] eqn:Ej; [|done].
  destruct (redis_set_ex _ _ _ _) as [db|] eqn:Eset; [|done].
  intros [= <-]. simpl. unfold redis_challenge.
  rewrite (redis_get_set_ex _ _ _ _ _ _ Eset), decide_True by done. by apply challenge_json.
Qed.
End codec_lemmas.

(** ** A concrete backend for the examples *)

Definition toy_base64 : Base64 := {|
  encode_block := λ s, "b64:" +:+ s; decode_block := strip_prefix "b64:" |}.
Lemma toy_base64_laws : @Base64Laws toy_base64.
Proof. split. intros s. apply strip_prefix_app. Qed.

Definition toy_pki : Pki := {|
  PKey := string; X509 := string;
  private_key_to_pem_pkcs8 := λ k, Some ("KEY " +:+ k);
  private_key_from_pem := strip_prefix "KEY ";
  x509_to_pem := λ c, Some ("CERT " +:+ c);
  x509_from_pem := strip_prefix "CERT " |}.
Lemma toy_pki_laws : @PkiLaws toy_pki.
Proof. split; intros c p [= <-]; apply strip_prefix_app. Qed.

Definition toy_redis : RedisApi := {|
  Redis := gmap string string;
  pool_get := λ _, true;
  redis_get := λ db k, Some (db !! k);
  redis_set := λ k v db, Some (<[k := v]> db);
  redis_set_ex := λ k v _ db, Some (<[k := v]> db);
  redis_keys := λ _ db, Some (map_to_list db).*1 |}.
Lemma toy_redis_laws : @RedisLaws toy_redis.
Proof.
  split; simpl; intros; simplify_eq; rewrite lookup_insert; by case_decide.
Qed.

Definition toy_json : CertJson := {|
  cert_to_json := λ c, Some (to_text (sc_key c, sc_leaf c, sc_chain c));
  cert_from_json := λ s, (λ '(k, l, ch), mkSerializable k l ch) <$> of_text s;
  challenge_to_json := λ c, Some (to_text c);
  challenge_from_json := of_text |}.
Lemma toy_json_laws : @CertJsonLaws toy_json.
Proof.
  split; simpl; intros c s [= <-]; rewrite of_to_text; [by destruct c|done].
Qed.

Definition toy_store : @RedisStore toy_pki toy_redis :=
  @RedisStore_new toy_pki toy_redis ∅.
Definition toy_cert : @Certificate toy_pki :=
  @mkCertificate toy_pki "k1" "leaf" (Some "chain").

Definition down_redis : RedisApi := {|
  Redis := gmap string string; pool_get := λ _, false; redis_get := λ _ _, None;
  redis_set := λ _ _ _, None; redis_set_ex := λ _ _ _ _, None; redis_keys := λ _ _, None |}.

(** ** Properties *)

(** C4. The Redis store keeps the [Store] contract: its lookups return the
    cached or stored entry and change nothing observable, a successful write
    updates exactly one domain and a failed one nothing. *)
Theorem redis_store_contract `{Base64, Pki, RedisApi, CertJson} :
  RedisLaws → StoreSpec RedisStore.
Proof. intros Hl. apply RedisStore_spec. Qed.

(** What one replica writes, another replica on the same Redis returns
    only while it has nothing cached for the domain: a cached certificate is
    served for ever, also after the other replica has renewed it. *)
Theorem replica_certificate `{Base64, Pki, RedisApi, CertJson}
    (Hb : Base64Laws) (Hp : PkiLaws) (Hj : CertJsonLaws) (Hr : RedisLaws)
    (a a' b : RedisStore) (d : string) (c : Certificate) :
  pem_ready c →
  RedisStore_set_certificate d c a = (Ok tt, a') →
  pool_get (pool a') = true →
  fst (RedisStore_get_certificate d (set_pool (pool a') b)) =
    Ok (Some (default c (cert_cache b !! d))).
Proof.
  intros Hc Ha Hup. pose proof (set_certificate_writes _ _ _ _ Hc Ha) as Hw.
  unfold RedisStore_get_certificate. munfold. rewrite load_from_redis_eq. simpl.
  destruct (cert_cache b !! d); [done|]. simpl. by rewrite Hup, Hw.
Qed.

(** The same for the ACME challenges, whose local copy ignores the
    [CHALLENGE_TTL_SECONDS] expiry: a replica that has cached a challenge of
    the domain keeps answering with it after another replica has set a new one. *)
Theorem replica_challenge `{Base64, Pki, RedisApi, CertJson}
    (Hj : CertJsonLaws) (Hr : RedisLaws)
    (a a' b : RedisStore) (d tok prf : string) :
  RedisStore_set_challenge d tok prf a = (Ok tt, a') →
  pool_get (pool a') = true →
  fst (RedisStore_get_challenge d (set_pool (pool a') b)) =
    Ok (Some (default (tok, prf) (challenge_cache b !! d))).
Proof.
  intros Ha Hup. pose proof (set_challenge_writes _ _ _ _ _ Ha) as Hw.
  unfold RedisStore_get_challenge, load_challenge_from_redis. munfold. simpl.
  destruct (challenge_cache b !! d); [done|].
  fold (redis_challenge (pool a') d). by rewrite Hup, Hw.
Qed.

(** During a Redis outage a cached certificate is still served, a lookup
    of any other domain panics, and a write fails without a change. *)
Theorem redis_outage `{Base64, Pki, RedisApi, CertJson} (s : RedisStore) (d : string)
    (c : Certificate) :
  pool_get (pool s) = false →
  RedisStore_get_certificate d s =
    (match cert_cache s !! d with Some x => Ok (Some x) | None => Panic end, s) ∧
  RedisStore_set_certificate d c s = (Err "r2d2", s).
Proof.
  intros Hdown. unfold RedisStore_get_certificate, RedisStore_set_certificate. munfold.
  rewrite load_from_redis_eq, Hdown. by destruct (cert_cache s !! d).
Qed.

(** The certificate codec loses nothing: a certificate that serialises is
    what its serialisation decodes to. *)
Theorem certificate_roundtrip `{Base64, Pki} (Hb : Base64Laws) (Hp : PkiLaws)
    (c : Certificate) (s : SerializableCertificate) :
  (∀ ch, cert_chain c = Some ch → is_Some (x509_to_pem ch)) →
  to_serializable c = Ok s → from_serializable s = Ok c.
Proof. exact (to_from_serializable c s). Qed.

(** ** Witnesses *)

#[local] Existing Instances toy_base64 toy_pki toy_redis toy_json.

Lemma redis_store_contract_witness : StoreSpec RedisStore.
Proof. apply (redis_store_contract toy_redis_laws). Defined.

Lemma replica_certificate_witness :
  fst (RedisStore_get_certificate "a.test"
         (set_pool (pool (snd (RedisStore_set_certificate "a.test" toy_cert toy_store))) toy_store))
  = Ok (Some toy_cert).
Proof.
  apply (replica_certificate toy_base64_laws toy_pki_laws toy_json_laws toy_redis_laws
           toy_store _ toy_store "a.test" toy_cert);
    [intros ch _; by eexists|reflexivity|reflexivity].
Defined.

Lemma replica_challenge_witness :
  fst (RedisStore_get_challenge "a.test"
         (set_pool (pool (snd (RedisStore_set_challenge "a.test" "t2" "p2" toy_store)))
            (cache_challenge "a.test" ("t1", "p1") toy_store)))
  = Ok (Some ("t1", "p1")).
Proof.
  apply (replica_challenge toy_json_laws toy_redis_laws toy_store _
           (cache_challenge "a.test" ("t1", "p1") toy_store) "a.test" "t2" "p2"); reflexivity.
Defined.

Lemma redis_outage_witness :
  fst (@RedisStore_get_certificate _ _ down_redis _ "a.test" (@RedisStore_new _ down_redis ∅)) = Panic.
Proof.
  pose proof (@redis_outage _ _ down_redis _ (@RedisStore_new _ down_redis ∅)
                "a.test" toy_cert eq_refl) as [E _].
  rewrite E. reflexivity.
Defined.

Lemma certificate_roundtrip_witness :
  from_serializable (mkSerializable "b64:KEY k1" "b64:CERT leaf" (Some "b64:CERT chain"))
  = Ok toy_cert.
Proof.
  apply (certificate_roundtrip toy_base64_laws toy_pki_laws); [intros ch _; by eexists|reflexivity].
Defined.
