(* ===== verification/Http.v ===== *)
(** The HTTP objects the handlers work on: header maps and URIs of the [http]
    crate, and Pingora's downstream [Session]. None of it is code of the
    repository: the header map is a parameter ([HttpApi]) with its documented
    laws ([HeaderLaws]); a session is what the handlers read of the request
    and the log of what they write to the client. *)
From S2P Require Import Prelude Strs Config.
#[local] Open Scope string_scope.
#[local] Open Scope list_scope.

(** ** Errors *)

(** [pingora::Error] with an HTTP status, a failed downstream write, or an
    [anyhow] error of a plugin. *)
Inductive error :=
| HTTPStatus (code : N)
| IoError
| Anyhow (msg : string).

(** ** Header maps *)

(** Names are compared without case and iterated in lower case; [insert]
    replaces, [append] adds. Both
    fail on a value (or name) that cannot be a header. A header value is an
    opaque byte string, [header_to_str] is [HeaderValue::to_str]. *)
Class HttpApi := {
  HeaderMap : Type;
  hm_new : HeaderMap;
  hm_get_all : HeaderMap → string → list string;
  hm_insert : string → string → HeaderMap → option HeaderMap;
  hm_append : string → string → HeaderMap → option HeaderMap;
  hm_remove : string → HeaderMap → HeaderMap;
  hm_iter : HeaderMap → list (string * string);
  header_to_str : string → option string;
  HeaderName_from_str : string → option string;
  HeaderValue_from_str : string → option string }.

Definition same_name (n m : string) : Prop := ascii_lowercase n = ascii_lowercase m.
#[export] Instance same_name_dec n m : Decision (same_name n m).
Proof. unfold same_name. apply _. Defined.

Class HeaderLaws `{HttpApi} : Prop := {
  hm_get_all_new m : hm_get_all hm_new m = [];
  hm_get_all_insert n v h h' m :
    hm_insert n v h = Some h' →
    hm_get_all h' m = if decide (same_name n m) then [v] else hm_get_all h m;
  hm_get_all_append n v h h' m :
    hm_append n v h = Some h' →
    hm_get_all h' m = if decide (same_name n m) then hm_get_all h m ++ [v] else hm_get_all h m;
  hm_get_all_remove n h m :
    hm_get_all (hm_remove n h) m = if decide (same_name n m) then [] else hm_get_all h m;
  hm_iter_lower h k v : (k, v) ∈ hm_iter h → ascii_lowercase k = k;
  hm_iter_get_all h n :
    hm_get_all h n = (filter (λ kv, kv.1 = ascii_lowercase n) (hm_iter h)).*2;
  header_to_str_text v t : header_to_str v = Some t → t = v }.

(** [HeaderMap::get]: the first value. *)
Definition hm_get `{HttpApi} (h : HeaderMap) (n : string) : option string :=
  head (hm_get_all h n).

Record ResponseHeader `{HttpApi} := mkResponseHeader {
  resp_status : N;
  resp_headers : HeaderMap }.
Record RequestHeader `{HttpApi} := mkRequestHeader {
  up_method : string;
  up_req_headers : HeaderMap }.

(** ** Requests *)

(** What [http::Uri]'s accessors return. *)
Record Uri := mkUri {
  uri_path : string;
  uri_query : option string;
  uri_host : option string;
  uri_path_and_query : option string;
  uri_string : string }.

(** What a handler sends to the client. *)
Inductive Downstream `{HttpApi} :=
| RespondError (code : N)
| WriteHeader (h : ResponseHeader) (end_of_stream : bool)
| WriteBody (body : string) (end_of_stream : bool).

(** [io] are the outcomes of the coming downstream writes (all succeed once it
    is empty). The cache fields are what [session.cache] was told: the storage
    it was enabled with, the file-size limit, and whether a miss was reported. *)
Record Session `{HttpApi} := mkSession {
  req_method : string;
  req_uri : Uri;
  req_headers : HeaderMap;
  written : list Downstream;
  io : list bool;
  cache_storage : option RouteCacheType;
  cache_max_file_size : option N;
  cache_missed : bool }.

Section session.
Context `{HttpApi}.

Definition set_written (w : list Downstream) (rest : list bool) (s : Session) : Session :=
  mkSession _ (req_method s) (req_uri s) (req_headers s) w rest
    (cache_storage s) (cache_max_file_size s) (cache_missed s).
Definition set_cache_storage (c : option RouteCacheType) (s : Session) : Session :=
  mkSession _ (req_method s) (req_uri s) (req_headers s) (written s) (io s)
    c (cache_max_file_size s) (cache_missed s).
Definition set_cache_max (n : option N) (s : Session) : Session :=
  mkSession _ (req_method s) (req_uri s) (req_headers s) (written s) (io s)
    (cache_storage s) n (cache_missed s).
Definition set_cache_missed (b : bool) (s : Session) : Session :=
  mkSession _ (req_method s) (req_uri s) (req_headers s) (written s) (io s)
    (cache_storage s) (cache_max_file_size s) b.

(** [session.cache.enabled()] *)
Definition cache_is_enabled (s : Session) : bool := bool_decide (is_Some (cache_storage s)).

(** One downstream write. *)
Definition downstream (d : Downstream) : M Session error unit := λ s,
  match io s with
  | false :: rest => (Err IoError, set_written (written s) rest s)
  | true :: rest => (Ok tt, set_written (written s ++ [d]) rest s)
  | [] => (Ok tt, set_written (written s ++ [d]) [] s)
  end.

(** [session.respond_error(code)] *)
Definition respond_error (code : N) : M Session error unit := downstream (RespondError code).
(** [session.write_response_header(Box::new(h), end)] *)
Definition write_response_header (h : ResponseHeader) (e : bool) : M Session error unit :=
  downstream (WriteHeader h e).
(** [session.write_response_body(Some(body), end)] *)
Definition write_response_body (body : string) (e : bool) : M Session error unit :=
  downstream (WriteBody body e).

(** [ResponseHeader::build_no_case] with a typed status code. *)
Definition build_no_case (status : N) : ResponseHeader := mkResponseHeader _ status hm_new.

(** [h.insert_header(n, v)?] and [h.append_header(n, v)?] *)
Definition insert_header (n v : string) (h : ResponseHeader) : res error ResponseHeader :=
  match hm_insert n v (resp_headers h) with
  | Some m => Ok (mkResponseHeader _ (resp_status h) m)
  | None => Err (Anyhow "invalid header")
  end.
Definition append_header (n v : string) (h : ResponseHeader) : res error ResponseHeader :=
  match hm_append n v (resp_headers h) with
  | Some m => Ok (mkResponseHeader _ (resp_status h) m)
  | None => Err (Anyhow "invalid header")
  end.
Definition remove_header (n : string) (h : ResponseHeader) : ResponseHeader :=
  mkResponseHeader _ (resp_status h) (hm_remove n (resp_headers h)).

(** ** Lemmas *)

(** The part of a session that no downstream write changes. *)
Definition same_request (s s' : Session) : Prop :=
  req_method s' = req_method s ∧ req_uri s' = req_uri s ∧ req_headers s' = req_headers s ∧
  cache_storage s' = cache_storage s ∧ cache_max_file_size s' = cache_max_file_size s ∧
  cache_missed s' = cache_missed s.

Lemma same_request_refl s : same_request s s.
Proof. done. Qed.

Lemma same_request_trans s1 s2 s3 :
  same_request s1 s2 → same_request s2 s3 → same_request s1 s3.
Proof. unfold same_request. intuition congruence. Qed.

Lemma downstream_cases d s r s' :
  downstream d s = (r, s') →
  same_request s s' ∧
  ((r = Ok tt ∧ written s' = written s ++ [d]) ∨ (r = Err IoError ∧ written s' = written s)).
Proof.
  unfold downstream. destruct (io s) as [|[] rest]; intros [= <- <-]; split; auto; by split_and!.
Qed.

(** With a healthy client connection a write succeeds. *)
Lemma downstream_healthy d s :
  io s = [] → downstream d s = (Ok tt, set_written (written s ++ [d]) [] s).
Proof. unfold downstream. by intros ->. Qed.

Lemma insert_header_get `{!HeaderLaws} n v h h' m :
  insert_header n v h = Ok h' →
  resp_status h' = resp_status h ∧
  hm_get_all (resp_headers h') m =
    if decide (same_name n m) then [v] else hm_get_all (resp_headers h) m.
Proof.
  unfold insert_header. destruct (hm_insert n v _) eqn:E; [|done]. intros [= <-].
  split; [done|]. by apply hm_get_all_insert.
Qed.

Lemma append_header_get `{!HeaderLaws} n v h h' m :
  append_header n v h = Ok h' →
  resp_status h' = resp_status h ∧
  hm_get_all (resp_headers h') m =
    if decide (same_name n m) then hm_get_all (resp_headers h) m ++ [v]
    else hm_get_all (resp_headers h) m.
Proof.
  unfold append_header. destruct (hm_append n v _) eqn:E; [|done]. intros [= <-].
  split; [done|]. by apply hm_get_all_append.
Qed.

Lemma remove_header_get `{!HeaderLaws} n h m :
  hm_get_all (resp_headers (remove_header n h)) m =
    if decide (same_name n m) then [] else hm_get_all (resp_headers h) m.
Proof. apply hm_get_all_remove. Qed.
End session.

#[export] Hint Resolve same_request_refl : proksi.

(** ** Cache metadata

    [pingora_cache::CacheMeta]: [CacheMeta_new] takes fresh-until, created (in
    seconds since the epoch), stale-while-revalidate, stale-if-error and the
    header. Freshness is documented up to the very second of the expiry. *)
Class CacheMetaApi `{HttpApi} := {
  CacheMeta : Type;
  CacheMeta_new : N → N → N → N → ResponseHeader → CacheMeta;
  fresh_until : CacheMeta → N;
  created : CacheMeta → N;
  stale_while_revalidate_sec : CacheMeta → N;
  stale_if_error_sec : CacheMeta → N;
  response_header : CacheMeta → ResponseHeader;
  is_fresh : CacheMeta → N → bool }.
Class CacheMetaLaws `{CacheMetaApi} : Prop := {
  CacheMeta_fields fresh at_ swr sie h :
    let m := CacheMeta_new fresh at_ swr sie h in
    fresh_until m = fresh ∧ created m = at_ ∧ stale_while_revalidate_sec m = swr ∧
    stale_if_error_sec m = sie ∧ response_header m = h;
  is_fresh_before fresh at_ swr sie h now :
    (now < fresh)%N → is_fresh (CacheMeta_new fresh at_ swr sie h) now = true;
  is_fresh_after fresh at_ swr sie h now :
    (fresh < now)%N → is_fresh (CacheMeta_new fresh at_ swr sie h) now = false }.

(** ** A concrete header map for the examples: an association list with
    lower-case names; values are visible ASCII. *)

Fixpoint visible (s : string) : bool :=
  match s with
  | EmptyString => true
  | String a s' => (let n := N_of_ascii a in (n =? 9)%N || in_range 32 n 126) && visible s'
  end.

Definition list_get_all (h : list (string * string)) (n : string) : list string :=
  (filter (λ kv, kv.1 = ascii_lowercase n) h).*2.
Definition list_remove (n : string) (h : list (string * string)) : list (string * string) :=
  filter (λ kv, kv.1 ≠ ascii_lowercase n) h.

Definition toy_http : HttpApi := {|
  HeaderMap := list (string * string);
  hm_new := [];
  hm_get_all := list_get_all;
  hm_insert := λ n v h, if visible v then Some (list_remove n h ++ [(ascii_lowercase n, v)]) else None;
  hm_append := λ n v h, if visible v then Some (h ++ [(ascii_lowercase n, v)]) else None;
  hm_remove := list_remove;
  hm_iter := λ h, filter (λ kv, ascii_lowercase kv.1 = kv.1) h;
  header_to_str := λ v, if visible v then Some v else None;
  HeaderName_from_str := λ n, if visible n then Some (ascii_lowercase n) else None;
  HeaderValue_from_str := λ v, if visible v then Some v else None |}.

Lemma list_get_all_app h1 h2 n : list_get_all (h1 ++ h2) n = list_get_all h1 n ++ list_get_all h2 n.
Proof. unfold list_get_all. by rewrite filter_app, fmap_app. Qed.

Lemma list_get_all_remove n h m :
  list_get_all (list_remove n h) m = if decide (same_name n m) then [] else list_get_all h m.
Proof.
  unfold list_get_all, list_remove, same_name. rewrite list_filter_filter.
  case_decide as E.
  - rewrite (list_filter_iff _ (λ _, False)) by (intros; naive_solver congruence).
    by induction h.
  - f_equal. apply list_filter_iff. naive_solver congruence.
Qed.

Lemma list_get_all_one n v m :
  list_get_all [(ascii_lowercase n, v)] m = if decide (same_name n m) then [v] else [].
Proof. unfold list_get_all, same_name. rewrite filter_cons. by repeat case_decide. Qed.

Lemma toy_http_laws : @HeaderLaws toy_http.
Proof.
  split; simpl.
  - done.
  - intros * E. destruct (visible v); [|done]. injection E as <-.
    rewrite list_get_all_app, list_get_all_remove, list_get_all_one.
    case_decide; [done|]. by rewrite app_nil_r.
  - intros * E. destruct (visible v); [|done]. injection E as <-.
    rewrite list_get_all_app, list_get_all_one. case_decide; [done|]. by rewrite app_nil_r.
  - intros. apply list_get_all_remove.
  - intros h k v Hin. by apply list_elem_of_filter in Hin as [? _].
  - intros h n. unfold list_get_all. rewrite list_filter_filter. f_equal.
    apply list_filter_iff. intros kv. split; [|by intros [? _]].
    intros E. split; [done|]. by rewrite E, ascii_lowercase_idem.
  - intros v t. by destruct (visible v); intros [= <-].
Qed.

Definition toy_meta : @CacheMetaApi toy_http := {|
  CacheMeta := N * N * N * N * @ResponseHeader toy_http;
  CacheMeta_new := λ fresh at_ swr sie h, (fresh, at_, swr, sie, h);
  fresh_until := λ m, m.1.1.1.1;
  created := λ m, m.1.1.1.2;
  stale_while_revalidate_sec := λ m, m.1.1.2;
  stale_if_error_sec := λ m, m.1.2;
  response_header := λ m, m.2;
  is_fresh := λ m now, let '(fresh, _, _, _, _) := m in (now <=? fresh)%N |}.
Lemma toy_meta_laws : @CacheMetaLaws toy_http toy_meta.
Proof. split; simpl; intros; [done|apply N.leb_le|apply N.leb_gt]; lia. Qed.
