(* ===== verification/Routes.v ===== *)
(** The route store (crates/proksi/src/stores/routes.rs and the ROUTE_STORE of
    stores/mod.rs) and the per-request context of the HTTPS proxy.
    The load balancer, the path tree and name resolution are parameters. *)
From S2P Require Import Prelude Strs Config Http.
#[local] Open Scope string_scope.
#[local] Open Scope list_scope.

(** A socket address: the text of its IP and its port. *)
Definition SocketAddr := (string * N)%type.

(** [ToSocketAddrs] of a text "ip:port" or "name:port", as the resolver answers
    at one moment. What is looked up at different moments, when a route is
    stored and when a request is served, is looked up in different instances. *)
Class Dns := { to_socket_addrs : string → option (list SocketAddr) }.

(** [pingora::lb::LoadBalancer<RoundRobin>]: [try_from_iter] resolves its texts
    when it is called; [get_backend] lists the backend set; [select] is
    [select(b"", 32)] in the balancer's current state. *)
Class LbApi := {
  LoadBalancer : Type;
  Backend : Type;
  Backend_eq_dec :: EqDecision Backend;
  try_from_iter `{Dns} : list string → option LoadBalancer;
  get_backend : LoadBalancer → list Backend;
  as_inet : Backend → option SocketAddr;
  select : LoadBalancer → option Backend;
  set_health_check : LoadBalancer → LoadBalancer;
  set_health_check_frequency : N → LoadBalancer → LoadBalancer }.

(** The backends form a set, those of the addresses the texts resolve to; a
    selected backend is one of them; the health-check settings do not change
    the set. *)
Class LbLaws `{LbApi} : Prop := {
  get_backend_nodup lb : NoDup (get_backend lb);
  try_from_iter_backends `{Dns} l lb b :
    try_from_iter l = Some lb → b ∈ get_backend lb →
    ∃ a addrs sa, a ∈ l ∧ to_socket_addrs a = Some addrs ∧ sa ∈ addrs ∧ as_inet b = Some sa;
  try_from_iter_resolves `{Dns} l lb a :
    try_from_iter l = Some lb → a ∈ l → is_Some (to_socket_addrs a);
  select_backend lb b : select lb = Some b → b ∈ get_backend lb;
  get_backend_health_check lb : get_backend (set_health_check lb) = get_backend lb;
  get_backend_frequency n lb : get_backend (set_health_check_frequency n lb) = get_backend lb }.

(** [path_tree::PathTree<usize>]; the result of [insert] is dropped by the code. *)
Class PathTreeApi := {
  PathTree : Type;
  pt_new : PathTree;
  pt_insert : string → nat → PathTree → PathTree;
  pt_find : PathTree → string → option nat }.

Record RouteStorePathMatcher `{PathTreeApi} := mkPathMatcher { pattern : option PathTree }.

Record RouteStoreContainer `{LbApi, PathTreeApi} := mkContainer {
  load_balancer : LoadBalancer;
  path_matcher : RouteStorePathMatcher;
  host_header_remove : list string;
  host_header_add : list (string * string);
  rsc_upstreams : list RouteUpstream;
  self_signed_certificate : bool;
  rsc_plugins : gmap string RoutePlugin;
  rsc_cache : option RouteCache }.

Section routes.
Context `{LbApi, PathTreeApi}.

Definition RouteStorePathMatcher_new : RouteStorePathMatcher := mkPathMatcher _ None.

(** The insertion loop, from index [i]. *)
Fixpoint insert_patterns (i : nat) (ps : list string) (tree : PathTree) : PathTree :=
  match ps with
  | [] => tree
  | value :: ps' => insert_patterns (S i) ps' (pt_insert value i tree)
  end.

Definition with_pattern (ps : list string) (self : RouteStorePathMatcher) : RouteStorePathMatcher :=
  match ps with
  | [] => self
  | _ => mkPathMatcher _ (Some (insert_patterns 0 ps pt_new))
  end.

Definition RouteStoreContainer_new (lb : LoadBalancer) : RouteStoreContainer :=
  mkContainer _ _ lb RouteStorePathMatcher_new [] [] [] false ∅ None.

(** [Default]: an unwrapped balancer over 127.0.0.1:80. *)
Definition RouteStoreContainer_default `{Dns} {E} : res E RouteStoreContainer :=
  lb ← unwrap (try_from_iter ["127.0.0.1:80"]);
  Ok (mkContainer _ _ lb RouteStorePathMatcher_new [] [] [] false ∅ None).

(** [RouteStore] is a map from host to container. *)
Definition get_route_by_key (key : string) (store : gmap string RouteStoreContainer)
    : option RouteStoreContainer := store !! key.

Definition insert_route (key : string) (value : RouteStoreContainer)
    (store : gmap string RouteStoreContainer) : gmap string RouteStoreContainer :=
  <[key := value]> store.

Definition get_routes (store : gmap string RouteStoreContainer)
    : gmap string RouteStoreContainer := store.
End routes.

(** ** The request context (https_proxy.rs) *)

Record RouterTimings := mkTimings { request_filter_start : N }.

Record RouterContext `{LbApi, PathTreeApi} := mkRouterContext {
  ctx_host : string;
  route_container : RouteStoreContainer;
  ctx_upstream : RouteUpstream;
  extensions : gmap string string;
  timings : RouterTimings }.

(** The two objects every filter and plugin receives by mutable reference. *)
Record Exchange `{HttpApi, LbApi, PathTreeApi} := mkExchange {
  session : Session;
  ctx : RouterContext }.

(** What the environment gives a handler call: the clock [SystemTime::now()],
    in whole seconds from the epoch, and the identifier [Uuid::new_v4()] would
    return. *)
Record Env := mkEnv { env_clock : Z; env_uuid : string }.

(** The clock as seconds since the epoch, at which an earlier clock stands. *)
Definition env_now (env : Env) : N := Z.to_N (env_clock env).

Section context.
Context `{HttpApi, LbApi, PathTreeApi}.

Definition set_host (h : string) (c : RouterContext) : RouterContext :=
  mkRouterContext _ _ h (route_container c) (ctx_upstream c) (extensions c) (timings c).
Definition set_container (r : RouteStoreContainer) (c : RouterContext) : RouterContext :=
  mkRouterContext _ _ (ctx_host c) r (ctx_upstream c) (extensions c) (timings c).
Definition set_upstream (u : RouteUpstream) (c : RouterContext) : RouterContext :=
  mkRouterContext _ _ (ctx_host c) (route_container c) u (extensions c) (timings c).
Definition set_extensions (e : gmap string string) (c : RouterContext) : RouterContext :=
  mkRouterContext _ _ (ctx_host c) (route_container c) (ctx_upstream c) e (timings c).

Definition set_session (s : Session) (x : Exchange) : Exchange := mkExchange _ _ _ s (ctx x).
Definition set_ctx (c : RouterContext) (x : Exchange) : Exchange := mkExchange _ _ _ (session x) c.

Definition on_session {A} (m : M Session error A) : M Exchange error A := zoom session set_session m.
Definition on_ctx (f : RouterContext → RouterContext) : M Exchange error unit :=
  modify (λ x, set_ctx (f (ctx x)) x).

(** [ctx.extensions.insert(k, v)] *)
Definition insert_extension (k v : string) : M Exchange error unit :=
  on_ctx (λ c, set_extensions (<[k := v]> (extensions c)) c).
End context.

(** ** Framing: what filters keep and what their outcome depends on *)

Section framing.
Context `{HttpApi, LbApi, PathTreeApi}.
Implicit Types x y : Exchange.

(** Two exchanges that a filter cannot tell apart: same request, same host. *)
Definition same_input x y : Prop :=
  same_request (session x) (session y) ∧ ctx_host (ctx y) = ctx_host (ctx x).
(** No downstream write will fail. *)
Definition healthy x : Prop := io (session x) = [].
(** What every filter preserves. *)
Definition keeps x y : Prop :=
  same_input x y ∧ (healthy x → healthy y) ∧
  route_container (ctx y) = route_container (ctx x) ∧ ctx_upstream (ctx y) = ctx_upstream (ctx x).

#[export] Instance same_input_equiv : Equivalence same_input.
Proof.
  unfold same_input, same_request. split.
  - done.
  - intros x y ?. intuition congruence.
  - intros x y z ??. intuition congruence.
Qed.

#[export] Instance keeps_preorder : PreOrder keeps.
Proof.
  split; [by intros x|]. intros x y z (Hi1 & Hh1 & Hc1 & Hu1) (Hi2 & Hh2 & Hc2 & Hu2).
  split_and!; [by transitivity y|auto|congruence..].
Qed.

Definition frames {A} (m : M Exchange error A) : Prop := ∀ x r x', m x = (r, x') → keeps x x'.

(** On healthy exchanges the outcome is a function of the input alone. *)
Definition input_driven {A} (m : M Exchange error A) : Prop :=
  ∀ x y, healthy x → healthy y → same_input x y → fst (m x) = fst (m y).

Lemma frames_ret {A} (a : A) : frames (mret a).
Proof. by intros x r x' [= <- <-]. Qed.
Lemma frames_lift {A} (r : res error A) : frames (lift r).
Proof. by intros x r' x' [= <- <-]. Qed.
Lemma frames_gets {A} (f : Exchange → A) : frames (gets f).
Proof. by intros x r' x' [= <- <-]. Qed.
Lemma frames_get : frames get_state.
Proof. by intros x r' x' [= <- <-]. Qed.
Lemma frames_crash {A} : frames (A := A) crash.
Proof. by intros x r' x' [= <- <-]. Qed.

Lemma frames_bind {A B} (m : M Exchange error A) (f : A → M Exchange error B) :
  frames m → (∀ a, frames (f a)) → frames (a ← m; f a).
Proof.
  intros Hm Hf x r x'. unfold mbind, M_bind. destruct (m x) as [[a|e|] y] eqn:E; intros Hk.
  - transitivity y; [by eapply Hm|by eapply Hf].
  - simplify_eq. by eapply Hm.
  - simplify_eq. by eapply Hm.
Qed.

Lemma frames_downstream d : frames (on_session (downstream d)).
Proof.
  intros x r x'. unfold on_session, zoom, downstream.
  destruct (io (session x)) as [|[] rest] eqn:E; intros [= <- <-];
    (split_and!; [by split_and!| |done|done]); unfold healthy; simpl; congruence.
Qed.

(** The exchange after a successful write to the client. *)
Definition wrote (d : Downstream) x : Exchange :=
  set_session (set_written (written (session x) ++ [d]) [] (session x)) x.

Lemma on_session_downstream d x : healthy x → on_session (downstream d) x = (Ok tt, wrote d x).
Proof. intros Hx. unfold on_session, zoom. by rewrite downstream_healthy. Qed.

Lemma healthy_wrote d x : healthy (wrote d x).
Proof. done. Qed.

Lemma same_input_wrote d x : same_input x (wrote d x).
Proof. done. Qed.

Lemma frames_extension k v : frames (insert_extension k v).
Proof. by intros x r x' [= <- <-]. Qed.

Lemma driven_ret {A} (a : A) : input_driven (mret a).
Proof. by intros x y. Qed.
Lemma driven_lift {A} (r : res error A) : input_driven (lift r).
Proof. by intros x y. Qed.
Lemma driven_crash {A} : input_driven (A := A) crash.
Proof. by intros x y. Qed.
Lemma driven_gets {A} (f : Exchange → A) :
  (∀ x y, same_input x y → f x = f y) → input_driven (gets f).
Proof. intros Hf x y _ _ Hxy. unfold gets. simpl. by rewrite (Hf x y). Qed.

Lemma driven_bind {A B} (m : M Exchange error A) (f : A → M Exchange error B) :
  frames m → input_driven m → (∀ a, input_driven (f a)) → input_driven (a ← m; f a).
Proof.
  intros Hfr Hm Hf x y Hx Hy Hxy. unfold mbind, M_bind. specialize (Hm x y Hx Hy Hxy).
  destruct (m x) as [rx x'] eqn:Ex, (m y) as [ry y'] eqn:Ey. simpl in Hm. subst ry.
  destruct (Hfr _ _ _ Ex) as (Ix & Hx' & _), (Hfr _ _ _ Ey) as (Iy & Hy' & _).
  destruct rx; [|done..]. apply Hf; auto.
  transitivity x; [by symmetry|]. by transitivity y.
Qed.

Lemma driven_downstream d : input_driven (on_session (downstream d)).
Proof.
  intros x y Hx Hy _. unfold on_session, zoom. by rewrite !downstream_healthy.
Qed.

Lemma frames_is_ok_and m : frames m → frames (is_ok_and (E := error) m).
Proof.
  intros Hm x r x'. unfold is_ok_and. destruct (m x) as [[]] eqn:E; intros [= <- <-]; by eapply Hm.
Qed.
Lemma frames_catch_ok {A} (m : M Exchange error A) : frames m → frames (catch_ok (E := error) m).
Proof.
  intros Hm x r x'. unfold catch_ok. destruct (m x) as [[]] eqn:E; intros [= <- <-]; by eapply Hm.
Qed.
Lemma driven_is_ok_and m : input_driven m → input_driven (is_ok_and (E := error) m).
Proof.
  intros Hm x y Hx Hy Hxy. specialize (Hm x y Hx Hy Hxy). unfold is_ok_and.
  destruct (m x) as [[] ?], (m y) as [[] ?]; simpl in *; congruence.
Qed.
Lemma driven_catch_ok {A} (m : M Exchange error A) :
  input_driven m → input_driven (catch_ok (E := error) m).
Proof.
  intros Hm x y Hx Hy Hxy. specialize (Hm x y Hx Hy Hxy). unfold catch_ok.
  destruct (m x) as [[] ?], (m y) as [[] ?]; simpl in *; congruence.
Qed.

(** Filters that only write to the client leave the context alone. *)
Definition keeps_ctx {A} (m : M Exchange error A) : Prop := ∀ x, ctx (snd (m x)) = ctx x.

Lemma keeps_ctx_ret {A} (a : A) : keeps_ctx (mret a).
Proof. done. Qed.
Lemma keeps_ctx_lift {A} (r : res error A) : keeps_ctx (lift r).
Proof. done. Qed.
Lemma keeps_ctx_gets {A} (f : Exchange → A) : keeps_ctx (gets f).
Proof. done. Qed.
Lemma keeps_ctx_crash {A} : keeps_ctx (A := A) crash.
Proof. done. Qed.
Lemma keeps_ctx_session {A} (m : M Session error A) : keeps_ctx (on_session m).
Proof. intros x. unfold on_session, zoom. by destruct (m (session x)). Qed.
Lemma keeps_ctx_bind {A B} (m : M Exchange error A) (f : A → M Exchange error B) :
  keeps_ctx m → (∀ a, keeps_ctx (f a)) → keeps_ctx (a ← m; f a).
Proof.
  intros Hm Hf x. specialize (Hm x). unfold mbind, M_bind.
  destruct (m x) as [[a|e|] y]; simpl in *; [|done..]. rewrite <- Hm. apply Hf.
Qed.
Lemma keeps_ctx_is_ok_and m : keeps_ctx m → keeps_ctx (is_ok_and (E := error) m).
Proof. intros Hm x. specialize (Hm x). unfold is_ok_and. by destruct (m x) as [[] ?]. Qed.

Lemma driven_extension k v : input_driven (insert_extension k v).
Proof. by intros x y. Qed.
End framing.

Create HintDb frames discriminated.
#[export] Hint Resolve frames_ret frames_lift frames_gets frames_get frames_crash
  frames_downstream frames_extension healthy_wrote frames_is_ok_and frames_catch_ok
  driven_is_ok_and driven_catch_ok keeps_ctx_ret keeps_ctx_lift keeps_ctx_gets keeps_ctx_crash
  keeps_ctx_session keeps_ctx_is_ok_and driven_ret driven_lift driven_crash
  driven_downstream driven_extension : frames.

(** Walks through a filter: one goal per bind and per branch. *)
Ltac frame_step :=
  first
    [ solve [auto with frames]
    | apply frames_bind; [|intros ?] | apply driven_bind; [| |intros ?]
    | apply keeps_ctx_bind; [|intros ?]
    | match goal with
      | |- frames (match ?e with _ => _ end) => destruct e
      | |- input_driven (match ?e with _ => _ end) => destruct e
      | |- keeps_ctx (match ?e with _ => _ end) => destruct e
      | |- keeps_ctx (if ?e then _ else _) => destruct e
      | |- frames (if ?e then _ else _) => destruct e
      | |- input_driven (if ?e then _ else _) => destruct e
      end ].
Ltac frame_auto := repeat frame_step.

(** ** Concrete instances for the examples

    Addresses are the texts "ip:port"; a balancer is its set of addresses and
    selects the first; a path tree matches its patterns literally. *)

Definition toy_resolve (a : string) : option (list SocketAddr) :=
  '(ip, port) ← rsplit_once ":" a; p ← parse_u64 port; Some [(ip, p)].
Definition toy_dns : Dns := {| to_socket_addrs := toy_resolve |}.

Definition toy_lb : LbApi := {|
  LoadBalancer := list SocketAddr;
  Backend := SocketAddr;
  try_from_iter := λ dns l, (λ ls, remove_dups (concat ls)) <$> mapM (@to_socket_addrs dns) l;
  get_backend := λ lb, remove_dups lb;
  as_inet := Some;
  select := head;
  set_health_check := id;
  set_health_check_frequency := λ _, id |}.

Lemma toy_lb_laws : @LbLaws toy_lb.
Proof.
  split; simpl.
  - intros lb. apply NoDup_remove_dups.
  - intros dns l lb b. destruct (mapM _ l) as [ls|] eqn:E; [|done]. intros [= <-].
    rewrite !elem_of_remove_dups, list_elem_of_In, in_concat.
    intros (addrs & Hin & Hb). apply list_elem_of_In in Hin, Hb. apply mapM_Some in E.
    apply list_elem_of_lookup in Hin as [i Hi].
    destruct (Forall2_lookup_r _ _ _ _ _ E Hi) as (a & Ha & Hr).
    exists a, addrs, b. split_and!; [by eapply list_elem_of_lookup_2|done|done|done].
  - intros dns l lb a. destruct (mapM _ l) as [ls|] eqn:E; [|done]. intros [= <-] Ha.
    apply mapM_Some in E. apply list_elem_of_lookup in Ha as [i Hi].
    destruct (Forall2_lookup_l _ _ _ _ _ E Hi) as (y & _ & Hy). simpl in Hy. rewrite Hy. by eexists.
  - intros [|b' lb] b [= <-]. apply elem_of_remove_dups. by left.
  - done.
  - done.
Qed.

Definition toy_pt : PathTreeApi := {|
  PathTree := list (string * nat);
  pt_new := [];
  pt_insert := λ p i t, t ++ [(p, i)];
  pt_find := λ t p, snd <$> List.find (λ e, String.eqb (fst e) p) t |}.
