(* ===== verification/Plugins.v ===== *)
(** The plugin interface (plugins/mod.rs) and the two small plugins:
    basic_auth (plugins/basic_auth) and request_id (plugins/request_id). *)
From S2P Require Import Prelude Strs Config Stores Http Routes.
#[local] Open Scope string_scope.
#[local] Open Scope list_scope.

(** ** The [MiddlewarePlugin] trait *)

(** The filters work on the session and the context; the two upstream filters
    also on the request or response header being forwarded. *)
Record MiddlewarePlugin `{HttpApi, LbApi, PathTreeApi} := mkPlugin {
  request_filter : Env → RoutePlugin → M Exchange error bool;
  upstream_request_filter : M (Exchange * RequestHeader) error unit;
  response_filter : RoutePlugin → M Exchange error bool;
  upstream_response_filter : M (Exchange * ResponseHeader) error unit }.

(** [get_required_config] *)
Definition get_required_config (plugin_config : gmap string Value) (key : string)
    : res error string :=
  ok_or (Anyhow ("Missing or invalid " +:+ key)) (v ← plugin_config !! key; as_str v).

(** A double quote, for format strings. *)
Definition dquote : string := String (ascii_of_nat 34) "".

Section basic_auth.
Context `{HttpApi, LbApi, PathTreeApi, Base64}.

(** ** basic_auth *)

Definition respond_with_authenticate (host : string) : res error ResponseHeader :=
  let realm := "Basic realm=" +:+ dquote +:+ host +:+ dquote +:+ ", charset=" +:+ dquote
                 +:+ "UTF-8" +:+ dquote in
  insert_header "www-authenticate" realm (build_no_case 401).

Definition get_auth_config (config : gmap string Value) : option (string * string) :=
  u ← config !! "user"; user ← as_str u;
  p ← config !! "pass"; pass ← as_str p;
  Some (user, pass).

Definition validate_auth_header (auth_header user pass : string) : res error bool :=
  let encoded := trim_start_matches "Basic " auth_header in
  bytes ← ok_or (Anyhow "base64") (decode_block encoded);
  decoded ← ok_or (Anyhow "utf8") (from_utf8 bytes);
  let '(auth_user, auth_pass) := default ("", "") (split_once ":" decoded) in
  Ok (String.eqb auth_user user && String.eqb auth_pass pass).

(** The three places that answer 401 and stop. *)
Definition ask_credentials : M Exchange error bool :=
  host ← gets (λ x, ctx_host (ctx x));
  h ← lift (respond_with_authenticate host);
  _ ← on_session (write_response_header h true);
  mret true.

Definition BasicAuth_request_filter (_ : Env) (plugin : RoutePlugin) : M Exchange error bool :=
  match plugin_config plugin with
  | None => mret false
  | Some config =>
      match get_auth_config config with
      | None => ask_credentials
      | Some (user, pass) =>
          found ← gets (λ x, hm_get (req_headers (session x)) "authorization");
          match found with
          | None => ask_credentials
          | Some header =>
              auth_header ← lift (ok_or (Anyhow "to_str") (header_to_str header));
              if negb (starts_with "Basic " auth_header) then ask_credentials
              else
                valid ← lift (validate_auth_header auth_header user pass);
                if negb valid then ask_credentials else mret false
          end
      end
  end.

Definition BasicAuth : MiddlewarePlugin := {|
  request_filter := BasicAuth_request_filter;
  upstream_request_filter := mret tt;
  response_filter := λ _, mret false;
  upstream_response_filter := mret tt |}.
End basic_auth.

Section request_id.
Context `{HttpApi, LbApi, PathTreeApi}.

(** ** request_id *)

Definition RequestId_request_filter (env : Env) (_ : RoutePlugin) : M Exchange error bool :=
  _ ← insert_extension "request_id_header" (env_uuid env);
  mret false.

Definition RequestId_upstream_request_filter : M (Exchange * RequestHeader) error unit := λ s,
  let '(x, req) := s in
  match extensions (ctx x) !! "request_id_header" with
  | Some request_id =>
      match hm_insert "x-request-id" request_id (up_req_headers req) with
      | Some h => (Ok tt, (x, mkRequestHeader _ (up_method req) h))
      | None => (Err (Anyhow "invalid header"), s)
      end
  | None => (Ok tt, s)
  end.

Definition RequestId_upstream_response_filter : M (Exchange * ResponseHeader) error unit := λ s,
  let '(x, resp) := s in
  match extensions (ctx x) !! "request_id_header" with
  | Some request_id =>
      match insert_header "x-request-id" request_id resp with
      | Ok h => (Ok tt, (x, h))
      | Err e => (Err e, s)
      | Panic => (Panic, s)
      end
  | None => (Ok tt, s)
  end.

Definition RequestId_response_filter (_ : RoutePlugin) : M Exchange error bool :=
  _ ← on_ctx (set_extensions ∅);
  mret false.

Definition RequestId : MiddlewarePlugin := {|
  request_filter := RequestId_request_filter;
  upstream_request_filter := RequestId_upstream_request_filter;
  response_filter := RequestId_response_filter;
  upstream_response_filter := RequestId_upstream_response_filter |}.
End request_id.

(** ** Lemmas *)

Section lemmas.
Context `{HttpApi, LbApi, PathTreeApi, Base64}.
Implicit Types x y : Exchange.

Lemma ask_credentials_frames : frames ask_credentials.
Proof. unfold ask_credentials, write_response_header. frame_auto. Qed.

Lemma ask_credentials_driven : input_driven ask_credentials.
Proof.
  unfold ask_credentials, write_response_header. frame_auto.
  apply driven_gets. by intros x y [_ ->].
Qed.

Lemma gets_headers_driven {A} (f : HeaderMap → A) :
  input_driven (gets (λ x, f (req_headers (session x)))).
Proof. apply driven_gets. intros x y [(_ & _ & -> & _) _]. done. Qed.

#[local] Hint Resolve ask_credentials_frames ask_credentials_driven gets_headers_driven : frames.

Lemma BasicAuth_frames env p : frames (BasicAuth_request_filter env p).
Proof. unfold BasicAuth_request_filter. frame_auto. Qed.

Lemma BasicAuth_driven env p : input_driven (BasicAuth_request_filter env p).
Proof.
  unfold BasicAuth_request_filter. frame_auto.
  apply (gets_headers_driven (λ h, hm_get h "authorization")).
Qed.

Lemma BasicAuth_keeps_ctx env p : keeps_ctx (BasicAuth_request_filter env p).
Proof. unfold BasicAuth_request_filter, ask_credentials. frame_auto. Qed.

Lemma RequestId_frames env p : frames (RequestId_request_filter env p).
Proof. unfold RequestId_request_filter. frame_auto. Qed.

Lemma RequestId_driven env p : input_driven (RequestId_request_filter env p).
Proof. unfold RequestId_request_filter. frame_auto. Qed.

(** Asking for credentials stops the request or fails. *)
Lemma ask_credentials_stops x : fst (ask_credentials x) = Ok true ∨ ∃ e, fst (ask_credentials x) = Err e.
Proof.
  unfold ask_credentials, on_session, write_response_header. munfold. simpl.
  unfold respond_with_authenticate, insert_header.
  destruct (hm_insert _ _ _); simpl; [|eauto].
  destruct (downstream _ _) as [r s] eqn:E. apply downstream_cases in E as [_ [[-> _]|[-> _]]]; eauto.
Qed.

Lemma respond_with_authenticate_spec `{!HeaderLaws} host h :
  respond_with_authenticate host = Ok h →
  resp_status h = 401%N ∧
  hm_get_all (resp_headers h) "www-authenticate" =
    ["Basic realm=" +:+ dquote +:+ host +:+ dquote +:+ ", charset=" +:+ dquote
       +:+ "UTF-8" +:+ dquote].
Proof.
  unfold respond_with_authenticate. intros E.
  destruct (insert_header_get _ _ _ _ "www-authenticate" E) as [Hs Hv].
  rewrite Hv. by case_decide.
Qed.

Lemma ask_credentials_writes `{!HeaderLaws} x r x' :
  healthy x → ask_credentials x = (r, x') →
  (r = Ok true ∧ ∃ h,
     written (session x') = written (session x) ++ [WriteHeader h true] ∧ resp_status h = 401%N ∧
     hm_get_all (resp_headers h) "www-authenticate" =
       ["Basic realm=" +:+ dquote +:+ ctx_host (ctx x) +:+ dquote +:+ ", charset=" +:+ dquote
          +:+ "UTF-8" +:+ dquote]) ∨
  ((∃ e, r = Err e) ∧ written (session x') = written (session x)).
Proof.
  intros Hx. unfold ask_credentials, on_session, write_response_header.
  unfold mbind, M_bind, gets, lift, zoom, mret, M_ret.
  destruct (respond_with_authenticate (ctx_host (ctx x))) as [h|e|] eqn:E.
  - rewrite (downstream_healthy _ _ Hx). intros [= <- <-]. left. split; [done|]. exists h.
    split; [done|]. by apply respond_with_authenticate_spec.
  - intros [= <- <-]. eauto.
  - unfold respond_with_authenticate, insert_header in E. by destruct (hm_insert _ _ _).
Qed.

Lemma validate_auth_header_no_panic auth user pass : validate_auth_header auth user pass ≠ Panic.
Proof.
  unfold validate_auth_header, from_utf8. munfold.
  destruct (decode_block _) as [bytes|]; [|done]. destruct (utf8_valid bytes); [|done].
  by destruct (default ("", "") (split_once ":" bytes)).
Qed.

(** The credentials a request presents, and whether they are the configured ones. *)
Definition presents (x : Exchange) (auth : string) : Prop :=
  ∃ header, hm_get (req_headers (session x)) "authorization" = Some header ∧
            header_to_str header = Some auth.
Definition credentials_match (auth user pass : string) : Prop :=
  starts_with "Basic " auth = true ∧
  ∃ bytes, decode_block (trim_start_matches "Basic " auth) = Some bytes ∧
    utf8_valid bytes = true ∧ default ("", "") (split_once ":" bytes) = (user, pass).

Lemma validate_auth_header_true auth user pass :
  validate_auth_header auth user pass = Ok true ↔
  ∃ bytes, decode_block (trim_start_matches "Basic " auth) = Some bytes ∧
    utf8_valid bytes = true ∧ default ("", "") (split_once ":" bytes) = (user, pass).
Proof.
  unfold validate_auth_header, from_utf8. munfold.
  destruct (decode_block _) as [bytes|]; [|naive_solver].
  destruct (utf8_valid bytes) eqn:Eu; [|split; [done|intros (b & [= <-] & ? & _); congruence]].
  destruct (default ("", "") (split_once ":" bytes)) as [u p] eqn:Ed. split.
  - intros [= [->%String.eqb_eq ->%String.eqb_eq]%andb_true_iff]. eauto.
  - intros (b & [= <-] & _ & E). rewrite Ed in E. injection E as -> ->.
    by rewrite !String.eqb_refl.
Qed.

Lemma filter_pass_iff env config user pass p x :
  plugin_config p = Some config → get_auth_config config = Some (user, pass) →
  fst (BasicAuth_request_filter env p x) = Ok false ↔
  ∃ auth, presents x auth ∧ credentials_match auth user pass.
Proof.
  intros Hp Hc. unfold BasicAuth_request_filter. rewrite Hp, Hc.
  unfold presents, credentials_match. setoid_rewrite <- validate_auth_header_true.
  unfold mbind, M_bind, gets, lift, ok_or.
  assert (Hstop : fst (ask_credentials x) ≠ Ok false)
    by (destruct (ask_credentials_stops x) as [->|[? ->]]; done).
  destruct (hm_get _ _) as [header|]; [|split; [done|by intros (? & (? & [=] & _) & _)]].
  destruct (header_to_str header) as [auth|] eqn:Eh; simpl;
    [|split; [done|intros (? & (? & [= <-] & ?) & _); congruence]].
  assert (Hauth : ∀ a, (∃ h, Some header = Some h ∧ header_to_str h = Some a) → a = auth)
    by (intros a (? & [= <-] & ?); congruence).
  destruct (starts_with "Basic " auth) eqn:Es; simpl;
    [|split; [done|intros (a & ->%Hauth & ? & _); congruence]].
  destruct (validate_auth_header auth user pass) as [[]|e|] eqn:Ev; simpl;
    (split; [try done; eauto 10|intros (a & ->%Hauth & _ & ?); congruence]).
Qed.
End lemmas.

#[export] Hint Resolve BasicAuth_keeps_ctx ask_credentials_frames BasicAuth_frames BasicAuth_driven
  RequestId_frames RequestId_driven gets_headers_driven : frames.

(** ** Properties *)

Section properties.
Context `{HttpApi, LbApi, PathTreeApi, Base64}.
Implicit Types x y : Exchange.

(** C27. With configured credentials, [basic_auth] lets a request through
    exactly when its Authorization header is "Basic " and the base64 of
    "user:pass", and it then leaves the exchange as it was. *)
Theorem basic_auth_pass_iff env config user pass p x
    (Hp : plugin_config p = Some config) (Hc : get_auth_config config = Some (user, pass)) :
  (fst (BasicAuth_request_filter env p x) = Ok false ↔
   ∃ auth, presents x auth ∧ credentials_match auth user pass) ∧
  (fst (BasicAuth_request_filter env p x) = Ok false → snd (BasicAuth_request_filter env p x) = x).
Proof.
  split; [by eapply filter_pass_iff|]. intros Hpass.
  pose proof (proj1 (filter_pass_iff _ _ _ _ _ _ Hp Hc) Hpass) as (auth & (h & Hh & Ha) & Hs & Hv).
  apply validate_auth_header_true in Hv.
  unfold BasicAuth_request_filter. rewrite Hp, Hc. munfold. by rewrite Hh, Ha, Hs, Hv.
Qed.

(** On a healthy connection, whenever [basic_auth] does not let a request
    through (missing or wrong credentials, or no credentials configured), it
    either stops it, and the only thing written is the end of a 401 response
    whose WWW-Authenticate names the requested host as realm, or it fails and
    nothing is written. *)
Theorem basic_auth_refusal (Hl : HeaderLaws) env p x r x'
    (Hx : healthy x) (Hr : BasicAuth_request_filter env p x = (r, x')) (Hn : r ≠ Ok false) :
  (r = Ok true ∧ ∃ h,
     written (session x') = written (session x) ++ [WriteHeader h true] ∧ resp_status h = 401%N ∧
     hm_get_all (resp_headers h) "www-authenticate" =
       ["Basic realm=" +:+ dquote +:+ ctx_host (ctx x) +:+ dquote +:+ ", charset=" +:+ dquote
          +:+ "UTF-8" +:+ dquote]) ∨
  ((∃ e, r = Err e) ∧ written (session x') = written (session x)).
Proof.
  assert (Hask : ∀ r x', ask_credentials x = (r, x') →
    (r = Ok true ∧ ∃ h,
     written (session x') = written (session x) ++ [WriteHeader h true] ∧ resp_status h = 401%N ∧
     hm_get_all (resp_headers h) "www-authenticate" =
       ["Basic realm=" +:+ dquote +:+ ctx_host (ctx x) +:+ dquote +:+ ", charset=" +:+ dquote
          +:+ "UTF-8" +:+ dquote]) ∨
    ((∃ e, r = Err e) ∧ written (session x') = written (session x))) by
    (by intros ??; apply ask_credentials_writes).
  clear -Hask Hr Hn.
  unfold BasicAuth_request_filter, mbind, M_bind, gets, lift, ok_or, mret, M_ret in Hr.
  destruct (plugin_config p) as [config|]; [|by simplify_eq].
  destruct (get_auth_config config) as [[user pass]|]; [|by apply Hask].
  destruct (hm_get _ _) as [header|]; [|by apply Hask].
  destruct (header_to_str header) as [auth|]; simpl in Hr; [|simplify_eq; eauto].
  destruct (starts_with "Basic " auth); simpl in Hr; [|by apply Hask].
  destruct (validate_auth_header auth user pass) as [[]|e|] eqn:Ev; simpl in Hr;
    [by simplify_eq|by apply Hask|simplify_eq; eauto|].
  by apply validate_auth_header_no_panic in Ev.
Qed.

(** Round trip: a request whose Authorization header is the standard
    encoding of the configured credentials is let through, provided the user
    name has no colon. *)
Theorem basic_auth_accepts (Hl : Base64Laws) env config user pass p x
    (Hp : plugin_config p = Some config) (Hc : get_auth_config config = Some (user, pass))
    (Hcolon : has_char ":" user = false) (Hutf : utf8_valid (user +:+ ":" +:+ pass) = true)
    (Hb64 : starts_with "Basic " (encode_block (user +:+ ":" +:+ pass)) = false)
    (Hx : presents x ("Basic " +:+ encode_block (user +:+ ":" +:+ pass))) :
  fst (BasicAuth_request_filter env p x) = Ok false.
Proof.
  apply (filter_pass_iff _ _ _ _ _ _ Hp Hc). eexists. split; [done|].
  split; [apply starts_with_app|]. rewrite trim_start_matches_once by done.
  eexists. split_and!; [apply block_roundtrip|done|].
  change (user +:+ ":" +:+ pass) with (user +:+ String ":" pass). by rewrite split_once_app.
Qed.
End properties.

(** ** Witnesses *)

#[local] Existing Instances toy_http toy_lb toy_pt toy_base64.

Definition toy_upstream : RouteUpstream := RouteUpstream_default.
Definition toy_container : RouteStoreContainer :=
  mkContainer _ _ ([("127.0.0.1", 80%N)] : LoadBalancer) RouteStorePathMatcher_new [] [] [] false ∅ None.
Definition toy_ctx : RouterContext :=
  mkRouterContext _ _ "a.test" toy_container toy_upstream ∅ (mkTimings 0).
Definition toy_session (path : string) (query : option string) (headers : list (string * string))
    : Session :=
  mkSession toy_http "GET" (mkUri path query (Some "a.test") (Some path) path) headers [] []
    None None false.
Definition toy_exchange (path : string) (query : option string) (headers : list (string * string))
    : Exchange := mkExchange _ _ _ (toy_session path query headers) toy_ctx.
Definition toy_env : Env := mkEnv 1000 "5f0c2a1e-uuid".

Definition basic_config : gmap string Value :=
  <["user" := VString "bob"]> (<["pass" := VString "secret"]> ∅).
Definition basic_plugin : RoutePlugin := mkRoutePlugin "basic_auth" (Some basic_config).

Lemma basic_auth_pass_iff_witness :
  fst (BasicAuth_request_filter toy_env basic_plugin
         (toy_exchange "/" None [("authorization", "Basic b64:bob:secret")])) = Ok false ∧
  fst (BasicAuth_request_filter toy_env basic_plugin
         (toy_exchange "/" None [("authorization", "Basic b64:bob:wrong")])) ≠ Ok false.
Proof.
  destruct (basic_auth_pass_iff toy_env basic_config "bob" "secret" basic_plugin
    (toy_exchange "/" None [("authorization", "Basic b64:bob:secret")]) eq_refl eq_refl) as [Hiff _].
  split; [|vm_compute; discriminate].
  apply Hiff. exists "Basic b64:bob:secret". split; [by eexists|].
  split; [done|]. by exists "bob:secret".
Defined.

Lemma basic_auth_refusal_witness :
  ∃ h, written (session (snd (BasicAuth_request_filter toy_env basic_plugin (toy_exchange "/" None []))))
       = [WriteHeader h true] ∧ resp_status h = 401%N.
Proof.
  destruct (basic_auth_refusal toy_http_laws toy_env basic_plugin
    (toy_exchange "/" None []) _ _ eq_refl (surjective_pairing _)) as [(_ & h & ? & ? & _)|[[e He] _]].
  - vm_compute. discriminate.
  - by exists h.
  - vm_compute in He. discriminate.
Defined.

Lemma basic_auth_accepts_witness :
  fst (BasicAuth_request_filter toy_env basic_plugin
         (toy_exchange "/" None [("authorization", "Basic b64:bob:secret")])) = Ok false.
Proof.
  apply (basic_auth_accepts toy_base64_laws toy_env basic_config "bob" "secret");
    try reflexivity. by eexists.
Defined.
