(* ===== verification/Oauth2.v ===== *)
(** The oauth2 plugin (plugins/oauth2 and plugins/jwt): JWT claims, secure
    cookie, providers, the validation of users and the request filter.
    jsonwebtoken, cookie, short-crypt, reqwest and the serde decoding of the
    providers' replies are parameters. *)
From S2P Require Import Prelude Strs Config Stores Http Routes Plugins.
#[local] Open Scope string_scope.
#[local] Open Scope list_scope.

(** ** Data *)

Record JwtClaims := mkClaims {
  claim_sub : string;
  claim_exp : N;
  claim_iat : N;
  claim_teams : list string;
  claim_ids : list string }.

Record OauthUser := mkOauthUser {
  email : string;
  team_ids : list string;
  organization_ids : list string;
  usernames : list string }.

Inductive OauthType := OauthType_Github | OauthType_Workos.

Record Provider := mkProvider {
  provider_typ : OauthType;
  client_id : string;
  client_secret : string }.

Record GithubTokenResponse := mkTokenResponse {
  token_error : option string;
  access_token : option string }.
Record GithubEmailResponse := mkEmailResponse { gh_email : string; gh_primary : bool }.
Record GithubUserResponse := mkUserResponse { gh_login : string }.
Record WorkosUserResponse := mkWorkosUser { workos_email : string }.
Record WorkosTokenResponse := mkWorkosToken { workos_user : WorkosUserResponse }.

(** The cookie under construction ([Cookie::build]...[build()]). *)
Record Cookie := mkCookie {
  cookie_name : string;
  cookie_value : string;
  cookie_secure : bool;
  cookie_domain : string;
  cookie_path : string;
  cookie_expires : option N;
  cookie_http_only : bool;
  cookie_same_site_lax : bool }.

(** ** External code *)

(** [jsonwebtoken]: [jwt_decode now] is [decode] with the default validation
    at time [now], which the library reads itself, and its panic on a clock
    before 1970 is not modelled; an unexpired token decodes to its claims. *)
Class JwtApi := {
  jwt_encode : JwtClaims → string → option string;
  jwt_decode : N → string → string → option JwtClaims }.
Class JwtLaws `{JwtApi} : Prop := {
  jwt_roundtrip now c key t :
    jwt_encode c key = Some t → (now < claim_exp c)%N → jwt_decode now t key = Some c }.

(** [short_crypt::ShortCrypt] with the key of this process; a URL component has
    none of the characters that separate query parameters. *)
Class ShortCrypt := {
  encrypt_to_url_component : string → string;
  decrypt_url_component : string → option string }.
Class ShortCryptLaws `{ShortCrypt} : Prop := {
  decrypt_encrypt s : decrypt_url_component (encrypt_to_url_component s) = Some s;
  encrypt_url_safe c s :
    c ∈ ["="%char; "&"%char] → has_char c (encrypt_to_url_component s) = false }.

(** [cookie::Cookie::parse] (name and value) and [Cookie::to_string]. [parse]
    reads one cookie with its attributes: what follows a semicolon is an
    attribute, unknown ones are skipped ([split_parse] is the function that
    reads several cookies). *)
Class CookieApi := {
  cookie_parse : string → option (string * string);
  cookie_to_string : Cookie → string }.
Definition cookie_token (t : string) : Prop :=
  t ≠ "" ∧ has_char "=" t = false ∧ has_char ";" t = false ∧ has_char " " t = false.
Class CookieLaws `{CookieApi} : Prop := {
  cookie_parse_first n v rest :
    cookie_token n → cookie_token v → cookie_parse (n +:+ "=" +:+ v +:+ ";" +:+ rest) = Some (n, v) }.

(** [reqwest] and the serde decoding of the reply bodies. *)
Record HttpRequest := mkHttpRequest {
  http_method : string;
  http_url : string;
  http_query : list (string * string);
  http_headers : list (string * string);
  http_bearer : option string;
  http_json : list (string * string) }.
Class HttpClient := {
  send : HttpRequest → option string;
  parse_token : string → option GithubTokenResponse;
  parse_user : string → option GithubUserResponse;
  parse_emails : string → option (list GithubEmailResponse);
  parse_workos : string → option WorkosTokenResponse }.

(** ** JWT (plugins/jwt/mod.rs) *)

Definition one_day_in_secs : N := 60 * 60 * 24.

Section jwt.
Context `{JwtApi}.

(** [now] is [SystemTime::now()] since the epoch. *)
Definition encode_jwt (now : N) (sub secret : string) : res error string :=
  let in_one_day := (now + one_day_in_secs)%N in
  if (u64_max <? in_one_day)%N then Panic
  else
    let claims := mkClaims sub in_one_day now [] [] in
    ok_or (Anyhow "jwt") (jwt_encode claims secret).

Definition decode_jwt (now : N) (token secret : string) : res error JwtClaims :=
  ok_or (Anyhow "jwt") (jwt_decode now token secret).
End jwt.

(** ** Users and providers (provider.rs, github.rs, workos.rs) *)

Definition OauthUser_from (claims : JwtClaims) : OauthUser :=
  mkOauthUser (claim_sub claims) (claim_teams claims) (claim_ids claims) [].

Definition OauthType_show (t : OauthType) : string :=
  match t with OauthType_Github => "github" | OauthType_Workos => "workos" end.

Definition GITHUB_API_URL := "https://api.github.com".
Definition GITHUB_OAUTH_URL := "https://github.com/login/oauth/authorize".
Definition GITHUB_OAUTH_TOKEN_URL := "https://github.com/login/oauth/access_token".
Definition WORKOS_API_URL := "https://api.workos.com/user_management/authorize".

Definition github_callback_url (id state : string) : string :=
  let redirect_uri := "" in
  GITHUB_OAUTH_URL +:+ "?client_id=" +:+ id +:+ "&redirect_uri=" +:+ redirect_uri +:+ "&state="
    +:+ state +:+ "&scope=user:email&response_type=code".

Definition workos_callback_url (id state : string) : string :=
  WORKOS_API_URL +:+ "?client_id=" +:+ id +:+ "&redirect_uri=" +:+ "" +:+ "&state="
    +:+ state +:+ "&provider=authkit&response_type=code".

Definition get_oauth_callback_url (self : Provider) (state : string) : string :=
  match provider_typ self with
  | OauthType_Github => github_callback_url (client_id self) state
  | OauthType_Workos => workos_callback_url (client_id self) state
  end.

Section providers.
Context `{HttpClient}.

Definition get_oauth_token (id secret code : string) : res error GithubTokenResponse :=
  response ← ok_or (Anyhow "http") (send {|
    http_method := "POST"; http_url := GITHUB_OAUTH_TOKEN_URL;
    http_query := [("client_id", id); ("client_secret", secret); ("code", code)];
    http_headers := [("accept", "application/json")]; http_bearer := None; http_json := [] |});
  ok_or (Anyhow "json") (parse_token response).

Definition get_user_info (token : string) : res error GithubUserResponse :=
  response ← ok_or (Anyhow "http") (send {|
    http_method := "GET"; http_url := GITHUB_API_URL +:+ "/user"; http_query := [];
    http_headers := [("user-agent", "pingora/0.2.0")]; http_bearer := Some token;
    http_json := [] |});
  ok_or (Anyhow "json") (parse_user response).

Definition get_user_emails (token : string) : res error (list GithubEmailResponse) :=
  response ← ok_or (Anyhow "http") (send {|
    http_method := "GET"; http_url := GITHUB_API_URL +:+ "/user/emails"; http_query := [];
    http_headers := [("user-agent", "pingora/0.2.0")]; http_bearer := Some token;
    http_json := [] |});
  ok_or (Anyhow "json") (parse_emails response).

Definition github_get_oauth_user (id secret code : string) : res error OauthUser :=
  token ← get_oauth_token id secret code;
  match access_token token with
  | None => Err (Anyhow "Failed to get access token from Github")
  | Some tok =>
      user ← get_user_info tok;
      emails ← get_user_emails tok;
      primary_email ← unwrap (List.find gh_primary emails);
      Ok (mkOauthUser (gh_email primary_email) [] [] [gh_login user])
  end.

Definition workos_get_oauth_user (id secret code : string) : res error OauthUser :=
  response ← ok_or (Anyhow "http") (send {|
    http_method := "POST"; http_url := WORKOS_API_URL; http_query := []; http_headers := [];
    http_bearer := None;
    http_json := [("client_id", id); ("client_secret", secret); ("code", code);
                  ("grant_type", "authorization_code"); ("user-agent", "pingora/0.2.0")] |});
  body ← ok_or (Anyhow "json") (parse_workos response);
  Ok (mkOauthUser (workos_email (workos_user body)) [] [] []).

Definition get_oauth_user (self : Provider) (code : string) : res error OauthUser :=
  match provider_typ self with
  | OauthType_Github => github_get_oauth_user (client_id self) (client_secret self) code
  | OauthType_Workos => workos_get_oauth_user (client_id self) (client_secret self) code
  end.
End providers.

(** ** Query strings and authorisation (shared.rs) *)

(** One "key=value": what follows a second equals sign is dropped. *)
Definition parse_kv (kv : string) : option (string * string) :=
  match split_char "=" kv with
  | k :: v :: _ => Some (k, v)
  | _ => None
  end.

(** [collect] into a [HashMap]: a later key replaces an earlier one. *)
Definition from_string_to_query_params (value : string) : gmap string string :=
  fold_left (λ m kv, match parse_kv kv with Some (k, v) => <[k := v]> m | None => m end)
    (split_char "&" value) ∅.

Definition any_in (values allowed : list string) : bool :=
  existsb (λ v, bool_decide (v ∈ allowed)) values.

(** The [match validation_type] of the loop: [None] goes on to the next
    validation. *)
Definition decide_validation (user : OauthUser) (validation_type : string)
    (validation_values : list string) : option bool :=
  if String.eqb validation_type "team_id" then Some (any_in validation_values (team_ids user))
  else if String.eqb validation_type "org_id" then
    Some (any_in validation_values (organization_ids user))
  else if String.eqb validation_type "email" then Some (bool_decide (email user ∈ validation_values))
  else if String.eqb validation_type "username" then
    Some (any_in validation_values (usernames user))
  else None.

(** One turn of the loop; [None] is [continue]. *)
Definition check_validation (user : OauthUser) (validation : Value) : option bool :=
  validation_object ← as_object validation;
  ty ← obj_get "type" validation_object;
  validation_type ← as_str ty;
  v ← obj_get "value" validation_object;
  values ← as_array v;
  decide_validation user validation_type (omap as_str values).

Fixpoint validate_loop (user : OauthUser) (validations : list Value) : bool :=
  match validations with
  | [] => false
  | validation :: rest =>
      match check_validation user validation with
      | Some answer => answer
      | None => validate_loop user rest
      end
  end.

Definition validate_user_from_provider (user : OauthUser) (validations : option Value) : bool :=
  match v ← validations; as_array v with
  | None => true
  | Some validations_array => validate_loop user validations_array
  end.

(** ** The secure cookie (secure_cookie.rs) *)

Definition COOKIE_NAME := "__Secure_Auth_PRK_JWT".

Definition extract_cookie_domain (host : string) : string :=
  let parts := split_char "." host in
  if (length parts <=? 2)%nat then host
  else join "." (drop (length parts - 2) parts).

(** [OffsetDateTime::checked_add] of one day; the last instant is that of the
    year 9999. *)
Definition checked_add_day (now : N) : option N :=
  let t := (now + 86400)%N in if (t <=? 253402300799)%N then Some t else None.

Definition create_secure_cookie `{JwtApi} (now : N) (user : OauthUser) (jwt_secret host : string)
    : res error Cookie :=
  jwt_token ← encode_jwt now (email user) jwt_secret;
  let domain := extract_cookie_domain host in
  let expiration := checked_add_day now in
  Ok (mkCookie COOKIE_NAME jwt_token true domain "/" expiration true true).

Definition _remove_secure_cookie (now : N) (host : string) : Cookie :=
  mkCookie COOKIE_NAME "" true (extract_cookie_domain host) "/" (checked_add_day now) true true.

(** ** The plugin (mod.rs) *)

Section oauth2.
Context `{HttpApi, LbApi, PathTreeApi, JwtApi, ShortCrypt, CookieApi, HttpClient}.

Definition is_authorized (user : OauthUser) (validations : option Value) : bool :=
  validate_user_from_provider user validations.

(** [duration_since(UNIX_EPOCH).unwrap()] *)
Definition get_current_timestamp (env : Env) : res error N :=
  if (env_clock env <? 0)%Z then Panic else Ok (env_now env).

Definition redirect_to_oauth_callback (env : Env) (oauth_provider : Provider)
    : M Exchange error bool :=
  current_address ← gets (λ x, uri_string (req_uri (session x)));
  now ← lift (get_current_timestamp env);
  let state := show_N now +:+ ";" +:+ current_address in
  let state := encrypt_to_url_component state in
  let res_headers := build_no_case 307 in
  res_headers ← lift (append_header "location" (get_oauth_callback_url oauth_provider state) res_headers);
  res_headers ← lift (append_header "cache-control" "no-store, no-cache, must-revalidate, max-age=0"
                        res_headers);
  _ ← on_session (write_response_header res_headers true);
  mret true.

Definition unauthorized_response : M Exchange error bool :=
  _ ← on_session (write_response_header (build_no_case 401) true);
  mret true.

(** The loop over the [Cookie] headers; [to_str().unwrap()] can panic. *)
Fixpoint find_secure_jwt (cookies : list string) (secure_jwt : option string)
    : res error (option string) :=
  match cookies with
  | [] => Ok secure_jwt
  | cookie :: rest =>
      cookie_str ← unwrap (header_to_str cookie);
      match cookie_parse cookie_str with
      | None => find_secure_jwt rest secure_jwt
      | Some (name, value) =>
          find_secure_jwt rest (if String.eqb name COOKIE_NAME then Some value else secure_jwt)
      end
  end.

Definition validate_cookie (env : Env) (jwt_secret : string) (validations : option Value)
    : M Exchange error bool :=
  cookie_header ← gets (λ x, hm_get_all (req_headers (session x)) "cookie");
  secure_jwt ← lift (find_secure_jwt cookie_header None);
  match secure_jwt with
  | None => mret false
  | Some token =>
      match decode_jwt (env_now env) token jwt_secret with
      | Ok claims =>
          if negb (is_authorized (OauthUser_from claims) validations) then unauthorized_response
          else mret true
      | Err _ => mret false
      | Panic => crash
      end
  end.

Definition parse_provider (plugin_config : gmap string Value) : res error OauthType :=
  provider ← ok_or (Anyhow "Missing or invalid provider")
               (v ← plugin_config !! "provider"; as_str v);
  ok_or (Anyhow "Provider not found in the plugin configuration")
    (case_str [("github", OauthType_Github); ("workos", OauthType_Workos)] provider).

(** Step 0 and 1 of the filter: the request is for the callback path. *)
Definition handle_callback (env : Env) (oauth_provider : Provider) (jwt_secret : string)
    (validations : option Value) : M Exchange error bool :=
  uri_query ← gets (λ x, uri_query (req_uri (session x)));
  match uri_query with
  | None => unauthorized_response
  | Some query =>
  let query_params := from_string_to_query_params query in
  match query_params !! "code" with
  | None => unauthorized_response
  | Some code =>
  match query_params !! "state" with
  | None => unauthorized_response
  | Some state =>
  match decrypt_url_component state with
  | None => unauthorized_response
  | Some encrypted =>
  match from_utf8 encrypted with
  | None => unauthorized_response
  | Some redirect_from_state =>
      '(timestamp, current_address) ← lift (unwrap (split_once ";" redirect_from_state));
      timestamp ← lift (unwrap (parse_u64 timestamp));
      now ← lift (get_current_timestamp env);
      if (wrap64 (timestamp + 120) <? now)%N then unauthorized_response
      else
        match get_oauth_user oauth_provider code with
        | Panic => crash
        | Err _ => unauthorized_response
        | Ok user =>
            if negb (is_authorized user validations) then unauthorized_response
            else
              host ← gets (λ x, ctx_host (ctx x));
              jwt_cookie ← lift (create_secure_cookie (env_now env) user jwt_secret host);
              let res_headers := build_no_case 302 in
              res_headers ← lift (insert_header "set-cookie" (cookie_to_string jwt_cookie) res_headers);
              res_headers ← lift (insert_header "location" current_address res_headers);
              res_headers ← lift (insert_header "cache-control"
                                    "no-store, no-cache, must-revalidate, max-age=0" res_headers);
              _ ← on_session (write_response_header res_headers true);
              mret true
        end
  end end end end end.

Definition callback_path (provider : OauthType) : string :=
  "/__/oauth/" +:+ OauthType_show provider +:+ "/callback".

Definition Oauth2_request_filter (env : Env) (plugin : RoutePlugin) : M Exchange error bool :=
  match plugin_config plugin with
  | None => mret false
  | Some plugin_config =>
      provider ← lift (parse_provider plugin_config);
      id ← lift (get_required_config plugin_config "client_id");
      secret ← lift (get_required_config plugin_config "client_secret");
      jwt_secret ← lift (get_required_config plugin_config "jwt_secret");
      let validations := plugin_config !! "validations" in
      let oauth_provider := mkProvider provider id secret in
      uri ← gets (λ x, req_uri (session x));
      if String.eqb (uri_path uri) (callback_path provider) then
        handle_callback env oauth_provider jwt_secret validations
      else
        valid ← validate_cookie env jwt_secret validations;
        if (valid : bool) then mret false
        else redirect_to_oauth_callback env oauth_provider
  end.

Definition Oauth2 : MiddlewarePlugin := {|
  request_filter := Oauth2_request_filter;
  upstream_request_filter := mret tt;
  response_filter := λ _, mret false;
  upstream_response_filter := mret tt |}.
End oauth2.

(** ** Lemmas *)

Lemma any_in_true values allowed :
  any_in values allowed = true ↔ ∃ v, v ∈ values ∧ v ∈ allowed.
Proof.
  unfold any_in. rewrite existsb_exists.
  split; intros (v & Hv & Ha); exists v; split.
  - by apply list_elem_of_In.
  - by apply bool_decide_eq_true in Ha.
  - by apply list_elem_of_In.
  - by apply bool_decide_eq_true.
Qed.

Lemma parse_kv_pair k v :
  has_char "=" k = false → has_char "=" v = false → parse_kv (k +:+ "=" +:+ v) = Some (k, v).
Proof.
  intros Hk Hv. unfold parse_kv. change (k +:+ "=" +:+ v) with (k +:+ String "=" v).
  rewrite split_char_app by done. by rewrite split_char_no_sep.
Qed.

(** A pair that can be written as "key=value" in a query string. *)
Definition plain_pair (kv : string * string) : Prop :=
  has_char "=" kv.1 = false ∧ has_char "=" kv.2 = false ∧
  has_char "&" kv.1 = false ∧ has_char "&" kv.2 = false.
Definition show_pair (kv : string * string) : string := kv.1 +:+ "=" +:+ kv.2.
Definition show_query (kvs : list (string * string)) : string := join "&" (show_pair <$> kvs).

Lemma query_params_fold kvs (m : gmap string string) :
  Forall plain_pair kvs →
  fold_left (λ m kv, match parse_kv kv with Some (k, v) => <[k := v]> m | None => m end)
    (show_pair <$> kvs) m = list_to_map (reverse kvs) ∪ m.
Proof.
  intros Hkvs. revert m. induction Hkvs as [|[k v] kvs (Hk & Hv & _) _ IH]; intros m; simpl.
  - by rewrite (left_id_L ∅ (∪)).
  - unfold show_pair at 2. simpl in *. rewrite parse_kv_pair by done. rewrite IH.
    rewrite reverse_cons, list_to_map_app. simpl.
    rewrite <- (assoc_L (∪)). f_equal. by rewrite <- insert_union_l, (left_id_L ∅ (∪)).
Qed.

Lemma query_params_of_pairs kvs :
  kvs ≠ [] → Forall plain_pair kvs →
  from_string_to_query_params (show_query kvs) = list_to_map (reverse kvs).
Proof.
  intros Hne Hkvs. unfold from_string_to_query_params, show_query.
  change "&"%string with (String "&" ""). rewrite split_join.
  - rewrite query_params_fold by done. by rewrite (right_id_L ∅ (∪)).
  - by destruct kvs.
  - apply Forall_fmap. eapply Forall_impl; [exact Hkvs|].
    intros [k v] (_ & _ & Hk & Hv). unfold show_pair. simpl in *.
    by rewrite !has_char_app, Hk, Hv.
Qed.

Section lemmas.
Context `{HttpApi, LbApi, PathTreeApi, JwtApi, ShortCrypt, CookieApi, HttpClient}.
Implicit Types x y : Exchange.

Lemma unauthorized_frames : frames unauthorized_response.
Proof. unfold unauthorized_response, write_response_header. frame_auto. Qed.
Lemma unauthorized_driven : input_driven unauthorized_response.
Proof. unfold unauthorized_response, write_response_header. frame_auto. Qed.

Lemma gets_uri_driven {A} (f : Uri → A) : input_driven (gets (λ x, f (req_uri (session x)))).
Proof. apply driven_gets. intros x y [(_ & -> & _) _]. done. Qed.
Lemma gets_host_driven : input_driven (gets (λ x, ctx_host (ctx x))).
Proof. apply driven_gets. by intros x y [_ ->]. Qed.

#[local] Hint Resolve unauthorized_frames unauthorized_driven gets_uri_driven gets_host_driven
  gets_headers_driven : frames.

Lemma redirect_frames env p : frames (redirect_to_oauth_callback env p).
Proof. unfold redirect_to_oauth_callback, write_response_header. frame_auto. Qed.
Lemma redirect_driven env p : input_driven (redirect_to_oauth_callback env p).
Proof.
  unfold redirect_to_oauth_callback, write_response_header. frame_auto.
Qed.
Lemma validate_cookie_frames env s vs : frames (validate_cookie env s vs).
Proof. unfold validate_cookie. frame_auto. Qed.
Lemma validate_cookie_driven env s vs : input_driven (validate_cookie env s vs).
Proof.
  unfold validate_cookie. frame_auto. apply (gets_headers_driven (λ h, hm_get_all h "cookie")).
Qed.
Lemma handle_callback_frames env p s vs : frames (handle_callback env p s vs).
Proof. unfold handle_callback, write_response_header. frame_auto. Qed.
Lemma handle_callback_driven env p s vs : input_driven (handle_callback env p s vs).
Proof.
  unfold handle_callback, write_response_header. frame_auto.
Qed.

#[local] Hint Resolve redirect_frames redirect_driven validate_cookie_frames
  validate_cookie_driven handle_callback_frames handle_callback_driven : frames.

Lemma Oauth2_frames env p : frames (Oauth2_request_filter env p).
Proof. unfold Oauth2_request_filter. frame_auto. Qed.
Lemma Oauth2_driven env p : input_driven (Oauth2_request_filter env p).
Proof. unfold Oauth2_request_filter. frame_auto. apply (gets_uri_driven (λ u, u)). Qed.

Lemma Oauth2_keeps_ctx env p : keeps_ctx (Oauth2_request_filter env p).
Proof.
  unfold Oauth2_request_filter, handle_callback, validate_cookie, redirect_to_oauth_callback,
    unauthorized_response.
  frame_auto.
Qed.

(** The settings the filter reads from the plugin's configuration. *)
Definition settings (plugin : RoutePlugin) (p : Provider) (jwt_secret : string)
    (validations : option Value) : Prop :=
  ∃ config, plugin_config plugin = Some config ∧
    parse_provider config = Ok (provider_typ p) ∧
    get_required_config config "client_id" = Ok (client_id p) ∧
    get_required_config config "client_secret" = Ok (client_secret p) ∧
    get_required_config config "jwt_secret" = Ok jwt_secret ∧
    config !! "validations" = validations.

Lemma filter_settings env plugin p secret vs x :
  settings plugin p secret vs →
  Oauth2_request_filter env plugin x =
  (if String.eqb (uri_path (req_uri (session x))) (callback_path (provider_typ p)) then
     handle_callback env p secret vs
   else valid ← validate_cookie env secret vs;
        if (valid : bool) then mret false else redirect_to_oauth_callback env p) x.
Proof.
  intros (config & Hc & Hp & Hi & Hs & Hj & Hv). unfold Oauth2_request_filter.
  rewrite Hc. unfold mbind, M_bind, lift, gets. rewrite Hp, Hi, Hs, Hj, Hv. by destruct p.
Qed.

Definition refusal : Downstream := WriteHeader (build_no_case 401) true.

Lemma unauthorized_writes x :
  healthy x → unauthorized_response x = (Ok true, wrote refusal x).
Proof.
  intros Hx. unfold unauthorized_response, write_response_header, mbind, M_bind.
  by rewrite on_session_downstream.
Qed.

Definition no_store := "no-store, no-cache, must-revalidate, max-age=0".

(** The state parameter of a redirect issued at [now] for the address [u]. *)
Definition login_state (now : N) (u : string) : string :=
  encrypt_to_url_component (show_N now +:+ ";" +:+ u).

(** What a query must carry for the callback to log the user in. *)
Definition callback_grants (now : N) (p : Provider) (validations : option Value)
    (query : string) (user : OauthUser) (address : string) : Prop :=
  ∃ code state ts_text ts,
    from_string_to_query_params query !! "code" = Some code ∧
    from_string_to_query_params query !! "state" = Some state ∧
    decrypt_url_component state = Some (ts_text +:+ ";" +:+ address) ∧
    parse_u64 ts_text = Some ts ∧ (now <= wrap64 (ts + 120))%N ∧
    get_oauth_user p code = Ok user ∧ is_authorized user validations = true.

(** The answer of a successful callback. *)
Definition login_answer (cookie : Cookie) (address : string) (h : ResponseHeader) : Prop :=
  ∃ h1 h2, insert_header "set-cookie" (cookie_to_string cookie) (build_no_case 302) = Ok h1 ∧
    insert_header "location" address h1 = Ok h2 ∧ insert_header "cache-control" no_store h2 = Ok h.

Lemma login_answer_spec `{!HeaderLaws} cookie address h :
  login_answer cookie address h →
  resp_status h = 302%N ∧ hm_get_all (resp_headers h) "location" = [address] ∧
  hm_get_all (resp_headers h) "set-cookie" = [cookie_to_string cookie].
Proof.
  intros (h1 & h2 & E1 & E2 & E3).
  destruct (insert_header_get _ _ _ _ "location" E3) as [Hs3 Hl3].
  destruct (insert_header_get _ _ _ _ "set-cookie" E3) as [_ Hc3].
  destruct (insert_header_get _ _ _ _ "location" E2) as [Hs2 Hl2].
  destruct (insert_header_get _ _ _ _ "set-cookie" E2) as [_ Hc2].
  destruct (insert_header_get _ _ _ _ "set-cookie" E1) as [Hs1 Hc1].
  rewrite Hs3, Hs2, Hs1, Hl3, Hc3. simpl. rewrite Hl2, Hc2. simpl. by rewrite Hc1.
Qed.

(** On a healthy connection the callback refuses, or grants a login. *)
Lemma handle_callback_cases env p secret vs x b x' :
  healthy x → handle_callback env p secret vs x = (Ok b, x') →
  b = true ∧
  (x' = wrote refusal x ∨
   ∃ query user address cookie h, uri_query (req_uri (session x)) = Some query ∧
     callback_grants (env_now env) p vs query user address ∧
     create_secure_cookie (env_now env) user secret (ctx_host (ctx x)) = Ok cookie ∧
     login_answer cookie address h ∧ x' = wrote (WriteHeader h true) x).
Proof.
  intros Hx. unfold handle_callback. pose proof (unauthorized_writes x Hx) as Hun.
  unfold mbind, M_bind, gets, lift, unwrap.
  destruct (uri_query _) as [query|]; [|rewrite Hun; naive_solver].
  destruct (_ !! "code") as [code|] eqn:Ec; [|rewrite Hun; naive_solver].
  destruct (_ !! "state") as [state|] eqn:Es; [|rewrite Hun; naive_solver].
  destruct (decrypt_url_component state) as [bytes|] eqn:Ed; [|rewrite Hun; naive_solver].
  unfold from_utf8. destruct (utf8_valid bytes); [|rewrite Hun; naive_solver].
  destruct (split_once ";" bytes) as [[ts_text address]|] eqn:Ep; [|done].
  destruct (parse_u64 ts_text) as [ts|] eqn:Et; [|done].
  unfold get_current_timestamp. destruct (env_clock env <? 0)%Z; [done|].
  destruct (wrap64 (ts + 120) <? env_now env)%N eqn:En; [rewrite Hun; naive_solver|].
  destruct (get_oauth_user p code) as [user|e|] eqn:Eu; [|rewrite Hun; naive_solver|done].
  destruct (is_authorized user vs) eqn:Ea; simpl; [|rewrite Hun; naive_solver].
  destruct (create_secure_cookie _ _ _ _) as [cookie|e|] eqn:Ek; [|done..].
  destruct (insert_header "set-cookie" _ _) as [h1|e|] eqn:E1; [|done..].
  destruct (insert_header "location" _ _) as [h2|e|] eqn:E2; [|done..].
  destruct (insert_header "cache-control" _ _) as [h3|e|] eqn:E3; [|done..].
  unfold write_response_header. rewrite (on_session_downstream _ _ Hx). intros [= <- <-].
  split; [done|]. right. exists query, user, address, cookie, h3. split_and!; try done.
  - exists code, state, ts_text, ts. apply split_once_Some in Ep as [-> _].
    apply N.ltb_ge in En. by split_and!.
  - by exists h1, h2.
Qed.
End lemmas.

#[export] Hint Resolve Oauth2_keeps_ctx Oauth2_frames Oauth2_driven : frames.

(** ** Properties *)

(** Authorisation is decided by the first validation that is an object
    with a known string "type" and an array "value": validations before it are
    skipped and those after it are never looked at. Without an array of
    validations every user is authorised; with no decisive one, nobody is. *)
Theorem validations_first_decisive user validations :
  validate_user_from_provider user validations =
  match v ← validations; as_array v with
  | None => true
  | Some vs =>
      match list_find (λ v, is_Some (check_validation user v)) vs with
      | None => false
      | Some (_, v) => bool_decide (check_validation user v = Some true)
      end
  end.
Proof.
  unfold validate_user_from_provider. destruct (v ← validations; as_array v) as [vs|]; [|done].
  clear validations. induction vs as [|v vs IH]; simpl; [done|].
  destruct (check_validation user v) as [b|] eqn:E.
  - rewrite decide_True by (by eexists). rewrite E. by destruct b.
  - rewrite decide_False by (intros [? [=]]). rewrite IH.
    by destruct (list_find _ vs) as [[i w]|].
Qed.

(** Validations written with other member names (for instance "key" and
    "values") are ignored, so a configuration made only of those denies every
    user. *)
Theorem validations_without_type_deny user vs
    (Hvs : Forall (λ v, ∀ o, as_object v = Some o → obj_get "type" o = None) vs) :
  validate_user_from_provider user (Some (VArray vs)) = false.
Proof.
  change (validate_loop user vs = false).
  induction Hvs as [|v vs Hv _ IH]; simpl; [done|].
  unfold check_validation. destruct (as_object v) as [o|]; [|done].
  change (mbind (M := option) ?f (Some o)) with (f o). cbv beta. by rewrite (Hv o).
Qed.

(** Query strings round trip: a non-empty list of pairs with distinct
    keys and without the separators is parsed back as the same map. *)
Theorem query_params_roundtrip kvs (Hne : kvs ≠ []) (Hplain : Forall plain_pair kvs)
    (Hkeys : NoDup (kvs.*1)) :
  from_string_to_query_params (show_query kvs) = list_to_map kvs.
Proof.
  rewrite query_params_of_pairs by done. apply list_to_map_proper.
  - by rewrite reverse_Permutation.
  - apply reverse_Permutation.
Qed.

(** The cookie's domain is the host itself when it has at most two labels,
    and otherwise its last two labels: a proper suffix of the host that starts
    at a label boundary. *)
Theorem extract_cookie_domain_spec host :
  length (split_char "." (extract_cookie_domain host)) = Nat.min 2 (length (split_char "." host)) ∧
  (extract_cookie_domain host = host ∨
   ∃ sub, host = sub +:+ "." +:+ extract_cookie_domain host).
Proof.
  unfold extract_cookie_domain. pose proof (join_split "." host) as Hj.
  pose proof (split_char_parts "." host) as Hparts. pose proof (split_char_nonempty "." host) as Hne.
  destruct (length (split_char "." host) <=? 2)%nat eqn:El.
  - apply Nat.leb_le in El. split; [by rewrite Nat.min_r by lia|auto].
  - apply Nat.leb_gt in El. set (parts := split_char "." host) in *.
    set (n := length parts - 2). assert (Hd : length (drop n parts) = 2)
      by (rewrite length_drop; unfold n; lia).
    change (join "." (drop n parts)) with (join (String "." "") (drop n parts)).
    rewrite split_join; [|by destruct (drop n parts)|by apply Forall_drop].
    split; [lia|]. right. exists (join "." (take n parts)).
    rewrite <- Hj at 1. rewrite <- (take_drop n parts) at 1. apply join_app.
    + destruct n eqn:En; [unfold n in En; lia|]. destruct parts; [simpl in El; lia|done].
    + by destruct (drop n parts).
Qed.

Section properties.
Context `{HttpApi, LbApi, PathTreeApi, JwtApi, ShortCrypt, CookieApi, HttpClient}.
Implicit Types x : Exchange.

(** C2. Safety of the callback. On a healthy connection an answered callback
    always stops the request, with one response: 401, or a 302 that sets a
    cookie, and that only when the query carries a code and a state this
    process issued at most 120 seconds ago, and the provider's user for that
    code is authorised; the redirect goes to the address kept in the state. *)
Theorem callback_safe (Hl : HeaderLaws) env plugin p secret vs x b x'
    (Hset : settings plugin p secret vs)
    (Hpath : uri_path (req_uri (session x)) = callback_path (provider_typ p))
    (Hx : healthy x) (Hr : Oauth2_request_filter env plugin x = (Ok b, x')) :
  b = true ∧
  ∃ h, x' = wrote (WriteHeader h true) x ∧
    (h = build_no_case 401 ∨
     ∃ query user address cookie, resp_status h = 302%N ∧
       uri_query (req_uri (session x)) = Some query ∧
       callback_grants (env_now env) p vs query user address ∧
       create_secure_cookie (env_now env) user secret (ctx_host (ctx x)) = Ok cookie ∧
       hm_get_all (resp_headers h) "set-cookie" = [cookie_to_string cookie] ∧
       hm_get_all (resp_headers h) "location" = [address]).
Proof.
  rewrite (filter_settings _ _ _ _ _ _ Hset), Hpath, String.eqb_refl in Hr.
  destruct (handle_callback_cases _ _ _ _ _ _ _ Hx Hr)
    as [-> [->|(q & u & a & c & h & Hq & Hg & Hc & Ha & ->)]]; (split; [done|]).
  - by exists (build_no_case 401); eauto.
  - exists h. split; [done|]. right. exists q, u, a, c.
    destruct (login_answer_spec _ _ _ Ha) as (? & ? & ?). by split_and!.
Qed.

(** C26. The login round trip. The state that a redirect issued at [t] for the
    address [u] carries is accepted by the callback during the next 120
    seconds: when the provider's user is authorised, the clock is not before
    1970 and the headers of the answer can be built, the client gets the 302
    back to [u]. *)
Theorem login_roundtrip (Hs : ShortCryptLaws) env plugin p secret vs x t u code user cookie h
    (Hset : settings plugin p secret vs)
    (Hpath : uri_path (req_uri (session x)) = callback_path (provider_typ p))
    (Hx : healthy x)
    (Hcode : plain_pair ("code", code))
    (Hquery : uri_query (req_uri (session x)) =
              Some (show_query [("code", code); ("state", login_state t u)]))
    (Hutf : utf8_valid (show_N t +:+ ";" +:+ u) = true)
    (Ht : (t + 120 <= u64_max)%N) (Hclock : (0 <= env_clock env)%Z) (Hfresh : (env_now env <= t + 120)%N)
    (Huser : get_oauth_user p code = Ok user) (Hauth : is_authorized user vs = true)
    (Hcookie : create_secure_cookie (env_now env) user secret (ctx_host (ctx x)) = Ok cookie)
    (Hanswer : login_answer cookie u h) :
  Oauth2_request_filter env plugin x = (Ok true, wrote (WriteHeader h true) x).
Proof.
  rewrite (filter_settings _ _ _ _ _ _ Hset), Hpath, String.eqb_refl.
  assert (Hparams : from_string_to_query_params (show_query [("code", code); ("state", login_state t u)])
                    = <["state" := login_state t u]> (<["code" := code]> ∅)).
  { rewrite query_params_of_pairs; [done|done|]. apply Forall_cons; split; [done|].
    apply Forall_singleton. unfold plain_pair, login_state. simpl.
    by split_and!; [|apply encrypt_url_safe; set_solver| |apply encrypt_url_safe; set_solver]. }
  unfold handle_callback, mbind, M_bind, gets, lift, unwrap. rewrite Hquery, Hparams.
  rewrite lookup_insert_ne, lookup_insert_eq by done. rewrite lookup_insert_eq.
  unfold login_state. rewrite decrypt_encrypt. unfold from_utf8. rewrite Hutf.
  change (show_N t +:+ ";" +:+ u) with (show_N t +:+ String ";" u).
  rewrite split_once_app by (by apply show_N_no_char). rewrite parse_show by lia.
  unfold wrap64. rewrite N.mod_small by (unfold u64_max in Ht; lia).
  unfold get_current_timestamp. rewrite (proj2 (Z.ltb_ge _ _) Hclock).
  rewrite (proj2 (N.ltb_ge _ _) Hfresh), Huser, Hauth. simpl. rewrite Hcookie.
  destruct Hanswer as (h1 & h2 & E1 & E2 & E3). rewrite E1, E2. fold no_store. rewrite E3.
  unfold write_response_header. by rewrite on_session_downstream.
Qed.

(** Outside the callback path, a request whose session cookie holds a
    token that decodes to an unauthorised user is answered 401 but not
    stopped: the filter still lets it through. *)
Theorem unauthorised_cookie_continues env plugin p secret vs x token claims
    (Hset : settings plugin p secret vs)
    (Hpath : uri_path (req_uri (session x)) ≠ callback_path (provider_typ p))
    (Hx : healthy x)
    (Htoken : find_secure_jwt (hm_get_all (req_headers (session x)) "cookie") None = Ok (Some token))
    (Hclaims : decode_jwt (env_now env) token secret = Ok claims)
    (Hdenied : is_authorized (OauthUser_from claims) vs = false) :
  Oauth2_request_filter env plugin x = (Ok false, wrote refusal x).
Proof.
  rewrite (filter_settings _ _ _ _ _ _ Hset). rewrite (proj2 (String.eqb_neq _ _) Hpath).
  unfold validate_cookie, mbind, M_bind, gets, lift. rewrite Htoken, Hclaims, Hdenied. simpl.
  by rewrite unauthorized_writes.
Qed.

(** C30. The session round trip: within a day of the login, a request that
    presents the cookie of a login passes the filter untouched, provided the
    validations accept a user known by e-mail alone. *)
Theorem own_cookie_passes (Hj : JwtLaws) env t0 plugin p secret vs x user host cookie text
    (Hset : settings plugin p secret vs)
    (Hpath : uri_path (req_uri (session x)) ≠ callback_path (provider_typ p))
    (Hissued : create_secure_cookie t0 user secret host = Ok cookie)
    (Hage : (env_now env < t0 + one_day_in_secs)%N)
    (Hheader : hm_get_all (req_headers (session x)) "cookie" = [text])
    (Htext : header_to_str text = Some text)
    (Hparse : cookie_parse text = Some (COOKIE_NAME, cookie_value cookie))
    (Hauth : is_authorized (mkOauthUser (email user) [] [] []) vs = true) :
  Oauth2_request_filter env plugin x = (Ok false, x).
Proof.
  rewrite (filter_settings _ _ _ _ _ _ Hset). rewrite (proj2 (String.eqb_neq _ _) Hpath).
  unfold create_secure_cookie, encode_jwt, mbind, res_bind, ok_or in Hissued.
  destruct (u64_max <? t0 + one_day_in_secs)%N; [done|].
  destruct (jwt_encode _ secret) as [token|] eqn:Ej; [|done]. injection Hissued as <-.
  simpl in Hparse.
  unfold validate_cookie, mbind, M_bind, gets, lift. rewrite Hheader. simpl.
  unfold mbind, res_bind, unwrap. rewrite Htext, Hparse. simpl.
  unfold decode_jwt, ok_or. rewrite (jwt_roundtrip _ _ _ _ Ej) by done.
  unfold OauthUser_from. simpl. by rewrite Hauth.
Qed.

(** A login does not survive another cookie: a client sends all its cookies
    in one header, of which the plugin reads the first; when that is not its
    own, the request is treated as one without a login, whatever follows it, a
    valid and authorised session included: it is redirected to the provider. *)
Theorem other_cookie_first_redirects (Hc : CookieLaws) env plugin p secret vs x n v rest text
    (Hset : settings plugin p secret vs)
    (Hpath : uri_path (req_uri (session x)) ≠ callback_path (provider_typ p))
    (Hheader : hm_get_all (req_headers (session x)) "cookie" = [text])
    (Htext : header_to_str text = Some (n +:+ "=" +:+ v +:+ ";" +:+ rest))
    (Hn : cookie_token n) (Hv : cookie_token v) (Hother : n ≠ COOKIE_NAME) :
  Oauth2_request_filter env plugin x = redirect_to_oauth_callback env p x ∧
  fst (Oauth2_request_filter env plugin x) ≠ Ok false.
Proof.
  assert (Hred : Oauth2_request_filter env plugin x = redirect_to_oauth_callback env p x).
  { rewrite (filter_settings _ _ _ _ _ _ Hset). rewrite (proj2 (String.eqb_neq _ _) Hpath).
    unfold validate_cookie. unfold mbind, M_bind, gets, lift. rewrite Hheader. simpl.
    unfold mbind, res_bind, unwrap. rewrite Htext, cookie_parse_first by done.
    by rewrite (proj2 (String.eqb_neq _ _) Hother). }
  split; [done|]. rewrite Hred. unfold redirect_to_oauth_callback, mbind, M_bind, gets, lift. simpl.
  destruct (get_current_timestamp env) as [now|e|]; [|done..]. simpl.
  destruct (append_header "location" _ _); [|done..].
  destruct (append_header "cache-control" _ _); [|done..].
  by destruct (on_session _ x) as [[]].
Qed.

(** A user let in by a "username" validation is refused by the cookie
    their login got: whatever claims the token holds, the user rebuilt from
    them has no user name, so the same validation denies it. *)
Theorem username_login_refused user claims v rest
    (Hname : ∃ o values, as_object v = Some o ∧ obj_get "type" o = Some (VString "username") ∧
                         obj_get "value" o = Some (VArray values)) :
  is_authorized (OauthUser_from claims) (Some (VArray (v :: rest))) = false ∧
  (is_authorized user (Some (VArray (v :: rest))) = true ↔
   ∃ o values name, as_object v = Some o ∧ obj_get "value" o = Some (VArray values) ∧
     name ∈ omap as_str values ∧ name ∈ usernames user).
Proof.
  destruct Hname as (o & values & Ho & Hty & Hval).
  assert (Hcheck : ∀ w, check_validation w v = Some (any_in (omap as_str values) (usernames w))).
  { intros w. unfold check_validation. rewrite Ho. cbn. rewrite Hty. cbn. rewrite Hval. done. }
  unfold is_authorized, validate_user_from_provider. simpl. rewrite !Hcheck. split.
  - apply not_true_iff_false. rewrite any_in_true. by intros (name & _ & []%elem_of_nil).
  - rewrite any_in_true. split.
    + intros (name & ? & ?). by exists o, values, name.
    + intros (? & ? & name & [= <-]%(eq_trans (eq_sym Ho)) & [= <-]%(eq_trans (eq_sym Hval)) & ? & ?).
      by exists name.
Qed.

(** A Cookie header that is not visible ASCII panics the filter. *)
Theorem non_ascii_cookie_panics env plugin p secret vs x cookie rest
    (Hset : settings plugin p secret vs)
    (Hpath : uri_path (req_uri (session x)) ≠ callback_path (provider_typ p))
    (Hcookie : hm_get_all (req_headers (session x)) "cookie" = cookie :: rest)
    (Hbad : header_to_str cookie = None) :
  Oauth2_request_filter env plugin x = (Panic, x).
Proof.
  rewrite (filter_settings _ _ _ _ _ _ Hset). rewrite (proj2 (String.eqb_neq _ _) Hpath).
  unfold validate_cookie, mbind, M_bind, gets, lift. rewrite Hcookie. simpl.
  unfold mbind, res_bind, unwrap. by rewrite Hbad.
Qed.
End properties.

(** The cookie that should remove a login replaces it by an empty one, for as
    long as a login made at the same time would last. *)
Lemma removed_cookie_kept `{JwtApi} now user secret host cookie :
  create_secure_cookie now user secret host = Ok cookie →
  _remove_secure_cookie now host =
    mkCookie (cookie_name cookie) "" (cookie_secure cookie) (cookie_domain cookie) (cookie_path cookie)
      (cookie_expires cookie) (cookie_http_only cookie) (cookie_same_site_lax cookie).
Proof. unfold create_secure_cookie, mbind, res_bind. destruct (encode_jwt _ _ _); by intros [= <-]. Qed.

(** ** Witnesses *)

(** Tokens and states are decimal codes of what they carry; the provider knows
    one user. *)
Definition toy_token (t : string) : option (string * N * N * list string * list string * string) :=
  of_text t.
Definition toy_jwt : JwtApi := {|
  jwt_encode := λ c key,
    Some (to_text (claim_sub c, claim_exp c, claim_iat c, claim_teams c, claim_ids c, key));
  jwt_decode := λ now t key,
    '(sub, exp, iat, teams, ids, k) ← toy_token t;
    if String.eqb k key && (now <? exp)%N then Some (mkClaims sub exp iat teams ids) else None |}.
Lemma toy_jwt_laws : @JwtLaws toy_jwt.
Proof.
  split. intros now [sub exp iat teams ids] key t [= <-] Hexp. simpl in *.
  unfold toy_token. rewrite of_to_text. simpl. by rewrite String.eqb_refl, (proj2 (N.ltb_lt _ _) Hexp).
Qed.

Definition toy_crypt : ShortCrypt := {|
  encrypt_to_url_component := to_text; decrypt_url_component := of_text |}.
Lemma toy_crypt_laws : @ShortCryptLaws toy_crypt.
Proof.
  split; [apply of_to_text|]. simpl. intros c s Hc. apply show_N_no_char.
  by apply list_elem_of_In in Hc as [<-|[<-|[]]].
Qed.

Definition toy_cookies : CookieApi := {|
  cookie_parse := λ t, split_once "=" (first_segment ";" t);
  cookie_to_string := λ c, cookie_name c +:+ "=" +:+ cookie_value c +:+ "; Domain=" +:+ cookie_domain c |}.
Lemma toy_cookie_laws : @CookieLaws toy_cookies.
Proof.
  split. intros n v rest (_ & Hne & Hns & _) (_ & _ & Hvs & _). simpl.
  change (n +:+ "=" +:+ v +:+ ";" +:+ rest) with (n +:+ "=" +:+ v +:+ String ";" rest).
  replace (n +:+ "=" +:+ v +:+ String ";" rest) with ((n +:+ "=" +:+ v) +:+ String ";" rest)
    by by rewrite !app_assoc_str.
  rewrite split_char_first; [|by rewrite !has_char_app, Hns, Hvs].
  change (n +:+ "=" +:+ v) with (n +:+ String "=" v). by apply split_once_app.
Qed.

Definition toy_client : HttpClient := {|
  send := λ _, Some "";
  parse_token := λ _, Some (mkTokenResponse None (Some "token"));
  parse_user := λ _, Some (mkUserResponse "octocat");
  parse_emails := λ _, Some [mkEmailResponse "octo@a.test" true];
  parse_workos := λ _, None |}.

#[local] Existing Instances toy_http toy_lb toy_pt toy_jwt toy_crypt toy_cookies toy_client.

Definition validation (ty : string) (values : list string) : Value :=
  VObject [("type", VString ty); ("value", VArray (VString <$> values))].
Definition github : Provider := mkProvider OauthType_Github "id" "secret".
Definition oauth2_config (validations : list Value) : gmap string Value :=
  <["validations" := VArray validations]> (<["provider" := VString "github"]>
    (<["client_id" := VString "id"]> (<["client_secret" := VString "secret"]>
      (<["jwt_secret" := VString "key"]> ∅)))).
Definition oauth2_plugin (validations : list Value) : RoutePlugin :=
  mkRoutePlugin "oauth2" (Some (oauth2_config validations)).

Lemma oauth2_plugin_settings vs : settings (oauth2_plugin vs) github "key" (Some (VArray vs)).
Proof. eexists. split_and!; reflexivity. Qed.

Definition by_email : list Value := [validation "email" ["octo@a.test"]].
Definition by_name : list Value := [validation "username" ["octocat"]].
Definition octocat : OauthUser := mkOauthUser "octo@a.test" [] [] ["octocat"].

Definition issued (now : N) : Cookie :=
  match create_secure_cookie now octocat "key" "a.test" with
  | Ok c => c
  | _ => mkCookie "" "" false "" "" None false false
  end.
Definition cookie_text (now : N) : string := COOKIE_NAME +:+ "=" +:+ cookie_value (issued now).
Definition login_query : string :=
  show_query [("code", "c0de"); ("state", login_state 950 "/private")].
Definition callback : Exchange := toy_exchange "/__/oauth/github/callback" (Some login_query) [].

Lemma validations_without_type_deny_witness :
  validate_user_from_provider octocat
    (Some (VArray [VObject [("key", VString "email"); ("values", VArray [VString "octo@a.test"])]]))
  = false.
Proof.
  apply validations_without_type_deny. apply Forall_singleton. intros o [= <-]. reflexivity.
Defined.

Lemma query_params_roundtrip_witness :
  from_string_to_query_params "code=abc&state=xyz" = list_to_map [("code", "abc"); ("state", "xyz")].
Proof.
  apply (query_params_roundtrip [("code", "abc"); ("state", "xyz")]).
  - discriminate.
  - repeat constructor.
  - apply NoDup_cons; split; [set_solver|]. apply NoDup_singleton.
Defined.

Lemma callback_safe_witness :
  ∃ h, snd (Oauth2_request_filter toy_env (oauth2_plugin by_email) callback)
       = wrote (WriteHeader h true) callback.
Proof.
  destruct (Oauth2_request_filter toy_env (oauth2_plugin by_email) callback) as [r x'] eqn:E.
  assert (r = Ok true) as -> by (apply (f_equal fst) in E; vm_compute in E; by symmetry).
  destruct (callback_safe toy_http_laws toy_env (oauth2_plugin by_email) github "key"
    (Some (VArray by_email)) callback true x' (oauth2_plugin_settings _) eq_refl eq_refl E)
    as [_ (h & -> & _)].
  by exists h.
Defined.

Lemma login_roundtrip_witness :
  ∃ h, Oauth2_request_filter toy_env (oauth2_plugin by_email) callback
       = (Ok true, wrote (WriteHeader h true) callback).
Proof.
  eexists. apply (login_roundtrip toy_crypt_laws toy_env (oauth2_plugin by_email) github "key"
    (Some (VArray by_email)) callback 950 "/private" "c0de" octocat (issued 1000));
    [apply oauth2_plugin_settings|reflexivity|reflexivity|by repeat split|reflexivity|vm_compute; reflexivity
    |vm_compute; discriminate|vm_compute; discriminate|vm_compute; discriminate|reflexivity|reflexivity|reflexivity|].
  eexists _, _. split_and!; reflexivity.
Defined.

Lemma unauthorised_cookie_continues_witness :
  let x := toy_exchange "/private" None [("cookie", cookie_text 900)] in
  Oauth2_request_filter toy_env (oauth2_plugin by_name) x = (Ok false, wrote refusal x).
Proof.
  intros x. apply (unauthorised_cookie_continues toy_env (oauth2_plugin by_name) github "key"
    (Some (VArray by_name)) x (cookie_value (issued 900)) (mkClaims "octo@a.test" 87300 900 [] []));
    [apply oauth2_plugin_settings|discriminate|reflexivity|vm_compute; reflexivity
    |vm_compute; reflexivity|reflexivity].
Defined.

Lemma own_cookie_passes_witness :
  let x := toy_exchange "/private" None [("cookie", cookie_text 900)] in
  Oauth2_request_filter toy_env (oauth2_plugin by_email) x = (Ok false, x).
Proof.
  intros x. apply (own_cookie_passes toy_jwt_laws toy_env 900 (oauth2_plugin by_email) github "key"
    (Some (VArray by_email)) x octocat "a.test" (issued 900) (cookie_text 900));
    [apply oauth2_plugin_settings|discriminate|reflexivity|reflexivity|vm_compute; reflexivity
    |vm_compute; reflexivity|vm_compute; reflexivity|reflexivity].
Defined.

(** The login is the second cookie. *)
Lemma other_cookie_first_redirects_witness :
  let x := toy_exchange "/private" None [("cookie", "theme=dark; " +:+ cookie_text 900)] in
  fst (Oauth2_request_filter toy_env (oauth2_plugin by_email) x) ≠ Ok false.
Proof.
  intros x. refine (proj2 (other_cookie_first_redirects toy_cookie_laws toy_env (oauth2_plugin by_email) github
    "key" (Some (VArray by_email)) x "theme" "dark" (" " +:+ cookie_text 900)
    ("theme=dark; " +:+ cookie_text 900) (oauth2_plugin_settings _) _ eq_refl _ _ _ _));
    [discriminate|vm_compute; reflexivity|by repeat split|by repeat split|discriminate].
Defined.

Lemma username_login_refused_witness :
  is_authorized (OauthUser_from (mkClaims "octo@a.test" 87300 900 [] [])) (Some (VArray by_name)) = false
  ∧ is_authorized octocat (Some (VArray by_name)) = true.
Proof.
  destruct (username_login_refused octocat (mkClaims "octo@a.test" 87300 900 [] [])
    (validation "username" ["octocat"]) []) as [Hdenied Hiff].
  - by eexists _, _.
  - split; [exact Hdenied|]. apply Hiff. exists [("type", VString "username");
      ("value", VArray [VString "octocat"])], [VString "octocat"], "octocat".
    split_and!; [reflexivity|reflexivity|set_solver|set_solver].
Defined.

Lemma non_ascii_cookie_panics_witness :
  let x := toy_exchange "/private" None [("cookie", String (ascii_of_nat 200) "=1")] in
  Oauth2_request_filter toy_env (oauth2_plugin by_email) x = (Panic, x).
Proof.
  intros x. eapply (non_ascii_cookie_panics toy_env (oauth2_plugin by_email) github "key"
    (Some (VArray by_email)) x); [apply oauth2_plugin_settings|discriminate|reflexivity|reflexivity].
Defined.
