(* ===== verification/Middleware.v ===== *)
(** The plugin chain of proxy_server/middleware.rs over the registry PLUGINS
    (plugins/mod.rs): which filters of which plugins each phase runs, and what
    becomes of their errors. *)
From S2P Require Import Prelude Strs Config Stores Http Routes Plugins Oauth2.
#[local] Open Scope string_scope.
#[local] Open Scope list_scope.

(** Iteration over a [HashMap]: every entry once, in some order. *)
Class HashIter := { hash_iter : gmap string RoutePlugin → list (string * RoutePlugin) }.
Class HashIterLaws `{HashIter} : Prop := { hash_iter_perm m : hash_iter m ≡ₚ map_to_list m }.

Section middleware.
Context `{HttpApi, LbApi, PathTreeApi, Base64, JwtApi, ShortCrypt, CookieApi, HttpClient, HashIter}.

(** One turn of the loop of [execute_request_plugins]: [true] returns from it. *)
Definition request_plugin_step (env : Env) (name : string) (value : RoutePlugin)
    : M Exchange error bool :=
  if String.eqb name "oauth2" then is_ok_and (request_filter Oauth2 env value)
  else if String.eqb name "request_id" then
    _ ← catch_ok (request_filter RequestId env value); mret false
  else if String.eqb name "basic_auth" then is_ok_and (request_filter BasicAuth env value)
  else mret false.

Fixpoint run_request_plugins (env : Env) (plugins : list (string * RoutePlugin))
    : M Exchange error bool :=
  match plugins with
  | [] => mret false
  | (name, value) :: rest =>
      stop ← request_plugin_step env name value;
      if (stop : bool) then mret true else run_request_plugins env rest
  end.

Definition execute_request_plugins (env : Env) (plugins : gmap string RoutePlugin)
    : M Exchange error bool := run_request_plugins env (hash_iter plugins).

Fixpoint run_response_plugins (plugins : list (string * RoutePlugin)) : M Exchange error unit :=
  match plugins with
  | [] => mret tt
  | (name, value) :: rest =>
      stop ← (if String.eqb name "oauth2" then is_ok_and (response_filter Oauth2 value)
              else mret false);
      if (stop : bool) then mret tt else run_response_plugins rest
  end.

Definition execute_response_plugins : M Exchange error unit :=
  plugins ← gets (λ x, rsc_plugins (route_container (ctx x)));
  run_response_plugins (hash_iter plugins).

Fixpoint run_upstream_request_plugins (names : list string) : M (Exchange * RequestHeader) error unit :=
  match names with
  | [] => mret tt
  | name :: rest =>
      _ ← (if String.eqb name "request_id" then catch_ok (upstream_request_filter RequestId)
           else mret None);
      run_upstream_request_plugins rest
  end.

Definition execute_upstream_request_plugins : M (Exchange * RequestHeader) error unit :=
  plugins ← gets (λ s, rsc_plugins (route_container (ctx s.1)));
  run_upstream_request_plugins (hash_iter plugins).*1.

Fixpoint run_upstream_response_plugins (names : list string) : M (Exchange * ResponseHeader) error unit :=
  match names with
  | [] => mret tt
  | name :: rest =>
      _ ← (if String.eqb name "request_id" then catch_ok (upstream_response_filter RequestId)
           else mret None);
      run_upstream_response_plugins rest
  end.

Definition execute_upstream_response_plugins : M (Exchange * ResponseHeader) error unit :=
  plugins ← gets (λ s, rsc_plugins (route_container (ctx s.1)));
  run_upstream_response_plugins (hash_iter plugins).*1.

(** ** Lemmas *)

Implicit Types x y : Exchange.

Lemma request_plugin_step_frames env n v : frames (request_plugin_step env n v).
Proof. unfold request_plugin_step, Oauth2, BasicAuth, RequestId. cbn [request_filter]. frame_auto. Qed.

Lemma request_plugin_step_driven env n v : input_driven (request_plugin_step env n v).
Proof. unfold request_plugin_step, Oauth2, BasicAuth, RequestId. cbn [request_filter]. frame_auto. Qed.

Lemma run_request_plugins_frames env l : frames (run_request_plugins env l).
Proof.
  induction l as [|[n v] l IH]; simpl; [auto with frames|].
  apply frames_bind; [apply request_plugin_step_frames|]. intros []; auto with frames.
Qed.

(** No plugin filter error comes out of the chain. *)
Lemma request_plugin_step_no_err env n v x e : fst (request_plugin_step env n v x) ≠ Err e.
Proof.
  unfold request_plugin_step, is_ok_and, catch_ok, mbind, M_bind.
  repeat case_match; simplify_eq/=; try done;
    match goal with H : (_, _) = (_, _) |- _ => by inversion H end.
Qed.

Lemma run_request_plugins_pass env l x :
  healthy x →
  fst (run_request_plugins env l x) = Ok false ↔
  Forall (λ nv, fst (request_plugin_step env nv.1 nv.2 x) = Ok false) l.
Proof.
  revert x. induction l as [|[n v] l IH]; intros x Hx; [done|].
  rewrite Forall_cons. cbn [run_request_plugins fst snd]. unfold mbind, M_bind.
  pose proof (request_plugin_step_frames env n v x) as Hf.
  destruct (request_plugin_step env n v x) as [[[]|e|] x'] eqn:E; simpl;
    [by split; [|intros []]| |by split; [|intros []]..].
  destruct (Hf _ _ eq_refl) as (Hi & Hh & _). rewrite (IH x' (Hh Hx)).
  assert (Hsame : ∀ nv, fst (request_plugin_step env nv.1 nv.2 x') = fst (request_plugin_step env nv.1 nv.2 x))
    by (intros nv; apply request_plugin_step_driven; [auto|done|by symmetry]).
  split; [intros Hl; split; [done|]|intros [_ Hl]]; (eapply Forall_impl; [exact Hl|]);
    intros nv; simpl; by rewrite Hsame.
Qed.

(** What [request_id] does to the upstream request and response; the chain
    runs it once. *)
Lemma upstream_request_filter_no_panic s : fst (RequestId_upstream_request_filter s) ≠ Panic.
Proof. unfold RequestId_upstream_request_filter. destruct s. by repeat case_match. Qed.

Lemma upstream_response_filter_no_panic s : fst (RequestId_upstream_response_filter s) ≠ Panic.
Proof.
  unfold RequestId_upstream_response_filter, insert_header. destruct s.
  repeat case_match; by simplify_eq.
Qed.

Lemma run_upstream_request_once names s :
  NoDup names →
  run_upstream_request_plugins names s =
  (Ok tt, if decide ("request_id" ∈ names) then snd (RequestId_upstream_request_filter s) else s).
Proof.
  intros Hnd. revert s. induction Hnd as [|n names Hn _ IH]; intros s; [done|].
  cbn [run_upstream_request_plugins]. unfold mbind, M_bind.
  destruct (String.eqb n "request_id") eqn:E; [apply String.eqb_eq in E as ->|apply String.eqb_neq in E].
  - rewrite decide_True by (by left). pose proof (upstream_request_filter_no_panic s) as Hp.
    unfold catch_ok, RequestId. cbn [upstream_request_filter].
    destruct (RequestId_upstream_request_filter s) as [[]]; simpl in *; [..|done];
      rewrite IH; by rewrite decide_False.
  - unfold mret, M_ret. rewrite IH. f_equal.
    destruct (decide ("request_id" ∈ names)) as [Hi|Hi];
      [rewrite decide_True by (by right)|rewrite decide_False by (intros [?|?]%elem_of_cons; congruence)]; done.
Qed.

Lemma run_upstream_response_once names s :
  NoDup names →
  run_upstream_response_plugins names s =
  (Ok tt, if decide ("request_id" ∈ names) then snd (RequestId_upstream_response_filter s) else s).
Proof.
  intros Hnd. revert s. induction Hnd as [|n names Hn _ IH]; intros s; [done|].
  cbn [run_upstream_response_plugins]. unfold mbind, M_bind.
  destruct (String.eqb n "request_id") eqn:E; [apply String.eqb_eq in E as ->|apply String.eqb_neq in E].
  - rewrite decide_True by (by left). pose proof (upstream_response_filter_no_panic s) as Hp.
    unfold catch_ok, RequestId. cbn [upstream_response_filter].
    destruct (RequestId_upstream_response_filter s) as [[]]; simpl in *; [..|done];
      rewrite IH; by rewrite decide_False.
  - unfold mret, M_ret. rewrite IH. f_equal.
    destruct (decide ("request_id" ∈ names)) as [Hi|Hi];
      [rewrite decide_True by (by right)|rewrite decide_False by (intros [?|?]%elem_of_cons; congruence)]; done.
Qed.

Lemma hash_iter_lookup `{!HashIterLaws} m n v : (n, v) ∈ hash_iter m ↔ m !! n = Some v.
Proof. rewrite hash_iter_perm. by rewrite elem_of_map_to_list. Qed.

Lemma hash_iter_keys `{!HashIterLaws} m : NoDup (hash_iter m).*1.
Proof. rewrite hash_iter_perm. apply NoDup_fst_map_to_list. Qed.

Lemma hash_iter_keys_lookup `{!HashIterLaws} m n : n ∈ (hash_iter m).*1 ↔ is_Some (m !! n).
Proof.
  rewrite list_elem_of_fmap. split.
  - intros ([n' v] & -> & Hv). exists v. by apply hash_iter_lookup.
  - intros [v Hv]. exists (n, v). split; [done|]. by apply hash_iter_lookup.
Qed.

(** What one plugin puts into the extensions of the context. *)
Lemma request_plugin_step_extensions env n v x r x' :
  request_plugin_step env n v x = (r, x') →
  extensions (ctx x') =
    if String.eqb n "request_id" then <["request_id_header" := env_uuid env]> (extensions (ctx x))
    else extensions (ctx x).
Proof.
  unfold request_plugin_step. destruct (String.eqb n "oauth2") eqn:E1; [|].
  { apply String.eqb_eq in E1 as ->. intros E.
    assert (Hk : keeps_ctx (is_ok_and (E := error) (request_filter Oauth2 env v)))
      by apply keeps_ctx_is_ok_and, Oauth2_keeps_ctx.
    specialize (Hk x). rewrite E in Hk. simpl in Hk. by rewrite Hk. }
  destruct (String.eqb n "request_id") eqn:E2; [by intros [= <- <-]|].
  destruct (String.eqb n "basic_auth"); [|by intros [= <- <-]]. intros E.
  assert (Hk : keeps_ctx (is_ok_and (E := error) (request_filter BasicAuth env v)))
    by apply keeps_ctx_is_ok_and, BasicAuth_keeps_ctx.
  specialize (Hk x). rewrite E in Hk. simpl in Hk. by rewrite Hk.
Qed.

(** The identifier that [request_id] stores survives the rest of the chain. *)
Lemma request_plugin_step_extension env n v x r x' :
  request_plugin_step env n v x = (r, x') →
  extensions (ctx x') !! "request_id_header" =
    if String.eqb n "request_id" then Some (env_uuid env)
    else extensions (ctx x) !! "request_id_header".
Proof.
  intros ->%request_plugin_step_extensions. destruct (String.eqb n "request_id"); [|done].
  by rewrite lookup_insert_eq.
Qed.

Lemma run_request_plugins_extension env l x x' :
  run_request_plugins env l x = (Ok false, x') →
  "request_id" ∈ l.*1 ∨ extensions (ctx x) !! "request_id_header" = Some (env_uuid env) →
  extensions (ctx x') !! "request_id_header" = Some (env_uuid env).
Proof.
  revert x. induction l as [|[n v] l IH]; intros x; cbn [run_request_plugins].
  - intros [= <-] [[]%elem_of_nil|?]; done.
  - unfold mbind, M_bind. destruct (request_plugin_step env n v x) as [[[]|e|] y] eqn:E; [done| |done..].
    intros Hr Hid. apply (IH _ Hr). apply request_plugin_step_extension in E. rewrite E.
    destruct (String.eqb_spec n "request_id"); [by right|].
    destruct Hid as [[Hn|Hin]%elem_of_cons|Hx]; [by simplify_eq/=|by left|by right].
Qed.
End middleware.

(** ** Properties *)

Section properties.
Context `{HttpApi, LbApi, PathTreeApi, Base64, JwtApi, ShortCrypt, CookieApi, HttpClient, HashIter}.
Implicit Types x y : Exchange.

(** The order in which the hash map yields the plugins does not decide
    whether a request is let through: on a healthy connection it is exactly
    when each configured plugin, run alone on the original request, lets it
    through. *)
Theorem plugins_pass_iff (Hit : HashIterLaws) env plugins x (Hx : healthy x) :
  fst (execute_request_plugins env plugins x) = Ok false ↔
  ∀ n v, plugins !! n = Some v → fst (request_plugin_step env n v x) = Ok false.
Proof.
  unfold execute_request_plugins. rewrite run_request_plugins_pass by done.
  rewrite Forall_forall. split.
  - intros Hl n v Hv. by apply (Hl (n, v)), hash_iter_lookup.
  - intros Hl [n v] Hv. by apply Hl, hash_iter_lookup.
Qed.

(** C29. A filter error counts as a pass: with [basic_auth] configured, a
    request whose Basic credentials are not valid base64, or not UTF-8, goes
    through the chain unauthenticated, and nothing is written. *)
Theorem malformed_credentials_pass (Hit : HashIterLaws) env p config user pass x auth
    (Hp : plugin_config p = Some config) (Hc : get_auth_config config = Some (user, pass))
    (Hauth : presents x auth) (Hbasic : starts_with "Basic " auth = true)
    (Hbad : decode_block (trim_start_matches "Basic " auth) = None ∨
            ∃ bytes, decode_block (trim_start_matches "Basic " auth) = Some bytes ∧
              utf8_valid bytes = false) :
  execute_request_plugins env {["basic_auth" := p]} x = (Ok false, x).
Proof.
  unfold execute_request_plugins.
  assert (hash_iter {["basic_auth" := p]} = [("basic_auth", p)]) as ->.
  { apply Permutation_singleton_r. rewrite hash_iter_perm. by rewrite map_to_list_singleton. }
  cbn [run_request_plugins]. unfold request_plugin_step, BasicAuth, BasicAuth_request_filter. simpl.
  rewrite Hp, Hc. destruct Hauth as (h & Hh & Ha). munfold. rewrite Hh, Ha, Hbasic. simpl.
  unfold validate_auth_header, ok_or, from_utf8, mbind, res_bind.
  by destruct Hbad as [->|(bytes & -> & ->)].
Qed.

(** One identifier per request: when the route has the [request_id]
    plugin and the chain lets the request through, the request sent upstream
    and the response carry the same single x-request-id, the one generated for
    this request, and no other header is touched. *)
Theorem request_id_consistent (Hl : HeaderLaws) (Hit : HashIterLaws) env plugins c x x' req resp
    (Hid : is_Some (plugins !! "request_id")) (Hc : rsc_plugins c = plugins)
    (Hvalid : ∀ h, is_Some (hm_insert "x-request-id" (env_uuid env) h))
    (Hrun : execute_request_plugins env plugins x = (Ok false, x')) :
  let y := set_ctx (set_container c (ctx x')) x' in
  ∃ req' resp',
    execute_upstream_request_plugins (y, req) = (Ok tt, (y, req')) ∧
    execute_upstream_response_plugins (y, resp) = (Ok tt, (y, resp')) ∧
    (∀ n, hm_get_all (up_req_headers req') n =
       if decide (same_name "x-request-id" n) then [env_uuid env]
       else hm_get_all (up_req_headers req) n) ∧
    (∀ n, hm_get_all (resp_headers resp') n =
       if decide (same_name "x-request-id" n) then [env_uuid env]
       else hm_get_all (resp_headers resp) n).
Proof.
  intros y. apply run_request_plugins_extension in Hrun; [|left; by apply hash_iter_keys_lookup].
  destruct (Hvalid (up_req_headers req)) as [h1 E1], (Hvalid (resp_headers resp)) as [h2 E2].
  exists (mkRequestHeader _ (up_method req) h1), (mkResponseHeader _ (resp_status resp) h2).
  unfold execute_upstream_request_plugins, execute_upstream_response_plugins, gets, mbind, M_bind.
  simpl. rewrite Hc, run_upstream_request_once, run_upstream_response_once by apply hash_iter_keys.
  rewrite !decide_True by (by apply hash_iter_keys_lookup).
  unfold RequestId_upstream_request_filter, RequestId_upstream_response_filter, insert_header.
  subst y. simpl. rewrite Hrun, E1, E2. split_and!; [done|done|..]; intros n;
    by apply hm_get_all_insert.
Qed.
End properties.

(** ** Witnesses *)

Definition toy_hash_iter : HashIter := {| hash_iter := map_to_list |}.
Lemma toy_hash_iter_laws : @HashIterLaws toy_hash_iter.
Proof. by split. Qed.

#[local] Existing Instances toy_http toy_lb toy_pt toy_base64 toy_jwt toy_crypt toy_cookies
  toy_client toy_hash_iter.

Definition two_plugins : gmap string RoutePlugin :=
  <["request_id" := mkRoutePlugin "request_id" None]> {["basic_auth" := basic_plugin]}.
Definition plugged (plugins : gmap string RoutePlugin) : RouteStoreContainer :=
  mkContainer _ _ (load_balancer toy_container) RouteStorePathMatcher_new [] [] [] false plugins None.
Definition bob : Exchange := toy_exchange "/" None [("authorization", "Basic b64:bob:secret")].

Lemma plugins_pass_iff_witness :
  fst (execute_request_plugins toy_env two_plugins bob) = Ok false.
Proof.
  apply (plugins_pass_iff toy_hash_iter_laws); [reflexivity|]. intros n v. unfold two_plugins.
  intros [[<- <-]|[Hn Hv]]%lookup_insert_Some; [reflexivity|].
  apply lookup_singleton_Some in Hv as [<- <-]. vm_compute. reflexivity.
Defined.

Lemma malformed_credentials_pass_witness :
  let x := toy_exchange "/" None [("authorization", "Basic !!")] in
  execute_request_plugins toy_env {["basic_auth" := basic_plugin]} x = (Ok false, x).
Proof.
  intros x. apply (malformed_credentials_pass toy_hash_iter_laws toy_env basic_plugin basic_config
    "bob" "secret" x "Basic !!");
    [reflexivity|reflexivity|by eexists|reflexivity|left; reflexivity].
Defined.

Lemma request_id_consistent_witness :
  ∃ req', fst (execute_upstream_request_plugins
         (set_ctx (set_container (plugged two_plugins)
            (ctx (snd (execute_request_plugins toy_env two_plugins bob))))
            (snd (execute_request_plugins toy_env two_plugins bob)), req')) = Ok tt.
Proof.
  destruct (execute_request_plugins toy_env two_plugins bob) as [r x'] eqn:E.
  assert (r = Ok false) as -> by (apply (f_equal fst) in E; vm_compute in E; by symmetry).
  exists (mkRequestHeader _ "GET" hm_new).
  destruct (request_id_consistent toy_http_laws toy_hash_iter_laws toy_env two_plugins
    (plugged two_plugins)
    bob x' (mkRequestHeader _ "GET" hm_new) (build_no_case 200)) as (req' & resp' & Hr & _);
    [by eexists|reflexivity|by eexists|exact E|].
  cbn [snd]. by rewrite Hr.
Defined.
