(* ===== verification/Router.v ===== *)
(** The HTTPS proxy: proxy_server/https_proxy.rs (the [ProxyHttp] callbacks of
    [Router] that Pingora runs for a request) and the peer options of
    proxy_server/mod.rs. *)
From S2P Require Import Prelude Strs Config Stores Http Routes Plugins Oauth2 Middleware.
#[local] Open Scope string_scope.
#[local] Open Scope list_scope.

(** ** Peer options (proxy_server/mod.rs) *)

Inductive ALPN := H1 | H2 | H2H1.
Record TcpKeepalive := mkKeepalive {
  ka_count : N; ka_idle : N; ka_interval : N; ka_user_timeout : N }.
(** The fields the code sets; times in seconds. *)
Record PeerOptions := mkPeerOptions {
  tcp_fast_open : bool;
  verify_hostname : bool;
  read_timeout : option N;
  connection_timeout : option N;
  tcp_recv_buf : option N;
  tcp_keepalive : option TcpKeepalive;
  total_connection_timeout : option N;
  idle_timeout : option N;
  write_timeout : option N;
  verify_cert : bool;
  alternative_cn : option string;
  alpn : ALPN;
  peer_ca : option string;
  h2_ping_interval : option N;
  max_h2_streams : N;
  extra_proxy_headers : list (string * string);
  curves : option string;
  second_keyshare : bool }.

Definition default_peer_opts : PeerOptions := {|
  tcp_fast_open := true;
  verify_hostname := true;
  read_timeout := Some 360%N;
  connection_timeout := Some 10%N;
  tcp_recv_buf := Some (1024 * 8)%N;
  tcp_keepalive := Some (mkKeepalive 10 60 30 0);
  total_connection_timeout := Some 20%N;
  idle_timeout := Some 360%N;
  write_timeout := Some 60%N;
  verify_cert := false;
  alternative_cn := None;
  alpn := H2H1;
  peer_ca := None;
  h2_ping_interval := Some 60%N;
  max_h2_streams := 2;
  extra_proxy_headers := [];
  curves := None;
  second_keyshare := true |}.

(** [HttpPeer::new(addr, tls, sni)] with its options. *)
Record HttpPeer `{LbApi} := mkPeer {
  peer_backend : Backend;
  peer_tls : bool;
  peer_sni : string;
  peer_options : PeerOptions }.

(** ** The state of a request *)

(** The static ROUTE_STORE and CACHE_ROUTING_STORE, and the exchange. *)
Record World `{HttpApi, LbApi, PathTreeApi} := mkWorld {
  route_store : gmap string RouteStoreContainer;
  cache_routing : PathCacheStorage;
  exchange : Exchange }.

(** [CacheKey::new(namespace, primary, user_tag)] *)
Record CacheKey := mkCacheKey { key_namespace : string; key_primary : string; key_user_tag : string }.

Inductive RespCacheable `{CacheMetaApi} :=
| Cacheable (meta : CacheMeta)
| Uncacheable_NeverEnabled
| Uncacheable_Custom (reason : string).

(** What [logging] reads of the finished session. *)
Record Finished := mkFinished {
  is_http2 : bool;
  client_addr : option string;
  response_written : option N }.
(** The fields of the access-log event. *)
Record AccessLog := mkAccessLog {
  log_method : string;
  log_path : string;
  log_query : string;
  log_host : option string;
  log_duration_ms : N;
  log_user_agent : string;
  log_referer : string;
  log_client_ip : string;
  log_status_code : N;
  log_http_version : string;
  log_reused_connection : string;
  log_peer_addr : string;
  log_request_id : option string;
  log_access_log : bool }.

(** The largest second a Unix [SystemTime] represents. *)
Definition systime_max : N := 9223372036854775807.
Definition checked_add_secs (t secs : N) : option N :=
  if (t + secs <=? systime_max)%N then Some (t + secs)%N else None.

Section router.
Context `{HttpApi, LbApi, PathTreeApi, Base64, JwtApi, ShortCrypt, CookieApi, HttpClient, HashIter}.
Context `{Dns} `{!CacheMetaApi}.

Definition set_exchange (x : Exchange) (w : World) : World :=
  mkWorld _ _ _ (route_store w) (cache_routing w) x.
Definition on_exchange {A} (m : M Exchange error A) : M World error A := zoom exchange set_exchange m.

(** The storage is named by the cache type. *)
Definition get_cache_storage (cache_type : RouteCacheType) : RouteCacheType :=
  match cache_type with
  | RouteCacheType_Disk => RouteCacheType_Disk
  | RouteCacheType_MemCache => RouteCacheType_MemCache
  end.

Definition CACHEABLE_METHODS : list string := ["GET"; "HEAD"].

Definition new_ctx (now : N) : res error RouterContext :=
  container ← RouteStoreContainer_default;
  Ok (mkRouterContext _ _ "" container RouteUpstream_default ∅ (mkTimings now)).

Definition get_uri (s : Session) : Uri := req_uri s.

Definition get_host (s : Session) : string :=
  match hm_get (req_headers s) "host" with
  | Some host => default "" (header_to_str host)
  | None => default "" (uri_host (req_uri s))
  end.

(** The guard of the second [match] of the filter. *)
Definition path_rejected (matcher : RouteStorePathMatcher) (path : string) : bool :=
  match pattern matcher with
  | Some tree => match pt_find tree path with None => true | Some _ => false end
  | None => false
  end.

(** Enables the cache of the route, and records its directory. *)
Definition enable_cache (cache : option RouteCache) : M World error unit :=
  match cache with
  | Some cache =>
      if default false (rc_enabled cache) then
        let storage := get_cache_storage (rc_cache_type cache) in
        _ ← modify (λ w, mkWorld _ _ _ (route_store w)
              (insert_cache_routing (ctx_host (ctx (exchange w))) (rc_path cache) false
                 (cache_routing w)) (exchange w));
        on_exchange (on_session (modify (set_cache_storage (Some storage))))
      else mret tt
  | None => mret tt
  end.

Definition Router_request_filter (env : Env) : M World error bool :=
  req_host ← gets (λ w, get_host (session (exchange w)));
  let host_without_port := first_segment ":" req_host in
  _ ← on_exchange (on_ctx (set_host host_without_port));
  found ← gets (λ w, get_route_by_key host_without_port (route_store w));
  match found with
  | None => _ ← on_exchange (on_session (respond_error 404)); mret true
  | Some route_container =>
      uri ← gets (λ w, get_uri (session (exchange w)));
      if path_rejected (path_matcher route_container) (uri_path uri) then
        _ ← on_exchange (on_session (respond_error 404)); mret true
      else
        handled ← on_exchange (catch_ok (execute_request_plugins env (rsc_plugins route_container)));
        match handled with
        | Some true => mret true
        | _ =>
            _ ← enable_cache (rsc_cache route_container);
            _ ← on_exchange (on_ctx (set_container route_container));
            mret false
        end
  end.

(** The closure of [find]: one upstream against the selected address. *)
Definition upstream_matches (addr : SocketAddr) (u : RouteUpstream) : res error bool :=
  addrs ← unwrap (to_socket_addrs (up_ip u +:+ ":" +:+ show_N (up_port u)));
  Ok (existsb (λ s, String.eqb s.1 addr.1 && N.eqb s.2 addr.2) addrs).

Fixpoint find_upstream (addr : SocketAddr) (upstreams : list RouteUpstream)
    : res error (option RouteUpstream) :=
  match upstreams with
  | [] => Ok None
  | u :: rest => b ← upstream_matches addr u; if b : bool then Ok (Some u) else find_upstream addr rest
  end.

Definition upstream_peer : M Exchange error HttpPeer :=
  route_container ← gets (λ x, route_container (ctx x));
  enabled ← gets (λ x, cache_is_enabled (session x));
  _ ← (if enabled : bool then on_session (modify (set_cache_max (Some (100 * 1024 * 1024)%N)))
       else mret tt);
  match select (load_balancer route_container) with
  | None => throw (HTTPStatus 503)
  | Some healthy_upstream =>
      match as_inet healthy_upstream with
      | None => throw (HTTPStatus 503)
      | Some (healthy_ip, healthy_port) =>
          found ← lift (find_upstream (healthy_ip, healthy_port) (rsc_upstreams route_container));
          match found with
          | None => throw (HTTPStatus 503)
          | Some upstream =>
              _ ← on_ctx (set_upstream upstream);
              mret (mkPeer _ healthy_upstream (N.eqb healthy_port 443)
                      (default "" (up_sni upstream)) default_peer_opts)
          end
      end
  end.

(** The two loops over the response headers. *)
Fixpoint add_headers (headers : list (string * string)) (resp : ResponseHeader)
    : res error ResponseHeader :=
  match headers with
  | [] => Ok resp
  | (name, value) :: rest => resp ← insert_header name value resp; add_headers rest resp
  end.
Definition remove_headers (names : list string) (resp : ResponseHeader) : ResponseHeader :=
  fold_left (λ resp name, remove_header name resp) names resp.

(** [elapsed] is the time since [request_filter_start] in milliseconds. *)
Definition Router_response_filter (elapsed : N) (upstream_response : ResponseHeader)
    : M Exchange error ResponseHeader :=
  route_container ← gets (λ x, route_container (ctx x));
  resp ← lift (add_headers (host_header_add route_container) upstream_response);
  let resp := remove_headers (host_header_remove route_container) resp in
  cache_state ← gets (λ x, extensions (ctx x) !! "cache_state");
  enabled ← gets (λ x, cache_is_enabled (session x));
  resp ← lift (match cache_state with
               | Some cache_state =>
                   if enabled : bool then
                     resp ← insert_header "cache-status" cache_state resp;
                     insert_header "cache-duration" (show_N elapsed) resp
                   else Ok resp
               | None => Ok resp
               end);
  _ ← execute_response_plugins;
  mret resp.

(** One configured header; a failed insertion is dropped ([.ok()]). *)
Definition add_request_header (req : RequestHeader) (h : RouteHeaderAdd) : RequestHeader :=
  match hm_insert (rha_name h) (rha_value h) (up_req_headers req) with
  | Some m => mkRequestHeader _ (up_method req) m
  | None => req
  end.

Definition Router_upstream_request_filter : M (Exchange * RequestHeader) error unit :=
  upstream ← gets (λ s, ctx_upstream (ctx s.1));
  _ ← match h ← up_headers upstream; rh_add h with
      | Some add => modify (λ s, (s.1, fold_left add_request_header add s.2))
      | None => mret tt
      end;
  _ ← catch_ok (E := error) execute_upstream_request_plugins;
  mret tt.

Definition Router_upstream_response_filter : M (Exchange * ResponseHeader) error unit :=
  _ ← execute_upstream_response_plugins;
  mret tt.

Definition to_str_or_empty (h : HeaderMap) (name : string) : string :=
  default "" (v ← hm_get h name; header_to_str v).

Definition logging (elapsed : N) (f : Finished) (x : Exchange) : AccessLog :=
  let s := session x in
  {| log_method := req_method s;
     log_path := uri_path (req_uri s);
     log_query := default "" (uri_query (req_uri s));
     log_host := uri_host (req_uri s);
     log_duration_ms := elapsed;
     log_user_agent := to_str_or_empty (req_headers s) "user-agent";
     log_referer := to_str_or_empty (req_headers s) "referer";
     log_client_ip := default "" (client_addr f);
     log_status_code := default 0%N (response_written f);
     log_http_version := if is_http2 f then "http/2" else "http/1.1";
     log_reused_connection := default "" (extensions (ctx x) !! "reused");
     log_peer_addr := default "" (extensions (ctx x) !! "peer");
     log_request_id := extensions (ctx x) !! "request_id_header";
     log_access_log := true |}.

Definition cache_key_callback (x : Exchange) : CacheKey :=
  mkCacheKey (ctx_host (ctx x))
    (encode_block (default "/" (uri_path_and_query (req_uri (session x))))) "".

Definition cache_miss : M Exchange error unit :=
  _ ← insert_extension "cache_state" "fwd=miss";
  on_session (modify (set_cache_missed true)).

(** [true] is [ForceExpired]. *)
Definition cache_hit_filter (env : Env) (meta : CacheMeta) : M Exchange error bool :=
  if negb (is_fresh meta (env_now env)) then
    _ ← insert_extension "cache_state" "expired"; mret true
  else
    _ ← insert_extension "cache_state" "hit"; mret false.

Definition response_cache_filter (env : Env) (resp : ResponseHeader) : M Exchange error RespCacheable :=
  cache ← gets (λ x, rsc_cache (route_container (ctx x)));
  match cache with
  | None => mret Uncacheable_NeverEnabled
  | Some cache =>
      method ← gets (λ x, req_method (session x));
      if negb (bool_decide (method ∈ CACHEABLE_METHODS)) then
        mret (Uncacheable_Custom "method or status not cacheable")
      else
        expiry ← lift (unwrap (checked_add_secs (env_now env) (rc_expires_in_secs cache)));
        mret (Cacheable (CacheMeta_new expiry (env_now env) (rc_stale_while_revalidate_secs cache)
                (rc_stale_if_error_secs cache) resp))
  end.

Definition connected_to_upstream (reused : bool) (peer_address : string) : M Exchange error unit :=
  _ ← insert_extension "reused" (show_bool reused);
  insert_extension "peer" peer_address.
End router.

(** ** Lemmas *)

Section lemmas.
Context `{HttpApi, LbApi, PathTreeApi, Base64, JwtApi, ShortCrypt, CookieApi, HttpClient, HashIter}.
Context `{Dns} `{!CacheMetaApi}.
Implicit Types x y : Exchange.
Implicit Types w : World.

(** The host a request is routed by, and the exchange after it is recorded. *)
Definition request_host (x : Exchange) : string := first_segment ":" (get_host (session x)).
Definition addressed (x : Exchange) : Exchange := set_ctx (set_host (request_host x) (ctx x)) x.

Lemma request_filter_unknown env w :
  healthy (exchange w) → route_store w !! request_host (exchange w) = None →
  Router_request_filter env w =
  (Ok true, set_exchange (wrote (RespondError 404) (addressed (exchange w))) w).
Proof.
  intros Hx Hr. unfold Router_request_filter, gets, mbind, M_bind, get_route_by_key.
  unfold request_host in Hr. simpl. rewrite Hr. unfold respond_error, on_exchange, zoom. simpl.
  by rewrite on_session_downstream.
Qed.

Lemma request_filter_known env w c :
  route_store w !! request_host (exchange w) = Some c →
  Router_request_filter env w =
  (if path_rejected (path_matcher c) (uri_path (req_uri (session (exchange w)))) then
     _ ← on_exchange (on_session (respond_error 404)); mret true
   else
     handled ← on_exchange (catch_ok (execute_request_plugins env (rsc_plugins c)));
     match handled with
     | Some true => mret true
     | _ => _ ← enable_cache (rsc_cache c); _ ← on_exchange (on_ctx (set_container c)); mret false
     end) (set_exchange (addressed (exchange w)) w).
Proof.
  intros Hr. unfold Router_request_filter, gets, get_route_by_key.
  unfold mbind at 1, M_bind at 1. unfold mbind at 1, M_bind at 1. unfold mbind at 1, M_bind at 1.
  unfold request_host in Hr. simpl. by rewrite Hr.
Qed.

Lemma enable_cache_spec cache w r w' :
  enable_cache cache w = (r, w') →
  r = Ok tt ∧ route_store w' = route_store w ∧ ctx (exchange w') = ctx (exchange w) ∧
  written (session (exchange w')) = written (session (exchange w)) ∧
  cache_storage (session (exchange w')) =
    match cache with
    | Some c => if default false (rc_enabled c) then Some (rc_cache_type c)
                else cache_storage (session (exchange w))
    | None => cache_storage (session (exchange w))
    end.
Proof.
  unfold enable_cache. destruct cache as [c|]; [|by intros [= <- <-]].
  destruct (default false (rc_enabled c)); [|by intros [= <- <-]].
  intros [= <- <-]. split_and!; try done. simpl. by destruct (rc_cache_type c).
Qed.

Lemma execute_request_plugins_no_err env plugins x e :
  fst (execute_request_plugins env plugins x) ≠ Err e.
Proof.
  unfold execute_request_plugins. generalize (hash_iter plugins). intros l. revert x.
  induction l as [|[n v] l IH]; intros x; [done|]. cbn [run_request_plugins].
  unfold mbind, M_bind. pose proof (request_plugin_step_no_err env n v x e).
  by destruct (request_plugin_step env n v x) as [[[]|e'|] y]; simpl in *.
Qed.

(** [find] over the upstreams: the first that resolves to the address. *)
Lemma find_upstream_Some addr us u :
  find_upstream addr us = Ok (Some u) → u ∈ us ∧ upstream_matches addr u = Ok true.
Proof.
  induction us as [|u' us IH]; simpl; [done|]. unfold mbind, res_bind.
  destruct (upstream_matches addr u') as [[]|e|] eqn:E; [|..|done|done].
  - intros [= <-]. split; [by left|done].
  - intros [? ?]%IH. split; [by right|done].
Qed.

Lemma upstream_matches_true addr u :
  upstream_matches addr u = Ok true ↔
  ∃ addrs, to_socket_addrs (up_ip u +:+ ":" +:+ show_N (up_port u)) = Some addrs ∧ addr ∈ addrs.
Proof.
  unfold upstream_matches, unwrap, mbind, res_bind.
  destruct (to_socket_addrs _) as [addrs|]; [|split; [done|by intros (? & [=] & _)]].
  split.
  - intros [= E]. exists addrs. split; [done|]. apply existsb_exists in E as ([i p] & Hin & E).
    apply andb_true_iff in E as [E1%String.eqb_eq E2%N.eqb_eq]. simpl in *.
    apply list_elem_of_In. destruct addr; simpl in *. by subst.
  - intros (? & [= <-] & Hin). f_equal. apply existsb_exists. exists addr.
    split; [by apply list_elem_of_In|]. by rewrite String.eqb_refl, N.eqb_refl.
Qed.

(** The additions, then the removals, per header name. *)
Lemma add_headers_get `{!HeaderLaws} l resp resp' m :
  add_headers l resp = Ok resp' →
  resp_status resp' = resp_status resp ∧
  hm_get_all (resp_headers resp') m =
    match list_find (λ nv, same_name nv.1 m) (reverse l) with
    | Some (_, (_, v)) => [v]
    | None => hm_get_all (resp_headers resp) m
    end.
Proof.
  revert resp. induction l as [|[n v] l IH]; intros resp; simpl; [by intros [= <-]|].
  unfold mbind, res_bind. destruct (insert_header n v resp) as [r1|e|] eqn:E; [|done..].
  intros [Hs Hg]%IH. destruct (insert_header_get _ _ _ _ m E) as [Hs1 Hg1].
  split; [congruence|]. rewrite Hg, reverse_cons.
  destruct (list_find _ (reverse l)) as [[i [n' v']]|] eqn:Ef.
  - by rewrite (list_find_app_l _ _ [(n, v)] _ _ Ef).
  - rewrite list_find_app_r by done. rewrite Hg1. simpl. by case_decide.
Qed.

Lemma remove_headers_get `{!HeaderLaws} names resp m :
  resp_status (remove_headers names resp) = resp_status resp ∧
  hm_get_all (resp_headers (remove_headers names resp)) m =
    if decide (Exists (λ n, same_name n m) names) then []
    else hm_get_all (resp_headers resp) m.
Proof.
  revert resp. induction names as [|n names IH]; intros resp.
  - split; [done|]. rewrite decide_False; [done|]. by inversion 1.
  - unfold remove_headers in *. simpl. destruct (IH (remove_header n resp)) as [Hs ->].
    split; [done|]. rewrite remove_header_get.
    destruct (decide (same_name n m)); repeat case_decide; try done;
      exfalso; rewrite Exists_cons in *; naive_solver.
Qed.

(** What the filter decides, and what holds of a request it forwards. *)
Lemma request_filter_forwards `{!HashIterLaws} env w :
  healthy (exchange w) →
  (fst (Router_request_filter env w) = Ok false ↔
   ∃ c, route_store w !! request_host (exchange w) = Some c ∧
     path_rejected (path_matcher c) (uri_path (req_uri (session (exchange w)))) = false ∧
     ∀ n v, rsc_plugins c !! n = Some v →
       fst (request_plugin_step env n v (addressed (exchange w))) = Ok false) ∧
  ∀ w', Router_request_filter env w = (Ok false, w') →
    route_store w' = route_store w ∧
    ctx_host (ctx (exchange w')) = request_host (exchange w) ∧
    route_store w !! request_host (exchange w) = Some (route_container (ctx (exchange w'))) ∧
    cache_storage (session (exchange w')) =
      match rsc_cache (route_container (ctx (exchange w'))) with
      | Some c => if default false (rc_enabled c) then Some (rc_cache_type c)
                  else cache_storage (session (exchange w))
      | None => cache_storage (session (exchange w))
      end.
Proof.
  intros Hx.
  destruct (route_store w !! request_host (exchange w)) as [c|] eqn:Ec.
  2: { rewrite request_filter_unknown by done. split; [|done].
       by split; [|intros (? & [=] & _)]. }
  rewrite (request_filter_known env w c Ec).
  destruct (path_rejected _ _) eqn:Ep.
  { unfold mbind, M_bind, on_exchange, zoom, respond_error. simpl.
    rewrite on_session_downstream by done. split; [|done].
    split; [done|intros (? & [= <-] & ? & _); congruence]. }
  assert (Hpl : fst (execute_request_plugins env (rsc_plugins c) (addressed (exchange w))) = Ok false ↔
    ∀ n v, rsc_plugins c !! n = Some v →
      fst (request_plugin_step env n v (addressed (exchange w))) = Ok false).
  { unfold execute_request_plugins. rewrite run_request_plugins_pass by done.
    rewrite Forall_forall. setoid_rewrite <- (hash_iter_lookup (rsc_plugins c)).
    split; [by intros Hl n v ?; apply (Hl (n, v))|intros Hl [n v]; apply Hl]. }
  pose proof (execute_request_plugins_no_err env (rsc_plugins c) (addressed (exchange w))) as Hne.
  assert (Hfr : frames (execute_request_plugins env (rsc_plugins c)))
    by apply run_request_plugins_frames.
  specialize (Hfr (addressed (exchange w))). revert Hpl Hne Hfr.
  unfold on_exchange, zoom, catch_ok, mbind, M_bind. cbn [exchange set_exchange].
  destruct (execute_request_plugins env (rsc_plugins c) (addressed (exchange w)))
    as [[[]|e|] x1] eqn:Ex; intros Hpl Hne Hfr; [..|by specialize (Hne e)|].
  - split; [|done]. split; [done|]. intros (c' & [= <-] & _ & Hall). by apply Hpl in Hall.
  - destruct (enable_cache _ _) as [r w1] eqn:Een.
    apply enable_cache_spec in Een as (-> & Hs & Hctx & Hw & Hst). simpl in *.
    destruct (Hfr _ _ eq_refl) as ((Hreq & Hh) & _ & _ & _). split.
    + split; [|done]. intros _. exists c. split_and!; [done|done|]. by apply Hpl.
    + intros w' [= <-]. simpl. rewrite Hs, Hctx, Hh, Hst. split_and!; [done..|].
      by destruct Hreq as (_ & _ & _ & -> & _).
  - split; [|done]. split; [done|]. intros (c' & [= <-] & _ & Hall). by apply Hpl in Hall.
Qed.
End lemmas.

(** ** Properties *)

Section properties.
Context `{HttpApi, LbApi, PathTreeApi, Base64, JwtApi, ShortCrypt, CookieApi, HttpClient, HashIter}.
Context `{Dns} `{!CacheMetaApi}.
Implicit Types x y : Exchange.
Implicit Types w : World.

(** C1. On a healthy connection a request goes on to an upstream exactly when
    a route is stored for its host (without the port), the route's path
    patterns, if any, match, and every plugin of the route lets it through; it
    is then bound to that host and that route, nothing has been added to the
    route store, and the cache is enabled iff the route says so. *)
Theorem Router_forwards_iff (Hit : HashIterLaws) env w (Hx : healthy (exchange w)) :
  (fst (Router_request_filter env w) = Ok false ↔
   ∃ c, route_store w !! request_host (exchange w) = Some c ∧
     path_rejected (path_matcher c) (uri_path (req_uri (session (exchange w)))) = false ∧
     ∀ n v, rsc_plugins c !! n = Some v →
       fst (request_plugin_step env n v (addressed (exchange w))) = Ok false) ∧
  ∀ w', Router_request_filter env w = (Ok false, w') →
    route_store w' = route_store w ∧
    ctx_host (ctx (exchange w')) = request_host (exchange w) ∧
    route_store w !! request_host (exchange w) = Some (route_container (ctx (exchange w'))) ∧
    cache_storage (session (exchange w')) =
      match rsc_cache (route_container (ctx (exchange w'))) with
      | Some c => if default false (rc_enabled c) then Some (rc_cache_type c)
                  else cache_storage (session (exchange w))
      | None => cache_storage (session (exchange w))
      end.
Proof. by apply request_filter_forwards. Qed.

(** A request for an unknown host, or one that the path patterns reject,
    is answered with a single 404 and stopped. *)
Theorem Router_unroutable_404 env w (Hx : healthy (exchange w))
    (Hun : ∀ c, route_store w !! request_host (exchange w) = Some c →
       path_rejected (path_matcher c) (uri_path (req_uri (session (exchange w)))) = true) :
  Router_request_filter env w =
  (Ok true, set_exchange (wrote (RespondError 404) (addressed (exchange w))) w).
Proof.
  destruct (route_store w !! request_host (exchange w)) as [c|] eqn:Ec;
    [|by apply request_filter_unknown].
  rewrite (request_filter_known env w c Ec), (Hun c eq_refl).
  unfold mbind, M_bind, on_exchange, zoom, respond_error. simpl. by rewrite on_session_downstream.
Qed.

(** C28. A denied request reaches the upstream: on a route whose only plugin is
    [oauth2], a request whose cookie decodes to a user the validations refuse
    is answered 401, and the filter still tells Pingora to forward it. *)
Theorem unauthorised_request_forwarded (Hit : HashIterLaws) env w c plugin p secret vs token claims
    (Hx : healthy (exchange w))
    (Hc : route_store w !! request_host (exchange w) = Some c)
    (Hmatch : path_rejected (path_matcher c) (uri_path (req_uri (session (exchange w)))) = false)
    (Hplugins : rsc_plugins c = {["oauth2" := plugin]})
    (Hset : settings plugin p secret vs)
    (Hpath : uri_path (req_uri (session (exchange w))) ≠ callback_path (provider_typ p))
    (Htoken : find_secure_jwt (hm_get_all (req_headers (session (exchange w))) "cookie") None
              = Ok (Some token))
    (Hclaims : decode_jwt (env_now env) token secret = Ok claims)
    (Hdenied : is_authorized (OauthUser_from claims) vs = false) :
  fst (Router_request_filter env w) = Ok false ∧
  written (session (exchange (snd (Router_request_filter env w)))) =
    written (session (exchange w)) ++ [refusal].
Proof.
  rewrite (request_filter_known env w c Hc), Hmatch, Hplugins.
  assert (execute_request_plugins env {["oauth2" := plugin]} (addressed (exchange w))
          = (Ok false, wrote refusal (addressed (exchange w)))) as Hrun.
  { unfold execute_request_plugins.
    assert (hash_iter {["oauth2" := plugin]} = [("oauth2", plugin)]) as ->
      by (apply Permutation_singleton_r; rewrite hash_iter_perm; by rewrite map_to_list_singleton).
    cbn [run_request_plugins]. unfold request_plugin_step, Oauth2. cbn [request_filter].
    unfold mbind at 1, M_bind at 1, is_ok_and. simpl.
    rewrite (filter_settings _ _ _ _ _ _ Hset). simpl. rewrite (proj2 (String.eqb_neq _ _) Hpath).
    unfold validate_cookie, mbind, M_bind, gets, lift. simpl. rewrite Htoken, Hclaims, Hdenied. simpl.
    by rewrite unauthorized_writes. }
  unfold on_exchange, zoom, catch_ok, mbind, M_bind. cbn [exchange set_exchange]. rewrite Hrun.
  destruct (enable_cache _ _) as [r w1] eqn:Een.
  apply enable_cache_spec in Een as (-> & _ & _ & Hw & _). simpl. by rewrite Hw.
Qed.

(** The peer of a forwarded request is a backend of its route's balancer,
    the upstream recorded for it is one of the route's whose address resolves
    to that backend, TLS is used exactly for port 443, and the SNI is that
    upstream's. *)
Theorem upstream_peer_sound (Hl : LbLaws) x peer x'
    (Hr : upstream_peer x = (Ok peer, x')) :
  let c := route_container (ctx x) in
  peer_backend peer ∈ get_backend (load_balancer c) ∧
  ∃ addr addrs, as_inet (peer_backend peer) = Some addr ∧
    ctx_upstream (ctx x') ∈ rsc_upstreams c ∧
    to_socket_addrs (up_ip (ctx_upstream (ctx x')) +:+ ":" +:+ show_N (up_port (ctx_upstream (ctx x'))))
      = Some addrs ∧ addr ∈ addrs ∧
    (peer_tls peer = true ↔ addr.2 = 443%N) ∧
    peer_sni peer = default "" (up_sni (ctx_upstream (ctx x'))) ∧
    verify_cert (peer_options peer) = false.
Proof.
  intros c. unfold upstream_peer, mbind, M_bind, gets, lift, throw in Hr.
  assert (Hbody : ∃ b ip port up, select (load_balancer c) = Some b ∧
    as_inet b = Some (ip, port) ∧ find_upstream (ip, port) (rsc_upstreams c) = Ok (Some up) ∧
    peer = mkPeer _ b (N.eqb port 443) (default "" (up_sni up)) default_peer_opts ∧
    ctx_upstream (ctx x') = up).
  { destruct (cache_is_enabled (session x)); simpl in Hr; fold c in Hr;
      (destruct (select _) as [b|] eqn:Eb; [|done]);
      (destruct (as_inet b) as [[ip port]|] eqn:Ea; [|done]);
      (destruct (find_upstream _ _) as [[up|]|e|] eqn:Ef; [|done..]);
      injection Hr as <- <-; by exists b, ip, port, up. }
  destruct Hbody as (b & ip & port & up & Hb & Ha & Hf & -> & ->).
  apply find_upstream_Some in Hf as [Hin (addrs & Hd & Haddr)%upstream_matches_true].
  simpl. split; [by apply select_backend|]. exists (ip, port), addrs. rewrite N.eqb_eq. by split_and!.
Qed.

(** If the first upstream of the route does not resolve when the peer is
    chosen, choosing it panics. *)
Theorem upstream_peer_unresolved_panics x b addr u rest
    (Hsel : select (load_balancer (route_container (ctx x))) = Some b)
    (Haddr : as_inet b = Some addr)
    (Hups : rsc_upstreams (route_container (ctx x)) = u :: rest)
    (Hdns : to_socket_addrs (up_ip u +:+ ":" +:+ show_N (up_port u)) = None) :
  fst (upstream_peer x) = Panic.
Proof.
  unfold upstream_peer, mbind, M_bind, gets, lift.
  destruct (cache_is_enabled (session x)); simpl; rewrite Hsel, Haddr; destruct addr; rewrite Hups;
    simpl; unfold upstream_matches; by rewrite Hdns.
Qed.

(** Response headers, per name: a name listed for removal is gone; any
    other that is listed for addition has the last value listed for it, alone;
    the rest, and the status, are the upstream's. *)
Theorem response_headers_spec (Hl : HeaderLaws) elapsed resp x resp' x' m
    (Hcache : cache_is_enabled (session x) = false)
    (Hr : Router_response_filter elapsed resp x = (Ok resp', x')) :
  let c := route_container (ctx x) in
  resp_status resp' = resp_status resp ∧
  hm_get_all (resp_headers resp') m =
    if decide (Exists (λ n, same_name n m) (host_header_remove c)) then []
    else match list_find (λ nv, same_name nv.1 m) (reverse (host_header_add c)) with
         | Some (_, (_, v)) => [v]
         | None => hm_get_all (resp_headers resp) m
         end.
Proof.
  intros c. unfold Router_response_filter, mbind, M_bind, gets, lift, mret, M_ret in Hr. fold c in Hr.
  destruct (add_headers (host_header_add c) resp) as [r1|e|] eqn:Ea; [|done..].
  rewrite Hcache in Hr.
  assert (Hr' : resp' = remove_headers (host_header_remove c) r1).
  { destruct (extensions (ctx x) !! "cache_state");
      destruct (execute_response_plugins x) as [[[]|e|] y]; by simplify_eq/=. }
  subst resp'. destruct (add_headers_get _ _ _ m Ea) as [Hs Hg].
  destruct (remove_headers_get (host_header_remove c) r1 m) as [Hs' Hg'].
  by rewrite Hs', Hg', Hs, Hg.
Qed.

(** What may be cached, and for how long: a response is cacheable exactly
    when the route has a cache section and the method is GET or HEAD (whatever
    its status), unless the expiry overflows the clock; the entry admitted at
    [t] is then a hit before [t + expires_in_secs] and expired after it. *)
Theorem cache_lifecycle (Hm : CacheMetaLaws) env resp x cache
    (Hcache : rsc_cache (route_container (ctx x)) = Some cache)
    (Hover : (env_now env + rc_expires_in_secs cache <= systime_max)%N) :
  ((∃ meta, fst (response_cache_filter env resp x) = Ok (Cacheable meta)) ↔
   req_method (session x) ∈ CACHEABLE_METHODS) ∧
  ∀ meta later y, fst (response_cache_filter env resp x) = Ok (Cacheable meta) →
    ((env_now later < env_now env + rc_expires_in_secs cache)%N →
     cache_hit_filter later meta y = (Ok false, snd (insert_extension "cache_state" "hit" y))) ∧
    ((env_now env + rc_expires_in_secs cache < env_now later)%N →
     cache_hit_filter later meta y = (Ok true, snd (insert_extension "cache_state" "expired" y))).
Proof.
  unfold response_cache_filter, cache_hit_filter, mbind, M_bind, gets, lift, checked_add_secs.
  rewrite Hcache, (proj2 (N.leb_le _ _) Hover).
  case_bool_decide as Em; simpl; [|by split; [split; [intros [? ?]|]|]].
  split; [by split; eauto|]. intros meta later y [= <-]. split; intros Ht.
  - by rewrite is_fresh_before.
  - by rewrite is_fresh_after.
Qed.
End properties.

(** ** Witnesses *)

#[local] Existing Instances toy_http toy_lb toy_pt toy_base64 toy_jwt toy_crypt toy_cookies
  toy_client toy_hash_iter toy_dns toy_meta.

(** One route for "a.test". *)
Definition toy_world (c : RouteStoreContainer) (x : Exchange) : World :=
  mkWorld _ _ _ {["a.test" := c]} ∅ x.
Definition toy_request (path : string) (headers : list (string * string)) : Exchange :=
  toy_exchange path None (("host", "a.test:443") :: headers).
Definition web : RouteUpstream := mkRouteUpstream "10.0.0.1" 443 None None (Some "web") None.
Definition broken : RouteUpstream := mkRouteUpstream "gone" 99999999999999999999 None None None None.
Definition toy_cache : RouteCache := mkRouteCache (Some true) RouteCacheType_Disk 3600 60 60 "/tmp".
Definition served (upstreams : list RouteUpstream) : RouteStoreContainer :=
  match try_from_iter ["10.0.0.1:443"] with
  | Some lb => mkContainer _ _ lb RouteStorePathMatcher_new ["Server"] [("x-a", "1"); ("X-A", "2")]
                 upstreams false ∅ (Some toy_cache)
  | None => toy_container
  end.
Definition bound (c : RouteStoreContainer) : Exchange :=
  set_ctx (set_container c (ctx (toy_request "/" []))) (toy_request "/" []).

Lemma Router_forwards_iff_witness :
  fst (Router_request_filter toy_env (toy_world (plugged two_plugins)
         (toy_request "/" [("authorization", "Basic b64:bob:secret")]))) = Ok false.
Proof.
  apply (Router_forwards_iff toy_hash_iter_laws); [reflexivity|].
  exists (plugged two_plugins). split_and!; [reflexivity|reflexivity|]. intros n v.
  unfold plugged, two_plugins. cbn [rsc_plugins].
  intros [[<- <-]|[Hn Hv]]%lookup_insert_Some; [reflexivity|].
  apply lookup_singleton_Some in Hv as [<- <-]. vm_compute. reflexivity.
Defined.

Lemma Router_unroutable_404_witness :
  let x := toy_exchange "/" None [("host", "b.test")] in
  Router_request_filter toy_env (toy_world toy_container x) =
  (Ok true, set_exchange (wrote (RespondError 404) (addressed x)) (toy_world toy_container x)).
Proof.
  intros x. apply (Router_unroutable_404 toy_env (toy_world toy_container x)); [reflexivity|].
  intros c Hc.
  assert (route_store (toy_world toy_container x) !! request_host x = None) as Hn by reflexivity.
  simpl in Hc. simpl in Hn. congruence.
Defined.

Lemma unauthorised_request_forwarded_witness :
  fst (Router_request_filter toy_env (toy_world (plugged {["oauth2" := oauth2_plugin by_name]})
         (toy_request "/private" [("cookie", cookie_text 900)]))) = Ok false.
Proof.
  apply (unauthorised_request_forwarded toy_hash_iter_laws toy_env
    (toy_world (plugged {["oauth2" := oauth2_plugin by_name]})
       (toy_request "/private" [("cookie", cookie_text 900)]))
    (plugged {["oauth2" := oauth2_plugin by_name]}) (oauth2_plugin by_name) github "key"
    (Some (VArray by_name)) (cookie_value (issued 900)) (mkClaims "octo@a.test" 87300 900 [] []));
    [reflexivity|reflexivity|reflexivity|reflexivity|apply oauth2_plugin_settings|discriminate
    |vm_compute; reflexivity|vm_compute; reflexivity|reflexivity].
Defined.

Lemma upstream_peer_sound_witness :
  ∃ peer x', upstream_peer (bound (served [web])) = (Ok peer, x') ∧
    peer_backend peer ∈ get_backend (load_balancer (served [web])).
Proof.
  eexists _, _. split; [reflexivity|].
  refine (proj1 (upstream_peer_sound toy_lb_laws (bound (served [web])) _ _ _)). reflexivity.
Defined.

Lemma upstream_peer_unresolved_panics_witness :
  fst (upstream_peer (bound (served [broken; web]))) = Panic.
Proof.
  apply (upstream_peer_unresolved_panics (bound (served [broken; web])) ("10.0.0.1", 443%N)
    ("10.0.0.1", 443%N) broken [web]); vm_compute; reflexivity.
Defined.

Lemma response_headers_spec_witness :
  match Router_response_filter 5 (build_no_case 200) (bound (served [web])) with
  | (Ok resp', _) => hm_get_all (resp_headers resp') "x-a" = ["2"]
  | _ => False
  end.
Proof.
  destruct (Router_response_filter 5 (build_no_case 200) (bound (served [web]))) as [r x'] eqn:E.
  destruct r as [resp'|e|]; 
    [|apply (f_equal (λ p, match p.1 with Ok _ => true | _ => false end)) in E;
      vm_compute in E; discriminate..].
  exact (proj2 (response_headers_spec toy_http_laws 5 (build_no_case 200)
    (bound (served [web])) _ _ "x-a" eq_refl E)).
Defined.

Lemma cache_lifecycle_witness :
  ∃ meta, fst (response_cache_filter toy_env (build_no_case 500) (bound (served [web])))
          = Ok (Cacheable meta).
Proof.
  apply (cache_lifecycle toy_meta_laws toy_env (build_no_case 500) (bound (served [web])) toy_cache);
    [reflexivity|vm_compute; discriminate|set_solver].
Defined.
