(* ===== verification/HttpLb.v ===== *)
(** The plain-HTTP front (proxy_server/http_proxy.rs: ping, ACME challenges,
    redirection to HTTPS) and the TLS certificate callback
    (proxy_server/cert_store.rs). Both are clients of the [Store] interface:
    their theorems hold for every store that meets [StoreSpec]. *)
From Stdlib Require Import DecimalString.
From S2P Require Import Prelude Strs Config Stores Http.
#[local] Open Scope string_scope.
#[local] Open Scope list_scope.

(** ** External code *)

(** [http::Uri::builder().scheme(HTTPS).authority(a).path_and_query(p).build()]
    as the text of the URI; [None] when [build] fails. *)
Class UriBuilder := { build_https : string → string → option string }.

(** [pingora::tls::ext] on the connection of a handshake. *)
Class SslApi `{Pki} := {
  Ssl : Type;
  servername : Ssl → option string;
  ssl_use_private_key : PKey → Ssl → option Ssl;
  ssl_use_certificate : X509 → Ssl → option Ssl;
  ssl_add_chain_cert : X509 → Ssl → option Ssl }.

(** The static GLOBAL_STORE and the session. *)
Record Front (T : Type) `{HttpApi} := mkFront {
  global_store : option T;
  front_session : Session }.
Arguments mkFront {T _} _ _.
Arguments global_store {T _} _.
Arguments front_session {T _} _.

Section http_lb.
Context `{HttpApi, UriBuilder, Pki} {T : Type} `{!Store T}.

Definition set_front_session (s : Session) (f : Front T) : Front T := mkFront (global_store f) s.
Definition on_front {A} (m : M Session error A) : M (Front T) error A :=
  zoom front_session set_front_session m.

(** [global::get_store().get_challenge(host)] *)
Definition store_challenge (host : string) : M (Front T) error (option (string * string)) := λ f,
  match get_store (global_store f) with
  | Ok store =>
      let '(r, store') := get_challenge host store in
      (map_err Anyhow r, mkFront (Some store') (front_session f))
  | Err e => (Err (Anyhow e), f)
  | Panic => (Panic, f)
  end.

Definition HttpLB_get_host (s : Session) : string :=
  match hm_get (req_headers s) "host" with
  | Some host => default "" (header_to_str host)
  | None => default "" (uri_host (req_uri s))
  end.

(** The headers of a plain-text answer. *)
Definition text_headers (h : ResponseHeader) (len : nat) : res error ResponseHeader :=
  h ← append_header "content-type" "text/plain" h;
  append_header "content-length" (show_N (N.of_nat len)) h.

(** A header, then a last body chunk. *)
Definition send_text (h : ResponseHeader) (body : string) : M (Front T) error bool :=
  _ ← on_front (write_response_header h false);
  _ ← on_front (write_response_body body true);
  mret true.

Definition HttpLB_request_filter : M (Front T) error bool :=
  current_uri ← gets (λ f, req_uri (front_session f));
  host ← gets (λ f, HttpLB_get_host (front_session f));
  if String.eqb host "" then throw (HTTPStatus 400)
  else if String.eqb (uri_path current_uri) "/ping" then
    let sample_body := "pong" in
    res_headers ← lift (text_headers (build_no_case 200) (String.length sample_body));
    send_text res_headers sample_body
  else if starts_with "/.well-known/acme-challenge" (uri_path current_uri) then
    challenge_from_host ← store_challenge host;
    match challenge_from_host with
    | None => throw (HTTPStatus 404)
    | Some (token, proof) =>
        let token_from_url := last_segment "/" (uri_path current_uri) in
        if negb (String.eqb token token_from_url) then throw (HTTPStatus 404)
        else
          let sample_body := proof in
          res_headers ← lift (text_headers (build_no_case 200) (String.length sample_body));
          send_text res_headers sample_body
    end
  else
    path_and_query ← lift (unwrap (uri_path_and_query current_uri));
    new_uri ← lift (unwrap (build_https host path_and_query));
    let res_headers := build_no_case 308 in
    res_headers ← lift (append_header "location" new_uri res_headers);
    res_headers ← lift (text_headers res_headers 0);
    send_text res_headers "".

Definition HttpLB_upstream_peer {A} : M (Front T) error A := throw (HTTPStatus 404).
End http_lb.

Section cert_store.
Context `{SslApi} {T : Type} `{!Store T}.

(** Always [Ok(())]: no server name aborts the handshake here. *)
Definition sni_callback (ssl : Ssl) : res string unit :=
  let _ := default "" (servername ssl) in Ok tt.

(** The state is the GLOBAL_STORE cell and the connection. *)
Definition certificate_callback : M (option T * Ssl) string unit := λ s,
  let '(cell, ssl) := s in
  let host_name := default "" (servername ssl) in
  match get_store cell with
  | Ok store =>
      let '(r, store') := get_certificate host_name store in
      match r with
      | Ok None => (Ok tt, (Some store', ssl))
      | Ok (Some cert) =>
          match ssl ← ssl_use_private_key (cert_key cert) ssl;
                ssl ← ssl_use_certificate (cert_leaf cert) ssl;
                match cert_chain cert with
                | Some chain => ssl_add_chain_cert chain ssl
                | None => Some ssl
                end with
          | Some ssl' => (Ok tt, (Some store', ssl'))
          | None => (Panic, (Some store', ssl))
          end
      | Err e => (Err e, (Some store', ssl))
      | Panic => (Panic, (Some store', ssl))
      end
  | Err e => (Err e, s)
  | Panic => (Panic, s)
  end.
End cert_store.

(** ** Lemmas *)

Section lemmas.
Context `{HttpApi, UriBuilder, Pki} {T : Type} `{!Store T}.
Implicit Types f : Front T.

(** The headers of a plain answer are accepted. *)
Definition plain_headers : Prop := ∀ n, ∃ h, text_headers (build_no_case 200) n = Ok h.

(** The front after a text answer. *)
Definition answered (h : ResponseHeader) (body : string) (f : Front T) : Front T :=
  set_front_session
    (set_written (written (front_session f) ++ [WriteHeader h false; WriteBody body true]) []
       (front_session f)) f.

Lemma send_text_healthy h body f :
  io (front_session f) = [] → send_text h body f = (Ok true, answered h body f).
Proof.
  intros Hf. unfold send_text, on_front, zoom, write_response_header, write_response_body, mbind, M_bind.
  rewrite (downstream_healthy _ _ Hf). simpl.
  unfold answered. by rewrite <- app_assoc.
Qed.

Lemma send_text_not_false h body f : fst (send_text h body f) ≠ Ok false.
Proof.
  unfold send_text, on_front, zoom, mbind, M_bind.
  destruct (write_response_header h false _) as [[] s]; simpl; [|done..].
  by destruct (write_response_body body true s) as [[] s'].
Qed.

(** A header that declares the length of the body that follows it. *)
Definition framed (h : ResponseHeader) (body : string) : Prop :=
  (resp_status h = 200%N ∨ resp_status h = 308%N) ∧
  hm_get_all (resp_headers h) "content-length" = [show_N (N.of_nat (String.length body))].

(** What the client is sent, by the outcome of the filter: nothing without a
    complete answer, unless the connection fails between header and body. *)
Inductive answer : res error bool → list Downstream → Prop :=
| answer_error e : answer (Err e) []
| answer_panic : answer Panic []
| answer_cut h body : framed h body → answer (Err IoError) [WriteHeader h false]
| answer_full h body : framed h body → answer (Ok true) [WriteHeader h false; WriteBody body true].

Lemma send_text_answer h body f r f' :
  send_text h body f = (r, f') → framed h body →
  global_store f' = global_store f ∧
  ∃ sent, written (front_session f') = written (front_session f) ++ sent ∧ answer r sent.
Proof.
  unfold send_text, on_front, zoom, write_response_header, write_response_body, downstream, mbind, M_bind.
  intros E Hf. destruct (io (front_session f)) as [|[] io'] eqn:Eio; simpl in E.
  - injection E as <- <-. simpl. split; [done|]. eexists. rewrite <- app_assoc. split; [done|]. by constructor.
  - destruct io' as [|[] io'']; simpl in E; injection E as <- <-; simpl; (split; [done|]); eexists;
      [rewrite <- app_assoc; split; [done|by constructor]..|split; [done|by econstructor]].
  - injection E as <- <-. simpl. split; [done|]. exists []. rewrite app_nil_r. split; [done|constructor].
Qed.

Lemma text_headers_get `{!HeaderLaws} h len h' :
  text_headers h len = Ok h' →
  resp_status h' = resp_status h ∧
  hm_get_all (resp_headers h') "location" = hm_get_all (resp_headers h) "location" ∧
  (hm_get_all (resp_headers h) "content-length" = [] →
   hm_get_all (resp_headers h') "content-length" = [show_N (N.of_nat len)]).
Proof.
  unfold text_headers, mbind, res_bind. destruct (append_header _ _ h) as [h1|e|] eqn:E1; [|done..].
  intros E2.
  destruct (append_header_get _ _ _ _ "location" E1) as [Hs1 Hl1].
  destruct (append_header_get _ _ _ _ "location" E2) as [Hs2 Hl2].
  destruct (append_header_get _ _ _ _ "content-length" E1) as [_ Hc1].
  destruct (append_header_get _ _ _ _ "content-length" E2) as [_ Hc2].
  rewrite Hs2, Hs1, Hl2, Hc2, Hc1. simpl. rewrite Hl1. simpl. split_and!; [done..|].
  by intros ->.
Qed.

(** The headers of a text answer frame its body. *)
Lemma text_headers_framed `{!HeaderLaws} h body h' :
  text_headers h (String.length body) = Ok h' → resp_status h = 200%N ∨ resp_status h = 308%N →
  hm_get_all (resp_headers h) "content-length" = [] → framed h' body.
Proof. intros (Hs & _ & Hc)%text_headers_get Hst Hno. split; [by rewrite Hs|auto]. Qed.

Lemma acme_path_not_ping path :
  starts_with "/.well-known/acme-challenge" path = true → String.eqb path "/ping" = false.
Proof. intros [r ->]%starts_with_true. done. Qed.
End lemmas.

(** ** Properties *)

Section properties.
Context `{HttpApi, UriBuilder, Pki} {T : Type} `{!Store T, !StoreView T}.
Implicit Types f : Front T.

(** The plain-HTTP front never forwards a request: its filter never
    answers "not handled". *)
Theorem HttpLB_never_forwards f : fst (HttpLB_request_filter f) ≠ Ok false.
Proof.
  unfold HttpLB_request_filter, mbind, M_bind, gets, lift, throw.
  destruct (String.eqb _ ""); [done|]. destruct (String.eqb _ "/ping").
  { destruct (text_headers _ _); [apply send_text_not_false|done..]. }
  destruct (starts_with _ _).
  { destruct (store_challenge _ _) as [[[[token proof]|]|e|] f']; [|done..].
    destruct (negb _); [done|]. destruct (text_headers _ _); [apply send_text_not_false|done..]. }
  unfold unwrap. destruct (uri_path_and_query _); [|done]. destruct (build_https _ _); [|done].
  destruct (append_header _ _ _); [|done..]. destruct (text_headers _ _); [apply send_text_not_false|done..].
Qed.

(** A path that sends nothing. *)
Ltac quits Hnone := simplify_eq; eapply Hnone;
  [reflexivity|first [left; eexists; reflexivity|right; reflexivity]|reflexivity].

(** C16. The front's answers are well formed, on every path and however the
    connection behaves: a client is sent nothing, or one header that declares
    the length of the one body that ends the answer, with status 200 or 308;
    only a failing connection cuts it short. An answer was sent in full exactly
    when the filter returns [Ok true], and it never returns [Ok false]. *)
Theorem front_answers_well_formed (Hh : HeaderLaws) f r f'
    (Hrun : HttpLB_request_filter f = (r, f')) :
  ∃ sent, written (front_session f') = written (front_session f) ++ sent ∧ answer r sent.
Proof.
  assert (Hnone : ∀ f1, written (front_session f1) = written (front_session f) →
    ((∃ e, r = Err e) ∨ r = Panic) → f' = f1 →
    ∃ sent, written (front_session f') = written (front_session f) ++ sent ∧ answer r sent).
  { intros f1 Hw Hr ->. exists []. rewrite app_nil_r. split; [done|].
    destruct Hr as [[e ->]| ->]; constructor. }
  unfold HttpLB_request_filter, mbind, M_bind, gets, lift, throw in Hrun.
  destruct (String.eqb _ ""); [quits Hnone|].
  destruct (String.eqb _ "/ping").
  { destruct (text_headers _ _) as [h|e|] eqn:Eh; [|quits Hnone..].
    by destruct (send_text_answer _ _ _ _ _ Hrun) as [_ ?];
      [eapply (text_headers_framed _ "pong"); [exact Eh|by left|apply hm_get_all_new]|]. }
  destruct (starts_with _ _).
  { destruct (store_challenge _ _) as [rc f1] eqn:Ec.
    assert (Hf1 : front_session f1 = front_session f).
    { unfold store_challenge in Ec. destruct (get_store _); [|by simplify_eq..].
      destruct (get_challenge _ _). by simplify_eq. }
    rewrite <- Hf1 in Hnone |- *.
    destruct rc as [[[token proof]|]|e|]; [|quits Hnone..].
    destruct (negb _); [quits Hnone|].
    destruct (text_headers _ _) as [h|e|] eqn:Eh; [|quits Hnone..].
    by destruct (send_text_answer _ _ _ _ _ Hrun) as [_ ?];
      [eapply (text_headers_framed _ proof); [exact Eh|by left|apply hm_get_all_new]|]. }
  unfold unwrap in Hrun. destruct (uri_path_and_query _); [|quits Hnone].
  destruct (build_https _ _) as [uri|]; [|quits Hnone].
  destruct (append_header _ _ _) as [h0|e|] eqn:E0; [|quits Hnone..].
  destruct (text_headers _ _) as [h|e|] eqn:Eh; [|quits Hnone..].
  destruct (append_header_get _ _ _ _ "content-length" E0) as [Hs0 Hc0].
  destruct (send_text_answer _ _ _ _ _ Hrun) as [_ ?]; [|done].
  eapply (text_headers_framed _ ""); [exact Eh|right; by rewrite Hs0|]. rewrite Hc0. simpl. apply hm_get_all_new.
Qed.

(** C5. ACME challenges, against any store that meets its contract: on a
    healthy connection, with a store that answers and the two headers of a text
    answer accepted, a request under the challenge path is answered exactly when
    a challenge is stored for the requested host with the last segment of the
    path as its token: 200, with the proof as its body and its length declared;
    and gets the error 404 otherwise, with nothing written. What the store holds
    does not change. *)
Theorem acme_challenge_served (Hh : HeaderLaws) (Hs : StoreSpec T) f store r f'
    (Hstore : global_store f = Some store)
    (Hf : io (front_session f) = [])
    (Hhost : HttpLB_get_host (front_session f) ≠ "")
    (Hpath : starts_with "/.well-known/acme-challenge" (uri_path (req_uri (front_session f))) = true)
    (Hup : fst (get_challenge (HttpLB_get_host (front_session f)) store) ≠ Panic)
    (Hheaders : plain_headers)
    (Hr : HttpLB_request_filter f = (r, f')) :
  let asked := last_segment "/" (uri_path (req_uri (front_session f))) in
  let stored := challenges_of store (HttpLB_get_host (front_session f)) in
  (r = Ok true ↔ ∃ proof, stored = Some (asked, proof)) ∧
  (∀ proof, stored = Some (asked, proof) → ∃ h,
     written (front_session f') =
       written (front_session f) ++ [WriteHeader h false; WriteBody proof true] ∧
     resp_status h = 200%N ∧
     hm_get_all (resp_headers h) "content-length" = [show_N (N.of_nat (String.length proof))]) ∧
  (r ≠ Ok true → r = Err (HTTPStatus 404) ∧ written (front_session f') = written (front_session f)) ∧
  ∃ store', global_store f' = Some store' ∧ same_view store store'.
Proof.
  intros asked stored. subst asked stored.
  unfold HttpLB_request_filter, mbind, M_bind, gets, lift, throw in Hr.
  rewrite (proj2 (String.eqb_neq _ _) Hhost), (acme_path_not_ping _ Hpath), Hpath in Hr.
  unfold store_challenge in Hr. rewrite Hstore in Hr. simpl in Hr.
  destruct (get_challenge _ store) as [r1 store'] eqn:Eg. simpl in Hup.
  apply get_challenge_spec in Eg as [Hview [-> | ->]]; simpl in Hr; [|done].
  destruct (challenges_of store _) as [[token proof]|];
    [destruct (String.eqb_spec token (last_segment "/" (uri_path (req_uri (front_session f))))) as [<-|Hne]|];
    simpl in Hr.
  - destruct (Hheaders (String.length proof)) as [h Et]. rewrite Et in Hr.
    rewrite send_text_healthy in Hr by done. injection Hr as <- <-.
    destruct (text_headers_get _ _ _ Et) as (? & _ & Hc).
    split_and!; [by split; [intros _; exists proof|]| |done|by exists store'].
    intros proof' [= <-]. exists h. split_and!; [done|done|]. apply Hc. apply hm_get_all_new.
  - simplify_eq. split_and!; [split; [done|naive_solver]|naive_solver|done|by exists store'].
  - simplify_eq. split_and!; [split; [done|naive_solver]|naive_solver|done|by exists store'].
Qed.

(** Every other request of a named host is redirected: the only answer on a
    healthy connection is a 308 whose Location is the HTTPS URI of the same
    host, path and query. A host that is not a URI authority, or a request
    without path and query, panics. *)
Theorem redirect_or_panic (Hh : HeaderLaws) f
    (Hf : io (front_session f) = [])
    (Hhost : HttpLB_get_host (front_session f) ≠ "")
    (Hping : uri_path (req_uri (front_session f)) ≠ "/ping")
    (Hpath : starts_with "/.well-known/acme-challenge" (uri_path (req_uri (front_session f))) = false) :
  match p ← uri_path_and_query (req_uri (front_session f));
        build_https (HttpLB_get_host (front_session f)) p with
  | None => HttpLB_request_filter f = (Panic, f)
  | Some uri =>
      (∃ e, HttpLB_request_filter f = (Err e, f)) ∨
      ∃ h, HttpLB_request_filter f = (Ok true, answered h "" f) ∧ resp_status h = 308%N ∧
        hm_get_all (resp_headers h) "location" = [uri]
  end.
Proof.
  unfold HttpLB_request_filter. unfold mbind, M_bind, gets, lift, throw.
  rewrite (proj2 (String.eqb_neq _ _) Hhost), (proj2 (String.eqb_neq _ _) Hping), Hpath.
  destruct (uri_path_and_query _) as [p|]; simpl; [|done].
  destruct (build_https _ p) as [uri|]; simpl; [|done].
  destruct (append_header "location" uri _) as [h1|e|] eqn:E1; [|by eauto|].
  2: { unfold append_header in E1. by destruct (hm_append _ _ _). }
  destruct (text_headers h1 0) as [h2|e|] eqn:E2; [|by eauto|].
  2: { unfold text_headers, append_header, mbind, res_bind in E2. by repeat case_match. }
  right. exists h2. rewrite send_text_healthy by done.
  destruct (text_headers_get _ _ _ E2) as (Hs & Hl & _).
  destruct (append_header_get _ _ _ _ "location" E1) as [Hs1 Hl1].
  split_and!; [done|by rewrite Hs, Hs1|]. rewrite Hl, Hl1. simpl. by rewrite hm_get_all_new.
Qed.

(** The TLS callback presents the certificate the store holds for the
    server name of the handshake, key, leaf and chain, and nothing when it
    holds none; what the store holds does not change. *)
Theorem certificate_presented `{!SslApi} (Hs : StoreSpec T) store ssl cell' ssl'
    (Hr : certificate_callback (Some store, ssl) = (Ok tt, (cell', ssl'))) :
  (∃ store', cell' = Some store' ∧ same_view store store') ∧
  match certs_of store (default "" (servername ssl)) with
  | None => ssl' = ssl
  | Some cert => ∃ s1 s2,
      ssl_use_private_key (cert_key cert) ssl = Some s1 ∧
      ssl_use_certificate (cert_leaf cert) s1 = Some s2 ∧
      match cert_chain cert with
      | Some chain => ssl_add_chain_cert chain s2 = Some ssl'
      | None => ssl' = s2
      end
  end.
Proof.
  unfold certificate_callback in Hr. simpl in Hr.
  destruct (get_certificate _ store) as [r store'] eqn:Eg.
  apply get_certificate_spec in Eg as [Hview [-> | ->]]; [|done].
  destruct (certs_of store _) as [cert|]; [|injection Hr as <- <-; split; [by eexists|done]].
  destruct (ssl_use_private_key (cert_key cert) ssl) as [s1|] eqn:E1; simpl in Hr; [|done].
  destruct (ssl_use_certificate (cert_leaf cert) s1) as [s2|] eqn:E2; simpl in Hr; [|done].
  destruct (cert_chain cert) as [chain|]; simpl in Hr.
  - destruct (ssl_add_chain_cert chain s2) as [s3|] eqn:E3; [|done]. injection Hr as <- <-.
    split; [by eexists|]. by exists s1, s2.
  - injection Hr as <- <-. split; [by eexists|]. by exists s1, s2.
Qed.
End properties.

(** ** Witnesses *)

Definition toy_uri : UriBuilder := {|
  build_https := λ a p, if has_char " " a then None else Some ("https://" +:+ a +:+ p) |}.

#[local] Existing Instances toy_http toy_uri toy_pki.

(** A connection is the list of what was installed on it. *)
Definition toy_ssl : SslApi := {|
  Ssl := string * list string;
  servername := λ s, Some s.1;
  ssl_use_private_key := λ k s, Some (s.1, s.2 ++ [k]);
  ssl_use_certificate := λ c s, Some (s.1, s.2 ++ [c]);
  ssl_add_chain_cert := λ c s, Some (s.1, s.2 ++ [c]) |}.
#[local] Existing Instance toy_ssl.

Definition front_store : MemoryStore :=
  mkMemoryStore _ {["a.test" := mkCertificate _ "key" "leaf" (Some "chain")]}
    {["a.test" := ("tok", "proof")]}.
Definition toy_front (host path : string) : Front MemoryStore :=
  mkFront (Some front_store)
    (mkSession toy_http "GET" (mkUri path None None (Some path) path) [("host", host)] [] []
       None None false).

Lemma visible_digits d : visible (NilZero.string_of_uint d) = true.
Proof.
  assert (Hd : visible (NilEmpty.string_of_uint d) = true) by (induction d; simpl; [done|exact IHd..]).
  destruct d; [done|exact Hd..].
Qed.

Lemma toy_plain_headers : plain_headers.
Proof.
  intros n. unfold text_headers, append_header, mbind, M_bind. simpl.
  unfold show_N. rewrite visible_digits. by eexists.
Qed.

Lemma acme_challenge_served_witness :
  (∃ h, written (front_session (snd (HttpLB_request_filter
         (toy_front "a.test" "/.well-known/acme-challenge/tok"))))
       = [WriteHeader h false; WriteBody "proof" true]) ∧
  fst (HttpLB_request_filter (toy_front "a.test" "/.well-known/acme-challenge/other")) = Err (HTTPStatus 404).
Proof.
  split.
  - set (f := toy_front "a.test" "/.well-known/acme-challenge/tok").
    destruct (HttpLB_request_filter f) as [r f'] eqn:E.
    destruct (acme_challenge_served toy_http_laws MemoryStore_spec f front_store r f') as (_ & Hs & _);
      [reflexivity|reflexivity|discriminate|reflexivity|discriminate|exact toy_plain_headers|exact E|].
    destruct (Hs "proof" eq_refl) as (h & Hw & _). by exists h.
  - set (f := toy_front "a.test" "/.well-known/acme-challenge/other").
    destruct (HttpLB_request_filter f) as [r f'] eqn:E.
    destruct (acme_challenge_served toy_http_laws MemoryStore_spec f front_store r f') as (Hiff & _ & Helse & _);
      [reflexivity|reflexivity|discriminate|reflexivity|discriminate|exact toy_plain_headers|exact E|].
    refine (proj1 (Helse _)). intros [proof Hp]%Hiff. discriminate Hp.
Defined.

(** The connection fails after the header of the answer to a ping. *)
Definition flaky_ping : Front MemoryStore :=
  set_front_session (set_written [] [true; false] (front_session (toy_front "a.test" "/ping")))
    (toy_front "a.test" "/ping").

Lemma front_answers_well_formed_witness :
  ∃ h, written (front_session (snd (HttpLB_request_filter flaky_ping))) = [WriteHeader h false] ∧
    hm_get_all (resp_headers h) "content-length" = ["4"].
Proof.
  destruct (front_answers_well_formed toy_http_laws flaky_ping (Err IoError)
    (snd (HttpLB_request_filter flaky_ping))) as (sent & Hw & _); [reflexivity|].
  rewrite Hw. simpl in Hw |- *. subst sent. eexists. split; reflexivity.
Defined.

Lemma redirect_or_panic_witness :
  HttpLB_request_filter (toy_front "a b" "/x") = (Panic, toy_front "a b" "/x") ∧
  ((∃ e, HttpLB_request_filter (toy_front "a.test" "/x") = (Err e, toy_front "a.test" "/x")) ∨
   ∃ h, HttpLB_request_filter (toy_front "a.test" "/x")
        = (Ok true, answered h "" (toy_front "a.test" "/x")) ∧ resp_status h = 308%N ∧
     hm_get_all (resp_headers h) "location" = ["https://a.test/x"]).
Proof.
  split.
  - refine (redirect_or_panic toy_http_laws (toy_front "a b" "/x") eq_refl _ _ eq_refl); discriminate.
  - refine (redirect_or_panic toy_http_laws (toy_front "a.test" "/x") eq_refl _ _ eq_refl); discriminate.
Defined.

Definition handshake : Ssl := (("a.test", []) : string * list string).

Lemma certificate_presented_witness :
  match certificate_callback (Some front_store, handshake) with
  | (Ok _, (_, ssl')) => ssl' = (("a.test", ["key"; "leaf"; "chain"]) : string * list string)
  | _ => False
  end.
Proof.
  destruct (certificate_callback (Some front_store, handshake)) as [r [cell' ssl']] eqn:E.
  assert (r = Ok tt) as -> by (vm_compute in E; congruence).
  destruct (certificate_presented MemoryStore_spec front_store handshake cell' ssl' E)
    as [_ (s1 & s2 & [= <-] & [= <-] & [= <-])].
  reflexivity.
Defined.
