(* ===== verification/Discovery.v ===== *)
(** The routing service (services/discovery/mod.rs): how configured routes and
    broadcast route messages become containers of the route store, and the
    certificates of configured routes entries of the certificate store. The
    messages are those of main.rs. *)
From S2P Require Import Prelude Strs Config Stores Http Routes Plugins Router.
#[local] Open Scope string_scope.
#[local] Open Scope list_scope.

(** ** Messages (main.rs) *)

Record MsgRoute := mkMsgRoute {
  msg_host : string;
  msg_upstreams : list string;
  path_matchers : list string;
  host_headers_add : list RouteHeaderAdd;
  host_headers_remove : list RouteHeaderRemove;
  msg_plugins : list RoutePlugin;
  self_signed_certs : bool }.
Record MsgCert := mkMsgCert { msg_cert : string; msg_key : string }.
Inductive MsgProxy := NewRoute (r : MsgRoute) | NewCertificate (c : MsgCert) | ConfigUpdate.

(** What [receiver.recv()] of the broadcast channel returns: a message, or an
    error (the channel is closed, or the receiver lagged behind). *)
Inductive Recv := Received (m : MsgProxy) | RecvError.

(** [std::fs::read_to_string] *)
Class Files := { read_to_string : string → option string }.

(** ROUTE_STORE and GLOBAL_STORE. *)
Record Registry (T : Type) `{LbApi, PathTreeApi} := mkRegistry {
  reg_routes : gmap string RouteStoreContainer;
  reg_store : option T }.
Arguments mkRegistry {T _ _} _ _.
Arguments reg_routes {T _ _} _.
Arguments reg_store {T _ _} _.

Definition upstream_text (u : RouteUpstream) : string := up_ip u +:+ ":" +:+ show_N (up_port u).

Section discovery.
Context `{HttpApi, Dns, LbApi, PathTreeApi}.
Implicit Types routes : gmap string RouteStoreContainer.

Definition has_new_backend (host : string) (upstream_input : LoadBalancer) (routes : gmap string RouteStoreContainer)
    : bool :=
  match get_route_by_key host routes with
  | Some route_container =>
      let backends := get_backend (load_balancer route_container) in
      let new_backends := get_backend upstream_input in
      if negb (length backends =? length new_backends)%nat then true
      else negb (forallb (λ be, bool_decide (be ∈ new_backends)) backends)
  | None => false
  end.

Definition parse_header (h : RouteHeaderAdd) : res string (string * string) :=
  name ← unwrap (HeaderName_from_str (rha_name h));
  value ← unwrap (HeaderValue_from_str (rha_value h));
  Ok (name, value).
Fixpoint parse_headers (hs : list RouteHeaderAdd) : res string (list (string * string)) :=
  match hs with
  | [] => Ok []
  | h :: rest => p ← parse_header h; ps ← parse_headers rest; Ok (p :: ps)
  end.

Definition known_plugins : list string := ["oauth2"; "request_id"; "basic_auth"].
Definition collect_plugins (plugins : list RoutePlugin) : gmap string RoutePlugin :=
  fold_left (λ m p, if bool_decide (plugin_name p ∈ known_plugins) then <[plugin_name p := p]> m else m)
    plugins ∅.

(** The container built from a balancer and the route's settings. *)
Definition build_container (upstreams : LoadBalancer) (upstream_input : list RouteUpstream)
    (match_with : option RouteMatcher) (headers : option RouteHeader)
    (plugins : option (list RoutePlugin)) (cache : option RouteCache) (self_sign : bool)
    : res string RouteStoreContainer :=
  let upstreams := set_health_check_frequency 15 (set_health_check upstreams) in
  add ← match h ← headers; rh_add h with Some hs => parse_headers hs | None => Ok [] end;
  let remove := match h ← headers; rh_remove h with Some rs => rhr_name <$> rs | None => [] end in
  let collected := match plugins with Some ps => collect_plugins ps | None => ∅ end in
  let matcher :=
    match m ← match_with; matcher_path m with
    | Some path_matcher =>
        match patterns path_matcher with
        | [] => RouteStorePathMatcher_new
        | ps => with_pattern ps RouteStorePathMatcher_new
        end
    | None => RouteStorePathMatcher_new
    end in
  Ok (mkContainer _ _ upstreams matcher remove add upstream_input self_sign collected cache).

Definition add_route_to_router (host : string) (upstream_input : list RouteUpstream)
    (match_with : option RouteMatcher) (headers : option RouteHeader)
    (plugins : option (list RoutePlugin)) (cache : option RouteCache) (self_sign : bool)
    : M (gmap string RouteStoreContainer) string unit :=
  let upstream_str := upstream_text <$> upstream_input in
  match try_from_iter upstream_str with
  | None => mret tt
  | Some upstreams =>
      routes ← get_state;
      if bool_decide (is_Some (get_route_by_key host routes))
           && negb (has_new_backend host upstreams routes) then mret tt
      else
        container ← lift (build_container upstreams upstream_input match_with headers plugins
                            cache self_sign);
        modify (insert_route host container)
  end.

(** The upstreams of a message: one per address its texts resolve to. *)
Definition message_upstreams (texts : list string) : list RouteUpstream :=
  concat ((λ u, match to_socket_addrs u with
                | Some scr => (λ f, mkRouteUpstream f.1 f.2 None (Some 1%Z) None None) <$> scr
                | None => []
                end) <$> texts).

Definition watch_for_route_changes (route : MsgRoute) : M (gmap string RouteStoreContainer) string unit :=
  let matcher := match path_matchers route with
                 | [] => None
                 | ps => Some (mkRouteMatcher (Some (mkRoutePathMatcher ps)))
                 end in
  let route_header := mkRouteHeader (Some (host_headers_add route)) (Some (host_headers_remove route)) in
  add_route_to_router (msg_host route) (message_upstreams (msg_upstreams route)) matcher
    (Some route_header) (Some (msg_plugins route)) None (self_signed_certs route).
End discovery.

Section service.
Context `{HttpApi, Dns, LbApi, PathTreeApi, Pki, Files} {T : Type} `{!Store T}.

Definition set_reg_routes (routes : gmap string RouteStoreContainer) (s : Registry T) : Registry T :=
  mkRegistry routes (reg_store s).
Definition on_routes {A} (m : M (gmap string RouteStoreContainer) string A) : M (Registry T) string A :=
  zoom reg_routes set_reg_routes m.

Definition store_certificate (host : string) (cert : Certificate) : M (Registry T) string unit := λ s,
  match get_store (reg_store s) with
  | Ok store =>
      let '(r, store') := set_certificate host cert store in
      (map_err (λ _, "Failed to insert certificate from config for route:  " +:+ host) r,
       mkRegistry (reg_routes s) (Some store'))
  | Err e => (Err e, s)
  | Panic => (Panic, s)
  end.

Definition add_route_ssl_to_store (route : Route) : M (Registry T) string unit :=
  match v ← route_ssl route; Config.ssl_path v with
  | None => mret tt
  | Some ssl_path =>
      key_from_file ← lift (ok_or "Failed to load private key from file" (read_to_string (ssl_key ssl_path)));
      pem_from_file ← lift (ok_or "Failed to load certificate from file" (read_to_string (ssl_pem ssl_path)));
      key ← lift (ok_or "Failed to load private key from file" (private_key_from_pem key_from_file));
      pem ← lift (ok_or "Failed to load certificate from file" (x509_from_pem pem_from_file));
      store_certificate (route_host route) (mkCertificate _ key pem None)
  end.

Fixpoint add_routes_from_config (routes : list Route) : M (Registry T) string unit :=
  match routes with
  | [] => mret tt
  | route :: rest =>
      let self_signed_cert_on_failure := v ← route_ssl_certificate route; self_signed_on_failure v in
      _ ← catch_ok (E := string) (add_route_ssl_to_store route);
      _ ← on_routes (add_route_to_router (route_host route) (route_upstreams route)
            (route_match_with route) (route_headers route) (route_plugins route) (route_cache route)
            (default false self_signed_cert_on_failure));
      add_routes_from_config rest
  end.

(** The [while let] loop over what the receiver yields. *)
Fixpoint watch_loop (received : list Recv) : M (Registry T) string unit :=
  match received with
  | Received (NewRoute route) :: rest => _ ← on_routes (watch_for_route_changes route); watch_loop rest
  | _ => mret tt
  end.

Definition RoutingService_start (config : list Route) (received : list Recv) : M (Registry T) string unit :=
  _ ← add_routes_from_config config;
  watch_loop received.
End service.

(** ** Lemmas *)

Section lemmas.
Context `{HttpApi, Dns, LbApi, PathTreeApi}.
Implicit Types routes : gmap string RouteStoreContainer.

(** What the rest of the proxy relies on of a stored container. *)
Record container_ok (c : RouteStoreContainer) : Prop := {
  backends_covered b : b ∈ get_backend (load_balancer c) →
    ∃ sa u addrs, as_inet b = Some sa ∧ u ∈ rsc_upstreams c ∧
      to_socket_addrs (upstream_text u) = Some addrs ∧ sa ∈ addrs;
  upstreams_resolve u : u ∈ rsc_upstreams c → is_Some (to_socket_addrs (upstream_text u));
  plugins_known n p : rsc_plugins c !! n = Some p → plugin_name p = n ∧ n ∈ known_plugins }.

(** The container built when [reg] was the resolver is as good under another
    one that answers the same for its upstreams. *)
Definition same_answers (reg now : Dns) (c : RouteStoreContainer) : Prop := ∀ u, u ∈ rsc_upstreams c →
  to_socket_addrs (Dns := now) (upstream_text u) = to_socket_addrs (Dns := reg) (upstream_text u).

Definition routes_ok routes : Prop := map_Forall (λ _, container_ok) routes.

Lemma collect_plugins_known ps n p :
  collect_plugins ps !! n = Some p → plugin_name p = n ∧ n ∈ known_plugins.
Proof.
  unfold collect_plugins. assert (Hm : ∀ n p, (∅ : gmap string RoutePlugin) !! n = Some p →
    plugin_name p = n ∧ n ∈ known_plugins) by done.
  revert Hm. generalize (∅ : gmap string RoutePlugin). induction ps as [|q ps IH]; intros m Hm; simpl; [auto|].
  apply IH. clear IH. case_bool_decide as Hk; [|done]. intros n' p' [[<- <-]|[_ Hn]]%lookup_insert_Some; auto.
Qed.

Lemma build_container_fields lb us m h ps cache self c :
  build_container lb us m h ps cache self = Ok c →
  get_backend (load_balancer c) = get_backend (set_health_check_frequency 15 (set_health_check lb)) ∧
  rsc_upstreams c = us ∧ rsc_plugins c = match ps with Some ps => collect_plugins ps | None => ∅ end ∧
  self_signed_certificate c = self ∧ rsc_cache c = cache.
Proof.
  unfold build_container, mbind, res_bind.
  destruct (match _ with Some hs => parse_headers hs | None => _ end); [|done..]. by intros [= <-].
Qed.

Lemma build_container_ok `{!LbLaws} lb us m h ps cache self c :
  try_from_iter (upstream_text <$> us) = Some lb →
  build_container lb us m h ps cache self = Ok c → container_ok c.
Proof.
  intros Hlb (Hb & Hu & Hp & _)%build_container_fields. split.
  - intros b. rewrite Hb, get_backend_frequency, get_backend_health_check.
    intros (a & addrs & sa & Ha & Hr & Hsa & Hi)%(try_from_iter_backends _ _ _ Hlb).
    apply list_elem_of_fmap in Ha as (u & -> & Hin). rewrite Hu. by exists sa, u, addrs.
  - intros u. rewrite Hu. intros Hin. eapply try_from_iter_resolves; [done|].
    by apply list_elem_of_fmap_2.
  - intros n p. rewrite Hp. destruct ps; [apply collect_plugins_known|done].
Qed.

Lemma has_new_backend_spec `{!LbLaws} host lb routes :
  has_new_backend host lb routes = true ↔
  ∃ c, routes !! host = Some c ∧
    ¬ (∀ b, b ∈ get_backend (load_balancer c) ↔ b ∈ get_backend lb).
Proof.
  unfold has_new_backend, get_route_by_key.
  destruct (routes !! host) as [c|]; [|by split; [|intros (? & [=] & _)]].
  set (old := get_backend (load_balancer c)). set (new := get_backend lb).
  assert (Hold : NoDup old) by apply get_backend_nodup.
  assert (Hnew : NoDup new) by apply get_backend_nodup.
  assert (Hall : forallb (λ be, bool_decide (be ∈ new)) old = true ↔ old ⊆ new).
  { rewrite forallb_forall. split; intros Hs b Hb.
    - by apply (bool_decide_eq_true (b ∈ new)), Hs, list_elem_of_In.
    - by apply bool_decide_eq_true, Hs, list_elem_of_In. }
  destruct (length old =? length new)%nat eqn:El; simpl.
  - apply Nat.eqb_eq in El. rewrite negb_true_iff, <- not_true_iff_false, Hall. split.
    + intros Hns. exists c. split; [done|]. intros Heq. apply Hns. intros b. apply Heq.
    + intros (? & [= <-] & Hd) Hs. apply Hd. intros b. change (b ∈ old ↔ b ∈ new).
      assert (Hp : old ≡ₚ new)
        by (apply submseteq_length_Permutation; [by apply NoDup_submseteq|lia]).
      by rewrite Hp.
  - apply Nat.eqb_neq in El. split; [|done]. intros _. exists c. split; [done|]. intros Heq. apply El.
    by rewrite (NoDup_Permutation old new).
Qed.

(** Adding a route changes at most the entry of its host, and keeps the
    invariant, whether or not it panics. *)
Lemma add_route_ok `{!LbLaws} host us m h ps cache self routes r routes' :
  add_route_to_router host us m h ps cache self routes = (r, routes') →
  routes_ok routes → routes_ok routes'.
Proof.
  unfold add_route_to_router, get_state, lift, modify, mbind, M_bind, mret, M_ret. intros E Hok.
  destruct (try_from_iter _) as [lb|] eqn:El; [|by simplify_eq].
  destruct (bool_decide _ && _); [by simplify_eq|].
  destruct (build_container _ _ _ _ _ _ _) as [c|e|] eqn:Ec; simplify_eq; [|done..].
  apply map_Forall_insert_2; [by eapply build_container_ok|done].
Qed.

Lemma add_route_other host us m h ps cache self routes r routes' k :
  add_route_to_router host us m h ps cache self routes = (r, routes') →
  k ≠ host → routes' !! k = routes !! k.
Proof.
  unfold add_route_to_router, get_state, lift, modify, mbind, M_bind, mret, M_ret. intros E Hk.
  destruct (try_from_iter _) as [lb|] eqn:El; [|by simplify_eq].
  destruct (bool_decide _ && _); [by simplify_eq|].
  destruct (build_container _ _ _ _ _ _ _) as [c|e|] eqn:Ec; simplify_eq; [|done..].
  by apply lookup_insert_ne.
Qed.

Lemma watch_ok `{!LbLaws} route routes r routes' :
  watch_for_route_changes route routes = (r, routes') → routes_ok routes → routes_ok routes'.
Proof. apply add_route_ok. Qed.
End lemmas.

Section service_lemmas.
Context `{HttpApi, Dns, LbApi, PathTreeApi, Pki, Files} {T : Type} `{!Store T} `{!LbLaws}.
Implicit Types s : Registry T.

(** An operation that keeps the invariant of the route store. *)
Definition keeps_routes {A} (m : M (Registry T) string A) : Prop :=
  ∀ s r s', m s = (r, s') → routes_ok (reg_routes s) → routes_ok (reg_routes s').

Lemma keeps_routes_ret {A} (a : A) : keeps_routes (mret a).
Proof. by intros s r s' [= <- <-]. Qed.
Lemma keeps_routes_lift {A} (x : res string A) : keeps_routes (lift x).
Proof. by intros s r s' [= <- <-]. Qed.
Lemma keeps_routes_bind {A B} (m : M (Registry T) string A) (f : A → M (Registry T) string B) :
  keeps_routes m → (∀ a, keeps_routes (f a)) → keeps_routes (a ← m; f a).
Proof.
  intros Hm Hf s r s'. unfold mbind, M_bind. destruct (m s) as [[a|e|] s1] eqn:E; intros Hk Hok.
  - eapply Hf; [done|]. by eapply Hm.
  - simplify_eq. by eapply Hm.
  - simplify_eq. by eapply Hm.
Qed.
Lemma keeps_routes_catch {A} (m : M (Registry T) string A) :
  keeps_routes m → keeps_routes (catch_ok (E := string) m).
Proof.
  intros Hm s r s'. unfold catch_ok. destruct (m s) as [[] s1] eqn:E; intros [= <- <-]; by eapply Hm.
Qed.
Lemma keeps_routes_store host cert : keeps_routes (store_certificate host cert).
Proof.
  intros s r s'. unfold store_certificate. destruct (get_store _); [|by intros [= <- <-]..].
  destruct (set_certificate _ _ _). by intros [= <- <-].
Qed.
Lemma keeps_routes_zoom (m : M (gmap string RouteStoreContainer) string unit) :
  (∀ routes r routes', m routes = (r, routes') → routes_ok routes → routes_ok routes') →
  keeps_routes (on_routes m).
Proof.
  intros Hm s r s'. unfold on_routes, zoom. destruct (m (reg_routes s)) as [r1 routes'] eqn:E.
  intros [= <- <-]. by eapply Hm.
Qed.

Lemma add_ssl_keeps route : keeps_routes (add_route_ssl_to_store route).
Proof.
  unfold add_route_ssl_to_store. destruct (mbind _ _); [|apply keeps_routes_ret].
  repeat (apply keeps_routes_bind; [apply keeps_routes_lift|intros ?]). apply keeps_routes_store.
Qed.

Lemma add_config_keeps config : keeps_routes (add_routes_from_config config).
Proof.
  induction config as [|route rest IH]; cbn [add_routes_from_config]; [apply keeps_routes_ret|].
  apply keeps_routes_bind; [apply keeps_routes_catch, add_ssl_keeps|intros _].
  apply keeps_routes_bind; [apply keeps_routes_zoom; intros ???; apply add_route_ok|done].
Qed.

Lemma watch_loop_keeps received : keeps_routes (watch_loop received).
Proof.
  induction received as [|[[]|] rest IH]; cbn [watch_loop]; try apply keeps_routes_ret.
  apply keeps_routes_bind; [apply keeps_routes_zoom; intros ???; apply watch_ok|done].
Qed.
End service_lemmas.

(** ** Lemmas: the certificates of the configuration *)

(** A route that names the files of its certificate. *)
Definition with_certificate (route : Route) : Prop := is_Some (v ← route_ssl route; Config.ssl_path v).

Section certificates.
Context `{HttpApi, Dns, LbApi, PathTreeApi, Pki, Files} {T : Type} `{!Store T, !StoreView T, !StoreSpec T}.
Context (touched : string → Prop).

(** No certificate but those of the touched hosts changes, and no challenge. *)
Definition only_touched (cell cell' : option T) : Prop := ∀ store, cell = Some store →
  ∃ store', cell' = Some store' ∧ (∀ d, challenges_of store' d = challenges_of store d) ∧
    ∀ d, ¬ touched d → certs_of store' d = certs_of store d.
Definition touches {A} (m : M (Registry T) string A) : Prop :=
  ∀ s, only_touched (reg_store s) (reg_store (snd (m s))).

Lemma only_touched_refl cell : only_touched cell cell.
Proof. intros store ->. by exists store. Qed.
Lemma only_touched_trans c1 c2 c3 : only_touched c1 c2 → only_touched c2 c3 → only_touched c1 c3.
Proof.
  intros H1 H2 s1 E1. destruct (H1 s1 E1) as (s2 & E2 & Hch1 & Hc1). destruct (H2 s2 E2) as (s3 & E3 & Hch2 & Hc2).
  exists s3. split_and!; [done|intros d; by rewrite Hch2|intros d Hd; by rewrite Hc2, Hc1].
Qed.

Lemma touches_bind {A B} (m : M (Registry T) string A) (f : A → M (Registry T) string B) :
  touches m → (∀ a, touches (f a)) → touches (a ← m; f a).
Proof.
  intros Hm Hf s. specialize (Hm s). unfold mbind, M_bind. destruct (m s) as [[a|e|] s1]; simpl in *; [|done..].
  by eapply only_touched_trans, Hf.
Qed.
Lemma touches_lift {A} (x : res string A) : touches (lift x).
Proof. intros s. apply only_touched_refl. Qed.
Lemma touches_routes {A} (m : M (gmap string RouteStoreContainer) string A) : touches (on_routes m).
Proof. intros s. unfold on_routes, zoom. destruct (m (reg_routes s)). apply only_touched_refl. Qed.
Lemma touches_catch {A} (m : M (Registry T) string A) : touches m → touches (catch_ok (E := string) m).
Proof. intros Hm s. specialize (Hm s). unfold catch_ok. by destruct (m s) as [[] ?]. Qed.

Lemma touches_store host cert : touched host → touches (store_certificate host cert).
Proof.
  intros Hh s. unfold store_certificate, get_store. destruct (reg_store s) as [store|] eqn:Es; simpl;
    [|rewrite Es; apply only_touched_refl].
  destruct (set_certificate host cert store) as [r store'] eqn:E. simpl. intros s0 [= <-]. exists store'.
  split; [done|]. apply set_certificate_spec in E as [(_ & Hch & Hc)|(_ & Hc & Hch)].
  - split; [intros d; by rewrite Hch|]. intros d Hd. rewrite Hc. by rewrite decide_False by congruence.
  - split; intros d; [by rewrite Hch|intros _; by rewrite Hc].
Qed.

Lemma touches_config routes :
  (∀ route, route ∈ routes → with_certificate route → touched (route_host route)) →
  touches (add_routes_from_config routes).
Proof.
  induction routes as [|route rest IH]; intros Hr; cbn [add_routes_from_config]; [intros s; apply only_touched_refl|].
  apply touches_bind; [apply touches_catch|intros _; apply touches_bind; [apply touches_routes|intros _]].
  - unfold add_route_ssl_to_store. specialize (Hr route (list_elem_of_here _ _)). unfold with_certificate in Hr.
    destruct (mbind _ (route_ssl route)) as [path|]; [|intros s; apply only_touched_refl].
    repeat (apply touches_bind; [apply touches_lift|intros ?]). apply touches_store, Hr. by eexists.
  - apply IH. intros r Hin. apply Hr. by right.
Qed.
End certificates.

Section find.
Context `{HttpApi, Dns, LbApi, PathTreeApi}.

Lemma container_ok_later (reg now : Dns) c :
  same_answers reg now c → @container_ok reg _ _ c → @container_ok now _ _ c.
Proof.
  intros Hs [Hb Hu Hp]. split.
  - intros b Hin. destruct (Hb b Hin) as (sa & u & addrs & Ha & Hin' & Hr & Hsa).
    exists sa, u, addrs. rewrite Hs by done. by split_and!.
  - intros u Hin. rewrite Hs by done. by apply Hu.
  - done.
Qed.

(** The first upstream that is tried must resolve. *)
Lemma upstream_peer_gone x b addr :
  select (load_balancer (route_container (ctx x))) = Some b → as_inet b = Some addr →
  rsc_upstreams (route_container (ctx x)) ≠ [] →
  (∀ u, u ∈ rsc_upstreams (route_container (ctx x)) → to_socket_addrs (upstream_text u) = None) →
  fst (upstream_peer x) = Panic.
Proof.
  intros Hsel Ha Hne Hu. destruct addr as [ip port].
  assert (Hf : find_upstream (ip, port) (rsc_upstreams (route_container (ctx x))) = Panic).
  { destruct (rsc_upstreams (route_container (ctx x))) as [|u us]; [done|].
    simpl. unfold upstream_matches. unfold upstream_text in Hu. by rewrite (Hu u) by left. }
  unfold upstream_peer, mbind, M_bind, gets, lift.
  destruct (cache_is_enabled (session x)); simpl; by rewrite Hsel, Ha, Hf.
Qed.

Lemma find_upstream_total addr us :
  (∀ u, u ∈ us → is_Some (to_socket_addrs (upstream_text u))) →
  (∃ u addrs, u ∈ us ∧ to_socket_addrs (upstream_text u) = Some addrs ∧ addr ∈ addrs) →
  ∃ u, find_upstream addr us = Ok (Some u).
Proof.
  intros Hres (u & addrs & Hin & Hd & Ha). induction us as [|u' us IH]; [by apply elem_of_nil in Hin|].
  simpl. unfold mbind, res_bind. destruct (upstream_matches addr u') as [[]|e|] eqn:E.
  - by exists u'.
  - apply IH; [intros v Hv; apply Hres; by right|].
    apply elem_of_cons in Hin as [->|?]; [|done].
    assert (upstream_matches addr u' = Ok true) by (apply upstream_matches_true; by exists addrs).
    congruence.
  - unfold upstream_matches, unwrap, mbind, res_bind in E. repeat case_match; discriminate.
  - destruct (Hres u') as [addrs' Hd']; [by left|].
    unfold upstream_matches, unwrap, mbind, res_bind in E. unfold upstream_text in Hd'. by rewrite Hd' in E.
Qed.

Lemma upstream_peer_found `{!LbLaws} x b :
  container_ok (route_container (ctx x)) →
  select (load_balancer (route_container (ctx x))) = Some b →
  ∃ peer x', upstream_peer x = (Ok peer, x') ∧ peer_backend peer = b ∧
    ctx_upstream (ctx x') ∈ rsc_upstreams (route_container (ctx x)).
Proof.
  intros Hok Hsel.
  destruct (backends_covered _ Hok b) as ([ip port] & u & addrs & Hi & Hu & Hd & Ha);
    [by apply select_backend|].
  destruct (find_upstream_total (ip, port) (rsc_upstreams (route_container (ctx x)))) as [u' Hf];
    [apply Hok|by exists u, addrs|].
  pose proof (find_upstream_Some _ _ _ Hf) as [Hin _].
  unfold upstream_peer, mbind, M_bind, gets, lift.
  destruct (cache_is_enabled (session x)); simpl; rewrite Hsel, Hi, Hf; by eexists _, _.
Qed.
End find.

(** ** Properties *)

Section properties.
Context `{HttpApi, Dns, LbApi, PathTreeApi}.
Implicit Types routes : gmap string RouteStoreContainer.

(** Whatever routes are configured and whatever messages arrive, and even
    if the service panics on the way: every host of the route store can be
    served. When the balancer of its container selects a backend, choosing
    the peer succeeds, it neither panics nor answers 503. *)
Theorem served_hosts_find_upstream `{Pki, Files} {T : Type} `{!Store T} (Hl : LbLaws)
    config received (s : Registry T) r s' host c x b
    (Hempty : reg_routes s = ∅)
    (Hrun : RoutingService_start config received s = (r, s'))
    (Hhost : reg_routes s' !! host = Some c)
    (Hx : route_container (ctx x) = c) (Hsel : select (load_balancer c) = Some b) :
  ∃ peer x', upstream_peer x = (Ok peer, x').
Proof.
  assert (Hok : routes_ok (reg_routes s')).
  { assert (keeps_routes (RoutingService_start (T := T) config received)) as Hk
      by (apply keeps_routes_bind; [apply add_config_keeps|intros _; apply watch_loop_keeps]).
    eapply Hk; [exact Hrun|]. rewrite Hempty. apply map_Forall_empty. }
  destruct (upstream_peer_found x b) as (peer & x' & Hp & _); [rewrite Hx..|by exists peer, x'];
    [by apply (Hok host)|done].
Qed.

(** [has_new_backend] decides, for a host that has a route, whether the
    set of backends differs; it is false for a host without one. *)
Theorem has_new_backend_iff (Hl : LbLaws) host lb routes :
  has_new_backend host lb routes = true ↔
  ∃ c, routes !! host = Some c ∧
    ¬ (∀ b, b ∈ get_backend (load_balancer c) ↔ b ∈ get_backend lb).
Proof. apply has_new_backend_spec. Qed.

(** A route whose backends are unchanged is not updated, whatever its new
    plugins, headers, path patterns, cache or fallback setting are. *)
Theorem unchanged_backends_ignored (Hl : LbLaws) host us m h ps cache self routes c lb
    (Hc : routes !! host = Some c) (Hlb : try_from_iter (upstream_text <$> us) = Some lb)
    (Hsame : ∀ b, b ∈ get_backend (load_balancer c) ↔ b ∈ get_backend lb) :
  add_route_to_router host us m h ps cache self routes = (Ok tt, routes).
Proof.
  unfold add_route_to_router, get_state, lift, modify, mbind, M_bind, mret, M_ret.
  rewrite Hlb. unfold get_route_by_key. rewrite Hc, bool_decide_true by (by eexists).
  destruct (has_new_backend host lb routes) eqn:E; [|done].
  apply has_new_backend_spec in E as (c' & Hc' & Hd). rewrite Hc in Hc'. by simplify_eq.
Qed.

(** Adding a route for a host that has none stores, under that host only,
    the container of exactly these settings: the given upstreams, the balancer
    over their addresses, the known plugins, later entries replacing earlier
    ones of the same name, the headers in order, and the cache. *)
Theorem add_new_route_stores (Hl : LbLaws) host us m add remove ps cache self routes lb hs
    (Hnew : routes !! host = None)
    (Hlb : try_from_iter (upstream_text <$> us) = Some lb)
    (Hhs : parse_headers add = Ok hs) :
  ∃ c, add_route_to_router host us m (Some (mkRouteHeader (Some add) (Some remove))) (Some ps) cache
         self routes = (Ok tt, <[host := c]> routes) ∧
    (∀ b, b ∈ get_backend (load_balancer c) ↔ b ∈ get_backend lb) ∧
    rsc_upstreams c = us ∧ host_header_add c = hs ∧ host_header_remove c = rhr_name <$> remove ∧
    rsc_cache c = cache ∧ self_signed_certificate c = self ∧
    ∀ n, rsc_plugins c !! n =
      if decide (n ∈ known_plugins) then
        snd <$> list_find (λ p, plugin_name p = n) (reverse ps)
      else None.
Proof.
  unfold add_route_to_router, get_state, lift, modify, mbind, M_bind, mret, M_ret.
  rewrite Hlb. unfold get_route_by_key. rewrite Hnew. simpl.
  unfold build_container. simpl. rewrite Hhs. unfold mbind, res_bind. simpl.
  eexists. split; [reflexivity|]. simpl. split_and!; try done.
  - intros b. by rewrite get_backend_frequency, get_backend_health_check.
  - intros n. assert (Hm : ∀ m0 : gmap string RoutePlugin, fold_left
      (λ m p, if bool_decide (plugin_name p ∈ known_plugins) then <[plugin_name p := p]> m else m) ps m0 !! n
      = if decide (n ∈ known_plugins) then
          match snd <$> list_find (λ p, plugin_name p = n) (reverse ps) with
          | Some p => Some p | None => m0 !! n end
        else m0 !! n).
    { induction ps as [|p ps IH] using rev_ind; intros m0; [by case_decide|].
      rewrite fold_left_app. simpl. rewrite reverse_app. simpl.
      destruct (decide (plugin_name p = n)) as [<-|Hn].
      - case_bool_decide; [rewrite lookup_insert_eq; by rewrite decide_True|].
        rewrite IH. by rewrite !decide_False.
      - assert (Hi : (if bool_decide (plugin_name p ∈ known_plugins)
          then <[plugin_name p := p]> (fold_left (λ m p, if bool_decide (plugin_name p ∈ known_plugins)
             then <[plugin_name p := p]> m else m) ps m0)
          else fold_left (λ m p, if bool_decide (plugin_name p ∈ known_plugins)
             then <[plugin_name p := p]> m else m) ps m0) !! n
          = fold_left (λ m p, if bool_decide (plugin_name p ∈ known_plugins)
             then <[plugin_name p := p]> m else m) ps m0 !! n)
          by (case_bool_decide; [by apply lookup_insert_ne|done]).
        rewrite Hi, IH. destruct (decide (n ∈ known_plugins)); [|done].
        destruct (list_find _ (reverse ps)) as [[i q]|]; done. }
    unfold collect_plugins. rewrite Hm. case_decide; [|done]. by destruct (snd <$> _).
Qed.

(** The service stops watching at the first message that is not a route,
    and at the first receive error (a lag included): routes announced later
    are never added. *)
Theorem service_stops_watching `{Pki, Files} {T : Type} `{!Store T} before stop after (s : Registry T)
    (Hbefore : Forall (λ m, ∃ r, m = Received (NewRoute r)) before)
    (Hstop : ∀ r, stop ≠ Received (NewRoute r)) :
  watch_loop (before ++ stop :: after) s = watch_loop before s.
Proof.
  revert s. induction Hbefore as [|m before [route ->] _ IH]; intros s.
  - simpl. destruct stop as [[]|]; [by destruct (Hstop r)|done..].
  - simpl. unfold mbind, M_bind. destruct (on_routes _ _) as [[[]|e|] s1]; [apply IH|done..].
Qed.
End properties.

(** ** Witnesses *)

Definition toy_files : Files := {| read_to_string := λ _, None |}.

#[local] Existing Instances toy_http toy_dns toy_lb toy_pt toy_pki toy_files.

Definition web_route (plugins : option (list RoutePlugin)) : Route :=
  mkRoute "a.test" None plugins None None None [web] None.
Definition guard : RoutePlugin := basic_plugin.
Definition empty_registry : Registry MemoryStore := mkRegistry ∅ (Some MemoryStore_new).
Definition web_balancer : LoadBalancer := (("10.0.0.1", 443%N) :: nil : list SocketAddr).
Definition web_container : RouteStoreContainer :=
  mkContainer _ _ web_balancer RouteStorePathMatcher_new [] [] [web] false ∅ None.

Lemma served_hosts_find_upstream_witness :
  ∃ c x peer x', reg_routes (snd (RoutingService_start [web_route None] [RecvError] empty_registry))
      !! "a.test" = Some c ∧ route_container (ctx x) = c ∧ upstream_peer x = (Ok peer, x').
Proof.
  destruct (RoutingService_start [web_route None] [RecvError] empty_registry) as [r s'] eqn:E.
  assert (Hc : reg_routes s' !! "a.test" = Some web_container)
    by (apply (f_equal (λ p, reg_routes p.2 !! "a.test")) in E;
        refine (eq_trans (eq_sym E) _); reflexivity).
  destruct (served_hosts_find_upstream toy_lb_laws [web_route None] [RecvError] empty_registry r s'
    "a.test" web_container (bound web_container) ("10.0.0.1", 443%N)) as (peer & x' & Hp);
    [reflexivity|exact E|exact Hc|reflexivity|reflexivity|].
  exists web_container, (bound web_container), peer, x'. by split_and!.
Defined.

Lemma has_new_backend_iff_witness :
  has_new_backend "a.test" web_balancer {["a.test" := toy_container]} = true.
Proof.
  apply (has_new_backend_iff toy_lb_laws). exists toy_container. split; [reflexivity|].
  intros Heq. specialize (Heq ("10.0.0.1", 443%N)). simpl in Heq. set_solver.
Defined.

Lemma unchanged_backends_ignored_witness :
  add_route_to_router "a.test" [web] None None (Some [guard]) None true
    {["a.test" := web_container]} = (Ok tt, {["a.test" := web_container]}).
Proof.
  apply (unchanged_backends_ignored toy_lb_laws _ _ _ _ _ _ _ _ web_container web_balancer);
    [reflexivity|reflexivity|done].
Defined.

Lemma add_new_route_stores_witness :
  ∃ c, add_route_to_router "a.test" [web] None
         (Some (mkRouteHeader (Some [mkRouteHeaderAdd "x-a" "1"]) (Some [mkRouteHeaderRemove "server"])))
         (Some [guard]) None false ∅ = (Ok tt, <["a.test" := c]> ∅) ∧
       rsc_plugins c !! "basic_auth" = Some guard.
Proof.
  destruct (add_new_route_stores toy_lb_laws "a.test" [web] None [mkRouteHeaderAdd "x-a" "1"]
    [mkRouteHeaderRemove "server"] [guard] None false ∅ web_balancer [("x-a", "1")])
    as (c & Hadd & _ & _ & _ & _ & _ & _ & Hp); [reflexivity..|].
  exists c. split; [exact Hadd|]. rewrite Hp. reflexivity.
Defined.

Lemma service_stops_watching_witness :
  watch_loop [RecvError; Received (NewRoute (mkMsgRoute "b.test" ["10.0.0.1:80"] [] [] [] [] false))]
    empty_registry = (Ok tt, empty_registry).
Proof.
  apply (service_stops_watching [] RecvError
    [Received (NewRoute (mkMsgRoute "b.test" ["10.0.0.1:80"] [] [] [] [] false))] empty_registry);
    [constructor|discriminate].
Defined.
