(* ===== verification/RouteTable.v ===== *)
(** The routing service against an abstract specification: a table from hosts
    to the announcement (a configured route, or a route message) their traffic
    follows. The route store refines it: each of its containers is the one
    built from the announcement the table holds. Read the other way, the table
    says which of several announcements of a host counts. *)
From S2P Require Import Prelude Strs Config Stores Http Routes Plugins Oauth2 Middleware Router Discovery.
#[local] Open Scope string_scope.
#[local] Open Scope list_scope.

(** ** Announcements *)

Record Announcement := mkAnnouncement {
  an_host : string;
  an_upstreams : list RouteUpstream;
  an_match_with : option RouteMatcher;
  an_headers : option RouteHeader;
  an_plugins : option (list RoutePlugin);
  an_cache : option RouteCache;
  an_self_sign : bool }.

(** What [add_routes_from_config] announces of a configured route. *)
Definition of_route (r : Route) : Announcement := {|
  an_host := route_host r;
  an_upstreams := route_upstreams r;
  an_match_with := route_match_with r;
  an_headers := route_headers r;
  an_plugins := route_plugins r;
  an_cache := route_cache r;
  an_self_sign := default false (c ← route_ssl_certificate r; self_signed_on_failure c) |}.

Section table.
Context `{HttpApi, Dns, LbApi, PathTreeApi}.

(** What [watch_for_route_changes] announces of a message. *)
Definition of_message (m : MsgRoute) : Announcement := {|
  an_host := msg_host m;
  an_upstreams := message_upstreams (msg_upstreams m);
  an_match_with := match path_matchers m with
                   | [] => None
                   | ps => Some (mkRouteMatcher (Some (mkRoutePathMatcher ps)))
                   end;
  an_headers := Some (mkRouteHeader (Some (host_headers_add m)) (Some (host_headers_remove m)));
  an_plugins := Some (msg_plugins m);
  an_cache := None;
  an_self_sign := self_signed_certs m |}.

(** The messages before the one at which the service stops watching. *)
Fixpoint watched (received : list Recv) : list MsgRoute :=
  match received with
  | Received (NewRoute m) :: rest => m :: watched rest
  | _ => []
  end.

Definition announcements (config : list Route) (received : list Recv) : list Announcement :=
  (of_route <$> config) ++ (of_message <$> watched received).

(** ** The specification *)

Notation Table := (gmap string Announcement).

(** The backends that an announcement resolves to. *)
Definition backends (a : Announcement) : option (list Backend) :=
  get_backend <$> try_from_iter (upstream_text <$> an_upstreams a).

Definition same_backends (a b : Announcement) : Prop :=
  ∀ x, x ∈ default [] (backends a) ↔ x ∈ default [] (backends b).
#[export] Instance same_backends_dec a b : Decision (same_backends a b).
Proof.
  refine (cast_if (decide (Forall (λ x, x ∈ default [] (backends b)) (default [] (backends a)) ∧
                           Forall (λ x, x ∈ default [] (backends a)) (default [] (backends b)))));
    unfold same_backends; rewrite !Forall_forall in *; naive_solver.
Defined.

(** An announcement counts when its upstreams resolve and its host has none
    yet, or one with other backends. *)
Definition counts (t : Table) (a : Announcement) : Prop :=
  is_Some (backends a) ∧
  match t !! an_host a with Some b => ¬ same_backends b a | None => True end.
#[export] Instance counts_dec t a : Decision (counts t a).
Proof. unfold counts. destruct (t !! an_host a); apply _. Defined.

Definition announce (t : Table) (a : Announcement) : Table :=
  if decide (counts t a) then <[an_host a := a]> t else t.

Definition table (l : list Announcement) : Table := fold_left announce l ∅.

(** The announcements of a host whose upstreams resolve, in order. *)
Definition resolving (h : string) (l : list Announcement) : list Announcement :=
  filter (λ b, an_host b = h ∧ is_Some (backends b)) l.

(** ** The refinement *)

(** The container of an announcement. *)
Definition container_of (a : Announcement) (c : RouteStoreContainer) : Prop :=
  ∃ lb, try_from_iter (upstream_text <$> an_upstreams a) = Some lb ∧
    build_container lb (an_upstreams a) (an_match_with a) (an_headers a) (an_plugins a) (an_cache a)
      (an_self_sign a) = Ok c.

Definition represents (t : Table) (routes : gmap string RouteStoreContainer) : Prop :=
  map_relation (λ _ a c, container_of a c) (λ _ _, False) (λ _ _, False) t routes.

Definition add_announced (a : Announcement) : M (gmap string RouteStoreContainer) string unit :=
  add_route_to_router (an_host a) (an_upstreams a) (an_match_with a) (an_headers a) (an_plugins a)
    (an_cache a) (an_self_sign a).

(** ** Lemmas *)

Lemma represents_lookup t routes h :
  represents t routes →
  match t !! h, routes !! h with
  | Some a, Some c => container_of a c
  | None, None => True
  | _, _ => False
  end.
Proof. intros Hr. specialize (Hr h). by destruct (t !! h), (routes !! h). Qed.

Lemma represents_insert t routes a c :
  represents t routes → container_of a c → represents (<[an_host a := a]> t) (<[an_host a := c]> routes).
Proof.
  intros Hr Hc h. destruct (decide (h = an_host a)) as [->|Hne]; [by rewrite !lookup_insert_eq|].
  rewrite !lookup_insert_ne by done. apply Hr.
Qed.

Lemma container_backends `{!LbLaws} a c :
  container_of a c → ∃ lb, try_from_iter (upstream_text <$> an_upstreams a) = Some lb ∧
    get_backend (load_balancer c) = get_backend lb.
Proof.
  intros (lb & Hlb & (Hb & _)%build_container_fields). exists lb. split; [done|].
  by rewrite Hb, get_backend_frequency, get_backend_health_check.
Qed.

(** The guard of the code decides whether the announcement counts. *)
Lemma guard_counts `{!LbLaws} t routes a lb :
  represents t routes → try_from_iter (upstream_text <$> an_upstreams a) = Some lb →
  counts t a ↔ bool_decide (is_Some (routes !! an_host a)) &&
               negb (has_new_backend (an_host a) lb routes) = false.
Proof.
  intros Hr Elb. pose proof (represents_lookup _ _ (an_host a) Hr) as Hl.
  rewrite andb_false_iff, bool_decide_eq_false, negb_false_iff, has_new_backend_spec.
  unfold counts. destruct (t !! an_host a) as [b|], (routes !! an_host a) as [c|] eqn:Ec; try done.
  - destruct (container_backends b c Hl) as (lb' & Elb' & Hb').
    assert (Hsb : same_backends b a ↔ ∀ x, x ∈ get_backend (load_balancer c) ↔ x ∈ get_backend lb).
    { unfold same_backends, backends. rewrite Elb', Elb. simpl. by rewrite Hb'. }
    rewrite Hsb. unfold backends. rewrite Elb. split.
    + intros [_ Hn]. right. by exists c.
    + intros [[]|(c' & [= <-] & Hn)]; [by eexists|]. split; [by eexists|done].
  - unfold backends. rewrite Elb. split; [intros _; left; by intros [? [=]]|]. split; [by eexists|done].
Qed.

Lemma unresolved_does_not_count t a :
  try_from_iter (upstream_text <$> an_upstreams a) = None → ¬ counts t a.
Proof. unfold counts, backends. intros ->. by intros [[? [=]] _]. Qed.

(** One announcement: the two states stay related, or the service panics and
    neither changes. *)
Lemma add_announced_simulates `{!LbLaws} t routes a r routes' :
  represents t routes → add_announced a routes = (r, routes') →
  (r = Ok tt ∧ represents (announce t a) routes') ∨ (r ≠ Ok tt ∧ routes' = routes).
Proof.
  intros Hr. unfold add_announced, add_route_to_router, get_state, lift, modify, mbind, M_bind, mret, M_ret.
  unfold announce, get_route_by_key.
  destruct (try_from_iter _) as [lb|] eqn:Elb.
  2: { intros [= <- <-]. left. split; [done|]. by rewrite decide_False by by apply unresolved_does_not_count. }
  pose proof (guard_counts _ _ _ _ Hr Elb) as Hg.
  destruct (bool_decide _ && _).
  - intros [= <- <-]. left. split; [done|]. rewrite decide_False; [done|]. by rewrite Hg.
  - rewrite decide_True by by apply Hg.
    destruct (build_container _ _ _ _ _ _ _) as [c|e|] eqn:Ebc; intros [= <- <-]; [left|by right..].
    split; [done|]. apply represents_insert; [done|]. by exists lb.
Qed.

(** ** Lemmas: the table of a list of announcements *)

Lemma same_backends_refl a : same_backends a a.
Proof. done. Qed.

Lemma table_snoc l a : table (l ++ [a]) = announce (table l) a.
Proof. unfold table. by rewrite fold_left_app. Qed.

Lemma resolving_snoc h l b :
  resolving h (l ++ [b]) =
  resolving h l ++ (if decide (an_host b = h ∧ is_Some (backends b)) then [b] else []).
Proof. unfold resolving. rewrite filter_app. simpl. by rewrite filter_cons; case_decide. Qed.

(** An entry is the first of the last run of announcements of its host that
    resolve to the same backends. *)
Lemma table_run l h :
  match table l !! h with
  | Some a => an_host a = h ∧ is_Some (backends a) ∧
      ∃ before after, l = before ++ a :: after ∧
        (∀ b, last (resolving h before) = Some b → ¬ same_backends b a) ∧
        Forall (same_backends a) (resolving h after)
  | None => resolving h l = []
  end.
Proof.
  induction l as [|b l IH] using rev_ind; [done|]. rewrite table_snoc. unfold announce.
  destruct (decide (counts (table l) b)) as [Hc|Hn]; [destruct (decide (an_host b = h)) as [<-|Hne]|].
  - rewrite lookup_insert_eq. split; [done|]. split; [apply Hc|]. exists l, []. split_and!; [done| |constructor].
    intros b' Hb' Hsame. destruct Hc as [_ Hc]. destruct (table l !! an_host b) as [a0|]; [|by rewrite IH in Hb'].
    destruct IH as (Hh & Hr & before & after & -> & _ & Hall). apply Hc. clear Hc.
    assert (Ha : same_backends a0 b').
    { unfold resolving in Hb'. rewrite filter_app, filter_cons_True, last_app_cons, last_cons in Hb' by done.
      fold (resolving (an_host b) after) in Hb'.
      destruct (last (resolving (an_host b) after)) as [z|] eqn:Ez; injection Hb' as <-; [|done].
      rewrite Forall_forall in Hall. by apply Hall, last_Some_elem_of. }
    intros x. by rewrite (Ha x).
  - rewrite lookup_insert_ne by done. rewrite resolving_snoc, decide_False, app_nil_r by naive_solver.
    destruct (table l !! h) as [a|]; [|done]. destruct IH as (Hh & Hr & before & after & -> & Hb & Hall).
    split_and!; [done..|]. exists before, (after ++ [b]). rewrite <- app_assoc. split_and!; [done..|].
    by rewrite resolving_snoc, decide_False, app_nil_r by naive_solver.
  - destruct (table l !! h) as [a|] eqn:Ea.
    + destruct IH as (Hh & Hr & before & after & -> & Hb & Hall). split_and!; [done..|].
      exists before, (after ++ [b]). rewrite <- app_assoc. split_and!; [done..|]. rewrite resolving_snoc.
      apply Forall_app. split; [done|]. case_decide as Hd; constructor; [|done]. destruct Hd as [Hbh Hbr].
      unfold counts in Hn. rewrite Hbh, Ea in Hn. destruct (decide (same_backends a b)); [done|].
      by destruct Hn.
    + rewrite resolving_snoc, IH, decide_False; [done|]. intros [Hbh Hbr]. unfold counts in Hn.
      rewrite Hbh, Ea in Hn. by destruct Hn.
Qed.

Lemma announce_mono t a h : is_Some (t !! h) → is_Some (announce t a !! h).
Proof.
  intros Ht. unfold announce. destruct (decide _); [|done].
  destruct (decide (an_host a = h)) as [<-|?]; [rewrite lookup_insert_eq; by eexists|].
  by rewrite lookup_insert_ne.
Qed.

(** A host that was announced with upstreams that resolve has an entry. *)
Lemma table_total l a : a ∈ l → is_Some (backends a) → is_Some (table l !! an_host a).
Proof.
  intros Hin Hb. induction l as [|b l IH] using rev_ind; [by apply elem_of_nil in Hin|].
  rewrite table_snoc. apply elem_of_app in Hin as [Hin| ->%list_elem_of_singleton]; [by apply announce_mono, IH|].
  unfold announce. destruct (decide (counts (table l) b)) as [Hc|Hn].
  - rewrite lookup_insert_eq. by eexists.
  - unfold counts in Hn. destruct (table l !! an_host b) as [c|]; [by eexists|]. by destruct Hn.
Qed.
End table.

(** ** Lemmas: the service *)

Section service.
Context `{HttpApi, Dns, LbApi, PathTreeApi, Pki, Files} {T : Type} `{!Store T} `{!LbLaws}.
Implicit Types s : Registry T.

(** [m] announces [l] to the route store, as far as it gets. *)
Definition simulates {A} (m : M (Registry T) string A) (l : list Announcement) : Prop :=
  ∀ t s r s', represents t (reg_routes s) → m s = (r, s') →
  ∃ before after, l = before ++ after ∧ represents (fold_left announce before t) (reg_routes s') ∧
    ((∃ a, r = Ok a) → after = []).

Lemma simulates_bind {A B} (m : M (Registry T) string A) (f : A → M (Registry T) string B) l1 l2 :
  simulates m l1 → (∀ a, simulates (f a) l2) → simulates (a ← m; f a) (l1 ++ l2).
Proof.
  intros Hm Hf t s r s' Ht. unfold mbind, M_bind. specialize (Hm t s).
  destruct (m s) as [[a|e|] s1]; destruct (Hm _ _ Ht eq_refl) as (b1 & a1 & -> & R1 & H1).
  - rewrite (H1 (ex_intro _ a eq_refl)), app_nil_r.
    intros E. destruct (Hf a _ _ _ _ R1 E) as (b2 & a2 & -> & R2 & H2').
    exists (b1 ++ b2), a2. rewrite fold_left_app. by rewrite app_assoc.
  - intros [= <- <-]. exists b1, (a1 ++ l2). rewrite app_assoc. split_and!; [done|done|by intros [? ?]].
  - intros [= <- <-]. exists b1, (a1 ++ l2). rewrite app_assoc. split_and!; [done|done|by intros [? ?]].
Qed.

(** [m] leaves the route store alone. *)
Definition silent {A} (m : M (Registry T) string A) : Prop :=
  ∀ s, reg_routes (snd (m s)) = reg_routes s.

Lemma simulates_silent {A} (m : M (Registry T) string A) : silent m → simulates m [].
Proof.
  intros Hm t s r s' Ht E. exists [], []. split; [done|]. split; [|done]. simpl.
  specialize (Hm s). rewrite E in Hm. simpl in Hm. by rewrite Hm.
Qed.

Lemma simulates_announce a : simulates (on_routes (add_announced a)) [a].
Proof.
  intros t s r s' Ht. unfold on_routes, zoom.
  destruct (add_announced a (reg_routes s)) as [r1 routes'] eqn:E. intros [= <- <-]. simpl.
  destruct (add_announced_simulates _ _ _ _ _ Ht E) as [[-> R]|[Hr ->]].
  - by exists [a], [].
  - exists [], [a]. split_and!; [done|done|]. intros [[] ->]. done.
Qed.

Lemma silent_bind {A B} (m : M (Registry T) string A) (f : A → M (Registry T) string B) :
  silent m → (∀ a, silent (f a)) → silent (a ← m; f a).
Proof.
  intros Hm Hf s. specialize (Hm s). unfold mbind, M_bind.
  destruct (m s) as [[a|e|] s1]; simpl in *; [|done..]. rewrite <- Hm. apply Hf.
Qed.

Lemma silent_lift {A} (r : res string A) : silent (lift r).
Proof. done. Qed.

Lemma silent_store host cert : silent (store_certificate host cert).
Proof.
  intros s. unfold store_certificate. destruct (get_store _); [|done..].
  by destruct (set_certificate host cert _).
Qed.

Lemma ssl_silent route : silent (catch_ok (E := string) (add_route_ssl_to_store route)).
Proof.
  assert (Hk : silent (add_route_ssl_to_store route)).
  { unfold add_route_ssl_to_store. destruct (mbind _ _); [|done].
    repeat (apply silent_bind; [apply silent_lift|intros ?]). apply silent_store. }
  intros s. specialize (Hk s). unfold catch_ok. by destruct (add_route_ssl_to_store route s) as [[] ?].
Qed.

Lemma simulates_config config : simulates (add_routes_from_config config) (of_route <$> config).
Proof.
  induction config as [|route rest IH]; cbn [add_routes_from_config fmap list_fmap].
  { by apply simulates_silent. }
  change (simulates (_ ← catch_ok (E := string) (add_route_ssl_to_store route);
    _ ← on_routes (add_announced (of_route route)); add_routes_from_config rest)
    ([] ++ [of_route route] ++ (of_route <$> rest))).
  apply simulates_bind; [apply simulates_silent, ssl_silent|intros _].
  apply simulates_bind; [apply simulates_announce|intros _; exact IH].
Qed.

Lemma simulates_watch received : simulates (watch_loop received) (of_message <$> watched received).
Proof.
  induction received as [|[[m|c|]|] rest IH]; cbn [watch_loop watched fmap list_fmap];
    try by apply simulates_silent.
  change (simulates (_ ← on_routes (add_announced (of_message m)); watch_loop rest)
    ([of_message m] ++ (of_message <$> watched rest))).
  apply simulates_bind; [apply simulates_announce|intros _; exact IH].
Qed.

Lemma simulates_service config received :
  simulates (RoutingService_start config received) (announcements config received).
Proof. apply simulates_bind; [apply simulates_config|intros _; apply simulates_watch]. Qed.
End service.

(** ** The service under a given resolver *)

Section at_start.
Context `{HttpApi, LbApi, PathTreeApi, Pki, Files} {T : Type} `{!Store T}.

(** While [reg] is the resolver: the service runs and, at the end of [received],
    waits for more; the table follows [a] for its host; and [c] is the container
    of [a]. *)
Definition service_ran (reg : Dns) config received (s s' : Registry T) : Prop :=
  RoutingService_start config received s = (Ok tt, s').
Definition follows (reg : Dns) config received (a : Announcement) : Prop :=
  table (announcements config received) !! an_host a = Some a.
Definition built_for (reg : Dns) (a : Announcement) (c : RouteStoreContainer) : Prop := container_of a c.

(** A request for the host of such an announcement, past the filter. *)
Lemma announced_route_passes `{Base64, JwtApi, ShortCrypt, CookieApi, HttpClient, HashIter}
    `{!CacheMetaApi} `{!LbLaws, !HashIterLaws} reg config received (s s' : Registry T) a env w
    (Hempty : reg_routes s = ∅) (Hrun : service_ran reg config received s s')
    (Ha : follows reg config received a)
    (Hx : healthy (exchange w)) (Hw : route_store w = reg_routes s')
    (Hhost : request_host (exchange w) = an_host a)
    (Hpath : ∀ c, built_for reg a c →
       path_rejected (path_matcher c) (uri_path (req_uri (session (exchange w)))) = false)
    (Hplugins : ∀ n v, collect_plugins (default [] (an_plugins a)) !! n = Some v →
       fst (request_plugin_step env n v (addressed (exchange w))) = Ok false) :
  ∃ w', Router_request_filter env w = (Ok false, w') ∧
    built_for reg a (route_container (ctx (exchange w'))).
Proof.
  destruct (simulates_service config received ∅ s (Ok tt) s') as (all & rest & E & R & Hr);
    [rewrite Hempty; intros h; by rewrite !lookup_empty|done|].
  rewrite (Hr (ex_intro _ tt eq_refl)), app_nil_r in E. change (represents (table all) (reg_routes s')) in R.
  pose proof (represents_lookup _ _ (an_host a) R) as Hh. unfold follows in Ha. rewrite E in Ha. rewrite Ha in Hh.
  destruct (reg_routes s' !! an_host a) as [c|] eqn:Ec; [|done].
  pose proof Hh as (lb & Hlb & Hc). pose proof (build_container_fields _ _ _ _ _ _ _ _ Hc) as (_ & Hus & Hps & _).
  destruct (request_filter_forwards env w Hx) as [Hiff Hkeep].
  assert (Hok : fst (Router_request_filter env w) = Ok false).
  { apply Hiff. exists c. rewrite Hw, Hhost. split; [done|]. split; [apply Hpath; by exists lb|].
    intros n v. rewrite Hps. intros Hn. apply Hplugins. by destruct (an_plugins a). }
  destruct (Router_request_filter env w) as [r w'] eqn:Ew. simpl in Hok. subst r. exists w'. split; [done|].
  destruct (Hkeep w' eq_refl) as (_ & _ & Hstored & _). rewrite Hw, Hhost, Ec in Hstored.
  injection Hstored as <-. done.
Qed.
End at_start.

(** ** Properties *)

Section properties.
Context `{HttpApi, Dns, LbApi, PathTreeApi}.

(** C11. The routing service refines the table: started on an empty route store,
    whatever is configured and received, the store holds for every host
    exactly the container of the announcement the table of the announcements
    processed so far holds for it; all are processed unless it panics. *)
Theorem route_store_refines_table `{Pki, Files} {T : Type} `{!Store T} (Hl : LbLaws)
    config received (s : Registry T) r s'
    (Hempty : reg_routes s = ∅) (Hrun : RoutingService_start config received s = (r, s')) :
  ∃ before after, announcements config received = before ++ after ∧ (r = Ok tt → after = []) ∧
    ∀ h, match table before !! h, reg_routes s' !! h with
         | Some a, Some c => container_of a c
         | None, None => True
         | _, _ => False
         end.
Proof.
  destruct (simulates_service config received ∅ s r s') as (before & after & E & R & Hr); [|done|].
  - rewrite Hempty. intros h. by rewrite !lookup_empty.
  - exists before, after. split; [done|]. split; [intros ->; apply Hr; by eexists|].
    intros h. by apply represents_lookup.
Qed.

(** C17. Of the announcements of a host that resolve, the stored route is that
    of the first of the last run with the same backends: the one before it, if
    any, resolved to other backends, and all later ones resolve to its own, and
    were ignored, whatever else they ask for. And a host that was announced with
    upstreams that resolve stays routed. *)
Theorem stored_route_is_last_change `{Pki, Files} {T : Type} `{!Store T} (Hl : LbLaws)
    config received (s s' : Registry T)
    (Hempty : reg_routes s = ∅) (Hrun : RoutingService_start config received s = (Ok tt, s')) :
  (∀ h c, reg_routes s' !! h = Some c →
     ∃ before a after, announcements config received = before ++ a :: after ∧ an_host a = h ∧
       container_of a c ∧
       (∀ b, last (resolving h before) = Some b → ¬ same_backends b a) ∧
       Forall (same_backends a) (resolving h after)) ∧
  ∀ a, a ∈ announcements config received → is_Some (backends a) →
    is_Some (reg_routes s' !! an_host a).
Proof.
  destruct (simulates_service config received ∅ s (Ok tt) s') as (all & rest & E & R & Hr);
    [rewrite Hempty; intros h; by rewrite !lookup_empty|done|].
  rewrite (Hr (ex_intro _ tt eq_refl)), app_nil_r in E. change (represents (table all) (reg_routes s')) in R.
  rewrite E. split.
  - intros h c Hc. pose proof (represents_lookup _ _ h R) as Hh. rewrite Hc in Hh.
    pose proof (table_run all h) as Ht. destruct (table all !! h) as [a|]; [|done].
    destruct Ht as (Ha & _ & before & after & -> & Hb & Hall). by exists before, a, after.
  - intros a Ha Hb. pose proof (represents_lookup _ _ (an_host a) R) as Hh.
    destruct (table_total all a Ha Hb) as [b Hbt]. rewrite Hbt in Hh.
    destruct (reg_routes s' !! an_host a); [by eexists|done].
Qed.
End properties.

(** ** Witnesses *)

#[local] Existing Instances toy_http toy_dns toy_lb toy_pt toy_pki toy_files toy_base64 toy_jwt
  toy_crypt toy_cookies toy_client toy_hash_iter toy_meta.

(** A guarded route, announced again by a message with the same backend but
    no plugin, and by one whose upstream is another. *)
Definition guarded : Route := web_route (Some [guard]).
Definition unguarded_msg (upstream : string) : Recv :=
  Received (NewRoute (mkMsgRoute "a.test" [upstream] [] [] [] [] false)).
Definition started (received : list Recv) : Registry MemoryStore :=
  snd (RoutingService_start [guarded] received empty_registry).

Lemma route_store_refines_table_witness :
  reg_routes (started []) !! "b.test" = None ∧ is_Some (reg_routes (started []) !! "a.test").
Proof.
  destruct (route_store_refines_table toy_lb_laws [guarded] [] empty_registry (Ok tt) (started []))
    as (before & after & E & Hr & Hall); [reflexivity|reflexivity|].
  rewrite (Hr eq_refl), app_nil_r in E. subst before. split.
  - specialize (Hall "b.test"). destruct (reg_routes (started []) !! "b.test"); [destruct Hall|reflexivity].
  - specialize (Hall "a.test"). destruct (reg_routes (started []) !! "a.test"); [by eexists|destruct Hall].
Defined.

(** The announcement without the plugin does not count, so the route stored is
    still that of the guarded one. *)
Lemma stored_route_is_last_change_witness :
  let s' := started [unguarded_msg "10.0.0.1:443"] in
  is_Some (reg_routes s' !! "a.test") ∧
  (∀ c, reg_routes s' !! "a.test" = Some c → container_of (of_route guarded) c) ∧
  (rsc_plugins <$> reg_routes s' !! "a.test") = Some {["basic_auth" := guard]}.
Proof.
  intros s'.
  destruct (stored_route_is_last_change toy_lb_laws [guarded] [unguarded_msg "10.0.0.1:443"] empty_registry s')
    as [Hlast Htotal]; [reflexivity|reflexivity|].
  split; [apply (Htotal (of_route guarded)); [by left|by eexists]|]. split; [|reflexivity].
  intros c Hc. destruct (Hlast _ _ Hc) as (before & a & after & E & _ & Ha & Hb & _).
  change (announcements [guarded] [unguarded_msg "10.0.0.1:443"]) with
    [of_route guarded; of_message (mkMsgRoute "a.test" ["10.0.0.1:443"] [] [] [] [] false)] in E.
  destruct before as [|b0 [|b1 before]]; [by injection E as <- _| |by destruct before].
  injection E as <- <- _. destruct (Hb (of_route guarded)); [reflexivity|]. intros x. reflexivity.
Defined.
