(* ===== verification/HealthCheck.v ===== *)
(** The health-check loop (services/health_check/mod.rs) running next to the
    routing service, as [BackgroundFunctionService] (services/mod.rs) joins
    them: a step relation over the shared route store. The two tasks run on
    one thread and interleave at the loop's [await]s, which lie between the
    clone of a container and its re-insertion. The balancer is behind an [Arc]
    that the clone shares, so what a check changes (the health of backends) is
    inside the balancer and the re-inserted container is the one that was
    read. *)
From stdpp Require Import relations.
From S2P Require Import Prelude Strs Config Stores Http Routes Plugins Router Discovery.
#[local] Open Scope string_scope.
#[local] Open Scope list_scope.

(** The route store, and the container the current turn of the loop holds. *)
Record Sys `{LbApi, PathTreeApi} := mkSys {
  sys_routes : gmap string RouteStoreContainer;
  pending : option (string * RouteStoreContainer) }.

Inductive Event :=
| CheckRead (host : string)
| CheckInsert
| RouteMessage (msg : MsgRoute).

Section health.
Context `{HttpApi, Dns, LbApi, PathTreeApi}.
Implicit Types s : Sys.

(** The start of a turn, up to the first [await]: the iterator yields [host]
    and its container is cloned. *)
Definition check_read (host : string) (s : Sys) : option Sys :=
  match pending s with
  | Some _ => None
  | None => c ← get_routes (sys_routes s) !! host; Some (mkSys _ _ (sys_routes s) (Some (host, c)))
  end.

(** The end of the turn: the clone is inserted back. *)
Definition check_insert (s : Sys) : option Sys :=
  '(host, c) ← pending s;
  Some (mkSys _ _ (insert_route host c (sys_routes s)) None).

Definition run_event (e : Event) (s : Sys) : option Sys :=
  match e with
  | CheckRead host => check_read host s
  | CheckInsert => check_insert s
  | RouteMessage msg =>
      match watch_for_route_changes msg (sys_routes s) with
      | (Ok _, routes) => Some (mkSys _ _ routes (pending s))
      | _ => None
      end
  end.

(** What happens, seen from the loop: a message is received between two turns,
    or a turn for [host] runs while [arrived] are received. *)
Inductive Activity :=
| Idle (msg : MsgRoute)
| Turn (host : string) (arrived : list MsgRoute).

Definition activity_events (a : Activity) : list Event :=
  match a with
  | Idle msg => [RouteMessage msg]
  | Turn host arrived => CheckRead host :: (RouteMessage <$> arrived) ++ [CheckInsert]
  end.

Fixpoint run_events (es : list Event) (s : Sys) : option Sys :=
  match es with
  | [] => Some s
  | e :: rest => s' ← run_event e s; run_events rest s'
  end.

(** The loop through its turns, over as many ticks as there are. *)
Definition run_health_check_loop (l : list Activity) (s : Sys) : option Sys :=
  run_events (concat (activity_events <$> l)) s.

(** One step of either task. *)
Inductive step : Sys → Event → Sys → Prop :=
| step_read routes host c :
    routes !! host = Some c →
    step (mkSys _ _ routes None) (CheckRead host) (mkSys _ _ routes (Some (host, c)))
| step_insert routes host c :
    step (mkSys _ _ routes (Some (host, c))) CheckInsert (mkSys _ _ (<[host := c]> routes) None)
| step_message routes p msg routes' :
    watch_for_route_changes msg routes = (Ok tt, routes') →
    step (mkSys _ _ routes p) (RouteMessage msg) (mkSys _ _ routes' p).


(** ** Lemmas *)

Lemma step_run s e s' : step s e s' ↔ run_event e s = Some s'.
Proof.
  split.
  - intros Hs. destruct Hs as [routes h c Hc|routes h c|routes p msg routes' Hm]; simpl.
    + unfold check_read, get_routes. simpl. by rewrite Hc.
    + done.
    + by rewrite Hm.
  - destruct s as [routes p], e as [h| |msg]; simpl; unfold check_read, check_insert, get_routes; simpl.
    + destruct p; [done|]. destruct (routes !! h) as [c|] eqn:E; [|done]. intros [= <-]. by apply step_read.
    + destruct p as [[h c]|]; [|done]. intros [= <-]. apply step_insert.
    + destruct (watch_for_route_changes msg routes) as [[[]|e|] routes'] eqn:E; [|done..].
      intros [= <-]. by apply step_message.
Qed.

(** What both tasks keep: serviceable containers, and a held container is one
    of a host of the store. *)
Definition sys_ok (s : Sys) : Prop :=
  routes_ok (sys_routes s) ∧
  ∀ h c, pending s = Some (h, c) → container_ok c ∧ is_Some (sys_routes s !! h).

Lemma watch_keeps_hosts msg routes r routes' h :
  watch_for_route_changes msg routes = (r, routes') → is_Some (routes !! h) → is_Some (routes' !! h).
Proof.
  intros E [c Hc]. unfold watch_for_route_changes in E.
  destruct (decide (h = msg_host msg)) as [->|Hne];
    [|by exists c; rewrite (add_route_other _ _ _ _ _ _ _ _ _ _ _ E)].
  unfold add_route_to_router, get_state, lift, modify, mbind, M_bind, mret, M_ret in E.
  destruct (try_from_iter _); [|simplify_eq; by exists c].
  destruct (bool_decide _ && _); [simplify_eq; by exists c|].
  destruct (build_container _ _ _ _ _ _ _); simplify_eq; [|by exists c..].
  unfold insert_route. rewrite lookup_insert_eq. by eexists.
Qed.

Lemma step_ok `{!LbLaws} s e s' : step s e s' → sys_ok s → sys_ok s'.
Proof.
  intros Hs [Hr Hp]. destruct Hs as [routes h c Hc|routes h c|routes p msg routes' Hm]; simpl in *.
  - split; [done|]. simpl. intros ?? [= <- <-]. split; [by apply (Hr h)|by exists c].
  - destruct (Hp h c eq_refl) as [Hok _]. split; [by apply map_Forall_insert_2|done].
  - split; [by eapply watch_ok|]. simpl. intros h c Hc. destruct (Hp h c Hc) as [? ?].
    split; [done|]. by eapply watch_keeps_hosts.
Qed.

Lemma step_keeps_hosts s e s' h : step s e s' → is_Some (sys_routes s !! h) → is_Some (sys_routes s' !! h).
Proof.
  intros Hs. destruct Hs as [|routes h' c|]; simpl; [done| |by eapply watch_keeps_hosts].
  intros Hh. destruct (decide (h = h')) as [->|?]; [rewrite lookup_insert_eq; by eexists|].
  by rewrite lookup_insert_ne.
Qed.

Lemma run_events_app es es' s : run_events (es ++ es') s = s' ← run_events es s; run_events es' s'.
Proof.
  revert s. induction es as [|e es IH]; intros s; [done|]. simpl.
  destruct (run_event e s); simpl; [apply IH|done].
Qed.

(** ** Lemmas: messages and turns *)

(** The routes after messages that return. *)
Definition applied (msgs : list MsgRoute) (routes : gmap string RouteStoreContainer)
    : gmap string RouteStoreContainer :=
  fold_left (λ routes m, snd (watch_for_route_changes m routes)) msgs routes.

(** A message whose headers are valid; no other makes the service panic. *)
Definition harmless (m : MsgRoute) : Prop :=
  ∃ add, parse_headers (host_headers_add m) = Ok add.

Lemma parse_headers_no_error hs e : parse_headers hs ≠ Err e.
Proof.
  induction hs as [|h hs IH]; [done|]. simpl. unfold parse_header, mbind, res_bind, unwrap.
  destruct (HeaderName_from_str (rha_name h)), (HeaderValue_from_str (rha_value h)); [|done..].
  by destruct (parse_headers hs).
Qed.

Lemma parse_headers_valid hs add :
  parse_headers hs = Ok add →
  ¬ Exists (λ h, HeaderName_from_str (rha_name h) = None ∨ HeaderValue_from_str (rha_value h) = None) hs.
Proof.
  revert add. induction hs as [|h hs IH]; intros add; simpl; [by intros _ ?%Exists_nil|].
  unfold parse_header, mbind, res_bind, unwrap. intros E [Hh|Hh]%Exists_cons.
  - destruct Hh as [Hh|Hh]; rewrite Hh in E; [done|]. by destruct (HeaderName_from_str (rha_name h)).
  - destruct (HeaderName_from_str (rha_name h)), (HeaderValue_from_str (rha_value h)); try done.
    destruct (parse_headers hs) as [ps|e|]; [|done..]. by apply (IH ps).
Qed.

Lemma harmless_returns m routes : harmless m → fst (watch_for_route_changes m routes) = Ok tt.
Proof.
  intros [add Hm].
  unfold watch_for_route_changes, add_route_to_router, get_state, lift, modify, mbind, M_bind, mret, M_ret.
  destruct (try_from_iter _); [|done]. destruct (bool_decide _ && _); [done|].
  unfold build_container. simpl. by rewrite Hm.
Qed.

Lemma run_harmless m s :
  harmless m → run_event (RouteMessage m) s = Some (mkSys _ _ (applied [m] (sys_routes s)) (pending s)).
Proof.
  intros Hm. simpl. apply (harmless_returns m (sys_routes s)) in Hm.
  destruct (watch_for_route_changes m (sys_routes s)) as [r routes']. simpl in Hm. by rewrite Hm.
Qed.

Lemma run_messages msgs s :
  Forall harmless msgs →
  run_events (RouteMessage <$> msgs) s = Some (mkSys _ _ (applied msgs (sys_routes s)) (pending s)).
Proof.
  intros Hm. revert s. induction Hm as [|m msgs Hm _ IH]; intros s; [by destruct s|].
  rewrite fmap_cons. cbn [run_events]. rewrite run_harmless by done. simpl. by rewrite IH.
Qed.

(** A message reads and writes the entry of its own host. *)
Lemma message_commutes m host c routes :
  msg_host m ≠ host → <[host := c]> (applied [m] routes) = applied [m] (<[host := c]> routes).
Proof.
  intros Hne. unfold applied, watch_for_route_changes, add_route_to_router, get_state, lift, modify, mbind, M_bind, mret, M_ret.
  simpl. destruct (try_from_iter _); [|done].
  unfold has_new_backend, get_route_by_key, insert_route. rewrite lookup_insert_ne by done.
  destruct (bool_decide _ && _); [done|]. destruct (build_container _ _ _ _ _ _ _); simpl; [|done..].
  by rewrite insert_insert_ne.
Qed.

Lemma own_message_undone m host c routes :
  msg_host m = host → <[host := c]> (applied [m] routes) = <[host := c]> routes.
Proof.
  intros <-. apply map_eq. intros h. destruct (decide (h = msg_host m)) as [->|Hne];
    [by rewrite !lookup_insert_eq|]. rewrite !lookup_insert_ne by done. unfold applied. simpl.
  destruct (watch_for_route_changes m routes) as [r routes'] eqn:E. simpl.
  by eapply add_route_other.
Qed.

Lemma applied_keeps msgs routes h : is_Some (routes !! h) → is_Some (applied msgs routes !! h).
Proof.
  revert routes. induction msgs as [|m msgs IH]; intros routes Hh; [done|]. apply IH.
  destruct (watch_for_route_changes m routes) as [r routes'] eqn:E. by eapply watch_keeps_hosts.
Qed.

Lemma applied_app l l' routes : applied (l ++ l') routes = applied l' (applied l routes).
Proof. apply fold_left_app. Qed.

(** The messages that count in the end. *)
Definition survivors (a : Activity) : list MsgRoute :=
  match a with
  | Idle msg => [msg]
  | Turn host arrived => filter (λ m, msg_host m ≠ host) arrived
  end.

(** The end of a turn for [host] leaves what the messages of other hosts did. *)
Lemma turn_keeps_others msgs host c routes :
  routes !! host = Some c →
  <[host := c]> (applied msgs routes) = applied (filter (λ m, msg_host m ≠ host) msgs) routes.
Proof.
  intros Hc.
  assert (Hgen : ∀ routes, <[host := c]> (applied msgs routes) =
    applied (filter (λ m, msg_host m ≠ host) msgs) (<[host := c]> routes)).
  { clear Hc routes. induction msgs as [|m msgs IH]; intros routes; [done|].
    change (applied (m :: msgs) routes) with (applied msgs (applied [m] routes)). rewrite IH, filter_cons.
    case_decide as Hm.
    - by rewrite message_commutes.
    - by rewrite own_message_undone. }
  by rewrite Hgen, insert_id.
Qed.

Lemma run_turn host arrived routes :
  is_Some (routes !! host) → Forall harmless arrived →
  run_events (activity_events (Turn host arrived)) (mkSys _ _ routes None) =
    Some (mkSys _ _ (applied (filter (λ m, msg_host m ≠ host) arrived) routes) None).
Proof.
  intros [c Hc] Ha. simpl. unfold check_read, get_routes. simpl. rewrite Hc. simpl.
  rewrite run_events_app, run_messages by done. simpl. unfold insert_route.
  by rewrite (turn_keeps_others _ _ _ _ Hc).
Qed.
End health.

(** ** Histories *)

Section histories.
Context `{HttpApi, LbApi, PathTreeApi}.
Implicit Types s : Sys.

(** Each step happens under the resolver of its moment. *)
Inductive trace : Sys → list (Dns * Event) → Sys → Prop :=
| trace_nil s : trace s [] s
| trace_cons s (dns : Dns) e s1 es s2 : step s e s1 → trace s1 es s2 → trace s ((dns, e) :: es) s2.

Lemma trace_app s1 es s2 es' s3 : trace s1 es s2 → trace s2 es' s3 → trace s1 (es ++ es') s3.
Proof. induction 1; [done|]. intros. simpl. econstructor; eauto. Qed.

Lemma trace_keeps_hosts s es s' h : trace s es s' → is_Some (sys_routes s !! h) → is_Some (sys_routes s' !! h).
Proof. induction 1 as [|s dns e s1 es s2 Hs _ IH]; [done|]. intros Hh. by eapply IH, step_keeps_hosts. Qed.

(** Every container of a host, stored or held, was built under a resolver of
    that host. *)
Definition built (by_host : string → Dns → Prop) (h : string) (c : RouteStoreContainer) : Prop :=
  ∃ dns, by_host h dns ∧ @container_ok dns _ _ c.
Definition sys_built (by_host : string → Dns → Prop) (s : Sys) : Prop :=
  map_Forall (built by_host) (sys_routes s) ∧ ∀ h c, pending s = Some (h, c) → built by_host h c.

Lemma watch_built `{!LbLaws} by_host (dns : Dns) m routes r routes' :
  watch_for_route_changes m routes = (r, routes') → by_host (msg_host m) dns →
  map_Forall (built by_host) routes → map_Forall (built by_host) routes'.
Proof.
  unfold watch_for_route_changes, add_route_to_router, get_state, lift, modify, mbind, M_bind, mret, M_ret.
  intros E Hby Hok. destruct (try_from_iter _) as [lb|] eqn:El; [|by simplify_eq].
  destruct (bool_decide _ && _); [by simplify_eq|].
  destruct (build_container _ _ _ _ _ _ _) as [c|e|] eqn:Ec; simplify_eq; [|done..].
  apply map_Forall_insert_2; [|done]. exists dns. split; [done|]. by eapply build_container_ok.
Qed.

Lemma trace_built `{!LbLaws} by_host s es s' :
  trace s es s' → (∀ dns m, (dns, RouteMessage m) ∈ es → by_host (msg_host m) dns) →
  sys_built by_host s → sys_built by_host s'.
Proof.
  induction 1 as [|s dns e s1 es s2 Hs _ IH]; [done|]. intros Hby [Hr Hp].
  apply IH; [intros ???; apply Hby; by right|]. clear IH.
  destruct Hs as [routes h c Hc|routes h c|routes p m routes' Hm]; simpl in *.
  - split; [done|]. simpl. intros ?? [= <- <-]. by apply (Hr h).
  - split; [|done]. simpl. apply map_Forall_insert_2; [by apply Hp|done].
  - split; [|done]. simpl. eapply watch_built; [exact Hm|apply Hby; by left|done].
Qed.

(** The choice of the peer under the resolver [now]. *)
Definition peer_at (now : Dns) : M Exchange error HttpPeer := @upstream_peer _ _ _ now.

(** What a request for a container meets, under the resolver of that moment. *)
Definition serviceable (reg : Dns) (c : RouteStoreContainer) : Prop :=
  ∀ x b (now : Dns), route_container (ctx x) = c → select (load_balancer c) = Some b →
    (same_answers reg now c → ∃ peer x', peer_at now x = (Ok peer, x') ∧ peer_backend peer = b) ∧
    ((∀ u, u ∈ rsc_upstreams c → to_socket_addrs (Dns := now) (upstream_text u) = None) →
       fst (peer_at now x) = Panic).

Lemma container_serviceable `{!LbLaws} (reg : Dns) c : container_ok c → serviceable reg c.
Proof.
  intros Hok x b now <- Hsel. split.
  - intros Hs. destruct (@upstream_peer_found _ now _ _ _ x b) as (peer & x' & Hp & Hb & _);
      [by apply (container_ok_later reg)|done|]. by exists peer, x'.
  - intros Hgone. destruct (backends_covered _ Hok b) as (addr & u & addrs & Hi & Hu & _);
      [by apply select_backend|].
    apply (@upstream_peer_gone _ now _ _ x b addr); [done|done| |done]. intros Hn. rewrite Hn in Hu.
    by apply elem_of_nil in Hu.
Qed.
End histories.

(** ** Properties *)

Section properties.
Context `{HttpApi, Dns, LbApi, PathTreeApi}.
Implicit Types s : Sys.

(** The executable step function and the step relation agree. *)
Theorem run_event_step s e s' : step s e s' ↔ run_event e s = Some s'.
Proof. apply step_run. Qed.

(** C3. Under every interleaving of health checks and route messages, on what
    the configuration left of an empty store, and whatever the resolver answers
    at each moment: every host that was ever stored stays stored, and its
    container was built under the resolver of the configuration or of a message
    for that host. At a request, under the resolver of that moment, the upstream
    of any backend its balancer selects is found if its upstreams resolve as
    they did then; if none of them resolves any more, the request panics. *)
Theorem interleavings_serviceable `{Pki, Files} {T : Type} `{!Store T} (Hl : LbLaws)
    config (start configured : Registry T) es1 es2 s1 s2 host
    (Hempty : reg_routes start = ∅)
    (Hconfig : add_routes_from_config config start = (Ok tt, configured))
    (Ht1 : trace (mkSys _ _ (reg_routes configured) None) es1 s1) (Ht2 : trace s1 es2 s2)
    (Hhost : is_Some (sys_routes s1 !! host)) :
  ∃ c reg, sys_routes s2 !! host = Some c ∧
    (reg = H0 ∨ ∃ m, (reg, RouteMessage m) ∈ es1 ++ es2 ∧ msg_host m = host) ∧ serviceable reg c.
Proof.
  destruct (trace_keeps_hosts _ _ _ host Ht2 Hhost) as [c Hc].
  set (by_host := λ h reg, reg = H0 ∨ ∃ m, (reg, RouteMessage m) ∈ es1 ++ es2 ∧ msg_host m = h).
  assert (Hb : sys_built by_host s2) .
  { eapply (trace_built by_host); [eapply trace_app; [exact Ht1|exact Ht2]|..].
    - intros dns m Hin. right. by exists m.
    - split; [|done]. intros h k Hk. exists H0. split; [by left|].
      eapply (add_config_keeps config); [exact Hconfig|rewrite Hempty; apply map_Forall_empty|exact Hk]. }
  destruct (proj1 Hb host c Hc) as (reg & Hreg & Hok). exists c, reg. split_and!; [done|done|].
  by apply container_serviceable.
Qed.

(** With no route message, the health checks leave the route store as it
    is at the end of every turn. *)
Theorem checks_alone_change_nothing es s s'
    (Htrace : trace s es s') (Hchecks : Forall (λ e, ∀ msg, e ≠ RouteMessage msg) es.*2)
    (Hstart : pending s = None) (Hend : pending s' = None) :
  sys_routes s' = sys_routes s.
Proof.
  assert (Hinv : ∀ s es s', trace s es s' → Forall (λ e, ∀ msg, e ≠ RouteMessage msg) es.*2 →
    (∀ h c, pending s = Some (h, c) → sys_routes s !! h = Some c) → sys_routes s' = sys_routes s).
  { clear. intros s es s' Ht. induction Ht as [s|s dns e s1 es s2 Hs Ht IH]; [done|].
    intros [He Hes]%Forall_cons Hp.
    destruct Hs as [routes h c Hc|routes h c|routes p msg routes' Hm]; simpl in *.
    - apply IH; [done|]. intros ?? [= <- <-]. done.
    - rewrite IH by done. apply insert_id. by apply Hp.
    - by destruct (He msg). }
  eapply Hinv; [exact Htrace|done|]. rewrite Hstart. done.
Qed.

(** C31. The health checks lose exactly the updates of a host that arrive
    during its own turns: however many turns and messages, in any order, the
    route store ends as if those messages had not been sent and there were no
    health checks. *)
Theorem checks_lose_own_updates (l : list Activity) routes
    (Hstored : Forall (λ a, ∀ host arrived, a = Turn host arrived → is_Some (routes !! host)) l)
    (Hharmless : Forall (λ a, ∀ m, RouteMessage m ∈ activity_events a → harmless m) l) :
  run_health_check_loop l (mkSys _ _ routes None) =
    Some (mkSys _ _ (applied (concat (survivors <$> l)) routes) None).
Proof.
  unfold run_health_check_loop. revert routes Hstored.
  induction l as [|a l IH]; intros routes Hstored; [done|].
  apply Forall_cons in Hstored as [Ha Hstored], Hharmless as [Hm Hharmless].
  rewrite !fmap_cons. cbn [concat]. rewrite run_events_app, applied_app.
  assert (run_events (activity_events a) (mkSys _ _ routes None) =
    Some (mkSys _ _ (applied (survivors a) routes) None)) as ->.
  { destruct a as [m|host arrived].
    - apply (run_messages [m]). constructor; [|done]. apply Hm. by left.
    - apply run_turn; [by eapply Ha|]. apply Forall_forall. intros m Hin. apply Hm.
      simpl. right. apply elem_of_app. left. by apply list_elem_of_fmap_2. }
  simpl. apply IH; [done|]. eapply Forall_impl; [exact Hstored|]. intros a' Ha' host arrived E.
  by eapply applied_keeps, Ha'.
Qed.

(** A route update can be lost: whenever a message replaces the container
    of a stored host, the turn of a health check that started before it ends
    by restoring the old container, and the store is again as it was before
    the update. *)
Theorem route_update_lost msg routes routes' c c'
    (Hold : routes !! msg_host msg = Some c)
    (Hupdate : watch_for_route_changes msg routes = (Ok tt, routes'))
    (Hnew : routes' !! msg_host msg = Some c') (Hdiff : c ≠ c') :
  trace (mkSys _ _ routes None)
    [(H0, CheckRead (msg_host msg)); (H0, RouteMessage msg)] (mkSys _ _ routes' (Some (msg_host msg, c))) ∧
  trace (mkSys _ _ routes' (Some (msg_host msg, c))) [(H0, CheckInsert)] (mkSys _ _ routes None) ∧
  routes ≠ routes'.
Proof.
  split_and!.
  - econstructor; [by apply step_read|]. econstructor; [by apply step_message|constructor].
  - econstructor; [apply step_insert|]. assert (<[msg_host msg := c]> routes' = routes) as ->; [|constructor].
    apply map_eq. intros h. destruct (decide (h = msg_host msg)) as [->|Hne].
    + by rewrite lookup_insert_eq.
    + rewrite lookup_insert_ne by done. by eapply add_route_other.
  - congruence.
Qed.
End properties.

(** ** Witnesses *)

#[local] Existing Instances toy_http toy_dns toy_lb toy_pt toy_pki toy_files.

Definition web_message (port : string) : MsgRoute :=
  mkMsgRoute "a.test" ["10.0.0.1:" +:+ port] [] [] [] [] false.
Definition stored (port : string) : gmap string RouteStoreContainer :=
  snd (watch_for_route_changes (web_message port) ∅).
Definition stored_container (port : string) : RouteStoreContainer :=
  default toy_container (stored port !! "a.test").

Lemma stored_ok port :
  port ∈ ["80"; "81"] → watch_for_route_changes (web_message port) ∅ = (Ok tt, stored port) ∧
  stored port !! "a.test" = Some (stored_container port).
Proof. by intros [->|[->|[]%elem_of_nil]%elem_of_cons]%elem_of_cons. Qed.

(** The route of a name: it resolves when it is configured, not at the request. *)
Definition no_dns : Dns := {| to_socket_addrs := λ _, None |}.
Definition before_messages : Registry MemoryStore :=
  snd (add_routes_from_config [web_route None] empty_registry).

Lemma interleavings_serviceable_witness :
  ∃ c reg, reg_routes before_messages !! "a.test" = Some c ∧ serviceable reg c ∧
    reg = toy_dns ∧ fst (peer_at no_dns (bound c)) = Panic.
Proof.
  assert (Hc : reg_routes before_messages !! "a.test" = Some web_container) by reflexivity.
  destruct (interleavings_serviceable toy_lb_laws [web_route None] empty_registry before_messages
    [(no_dns, CheckRead "a.test")] [(no_dns, CheckInsert)]
    (mkSys _ _ (reg_routes before_messages) (Some ("a.test", web_container)))
    (mkSys _ _ (<["a.test" := web_container]> (reg_routes before_messages)) None) "a.test")
    as (c & reg & Hs & Hreg & Hok).
  - reflexivity.
  - reflexivity.
  - econstructor; [by apply step_read|constructor].
  - econstructor; [apply step_insert|constructor].
  - by eexists.
  - simpl in Hs. rewrite lookup_insert_eq in Hs. injection Hs as <-.
    exists web_container, reg. split_and!; [done|done| |].
    + destruct Hreg as [->|(m & Hin & _)]; [done|]. set_solver.
    + apply (Hok (bound web_container) ("10.0.0.1", 443%N) no_dns eq_refl eq_refl). done.
Defined.

Lemma checks_alone_change_nothing_witness :
  <["a.test" := stored_container "80"]> (stored "80") = stored "80".
Proof.
  destruct (stored_ok "80") as [Hm Hc]; [by left|].
  refine (checks_alone_change_nothing [(toy_dns, CheckRead "a.test"); (toy_dns, CheckInsert)]
    (mkSys _ _ (stored "80") None) (mkSys _ _ (<["a.test" := stored_container "80"]> (stored "80")) None)
    _ _ _ _).
  - econstructor; [by apply step_read|]. econstructor; [apply step_insert|constructor].
  - by repeat constructor.
  - reflexivity.
  - reflexivity.
Defined.

Lemma route_update_lost_witness :
  let routes' := snd (watch_for_route_changes (web_message "81") (stored "80")) in
  trace (mkSys _ _ (stored "80") None) [(toy_dns, CheckRead "a.test"); (toy_dns, RouteMessage (web_message "81"))]
    (mkSys _ _ routes' (Some ("a.test", stored_container "80"))) ∧
  trace (mkSys _ _ routes' (Some ("a.test", stored_container "80"))) [(toy_dns, CheckInsert)]
    (mkSys _ _ (stored "80") None).
Proof.
  intros routes'. destruct (stored_ok "80") as [Hm Hc]; [by left|].
  destruct (route_update_lost (web_message "81") (stored "80") routes' (stored_container "80")
    (stored_container "81")) as (? & ? & _); [exact Hc|reflexivity|reflexivity| |by split].
  intros Heq. apply (f_equal rsc_upstreams) in Heq. vm_compute in Heq. discriminate.
Defined.

Lemma checks_lose_own_updates_witness :
  run_health_check_loop [Turn "a.test" [web_message "81"]; Idle (web_message "82")]
    (mkSys _ _ (stored "80") None) =
  Some (mkSys _ _ (applied [web_message "82"] (stored "80")) None).
Proof.
  destruct (stored_ok "80") as [Hm Hc]; [by left|].
  assert (Hharm : ∀ m a, m ∈ [web_message "81"] ∨ m = web_message "82" → a = m → harmless a).
  { intros m a [->%list_elem_of_singleton| ->] ->; by exists []. }
  refine (eq_trans (checks_lose_own_updates [Turn "a.test" [web_message "81"]; Idle (web_message "82")]
    (stored "80") _ _) _).
  - repeat constructor; [|done]. intros host arrived [= <- <-]. by eexists.
  - repeat constructor; intros m Hin; simpl in Hin;
      repeat (apply elem_of_cons in Hin as [Hin|Hin]); simplify_eq;
      first [by eapply Hharm; [left; left|]|by eapply Hharm; [right|]|by apply elem_of_nil in Hin].
  - reflexivity.
Defined.
