(* ===== verification/DiskCache.v ===== *)
(** The disk cache of crates/proksi/src/cache/disk: the metadata codec
    (meta.rs), the storage (storage.rs) and its hit and miss handlers
    (handlers.rs), with the in-memory copy DISK_MEMORY_CACHE. Pingora's cache
    key hash, serde_json and which file operations succeed are parameters. *)
From S2P Require Import Prelude Strs Config Stores Http Routes Router.
#[local] Open Scope string_scope.
#[local] Open Scope list_scope.

(** ** Metadata (meta.rs) *)

(** The [BTreeMap] of the headers is a finite map. *)
Record DiskCacheItemMetadata := mkItemMeta {
  im_status : N;
  im_created_at : N;
  im_fresh_until : N;
  im_stale_while_revalidate_sec : N;
  im_stale_if_error_sec : N;
  im_headers : gmap string string }.

(** [serde_json] on the metadata. *)
Class MetaJson := {
  meta_to_json : DiskCacheItemMetadata → option string;
  meta_from_json : string → option DiskCacheItemMetadata }.
Class MetaJsonLaws `{MetaJson} : Prop := {
  meta_json m s : meta_to_json m = Some s → meta_from_json s = Some m }.

(** Pingora's [CacheHashKey::primary]: the hexadecimal hash of the namespace and
    the primary text of the key, one after the other, without anything between
    them and without the user tag. *)
Class CacheHash := { hash_hex : string → string }.
Definition hashed_text (key : CacheKey) : string := key_namespace key +:+ key_primary key.
Definition primary `{CacheHash} (key : CacheKey) : string := hash_hex (hashed_text key).

(** Which directories can be created, and which files written and read. *)
Class Disk := {
  can_create_dir : string → bool;
  can_write : string → bool;
  can_read : string → bool }.

(** ** State *)

(** The files under their paths, DISK_MEMORY_CACHE and CACHE_ROUTING_STORE. *)
Record DiskState := mkDiskState {
  files : gmap string string;
  memory : gmap string (DiskCacheItemMetadata * string);
  disk_routing : PathCacheStorage }.

Definition set_files (f : gmap string string) (s : DiskState) : DiskState :=
  mkDiskState f (memory s) (disk_routing s).
Definition set_memory (m : gmap string (DiskCacheItemMetadata * string)) (s : DiskState) : DiskState :=
  mkDiskState (files s) m (disk_routing s).

(** A hit from a file: its path, how much of it was read, and the bytes read
    so far; a hit from memory: what remains to be read. *)
Record DiskCacheHitHandler := mkHit {
  hit_path : string;
  hit_offset : nat;
  hit_meta : DiskCacheItemMetadata;
  finished_buffer : string }.
Record DiskCacheHitHandlerInMemory := mkMemHit { mem_target : string }.
(** The handlers start at the beginning of the body; [target] is the path of
    the opened file. *)
Definition DiskCacheHitHandler_new (target : string) (meta : DiskCacheItemMetadata) : DiskCacheHitHandler :=
  mkHit target 0 meta "".
Definition DiskCacheHitHandlerInMemory_new (target : string) : DiskCacheHitHandlerInMemory :=
  mkMemHit target.

Inductive HitHandler :=
| FromDisk (h : DiskCacheHitHandler)
| FromMemory (h : DiskCacheHitHandlerInMemory).

Record DiskCacheMissHandler := mkMiss {
  miss_main_path : string;
  miss_key : CacheKey;
  miss_meta : DiskCacheItemMetadata }.

Definition DiskCacheMissHandler_new (key : CacheKey) (meta : DiskCacheItemMetadata) (directory : string)
    : DiskCacheMissHandler := mkMiss directory key meta.

Section disk_cache.
Context `{HttpApi} `{!CacheMetaApi} `{MetaJson, CacheHash, Disk}.

(** [StatusCode::from_u16] accepts 100 to 999. *)
Definition status_or_ok (n : N) : N := if (100 <=? n)%N && (n <=? 999)%N then n else 200.

Definition convert_headers (meta : DiskCacheItemMetadata) : ResponseHeader :=
  let res_headers := build_no_case (status_or_ok (im_status meta)) in
  fold_left (λ h kv, match insert_header kv.1 kv.2 h with Ok h' => h' | _ => h end)
    (map_to_list (im_headers meta)) res_headers.

(** The [map] and [collect] over the headers; [to_str().unwrap()] panics. *)
Fixpoint collect_headers (l : list (string * string)) (m : gmap string string)
    : res string (gmap string string) :=
  match l with
  | [] => Ok m
  | (k, v) :: rest => v ← unwrap (header_to_str v); collect_headers rest (<[k := v]> m)
  end.

Definition DiskCacheItemMetadata_from (meta : CacheMeta) : res string DiskCacheItemMetadata :=
  headers ← collect_headers (hm_iter (resp_headers (response_header meta))) ∅;
  Ok (mkItemMeta (resp_status (response_header meta)) (created meta) (fresh_until meta)
        (stale_while_revalidate_sec meta) (stale_if_error_sec meta) headers).

(** The [CacheMeta] that both branches of [lookup] rebuild. *)
Definition rebuild_meta (meta : DiskCacheItemMetadata) : CacheMeta :=
  CacheMeta_new (im_fresh_until meta) (im_created_at meta) (im_stale_while_revalidate_sec meta)
    (im_stale_if_error_sec meta) (convert_headers meta).

(** ** Storage (storage.rs) *)

Definition directory : string := "/tmp".

Definition get_directory_for (namespace : string) (routing : PathCacheStorage) : string :=
  match get_cache_routing_by_key namespace routing with
  | None => path_join directory namespace
  | Some path => path_join path namespace
  end.

Definition metadata_path (key : CacheKey) (s : DiskState) : string :=
  path_join (get_directory_for (key_namespace key) (disk_routing s)) (primary key +:+ ".metadata").
Definition cache_path (key : CacheKey) (s : DiskState) : string :=
  path_join (get_directory_for (key_namespace key) (disk_routing s)) (primary key +:+ ".cache").

Definition read_file (path : string) (s : DiskState) : option string :=
  if can_read path then files s !! path else None.

(** [tokio::fs::write(..).ok()] *)
Definition write_file (path content : string) (s : DiskState) : DiskState :=
  if can_write path then set_files (<[path := content]> (files s)) s else s.

Definition get_cached_metadata (key : CacheKey) (s : DiskState) : option DiskCacheItemMetadata :=
  body ← read_file (metadata_path key s) s; meta_from_json body.

Definition get_memory_key (key : CacheKey) : string := primary key.

Definition support_streaming_partial_write : bool := false.

Definition lookup_cache (key : CacheKey) : M DiskState string (option (CacheMeta * HitHandler)) :=
  s ← get_state;
  match memory s !! get_memory_key key with
  | Some (meta, body) => mret (Some (rebuild_meta meta, FromMemory (DiskCacheHitHandlerInMemory_new body)))
  | None =>
      let file_path := cache_path key s in
      match read_file file_path s with
      | None => mret None
      | Some _ =>
          match get_cached_metadata key s with
          | None => mret None
          | Some meta => mret (Some (rebuild_meta meta, FromDisk (DiskCacheHitHandler_new file_path meta)))
          end
      end
  end.

Definition get_miss_handler (key : CacheKey) (meta : CacheMeta) : M DiskState string DiskCacheMissHandler :=
  main_path ← gets (λ s, get_directory_for (key_namespace key) (disk_routing s));
  if negb (can_create_dir main_path) then throw "failed to create directory"
  else
    item ← lift (DiskCacheItemMetadata_from meta);
    match meta_to_json item with
    | None => throw "failed to serialize cache meta"
    | Some serialized_metadata =>
        _ ← modify (write_file (path_join main_path (primary key +:+ ".metadata")) serialized_metadata);
        item ← lift (DiskCacheItemMetadata_from meta);
        mret (DiskCacheMissHandler_new key item main_path)
    end.

Definition purge (key : CacheKey) : M DiskState string bool := mret true.

Definition update_meta (key : CacheKey) (meta : CacheMeta) : M DiskState string bool :=
  main_path ← gets (λ s, get_directory_for (key_namespace key) (disk_routing s));
  item ← lift (DiskCacheItemMetadata_from meta);
  match meta_to_json item with
  | None => throw "failed to serialize cache meta"
  | Some serialized_metadata =>
      _ ← modify (write_file (path_join main_path (primary key +:+ ".metadata")) serialized_metadata);
      mret true
  end.

(** ** Handlers (handlers.rs) *)

(** [Read::read] into a buffer of [buf] bytes: an error ([None]), or as many
    bytes as the system gives, at least one unless the end is reached. *)
Definition os_read (given : option nat) (buf : nat) (rest : string) : option string :=
  n ← given; Some (str_take (Nat.min (Nat.max 1 n) buf) rest).

Definition read_body (given : option nat) (h : DiskCacheHitHandler) (s : DiskState)
    : option string * DiskCacheHitHandler :=
  match os_read given (N.to_nat 32000) (str_drop (hit_offset h) (default "" (files s !! hit_path h))) with
  | None => (None, h)
  | Some EmptyString => (None, h)
  | Some slice =>
      (Some slice, mkHit (hit_path h) (hit_offset h + String.length slice) (hit_meta h)
                     (finished_buffer h +:+ slice))
  end.

Definition finish_hit (h : DiskCacheHitHandler) (key : CacheKey) (s : DiskState) : DiskState :=
  let write := set_memory (<[primary key := (hit_meta h, finished_buffer h)]> (memory s)) s in
  match memory s !! primary key with
  | Some (_, existing) =>
      if (String.length existing =? String.length (finished_buffer h))%nat then s else write
  | None => write
  end.

(** A reader over bytes in memory gives all it has, up to the buffer. *)
Definition read_body_in_memory (h : DiskCacheHitHandlerInMemory)
    : option string * DiskCacheHitHandlerInMemory :=
  match str_take (N.to_nat 128000) (mem_target h) with
  | EmptyString => (None, h)
  | slice => (Some slice, mkMemHit (str_drop (N.to_nat 128000) (mem_target h)))
  end.

(** Nothing is kept of a hit from memory; neither handler seeks. *)
Definition finish_in_memory (h : DiskCacheHitHandlerInMemory) (key : CacheKey) (s : DiskState) : DiskState := s.
Definition can_seek : bool := false.
Definition seek {A} (start : nat) (end_ : option nat) (h : A) : res string unit * A := (Ok tt, h).

(** Appends to the file, creating it if need be. The write is taken to be done
    when the call returns: [tokio]'s [write_all] hands its last part to a
    thread, and the code never flushes, so that a write that is still under way,
    or fails after the call, is not modelled. *)
Definition write_to_file (path content : string) (s : DiskState) : option DiskState :=
  if can_write path then
    Some (set_files (<[path := default "" (files s !! path) +:+ content]> (files s)) s)
  else None.

Definition write_body (h : DiskCacheMissHandler) (data : string) (end_ : bool) : M DiskState string unit := λ s,
  let cache_file := primary (miss_key h) +:+ ".cache" in
  match write_to_file (path_join (miss_main_path h) cache_file) data s with
  | None => (Err "failed to write to cache file", s)
  | Some s' => if end_ then (Ok tt, s') else (Ok tt, s')
  end.

(** [MissFinishType::Created(0)] *)
Definition finish_miss (h : DiskCacheMissHandler) : res string nat := Ok 0.

(** ** How Pingora drives the handlers *)

(** Reading a hit to its end: [read_body] until it returns [None]. [given]
    says what the system gives at each call. *)
Fixpoint read_all (given : list (option nat)) (h : DiskCacheHitHandler) (s : DiskState)
    : list string * DiskCacheHitHandler :=
  match given with
  | [] => ([], h)
  | g :: given' =>
      match read_body g h s with
      | (None, h') => ([], h')
      | (Some slice, h') => let '(rest, h'') := read_all given' h' s in (slice :: rest, h'')
      end
  end.

(** The same for a hit from memory, [n] calls. *)
Fixpoint read_all_in_memory (n : nat) (h : DiskCacheHitHandlerInMemory) : list string :=
  match n with
  | O => []
  | S n' =>
      match read_body_in_memory h with
      | (None, _) => []
      | (Some slice, h') => slice :: read_all_in_memory n' h'
      end
  end.

Fixpoint write_all (h : DiskCacheMissHandler) (chunks : list string) : M DiskState string unit :=
  match chunks with
  | [] => mret tt
  | [data] => write_body h data true
  | data :: rest => _ ← write_body h data false; write_all h rest
  end.

(** An admission that is broken off (the upstream or the client went away, the
    body exceeded the limit) after some chunks: the handler is dropped. *)
Fixpoint write_some (h : DiskCacheMissHandler) (chunks : list string) : M DiskState string unit :=
  match chunks with
  | [] => mret tt
  | data :: rest => _ ← write_body h data false; write_some h rest
  end.
Definition interrupted_response (key : CacheKey) (meta : CacheMeta) (chunks : list string) : M DiskState string unit :=
  h ← get_miss_handler key meta; write_some h chunks.

(** A cache admission: the miss handler, the chunks of the body, the end. *)
Definition cache_response (key : CacheKey) (meta : CacheMeta) (chunks : list string) : M DiskState string unit :=
  h ← get_miss_handler key meta;
  _ ← write_all h chunks;
  _ ← lift (finish_miss h);
  mret tt.

(** ** Lemmas *)

Implicit Types s : DiskState.

Lemma os_read_nonempty n buf rest :
  rest ≠ "" → 0 < buf → ∃ a t, os_read (Some n) buf rest = Some (String a t).
Proof.
  intros Hr Hb. unfold os_read. simpl.
  destruct (Nat.min (Nat.max 1 n) buf) as [|m] eqn:E; [lia|].
  destruct rest as [|a rest]; [done|]. simpl. eauto.
Qed.

Lemma read_body_cases n h s :
  let rest := str_drop (hit_offset h) (default "" (files s !! hit_path h)) in
  (rest = "" ∧ read_body (Some n) h s = (None, h)) ∨
  ∃ slice, slice ≠ "" ∧ rest = slice +:+ str_drop (String.length slice) rest ∧
    (String.length slice ≤ N.to_nat 32000)%nat ∧
    read_body (Some n) h s =
      (Some slice, mkHit (hit_path h) (hit_offset h + String.length slice) (hit_meta h)
                     (finished_buffer h +:+ slice)).
Proof.
  intros rest. unfold read_body. fold rest. remember (N.to_nat 32000) as buf eqn:Eb.
  destruct (decide (rest = "")) as [->|Hne]; [left; split; [done|]|right].
  - unfold os_read. simpl. by destruct (Nat.min _ _).
  - destruct (os_read_nonempty n buf rest Hne) as (a & t & E); [lia|]. rewrite E.
    unfold os_read in E. simpl in E. injection E as E. rewrite <- E.
    exists (str_take (Nat.min (Nat.max 1 n) buf) rest).
    split_and!; [by rewrite E|apply str_take_split|rewrite length_str_take; lia|by rewrite E].
Qed.

(** Reading with enough calls gives the rest of the file, in pieces of at most
    the buffer's size, whatever the sizes the system chooses. *)
Lemma read_all_spec given h s :
  Forall is_Some given →
  String.length (str_drop (hit_offset h) (default "" (files s !! hit_path h))) < length given →
  let '(slices, h') := read_all given h s in
  concat_str slices = str_drop (hit_offset h) (default "" (files s !! hit_path h)) ∧
  finished_buffer h' = finished_buffer h +:+ concat_str slices ∧ hit_meta h' = hit_meta h ∧
  Forall (λ t, t ≠ "" ∧ (String.length t ≤ N.to_nat 32000)%nat) slices.
Proof.
  intros Hg. revert h. induction Hg as [|g given [n ->] _ IH]; intros h Hlen; [simpl in Hlen; lia|].
  cbn [read_all]. destruct (read_body_cases n h s) as [[Hr ->]|(slice & Hne & Hr & Hb & ->)].
  - rewrite Hr. simpl. by rewrite app_nil_r_str.
  - set (h1 := mkHit _ _ _ _). specialize (IH h1).
    assert (Hrest : str_drop (hit_offset h1) (default "" (files s !! hit_path h1)) =
      str_drop (String.length slice) (str_drop (hit_offset h) (default "" (files s !! hit_path h))))
      by (subst h1; simpl; by rewrite str_drop_drop).
    rewrite Hrest in IH. destruct (read_all given h1 s) as [slices h'].
    destruct IH as (Hc & Hf & Hm & Hall).
    { rewrite length_str_drop. assert (Hl := f_equal String.length Hr).
      rewrite length_app_str in Hl. assert (String.length slice ≠ 0) by (by destruct slice).
      simpl in Hlen. lia. }
    simpl concat_str. rewrite Hc, Hf. split_and!; [done| |done|by constructor].
    subst h1. simpl. by rewrite app_assoc_str, Hc.
Qed.

(** From memory, the whole body comes in pieces of at most 128000 bytes. *)
Lemma read_all_in_memory_spec n h :
  (String.length (mem_target h) < n)%nat → concat_str (read_all_in_memory n h) = mem_target h.
Proof.
  revert h. induction n as [|n IH]; intros h Hn; [lia|]. cbn [read_all_in_memory].
  unfold read_body_in_memory.
  assert (Hbuf : (0 < N.to_nat 128000)%nat) by (apply Nat.neq_0_lt_0; intros E%(N2Nat.inj _ 0); done).
  revert Hbuf. generalize (N.to_nat 128000). intros buf Hbuf.
  pose proof (str_take_drop buf (mem_target h)) as Hs.
  pose proof (length_str_take buf (mem_target h)) as Hl.
  destruct (str_take buf (mem_target h)) as [|a t] eqn:E.
  - simpl in Hl. symmetry. apply length_nil_str. lia.
  - set (h' := mkMemHit _). simpl concat_str. rewrite (IH h').
    + exact Hs.
    + simpl in Hl |- *. rewrite length_str_drop. lia.
Qed.
End disk_cache.

(** ** Lemmas on the header codec *)

Section codec.
Context `{HttpApi} `{!CacheMetaApi}.

Lemma collect_headers_lookup l m m' k :
  collect_headers l m = Ok m' →
  m' !! k = match last (filter (λ kv, kv.1 = k) l).*2 with
            | Some v => header_to_str v
            | None => m !! k
            end.
Proof.
  revert m. induction l as [|[k' v] l IH]; intros m; simpl; [by intros [= <-]|].
  unfold mbind, res_bind, unwrap. destruct (header_to_str v) as [t|] eqn:Ev; [|done].
  intros ->%IH. rewrite filter_cons. simpl. case_decide as E.
  - subst. rewrite fmap_cons, last_cons. rewrite lookup_insert_eq. simpl.
    by destruct (last _).
  - by rewrite lookup_insert_ne.
Qed.

Lemma collect_headers_lower l m m' :
  collect_headers l m = Ok m' →
  (∀ k v, (k, v) ∈ l → ascii_lowercase k = k) →
  (∀ k v, m !! k = Some v → ascii_lowercase k = k) →
  ∀ k v, m' !! k = Some v → ascii_lowercase k = k.
Proof.
  revert m. induction l as [|[k' v] l IH]; intros m; simpl; [by intros [= <-]|].
  unfold mbind, res_bind, unwrap. destruct (header_to_str v) as [t|] eqn:Ev; [|done].
  intros Hc Hl Hm. eapply IH; [exact Hc| |].
  - intros k0 v0 Hin. eapply Hl. by right.
  - intros k0 v0 [[<- <-]|[_ ?]]%lookup_insert_Some; [eapply Hl; by left|by eapply Hm].
Qed.

Lemma collect_headers_no_panic l m m' :
  collect_headers l m = Ok m' → Forall (λ v, is_Some (header_to_str v)) l.*2.
Proof.
  revert m. induction l as [|[k v] l IH]; intros m; simpl; [by constructor|].
  unfold mbind, res_bind, unwrap. destruct (header_to_str v) as [t|] eqn:Ev; [|done].
  intros Hc. constructor; [by exists t|by eapply IH].
Qed.

Definition insert_or_keep (h : ResponseHeader) (kv : string * string) : ResponseHeader :=
  match insert_header kv.1 kv.2 h with Ok h' => h' | _ => h end.

Lemma insert_all_get `{!HeaderLaws} l h n :
  NoDup l.*1 → (∀ k v, (k, v) ∈ l → ascii_lowercase k = k) →
  (∀ k v g, (k, v) ∈ l → is_Some (hm_insert k v g)) →
  hm_get_all (resp_headers (fold_left insert_or_keep l h)) n =
    match (list_to_map l : gmap string string) !! ascii_lowercase n with
    | Some v => [v]
    | None => hm_get_all (resp_headers h) n
    end.
Proof.
  revert h. induction l as [|[k v] l IH]; intros h Hnd Hlow Hins; [done|].
  apply NoDup_cons in Hnd as [Hk Hnd]. cbn [fold_left].
  rewrite IH; [|done|intros; eapply Hlow; by right|intros; eapply Hins; by right].
  destruct (Hins k v (resp_headers h)) as [g Hg]; [by left|].
  unfold insert_or_keep, insert_header. simpl. rewrite Hg. simpl.
  rewrite (hm_get_all_insert _ _ _ _ _ Hg).
  destruct (decide (same_name k n)) as [Hs|Hs]; unfold same_name in Hs;
    rewrite (Hlow k v) in Hs by (by left).
  - subst k. rewrite lookup_insert_eq. by rewrite not_elem_of_list_to_map_1.
  - by rewrite lookup_insert_ne.
Qed.
End codec.

(** ** Lemmas on admission *)

Section admission.
Context `{HttpApi} `{!CacheMetaApi} `{MetaJson, CacheHash, Disk}.
Implicit Types s : DiskState.

Lemma metadata_not_cache key key' s s' :
  primary key = primary key' → disk_routing s = disk_routing s' →
  key_namespace key = key_namespace key' → metadata_path key s ≠ cache_path key' s'.
Proof.
  intros Hp Hr Hn. unfold metadata_path, cache_path. rewrite Hp, Hr, Hn.
  destruct (path_join_dot (get_directory_for (key_namespace key') (disk_routing s')) (primary key'))
    as [pre Hpre].
  rewrite (Hpre "metadata"), (Hpre "cache"). intros E.
  apply app_inj_prefix in E. discriminate.
Qed.

Lemma write_all_cons h c c' rest :
  write_all h (c :: c' :: rest) = (_ ← write_body h c false; write_all h (c' :: rest)).
Proof. done. Qed.

Lemma write_body_ok h data e s :
  let path := path_join (miss_main_path h) (primary (miss_key h) +:+ ".cache") in
  can_write path = true →
  write_body h data e s =
    (Ok tt, set_files (<[path := default "" (files s !! path) +:+ data]> (files s)) s).
Proof. intros path Hw. unfold write_body, write_to_file. fold path. rewrite Hw. by destruct e. Qed.

(** The chunks are appended to the file, in order. *)
Lemma write_some_all h chunks s : write_some h chunks s = write_all h chunks s.
Proof.
  revert s. induction chunks as [|c [|c' rest] IH]; intros s; [done| |].
  - simpl. unfold mbind, M_bind, write_body. by destruct (write_to_file _ _ _).
  - rewrite write_all_cons. cbn [write_some]. unfold mbind, M_bind.
    destruct (write_body h c false s) as [[[]|e|] s']; [|done..]. apply IH.
Qed.

Lemma interrupted_eq key meta chunks s : interrupted_response key meta chunks s = cache_response key meta chunks s.
Proof.
  unfold interrupted_response, cache_response, mbind, M_bind, lift, mret, M_ret.
  destruct (get_miss_handler key meta s) as [[h|e|] s']; [|done..]. rewrite write_some_all.
  by destruct (write_all h chunks s') as [[[]|e|] s''].
Qed.

Lemma write_all_appends h chunks s :
  let path := path_join (miss_main_path h) (primary (miss_key h) +:+ ".cache") in
  can_write path = true →
  ∃ s', write_all h chunks s = (Ok tt, s') ∧ memory s' = memory s ∧ disk_routing s' = disk_routing s ∧
    (∀ p, p ≠ path → files s' !! p = files s !! p) ∧
    (chunks ≠ [] → files s' !! path = Some (default "" (files s !! path) +:+ concat_str chunks)).
Proof.
  intros path Hw. revert s. induction chunks as [|c [|c' rest] IH]; intros s.
  - exists s. by split_and!.
  - eexists. cbn [write_all]. rewrite write_body_ok by done. split; [reflexivity|]. simpl. fold path. split_and!; [done|done| |].
    + intros p Hp. by apply lookup_insert_ne.
    + intros _. rewrite lookup_insert_eq. by rewrite app_nil_r_str.
  - rewrite write_all_cons. unfold mbind, M_bind. rewrite write_body_ok by done. fold path.
    destruct (IH (set_files (<[path := default "" (files s !! path) +:+ c]> (files s)) s))
      as (s' & Hr & Hm & Hd & Hf & Hc).
    exists s'. split; [exact Hr|]. split_and!; [done|done| |].
    + intros p Hp. rewrite Hf by done. simpl. by apply lookup_insert_ne.
    + intros _. rewrite Hc by done. simpl. rewrite lookup_insert_eq. simpl. by rewrite !app_assoc_str.
Qed.

(** Admitting a body, when the file operations succeed: the metadata are those
    of the response, the body is what the file held before, then the chunks. *)
Lemma cache_response_spec key meta chunks s item json :
  can_create_dir (get_directory_for (key_namespace key) (disk_routing s)) = true →
  can_write (metadata_path key s) = true → can_write (cache_path key s) = true →
  DiskCacheItemMetadata_from meta = Ok item → meta_to_json item = Some json → chunks ≠ [] →
  ∃ s', cache_response key meta chunks s = (Ok tt, s') ∧ memory s' = memory s ∧
    disk_routing s' = disk_routing s ∧
    files s' !! metadata_path key s = Some json ∧
    files s' !! cache_path key s = Some (default "" (files s !! cache_path key s) +:+ concat_str chunks).
Proof.
  intros Hd Hm Hc Hi Hj Hne. unfold cache_response, get_miss_handler, mbind, M_bind, gets, lift, modify.
  rewrite Hd. simpl. rewrite Hi, Hj. fold (metadata_path key s). unfold write_file. rewrite Hm.
  unfold DiskCacheMissHandler_new. set (h := mkMiss _ key item). set (s1 := set_files _ s).
  destruct (write_all_appends h chunks s1) as (s' & Hw & Hmem & Hr & Hf & Hfc); [exact Hc|].
  change (path_join (miss_main_path h) (primary (miss_key h) +:+ ".cache")) with (cache_path key s) in *.
  unfold mret, M_ret. rewrite Hw. exists s'. split; [done|].
  assert (Hneq : metadata_path key s ≠ cache_path key s) by (by apply metadata_not_cache).
  split_and!; [done|done| |].
  - rewrite Hf by done. unfold s1, set_files. apply lookup_insert_eq.
  - rewrite Hfc by done. unfold s1, set_files. simpl. by rewrite lookup_insert_ne.
Qed.

(** What a lookup finds then, if nothing is in memory. *)
Lemma lookup_admitted `{!MetaJsonLaws} key s item json body :
  memory s !! get_memory_key key = None →
  can_read (metadata_path key s) = true → can_read (cache_path key s) = true →
  meta_to_json item = Some json →
  files s !! metadata_path key s = Some json → files s !! cache_path key s = Some body →
  lookup_cache key s =
    (Ok (Some (rebuild_meta item, FromDisk (mkHit (cache_path key s) 0 item ""))), s).
Proof.
  intros Hmem Hrm Hrc Hj Hfm Hfc. unfold lookup_cache, get_state, mbind, M_bind.
  rewrite Hmem. unfold read_file at 1. rewrite Hrc, Hfc.
  unfold get_cached_metadata, read_file. rewrite Hrm, Hfm. simpl. by rewrite (meta_json _ _ Hj).
Qed.

Lemma lookup_memory key s meta body :
  memory s !! get_memory_key key = Some (meta, body) →
  lookup_cache key s = (Ok (Some (rebuild_meta meta, FromMemory (mkMemHit body))), s).
Proof. intros Hm. unfold lookup_cache, get_state, mbind, M_bind. by rewrite Hm. Qed.

(** No operation but the end of a hit writes the in-memory copy. *)
Lemma write_all_memory h chunks s : memory (snd (write_all h chunks s)) = memory s.
Proof.
  assert (Hb : ∀ data e s, memory (snd (write_body h data e s)) = memory s).
  { intros data e s0. unfold write_body, write_to_file. by destruct (can_write _), e. }
  revert s. induction chunks as [|c [|c' rest] IH]; intros s; [done|apply Hb|].
  rewrite write_all_cons. unfold mbind, M_bind. specialize (Hb c false s).
  destruct (write_body h c false s) as [[[]|e|] s1]; cbn [snd] in *; [|done..].
  by rewrite <- Hb, IH.
Qed.

Lemma get_miss_handler_memory key meta s : memory (snd (get_miss_handler key meta s)) = memory s.
Proof.
  unfold get_miss_handler, mbind, M_bind, gets, lift, modify, throw, mret, M_ret, write_file.
  destruct (can_create_dir _); simpl; [|done].
  destruct (DiskCacheItemMetadata_from meta) as [item|e|]; simpl; [|done..].
  destruct (meta_to_json item); simpl; [|done]. by destruct (can_write _).
Qed.

Lemma update_meta_memory key meta s : memory (snd (update_meta key meta s)) = memory s.
Proof.
  unfold update_meta, mbind, M_bind, gets, lift, modify, throw, mret, M_ret, write_file.
  destruct (DiskCacheItemMetadata_from meta) as [item|e|]; simpl; [|done..].
  destruct (meta_to_json item); simpl; [|done]. by destruct (can_write _).
Qed.

Lemma cache_response_memory key meta chunks s : memory (snd (cache_response key meta chunks s)) = memory s.
Proof.
  unfold cache_response, mbind at 1, M_bind at 1. pose proof (get_miss_handler_memory key meta s) as Hg.
  destruct (get_miss_handler key meta s) as [[h|e|] s1]; simpl in *; [|done..].
  unfold mbind at 1, M_bind at 1. pose proof (write_all_memory h chunks s1) as Hw.
  destruct (write_all h chunks s1) as [[[]|e|] s2]; simpl in *; congruence.
Qed.
End admission.

(** ** Properties *)

Section properties.
Context `{HttpApi} `{!CacheMetaApi} `{MetaJson, CacheHash, Disk}.
Implicit Types s : DiskState.

(** The file operations of the entry of [key] succeed. *)
Definition disk_ready (key : CacheKey) (s : DiskState) : Prop :=
  can_create_dir (get_directory_for (key_namespace key) (disk_routing s)) = true ∧
  can_write (metadata_path key s) = true ∧ can_write (cache_path key s) = true ∧
  can_read (metadata_path key s) = true ∧ can_read (cache_path key s) = true.

(** Admission, lookup and reading to the end. *)
Lemma admitted_read_back `{!MetaJsonLaws} key meta chunks s item json given
    (Hready : disk_ready key s) (Hitem : DiskCacheItemMetadata_from meta = Ok item)
    (Hjson : meta_to_json item = Some json) (Hchunks : chunks ≠ [])
    (Hmem : memory s !! get_memory_key key = None)
    (Hgiven : Forall is_Some given)
    (Hlong : (String.length (default "" (files s !! cache_path key s) +:+ concat_str chunks)
              < length given)%nat) :
  ∃ s' h, cache_response key meta chunks s = (Ok tt, s') ∧
    lookup_cache key s' = (Ok (Some (rebuild_meta item, FromDisk h)), s') ∧
    let '(slices, h') := read_all given h s' in
    concat_str slices = default "" (files s !! cache_path key s) +:+ concat_str chunks ∧
    finished_buffer h' = concat_str slices ∧ hit_meta h' = item ∧
    Forall (λ t, t ≠ "" ∧ (String.length t ≤ N.to_nat 32000)%nat) slices.
Proof.
  destruct Hready as (Hd & Hwm & Hwc & Hrm & Hrc).
  destruct (cache_response_spec key meta chunks s item json Hd Hwm Hwc Hitem Hjson Hchunks)
    as (s' & Ha & Hm & Hr & Hfm & Hfc).
  assert (metadata_path key s = metadata_path key s') as Em by (unfold metadata_path; by rewrite Hr).
  assert (cache_path key s = cache_path key s') as Ec by (unfold cache_path; by rewrite Hr).
  exists s', (mkHit (cache_path key s') 0 item ""). split; [done|]. split.
  - eapply lookup_admitted; rewrite <- ?Em, <- ?Ec; [by rewrite Hm|done..].
  - pose proof (read_all_spec given (mkHit (cache_path key s') 0 item "") s' Hgiven) as Hspec.
    cbn [hit_offset hit_path finished_buffer hit_meta] in Hspec. rewrite <- Ec, Hfc in Hspec.
    rewrite <- Ec. simpl default in Hspec.
    assert (Hz : ∀ t, str_drop 0 t = t) by (by intros []). rewrite Hz in Hspec.
    by apply Hspec.
Qed.

(** The entry of a response on disk, with or without its copy in memory. *)
Record entry_kept (key : CacheKey) (item : DiskCacheItemMetadata) (json body : string) s : Prop := {
  ek_meta_read : can_read (metadata_path key s) = true;
  ek_body_read : can_read (cache_path key s) = true;
  ek_meta : files s !! metadata_path key s = Some json;
  ek_body : files s !! cache_path key s = Some body;
  ek_copy : memory s !! get_memory_key key = None ∨ memory s !! get_memory_key key = Some (item, body) }.

(** Reading a hit to its end, and what that leaves. *)
Definition read_slices (given : list (option nat)) (key : CacheKey) (h : HitHandler) s : list string * DiskState :=
  match h with
  | FromDisk h => let '(slices, h') := read_all given h s in (slices, finish_hit h' key s)
  | FromMemory h => (read_all_in_memory (length given) h, s)
  end.

Lemma admission_kept key meta chunks s item json :
  disk_ready key s → DiskCacheItemMetadata_from meta = Ok item → meta_to_json item = Some json → chunks ≠ [] →
  memory s !! get_memory_key key = None → files s !! cache_path key s = None →
  ∃ s', cache_response key meta chunks s = (Ok tt, s') ∧ disk_routing s' = disk_routing s ∧
    entry_kept key item json (concat_str chunks) s'.
Proof.
  intros (Hd & Hwm & Hwc & Hrm & Hrc) Hitem Hjson Hchunks Hmem Hnew.
  destruct (cache_response_spec key meta chunks s item json Hd Hwm Hwc Hitem Hjson Hchunks)
    as (s' & Ha & Hm & Hr & Hfm & Hfc).
  assert (metadata_path key s = metadata_path key s') as Em by (unfold metadata_path; by rewrite Hr).
  assert (cache_path key s = cache_path key s') as Ec by (unfold cache_path; by rewrite Hr).
  rewrite Hnew in Hfc. exists s'. split_and!; [done|done|]. split; rewrite <- ?Em, <- ?Ec; try done.
  left. by rewrite Hm.
Qed.

(** It is found, read whole, and stays. *)
Lemma kept_found `{!MetaJsonLaws} key item json body s :
  entry_kept key item json body s → meta_to_json item = Some json →
  ∃ h, lookup_cache key s = (Ok (Some (rebuild_meta item, h)), s) ∧
    ∀ given, Forall is_Some given → (String.length body < length given)%nat →
      let '(slices, s') := read_slices given key h s in
      concat_str slices = body ∧ disk_routing s' = disk_routing s ∧ entry_kept key item json body s'.
Proof.
  intros Hk Hj. pose proof Hk as [Hrm Hrc Hfm Hfc Hcopy]. destruct Hcopy as [Hnone|Hsome].
  - exists (FromDisk (mkHit (cache_path key s) 0 item "")). split; [by eapply lookup_admitted|].
    intros given Hg Hlen. unfold read_slices.
    pose proof (read_all_spec given (mkHit (cache_path key s) 0 item "") s Hg) as Hspec.
    cbn [hit_offset hit_path finished_buffer hit_meta] in Hspec. rewrite Hfc in Hspec. simpl default in Hspec.
    assert (Hz : ∀ t, str_drop 0 t = t) by (by intros []). rewrite Hz in Hspec. specialize (Hspec Hlen).
    destruct (read_all given _ s) as [slices h']. destruct Hspec as (Hc & Hf & Hm & _). split; [done|].
    unfold finish_hit. unfold get_memory_key in Hnone. rewrite Hnone. split; [done|]. split; try done.
    right. simpl in Hf. rewrite Hm, Hf, Hc. apply lookup_insert_eq.
  - exists (FromMemory (mkMemHit body)). split; [by apply lookup_memory|].
    intros given _ Hlen. simpl. by rewrite read_all_in_memory_spec.
Qed.

(** Admission, then lookup, then reading to the end: for any sequence of
    chunks and any sizes in which the system returns the file, the reading
    terminates, in pieces of at most 32000 bytes, and gives the body that was
    admitted, with the metadata of its response, when the file did not exist.
    When it did, the old content comes first. *)
Theorem admitted_body_read_back (Hj : MetaJsonLaws) key meta chunks s item json given
    (Hready : disk_ready key s) (Hitem : DiskCacheItemMetadata_from meta = Ok item)
    (Hjson : meta_to_json item = Some json) (Hchunks : chunks ≠ [])
    (Hmem : memory s !! get_memory_key key = None)
    (Hgiven : Forall is_Some given)
    (Hlong : (String.length (default "" (files s !! cache_path key s) +:+ concat_str chunks)
              < length given)%nat) :
  ∃ s' h, cache_response key meta chunks s = (Ok tt, s') ∧
    lookup_cache key s' = (Ok (Some (rebuild_meta item, FromDisk h)), s') ∧
    let '(slices, h') := read_all given h s' in
    concat_str slices = default "" (files s !! cache_path key s) +:+ concat_str chunks ∧
    finished_buffer h' = concat_str slices ∧ hit_meta h' = item ∧
    Forall (λ t, t ≠ "" ∧ (String.length t ≤ N.to_nat 32000)%nat) slices.
Proof. by apply (admitted_read_back key meta chunks s item json). Qed.

(** C39. A response that breaks off is served as if it were whole: after an
    admission that ended early, with some of the chunks of the body, lookups
    find the entry, with the metadata of the response, and reading it to the end
    gives the part that had arrived. *)
Theorem interrupted_response_served (Hj : MetaJsonLaws) key meta arrived lost s item json given
    (Hready : disk_ready key s) (Hitem : DiskCacheItemMetadata_from meta = Ok item)
    (Hjson : meta_to_json item = Some json) (Harrived : arrived ≠ []) (Hlost : concat_str lost ≠ "")
    (Hmem : memory s !! get_memory_key key = None) (Hnew : files s !! cache_path key s = None)
    (Hgiven : Forall is_Some given) (Hlong : (String.length (concat_str arrived) < length given)%nat) :
  ∃ s' h, interrupted_response key meta arrived s = (Ok tt, s') ∧
    lookup_cache key s' = (Ok (Some (rebuild_meta item, FromDisk h)), s') ∧
    concat_str (fst (read_all given h s')) = concat_str arrived ∧
    concat_str (fst (read_all given h s')) ≠ concat_str (arrived ++ lost).
Proof.
  destruct (admitted_read_back key meta arrived s item json given) as (s' & h & Ha & Hlook & Hread);
    [done..|by rewrite Hnew|].
  exists s', h. rewrite interrupted_eq. split; [done|]. split; [done|].
  destruct (read_all given h s') as [slices h']. destruct Hread as [Hbody _]. rewrite Hnew in Hbody.
  simpl in *. split; [done|]. rewrite Hbody, concat_str_app. intros E. apply Hlost.
  apply (f_equal String.length) in E. rewrite length_app_str in E. apply length_nil_str. simpl in E. rewrite length_app_str in E. lia.
Qed.

(** Once a hit has been copied to memory, the copy is what every later
    lookup returns: neither admitting a new response, nor updating the
    metadata, nor purging the entry changes it. *)
Theorem memory_copy_outlives_updates key s meta body meta' chunks
    (Hmem : memory s !! get_memory_key key = Some (meta, body)) :
  ∀ s', s' = snd (cache_response key meta' chunks s) ∨ s' = snd (update_meta key meta' s) ∨
        s' = snd (purge key s) →
  lookup_cache key s' = (Ok (Some (rebuild_meta meta, FromMemory (mkMemHit body))), s').
Proof.
  intros s' Hs'. apply lookup_memory.
  assert (memory s' = memory s) as ->; [|done].
  destruct Hs' as [-> | [-> | ->]]; [apply cache_response_memory|apply update_meta_memory|done].
Qed.

(** The end of a hit copies to memory what was read of the body, no more:
    a hit that is finished before its body was read in full makes the later
    lookups return the truncated body. *)
Theorem finished_hit_served_from_memory key s h
    (Hmem : memory s !! get_memory_key key = None) :
  lookup_cache key (finish_hit h key s) =
    (Ok (Some (rebuild_meta (hit_meta h), FromMemory (mkMemHit (finished_buffer h)))),
     finish_hit h key s).
Proof.
  apply lookup_memory. unfold finish_hit, get_memory_key in *. rewrite Hmem. apply lookup_insert_eq.
Qed.

(** The header codec: the response rebuilt from the stored metadata has,
    under each name, the last value of the original response, alone; so the
    headers that had one value are those of the original, and of repeated ones
    (Set-Cookie) all but the last are lost. *)
Theorem stored_headers_spec (Hl : HeaderLaws) meta item n
    (Hitem : DiskCacheItemMetadata_from meta = Ok item)
    (Hins : ∀ k v h, header_to_str v = Some v → is_Some (hm_insert k v h)) :
  hm_get_all (resp_headers (convert_headers item)) n =
    option_list (last (hm_get_all (resp_headers (response_header meta)) n)).
Proof.
  unfold DiskCacheItemMetadata_from, mbind, res_bind in Hitem.
  destruct (collect_headers _ ∅) as [hs|e|] eqn:Ec; [|done..]. injection Hitem as <-.
  assert (Hvis : ∀ k v, hs !! k = Some v → header_to_str v = Some v).
  { intros k v Hv. rewrite (collect_headers_lookup _ _ _ k Ec) in Hv.
    destruct (last _) as [w|]; [|done]. by rewrite <- (header_to_str_text _ _ Hv) in Hv. }
  change (convert_headers _) with
    (fold_left insert_or_keep (map_to_list hs) (build_no_case (status_or_ok (resp_status (response_header meta))))).
  rewrite insert_all_get.
  - rewrite list_to_map_to_list. rewrite (collect_headers_lookup _ _ _ _ Ec).
    rewrite (hm_iter_get_all (resp_headers (response_header meta))).
    destruct (last _) as [v|] eqn:Ev; [|rewrite lookup_empty; apply hm_get_all_new].
    destruct (header_to_str v) as [t|] eqn:Et; [by rewrite (header_to_str_text _ _ Et)|].
    exfalso. pose proof (collect_headers_no_panic _ _ _ Ec) as Hall.
    assert (Hin : v ∈ (hm_iter (resp_headers (response_header meta))).*2).
    { apply last_Some_elem_of in Ev. apply list_elem_of_fmap in Ev as (kv & -> & Hkv).
      apply list_elem_of_filter in Hkv as [_ Hkv]. by apply list_elem_of_fmap_2. }
    rewrite Forall_forall in Hall. destruct (Hall v Hin). congruence.
  - apply NoDup_fst_map_to_list.
  - intros k v Hin%elem_of_map_to_list. eapply (collect_headers_lower _ _ _ Ec); [|done|done].
    intros k' v'. apply hm_iter_lower.
  - intros k v g Hin%elem_of_map_to_list. by apply Hins, (Hvis k).
Qed.
End properties.

(** ** Witnesses *)

Definition toy_meta_json : MetaJson := {|
  meta_to_json := λ m, Some (to_text (im_status m, im_created_at m, im_fresh_until m,
    im_stale_while_revalidate_sec m, im_stale_if_error_sec m, im_headers m));
  meta_from_json := λ t, '(st, at_, fresh, swr, sie, hs) ← of_text t;
    Some (mkItemMeta st at_ fresh swr sie hs) |}.
Lemma toy_meta_json_laws : @MetaJsonLaws toy_meta_json.
Proof. split. intros [] t [= <-]. simpl. by rewrite of_to_text. Qed.

Definition toy_hash : CacheHash := {| hash_hex := λ t, t |}.
Definition toy_disk : Disk := {|
  can_create_dir := λ _, true; can_write := λ _, true; can_read := λ _, true |}.

#[local] Existing Instances toy_http toy_meta toy_meta_json toy_hash toy_disk.

Definition toy_key : CacheKey := mkCacheKey "a.test" "cGF0aA==" "".
Definition toy_response : CacheMeta :=
  CacheMeta_new 100 10 5 6 (mkResponseHeader toy_http 200
    ([("set-cookie", "a"); ("server", "x"); ("set-cookie", "b")] : list (string * string))).
Definition toy_item : DiskCacheItemMetadata :=
  mkItemMeta 200 10 100 5 6 (<["set-cookie" := "b"]> (<["server" := "x"]> ∅)).
Definition empty_disk : DiskState := mkDiskState ∅ ∅ ∅.
Definition old_disk : DiskState :=
  mkDiskState {[cache_path toy_key empty_disk := "old"]} ∅ ∅.

Lemma admitted_body_read_back_witness :
  (∃ s' h, cache_response toy_key toy_response ["new"; "!"] empty_disk = (Ok tt, s') ∧
     concat_str (fst (read_all (repeat (Some 2) 8) h s')) = "new!") ∧
  (∃ s' h, cache_response toy_key toy_response ["new"; "!"] old_disk = (Ok tt, s') ∧
     concat_str (fst (read_all (repeat (Some 2) 8) h s')) = "oldnew!").
Proof.
  split.
  - destruct (admitted_body_read_back toy_meta_json_laws toy_key toy_response ["new"; "!"] empty_disk
      toy_item (default "" (meta_to_json toy_item)) (repeat (Some 2) 8)) as (s' & h & Ha & _ & Hb);
      [by repeat split|reflexivity|reflexivity|discriminate|reflexivity|by repeat (constructor; [by eexists|])
      |vm_compute; lia|].
    exists s', h. split; [exact Ha|]. destruct (read_all _ h s') as [slices h']. exact (proj1 Hb).
  - destruct (admitted_body_read_back toy_meta_json_laws toy_key toy_response ["new"; "!"] old_disk
      toy_item (default "" (meta_to_json toy_item)) (repeat (Some 2) 8)) as (s' & h & Ha & _ & Hb);
      [by repeat split|reflexivity|reflexivity|discriminate|reflexivity|by repeat (constructor; [by eexists|])
      |vm_compute; lia|].
    exists s', h. split; [exact Ha|]. destruct (read_all _ h s') as [slices h'].
    refine (eq_trans (proj1 Hb) _). reflexivity.
Defined.

Lemma interrupted_response_served_witness :
  ∃ s' h, interrupted_response toy_key toy_response ["hal"; "f"] empty_disk = (Ok tt, s') ∧
    lookup_cache toy_key s' = (Ok (Some (rebuild_meta toy_item, FromDisk h)), s') ∧
    concat_str (fst (read_all (repeat (Some 2) 8) h s')) = "half".
Proof.
  destruct (interrupted_response_served toy_meta_json_laws toy_key toy_response ["hal"; "f"] [" of it"] empty_disk
    toy_item (default "" (meta_to_json toy_item)) (repeat (Some 2) 8)) as (s' & h & Ha & Hl & Hb & _);
    [by repeat split|reflexivity|reflexivity|discriminate|discriminate|reflexivity|reflexivity
    |by repeat (constructor; [by eexists|])|vm_compute; lia|].
  exists s', h. exact (conj Ha (conj Hl Hb)).
Defined.

Definition copied : DiskState := mkDiskState ∅ {["a.testcGF0aA==" := (toy_item, "stale")]} ∅.

Lemma memory_copy_outlives_updates_witness :
  lookup_cache toy_key (snd (cache_response toy_key toy_response ["fresh"] copied)) =
  (Ok (Some (rebuild_meta toy_item, FromMemory (mkMemHit "stale"))),
   snd (cache_response toy_key toy_response ["fresh"] copied)).
Proof.
  apply (memory_copy_outlives_updates toy_key copied toy_item "stale" toy_response ["fresh"]);
    [reflexivity|by left].
Defined.

Lemma finished_hit_served_from_memory_witness :
  fst (lookup_cache toy_key (finish_hit (mkHit "/tmp/a.test/x" 3 toy_item "hea") toy_key empty_disk)) =
  Ok (Some (rebuild_meta toy_item, FromMemory (mkMemHit "hea"))).
Proof.
  rewrite (finished_hit_served_from_memory toy_key empty_disk (mkHit "/tmp/a.test/x" 3 toy_item "hea"));
    reflexivity.
Defined.

Lemma stored_headers_spec_witness :
  hm_get_all (resp_headers (convert_headers toy_item)) "Set-Cookie" = ["b"].
Proof.
  refine (stored_headers_spec toy_http_laws toy_response toy_item "Set-Cookie" _ _); [reflexivity|].
  intros k v h. simpl. destruct (visible v); [by eexists|discriminate].
Defined.
