(* ===== verification/Caching.v ===== *)
(** Caching across the components that take part: the [Router] decides what is
    cached and under which key, the disk cache keeps it, Pingora drives both.
    A response is served again to the requests of its host and path, until it
    expires, and to no others, unless one of two hosts begins with the other. *)
From S2P Require Import Prelude Strs Config Stores Http Routes Plugins Router DiskCache.
#[local] Open Scope string_scope.
#[local] Open Scope list_scope.

(** The hash is hexadecimal, and is assumed not to collide on the texts that are
    hashed. *)
Class CacheHashLaws `{CacheHash} : Prop := {
  hash_inj t t' : hash_hex t = hash_hex t' → t = t';
  hash_no_slash t : has_char "/" (hash_hex t) = false }.

Section caching.
Context `{HttpApi, LbApi, PathTreeApi, Base64} `{!CacheMetaApi} `{MetaJson, CacheHash, Disk}.
Implicit Types x y : Exchange.
Implicit Types s : DiskState.

(** What a request is cached by. *)
Definition cached_path (x : Exchange) : string := default "/" (uri_path_and_query (req_uri (session x))).

(** ** Lemmas: keys *)

Lemma key_eq `{!Base64Laws} x y :
  cache_key_callback x = cache_key_callback y ↔
  ctx_host (ctx x) = ctx_host (ctx y) ∧ cached_path x = cached_path y.
Proof.
  unfold cache_key_callback, cached_path. split; [|by intros [-> ->]].
  intros [= Hh Hp]. split; [done|]. apply (f_equal decode_block) in Hp. rewrite !block_roundtrip in Hp.
  by injection Hp.
Qed.

(** What is hashed of two requests differs if the host is the same and the path
    is not, and if neither host begins with the other. *)
Definition apart (x y : Exchange) : Prop :=
  (ctx_host (ctx x) = ctx_host (ctx y) ∧ cached_path x ≠ cached_path y) ∨
  (starts_with (ctx_host (ctx x)) (ctx_host (ctx y)) = false ∧
   starts_with (ctx_host (ctx y)) (ctx_host (ctx x)) = false).

Lemma apart_hashed `{!Base64Laws} x y :
  apart x y → hashed_text (cache_key_callback x) ≠ hashed_text (cache_key_callback y).
Proof.
  intros [[Hh Hp]|[Hxy Hyx]] E; unfold hashed_text, cache_key_callback in E; simpl in E.
  - rewrite Hh in E. apply app_inj_prefix, (f_equal decode_block) in E. rewrite !block_roundtrip in E.
    apply Hp. by injection E.
  - apply app_eq_prefix in E as []; congruence.
Qed.

(** ** Lemmas: files *)

Section files.
Context `{!CacheHashLaws}.

(** The file name that an entry's path ends in says which entry it is of. *)
Lemma entry_names k k' d d' ext ext' :
  has_char "/" ext = false → has_char "/" ext' = false →
  path_join d (primary k +:+ ext) = path_join d' (primary k' +:+ ext') →
  primary k +:+ ext = primary k' +:+ ext'.
Proof.
  intros He He' E. apply (f_equal (last_segment "/")) in E.
  by rewrite !last_segment_join in E by (rewrite has_char_app; unfold primary; rewrite hash_no_slash; done).
Qed.

Lemma same_entry k k' d d' ext :
  has_char "/" ext = false →
  path_join d (primary k +:+ ext) = path_join d' (primary k' +:+ ext) → primary k = primary k'.
Proof. intros He E. by apply (app_inj_suffix _ _ ext), (entry_names _ _ d d'). Qed.

Lemma cache_not_metadata k k' d d' :
  path_join d (primary k +:+ ".cache") ≠ path_join d' (primary k' +:+ ".metadata").
Proof.
  intros E%entry_names; [|done..]. apply (f_equal (last_segment ".")) in E.
  by rewrite !last_segment_app in E.
Qed.
End files.

(** A path that is not of the entry. *)
Definition elsewhere (key : CacheKey) s (p : string) : Prop :=
  p ≠ metadata_path key s ∧ p ≠ cache_path key s.

Lemma write_all_elsewhere h chunks s p :
  p ≠ path_join (miss_main_path h) (primary (miss_key h) +:+ ".cache") →
  files (snd (write_all h chunks s)) !! p = files s !! p ∧
  disk_routing (snd (write_all h chunks s)) = disk_routing s.
Proof.
  intros Hp.
  assert (Hb : ∀ data e s, files (snd (write_body h data e s)) !! p = files s !! p ∧
    disk_routing (snd (write_body h data e s)) = disk_routing s).
  { intros data e s0. unfold write_body, write_to_file. destruct (can_write _); [|done].
    destruct e; simpl; by rewrite lookup_insert_ne. }
  revert s. induction chunks as [|c [|c' rest] IH]; intros s; [done|apply Hb|].
  rewrite write_all_cons. unfold mbind, M_bind. specialize (Hb c false s).
  destruct (write_body h c false s) as [[[]|e|] s1]; cbn [snd] in *; [|done..].
  destruct Hb as [<- <-]. apply IH.
Qed.

(** However it ends, an admission touches its entry only. *)
Lemma cache_response_elsewhere key meta chunks s p :
  elsewhere key s p →
  files (snd (cache_response key meta chunks s)) !! p = files s !! p ∧
  disk_routing (snd (cache_response key meta chunks s)) = disk_routing s.
Proof.
  intros [Hm Hc]. unfold cache_response, mbind, M_bind.
  assert (Hg : ∀ r s1, get_miss_handler key meta s = (r, s1) →
    files s1 !! p = files s !! p ∧ disk_routing s1 = disk_routing s ∧
    ∀ h, r = Ok h → path_join (miss_main_path h) (primary (miss_key h) +:+ ".cache") = cache_path key s).
  { intros r s1. unfold get_miss_handler, mbind, M_bind, gets, lift, modify, throw, mret, M_ret, write_file.
    destruct (can_create_dir _); simpl; [|by intros [= <- <-]].
    destruct (DiskCacheItemMetadata_from meta) as [item|e|]; simpl; [|by intros [= <- <-]..].
    destruct (meta_to_json item); simpl; [|by intros [= <- <-]].
    intros [= <- <-]. destruct (can_write _); simpl; (split_and!; [|done|by intros ? [= <-]]); [|done].
    by apply lookup_insert_ne. }
  destruct (get_miss_handler key meta s) as [[h|e|] s1] eqn:E;
    destruct (Hg _ _ eq_refl) as (Hf & Hr & Hh); [|by split..].
  destruct (write_all_elsewhere h chunks s1 p) as [Hf2 Hr2]; [by rewrite (Hh h eq_refl)|].
  destruct (write_all h chunks s1) as [[[]|e|] s2]; simpl in *; rewrite Hf2, Hr2; by rewrite Hf.
Qed.

(** A lookup depends on the entry's files, its copy in memory, the routing. *)
Lemma lookup_depends key s s' :
  memory s' !! get_memory_key key = memory s !! get_memory_key key → disk_routing s' = disk_routing s →
  files s' !! metadata_path key s = files s !! metadata_path key s →
  files s' !! cache_path key s = files s !! cache_path key s →
  fst (lookup_cache key s') = fst (lookup_cache key s).
Proof.
  intros Hm Hr Hf Hc. unfold lookup_cache, get_cached_metadata, read_file, get_state, mbind, M_bind.
  assert (metadata_path key s' = metadata_path key s) as -> by (unfold metadata_path; by rewrite Hr).
  assert (cache_path key s' = cache_path key s) as -> by (unfold cache_path; by rewrite Hr).
  rewrite Hm, Hf, Hc. destruct (memory s !! get_memory_key key) as [[? ?]|]; [done|].
  destruct (if can_read (cache_path key s) then _ else _); [|done].
  destruct (if can_read (metadata_path key s) then _ else _) as [body|]; [|done].
  simpl. by destruct (meta_from_json body).
Qed.

(** ** Lemmas: what is admitted *)

Lemma response_cache_filter_Cacheable env resp x meta x' :
  response_cache_filter env resp x = (Ok (Cacheable meta), x') →
  ∃ cache, rsc_cache (route_container (ctx x)) = Some cache ∧ req_method (session x) ∈ CACHEABLE_METHODS ∧
    meta = CacheMeta_new (env_now env + rc_expires_in_secs cache) (env_now env)
      (rc_stale_while_revalidate_secs cache) (rc_stale_if_error_secs cache) resp.
Proof.
  unfold response_cache_filter, gets, lift, unwrap, checked_add_secs, mbind, M_bind, mret, M_ret.
  destruct (rsc_cache _) as [cache|]; [|done]. case_bool_decide as Hm; [|done]. simpl.
  destruct (_ <=? _)%N; [|done]. intros [= <- <-]. by exists cache.
Qed.

Lemma item_fields meta item :
  DiskCacheItemMetadata_from meta = Ok item →
  im_status item = resp_status (response_header meta) ∧ im_created_at item = created meta ∧
  im_fresh_until item = fresh_until meta ∧
  im_stale_while_revalidate_sec item = stale_while_revalidate_sec meta ∧
  im_stale_if_error_sec item = stale_if_error_sec meta.
Proof.
  unfold DiskCacheItemMetadata_from, mbind, res_bind. destruct (collect_headers _ _); [|done..].
  by intros [= <-].
Qed.

Lemma insert_all_status l h : resp_status (fold_left insert_or_keep l h) = resp_status h.
Proof.
  revert h. induction l as [|kv l IH]; intros h; [done|]. simpl. rewrite IH.
  unfold insert_or_keep, insert_header. by destruct (hm_insert _ _ _).
Qed.

Lemma convert_status meta :
  (100 ≤ im_status meta ≤ 999)%N → resp_status (convert_headers meta) = im_status meta.
Proof.
  intros [Hl Hu]. change (convert_headers meta) with
    (fold_left insert_or_keep (map_to_list (im_headers meta)) (build_no_case (status_or_ok (im_status meta)))).
  rewrite insert_all_status. unfold status_or_ok. simpl.
  by rewrite (proj2 (N.leb_le _ _) Hl), (proj2 (N.leb_le _ _) Hu).
Qed.
End caching.

(** ** Properties *)

(** A cached response is served again: when the response to a request is
    cacheable and its entry is new, then after its admission every request of
    the same host, path and query, whoever sends it, finds it on disk, with
    its status and, per header, its last value; reading it gives the body of
    the response; and the hit counts as fresh for the seconds the route says,
    as expired afterwards. *)
Theorem cached_response_served `{HttpApi, LbApi, PathTreeApi, Base64} `{!CacheMetaApi} `{MetaJson, CacheHash, Disk}
    (Hl : HeaderLaws) (Hm : CacheMetaLaws) (Hj : MetaJsonLaws)
    env resp x meta x' chunks (s : DiskState) item json given
    (Hcacheable : response_cache_filter env resp x = (Ok (Cacheable meta), x'))
    (Hready : disk_ready (cache_key_callback x) s)
    (Hitem : DiskCacheItemMetadata_from meta = Ok item) (Hjson : meta_to_json item = Some json)
    (Hchunks : chunks ≠ []) (Hmem : memory s !! get_memory_key (cache_key_callback x) = None)
    (Hnew : files s !! cache_path (cache_key_callback x) s = None)
    (Hstatus : (100 ≤ resp_status resp ≤ 999)%N)
    (Hins : ∀ k v h, header_to_str v = Some v → is_Some (hm_insert k v h))
    (Hgiven : Forall is_Some given) (Hlong : (String.length (concat_str chunks) < length given)%nat) :
  ∃ s' h found cache, cache_response (cache_key_callback x) meta chunks s = (Ok tt, s') ∧
    rsc_cache (route_container (ctx x)) = Some cache ∧
    resp_status (response_header found) = resp_status resp ∧
    (∀ n, hm_get_all (resp_headers (response_header found)) n =
            option_list (last (hm_get_all (resp_headers resp) n))) ∧
    concat_str (fst (read_all given h s')) = concat_str chunks ∧
    ∀ y later, ctx_host (ctx y) = ctx_host (ctx x) → cached_path y = cached_path x →
      lookup_cache (cache_key_callback y) s' = (Ok (Some (found, FromDisk h)), s') ∧
      ((env_now later < env_now env + rc_expires_in_secs cache)%N →
         fst (cache_hit_filter later found y) = Ok false) ∧
      ((env_now env + rc_expires_in_secs cache < env_now later)%N →
         fst (cache_hit_filter later found y) = Ok true).
Proof.
  destruct (response_cache_filter_Cacheable _ _ _ _ _ Hcacheable) as (cache & Hcache & _ & Hmeta).
  destruct (item_fields _ _ Hitem) as (Hst & _ & Hfr & _).
  pose proof (CacheMeta_fields (env_now env + rc_expires_in_secs cache) (env_now env)
    (rc_stale_while_revalidate_secs cache) (rc_stale_if_error_secs cache) resp) as (Hf & _ & _ & _ & Hr).
  rewrite <- Hmeta in Hf, Hr. rewrite Hr in Hst. rewrite Hf in Hfr.
  destruct (admitted_read_back (cache_key_callback x) meta chunks s item json given)
    as (s' & h & Ha & Hlook & Hread); [done..|by rewrite Hnew|].
  exists s', h, (rebuild_meta item), cache.
  pose proof (CacheMeta_fields (im_fresh_until item) (im_created_at item) (im_stale_while_revalidate_sec item)
    (im_stale_if_error_sec item) (convert_headers item)) as (_ & _ & _ & _ & Hh).
  change (CacheMeta_new _ _ _ _ _) with (rebuild_meta item) in Hh. rewrite Hh.
  split_and!; [done|done| | | |].
  - rewrite convert_status by by rewrite Hst. done.
  - intros n. rewrite (stored_headers_spec Hl meta item n Hitem Hins). by rewrite Hr.
  - destruct (read_all given h s') as [slices h']. destruct Hread as [Hbody _]. by rewrite Hnew in Hbody.
  - intros y later Hhost Hpath.
    assert (cache_key_callback y = cache_key_callback x) as ->
      by (unfold cache_key_callback; unfold cached_path in Hpath; by rewrite Hhost, Hpath).
    split; [done|]. unfold cache_hit_filter, rebuild_meta. rewrite Hfr. split; intros Ht.
    + by rewrite is_fresh_before.
    + by rewrite is_fresh_after.
Qed.

(** C34. Cached responses stay with their host and path: for a request of the
    same host and another path or query, or of a host such that neither begins
    with the other, a lookup finds the same before and after the admission of a
    response, however that ends, and before and after the end of a hit. *)
Theorem cached_responses_isolated `{HttpApi, LbApi, PathTreeApi, Base64} `{!CacheMetaApi} `{MetaJson, CacheHash, Disk}
    (Hb : Base64Laws) (Hh : CacheHashLaws) x y meta chunks (s : DiskState) h (Hother : apart x y) :
  let look := λ s, fst (lookup_cache (cache_key_callback y) s) in
  look (snd (cache_response (cache_key_callback x) meta chunks s)) = look s ∧
  look (finish_hit h (cache_key_callback x) s) = look s.
Proof.
  assert (Hprim : primary (cache_key_callback x) ≠ primary (cache_key_callback y))
    by (intros E%hash_inj; by apply (apart_hashed _ _ Hother)).
  assert (Hmeta : elsewhere (cache_key_callback x) s (metadata_path (cache_key_callback y) s)).
  { split; [intros E%same_entry; [congruence|done]|intros E; symmetry in E; by apply cache_not_metadata in E]. }
  assert (Hcache : elsewhere (cache_key_callback x) s (cache_path (cache_key_callback y) s)).
  { split; [by intros E%cache_not_metadata|intros E%same_entry; [congruence|done]]. }
  split.
  - destruct (cache_response_elsewhere _ meta chunks s _ Hmeta) as [Hf Hr].
    destruct (cache_response_elsewhere _ meta chunks s _ Hcache) as [Hc _].
    apply lookup_depends; [by rewrite cache_response_memory|done..].
  - unfold finish_hit. destruct (memory s !! _) as [[m e]|]; [case_match; [done|]|];
      (apply lookup_depends; [simpl; by rewrite lookup_insert_ne|done..]).
Qed.

(** Where one host begins with the other they may not: when what follows in the
    longer host, with the encoded path there, is the encoded path of the
    shorter, both requests have the same hash; the files lie in directories of
    their hosts, but the copy in memory goes by the hash alone, so a hit of the
    one is what a lookup of the other finds. *)
Theorem prefix_hosts_share_memory `{HttpApi, LbApi, PathTreeApi, Base64} `{!CacheMetaApi} `{MetaJson, CacheHash, Disk}
    x y rest (s : DiskState) h
    (Hhost : ctx_host (ctx y) = ctx_host (ctx x) +:+ rest)
    (Hpath : encode_block (cached_path x) = rest +:+ encode_block (cached_path y))
    (Hmem : memory s !! primary (cache_key_callback x) = None) :
  fst (lookup_cache (cache_key_callback y) (finish_hit h (cache_key_callback x) s)) =
    Ok (Some (rebuild_meta (hit_meta h), FromMemory (mkMemHit (finished_buffer h)))).
Proof.
  assert (Hp : primary (cache_key_callback y) = primary (cache_key_callback x)).
  { unfold primary, hashed_text, cache_key_callback. simpl. f_equal. unfold cached_path in Hpath.
    by rewrite Hhost, Hpath, app_assoc_str. }
  unfold finish_hit. rewrite Hmem. erewrite lookup_memory; [done|].
  unfold get_memory_key. rewrite Hp. apply lookup_insert_eq.
Qed.

(** ** Witnesses *)

#[local] Existing Instances toy_http toy_lb toy_pt toy_base64 toy_meta toy_meta_json toy_disk.

(** A hash without collisions: the number the text is encoded as. *)
Definition numbered : CacheHash := {| hash_hex := λ t, to_text t |}.
Lemma numbered_laws : @CacheHashLaws numbered.
Proof.
  split; simpl; [|intros k; by apply show_N_no_char].
  intros t t' E. apply (f_equal (of_text (A:=string))) in E. rewrite !of_to_text in E. by injection E.
Qed.
#[local] Existing Instance numbered.

(** A request of [host] for [path], routed to a container that caches. *)
Definition visit (host path : string) (headers : list (string * string)) : Exchange :=
  mkExchange _ _ _ (session (toy_request path headers))
    (mkRouterContext _ _ host (served [web]) toy_upstream ∅ (mkTimings 0)).
Definition page : ResponseHeader := mkResponseHeader toy_http 404
  ([("set-cookie", "a"); ("server", "x"); ("set-cookie", "b")] : list (string * string)).
Definition page_meta : CacheMeta := CacheMeta_new 4600 1000 60 60 page.
Definition page_item : DiskCacheItemMetadata :=
  mkItemMeta 404 1000 4600 60 60 (<["set-cookie" := "b"]> (<["server" := "x"]> ∅)).

Lemma cached_response_served_witness :
  let alice := visit "a.test" "/page" [("cookie", "alice")] in
  let bob := visit "a.test" "/page" [] in
  ∃ s' h found, cache_response (cache_key_callback alice) page_meta ["hel"; "lo"] empty_disk = (Ok tt, s') ∧
    lookup_cache (cache_key_callback bob) s' = (Ok (Some (found, FromDisk h)), s') ∧
    hm_get_all (resp_headers (response_header found)) "set-cookie" = ["b"] ∧
    concat_str (fst (read_all (repeat (Some 2) 8) h s')) = "hello" ∧
    fst (cache_hit_filter (mkEnv 4599 "id") found bob) = Ok false.
Proof.
  intros alice bob.
  destruct (cached_response_served toy_http_laws toy_meta_laws toy_meta_json_laws toy_env page alice
    page_meta alice ["hel"; "lo"] empty_disk page_item (default "" (meta_to_json page_item))
    (repeat (Some 2) 8))
    as (s' & h & found & cache & Ha & Hc & _ & Hget & Hbody & Hsame);
    [reflexivity|by repeat split|reflexivity|reflexivity|discriminate|reflexivity|reflexivity
    |split; discriminate| |by repeat (constructor; [by eexists|])|vm_compute; lia|].
  { intros k v g. simpl. destruct (visible v); [by eexists|discriminate]. }
  destruct (Hsame bob (mkEnv 4599 "id") eq_refl eq_refl) as (Hlook & Hfresh & _).
  exists s', h, found. split_and!; [exact Ha|exact Hlook|exact (Hget "set-cookie")|exact Hbody|].
  injection Hc as <-. by apply Hfresh.
Defined.

(** The same path under another host. *)
Lemma cached_responses_isolated_witness :
  let x := visit "a.test" "/page" [] in
  let y := visit "b.test" "/page" [] in
  fst (lookup_cache (cache_key_callback y)
    (snd (cache_response (cache_key_callback x) page_meta ["secret"] empty_disk))) = Ok None.
Proof.
  intros x y.
  refine (eq_trans (proj1 (cached_responses_isolated toy_base64_laws numbered_laws x y page_meta ["secret"]
    empty_disk (DiskCacheHitHandler_new "" page_item) _)) _); [by right|reflexivity].
Defined.

(** With the standard encoding of these two paths, a page of "a.test" is what
    another host gets. *)
Definition two_paths : Base64 := {|
  encode_block := λ t, if String.eqb t "/ab/x" then "L2FiL3g=" else if String.eqb t "/x" then "L3g=" else t;
  decode_block := λ _, None |}.

Definition key_with (codec : Base64) (x : Exchange) : CacheKey := @cache_key_callback _ _ _ codec x.

Lemma prefix_hosts_share_memory_witness :
  let h := mkHit "" 6 page_item "secret" in
  let x := visit "a.test" "/ab/x" [] in
  let y := visit "a.testL2Fi" "/x" [] in
  fst (lookup_cache (key_with two_paths y) (finish_hit h (key_with two_paths x) empty_disk)) =
    Ok (Some (rebuild_meta page_item, FromMemory (mkMemHit "secret"))).
Proof.
  intros h x y.
  exact (@prefix_hosts_share_memory _ _ _ two_paths _ _ _ _ x y "L2Fi" empty_disk h eq_refl eq_refl eq_refl).
Defined.
