(* ===== verification/Lifecycle.v ===== *)
(** A request from its arrival to its answer: the callbacks of [Router] in the
    order in which Pingora's documentation (user guide, "phases") runs them,
    with the disk cache under them and its limit on the size of a response. The
    upstream servers, and the connections to them, are parameters; [serve] is
    for requests that are neither conditional nor HEAD, and for upstreams that
    answer in full. *)
From S2P Require Import Prelude Strs Config Stores Http Routes Plugins Oauth2 Middleware Router Discovery RouteTable DiskCache Caching.
#[local] Open Scope string_scope.
#[local] Open Scope list_scope.

(** ** The upstream side *)

(** A response: its header, and the body in the pieces it arrives in. *)
Record Answer `{HttpApi} := mkAnswer { ans_header : ResponseHeader; ans_body : list string }.

(** What a peer answers to a request header; whether its connection is reused,
    and its address as text. *)
Class Network `{HttpApi, LbApi} := {
  answer : HttpPeer → RequestHeader → Answer;
  reused : HttpPeer → bool;
  peer_address : HttpPeer → string }.

(** ** The phases *)

(** The proxy, for one request: the world of the request filter, and the disk
    cache; the cache-routing table they both use is the world's. *)
Record Proxy `{HttpApi, LbApi, PathTreeApi} := mkProxy { px_world : World; px_disk : DiskState }.

(** How a request ends: answered by the filter, from an upstream, or from the
    cache. *)
Inductive Served `{HttpApi, LbApi} :=
| Handled
| FromUpstream (peer : HttpPeer) (req : RequestHeader) (resp : ResponseHeader)
| FromCache (resp : ResponseHeader).

Section lifecycle.
Context `{HttpApi, LbApi, PathTreeApi, Base64, JwtApi, ShortCrypt, CookieApi, HttpClient, HashIter}.
Context `{Dns} `{!CacheMetaApi} `{MetaJson, CacheHash, Disk} {net : Network}.

Definition px_exchange (p : Proxy) : Exchange := exchange (px_world p).
Definition set_world (w : World) (p : Proxy) : Proxy := mkProxy _ _ _ w (px_disk p).
Definition set_disk (s : DiskState) (p : Proxy) : Proxy := mkProxy _ _ _ (px_world p) s.
Definition on_world {A} (m : M World error A) : M Proxy error A := zoom px_world set_world m.
Definition on_request {A} (m : M Exchange error A) : M Proxy error A := on_world (on_exchange m).

(** The disk cache, with the cache-routing table as the filter left it. *)
Definition px_storage (p : Proxy) : DiskState :=
  mkDiskState (files (px_disk p)) (memory (px_disk p)) (cache_routing (px_world p)).

(** An operation of the storage; Pingora goes on without the cache after an
    error of it. *)
Definition on_disk {A} (m : M DiskState string A) : M Proxy error (option A) :=
  catch_ok (zoom px_storage set_disk m).

(** A filter that also gets a header by mutable reference. *)
Definition with_header {P} (m : M (Exchange * P) error unit) (h : P) : M Exchange error P := λ x,
  match m (x, h) with
  | (Ok _, (x', h')) => (Ok h', x')
  | (Err e, (x', _)) => (Err e, x')
  | (Panic, (x', _)) => (Panic, x')
  end.

(** The header of the client's request, which Pingora copies. *)
Definition request_header (s : Session) : RequestHeader := mkRequestHeader _ (req_method s) (req_headers s).

(** Connection and request phases. *)
Definition send_upstream : M Exchange error (HttpPeer * RequestHeader * Answer) :=
  peer ← upstream_peer;
  _ ← connected_to_upstream (reused peer) (peer_address peer);
  s ← gets session;
  req ← with_header Router_upstream_request_filter (request_header s);
  mret (peer, req, answer peer req).

(** The size limit of the cache, as Pingora documents it: a response that
    declares a longer body is not admitted, and the cache is switched off for the
    request; one that turns out to be longer is broken off in the cache before
    the piece that exceeds the limit, and goes on to the client. *)
Definition declared_length (h : HeaderMap) : option N :=
  v ← hm_get h "content-length"; t ← header_to_str v; parse_u64 t.
Definition over_limit (limit : option N) (h : HeaderMap) : bool :=
  match limit, declared_length h with Some m, Some n => (m <? n)%N | _, _ => false end.
Fixpoint within (limit : N) (chunks : list string) : list string * bool :=
  match chunks with
  | [] => ([], true)
  | c :: rest =>
      if (N.of_nat (String.length c) <=? limit)%N
      then let '(l, whole) := within (limit - N.of_nat (String.length c)) rest in (c :: l, whole)
      else ([], false)
  end.
Definition admit_limited (limit : option N) (key : CacheKey) (meta : CacheMeta) (chunks : list string)
    : M DiskState string unit :=
  match limit with
  | None => cache_response key meta chunks
  | Some n => let '(l, whole) := within n chunks in
              if whole : bool then cache_response key meta l else interrupted_response key meta l
  end.

(** Response phases: the header before the cache and, if it is enabled, what
    the cache admits. *)
Definition receive_header (env : Env) (a : Answer) : M Exchange error (ResponseHeader * option CacheMeta) :=
  resp ← with_header Router_upstream_response_filter (ans_header a);
  enabled ← gets (λ x, cache_is_enabled (session x));
  if enabled : bool then
    cacheable ← response_cache_filter env resp;
    match cacheable with
    | Cacheable meta =>
        limit ← gets (λ x, cache_max_file_size (session x));
        if over_limit limit (resp_headers resp)
        then _ ← on_session (modify (set_cache_storage None)); mret (resp, None)
        else _ ← cache_miss; mret (resp, Some meta)
    | _ => mret (resp, None)
    end
  else mret (resp, None).

Fixpoint send_body (chunks : list string) : M Exchange error unit :=
  match chunks with
  | [] => mret tt
  | c :: rest => _ ← on_session (write_response_body c false); send_body rest
  end.

(** The answer to the client, the cached one too. *)
Definition send_downstream (elapsed : N) (resp : ResponseHeader) (body : list string)
    : M Exchange error ResponseHeader :=
  resp ← Router_response_filter elapsed resp;
  _ ← on_session (write_response_header resp false);
  _ ← send_body body;
  mret resp.

Definition from_upstream (env : Env) (elapsed : N) : M Proxy error Served :=
  '(peer, req, a) ← on_request send_upstream;
  '(resp, admitted) ← on_request (receive_header env a);
  key ← gets (λ p, cache_key_callback (px_exchange p));
  storage ← gets (λ p, cache_storage (session (px_exchange p)));
  limit ← gets (λ p, cache_max_file_size (session (px_exchange p)));
  _ ← match admitted, storage with
      | Some meta, Some RouteCacheType_Disk => _ ← on_disk (admit_limited limit key meta (ans_body a)); mret tt
      | _, _ => mret tt
      end;
  resp ← on_request (send_downstream elapsed resp (ans_body a));
  mret (FromUpstream peer req resp).

(** Reading a hit to its end, and the end of it. *)
Definition read_hit (given : list (option nat)) (key : CacheKey) (h : HitHandler) : M Proxy error (list string) := λ p,
  match h with
  | FromDisk h =>
      let '(slices, h') := read_all given h (px_storage p) in
      (Ok slices, set_disk (finish_hit h' key (px_storage p)) p)
  | FromMemory h => (Ok (read_all_in_memory (length given) h), p)
  end.

Definition from_cache (elapsed : N) (given : list (option nat)) (key : CacheKey) (meta : CacheMeta)
    (h : HitHandler) : M Proxy error Served :=
  body ← read_hit given key h;
  resp ← on_request (send_downstream elapsed (response_header meta) body);
  mret (FromCache resp).

(** A request. An asset that is not fresh is fetched again (without the
    conditional headers that Pingora adds); the storage of a MemCache route is
    Pingora's own, which is left out. *)
Definition serve (env : Env) (elapsed : N) (given : list (option nat)) : M Proxy error Served :=
  handled ← on_world (Router_request_filter env);
  if handled : bool then mret Handled
  else
    storage ← gets (λ p, cache_storage (session (px_exchange p)));
    match storage with
    | Some RouteCacheType_Disk =>
        key ← gets (λ p, cache_key_callback (px_exchange p));
        found ← on_disk (lookup_cache key);
        match found with
        | Some (Some (meta, h)) =>
            expired ← on_request (cache_hit_filter env meta);
            if expired : bool then from_upstream env elapsed
            else from_cache elapsed given key meta h
        | _ => from_upstream env elapsed
        end
    | _ => from_upstream env elapsed
    end.
End lifecycle.

(** ** Lemmas: the phases *)

Ltac solve_onward := split; first [done|by left|by right].

Section phases.
Context `{HttpApi, LbApi, PathTreeApi, Base64, JwtApi, ShortCrypt, CookieApi, HttpClient, HashIter}.
Context `{Dns} `{!CacheMetaApi} `{MetaJson, CacheHash, Disk} {net : Network}.
Implicit Types x y : Exchange.
Implicit Types p : Proxy.

Definition put_exchange (x : Exchange) (p : Proxy) : Proxy := set_world (set_exchange x (px_world p)) p.

Lemma on_request_ok {A} (m : M Exchange error A) p a x :
  m (px_exchange p) = (Ok a, x) → on_request m p = (Ok a, put_exchange x p).
Proof. intros E1. unfold on_request, on_world, on_exchange, zoom. by setoid_rewrite E1. Qed.

Lemma set_exchange_self w x : set_exchange (exchange w) (set_exchange x w) = w.
Proof. by destruct w. Qed.
Lemma put_put x y p : put_exchange x (put_exchange y p) = put_exchange x p.
Proof. done. Qed.
Lemma px_put x p : px_exchange (put_exchange x p) = x.
Proof. done. Qed.

(** What stays of an exchange through the phases after the filter. *)
Record onward (x y : Exchange) : Prop := {
  onward_healthy : healthy x → healthy y;
  onward_headers : req_headers (session y) = req_headers (session x);
  onward_uri : req_uri (session y) = req_uri (session x);
  onward_method : req_method (session y) = req_method (session x);
  onward_storage : cache_storage (session y) = cache_storage (session x) ∨ cache_storage (session y) = None;
  onward_host : ctx_host (ctx y) = ctx_host (ctx x);
  onward_container : route_container (ctx y) = route_container (ctx x);
  onward_id : extensions (ctx y) !! "request_id_header" = extensions (ctx x) !! "request_id_header" }.

Lemma onward_stored x y st :
  onward x y → cache_storage (session y) = Some st → cache_storage (session x) = Some st.
Proof. intros [] E. destruct onward_storage0; congruence. Qed.
Lemma onward_enabled x y : onward x y → cache_is_enabled (session y) = true → cache_is_enabled (session x) = true.
Proof.
  intros Ho. unfold cache_is_enabled. destruct (cache_storage (session y)) as [st|] eqn:E; [|done].
  by rewrite (onward_stored _ _ _ Ho E).
Qed.

#[export] Instance onward_preorder : PreOrder onward.
Proof.
  split; [intros x; solve_onward|]. intros x y z [] []. split; [auto|congruence..| |congruence|congruence|congruence].
  destruct onward_storage1; [|by right]. destruct onward_storage0; [left|right]; congruence.
Qed.

(** What of the session the choice of the cache goes by. *)
Definition same_cache (x y : Exchange) : Prop :=
  cache_storage (session y) = cache_storage (session x) ∧
  cache_max_file_size (session y) = cache_max_file_size (session x).

(** The limit that [upstream_peer] sets. *)
Definition max_size : N := 100 * 1024 * 1024.

(** The header texts that every map takes. *)
Definition insertable (n v : string) : Prop := ∀ h, is_Some (hm_insert n v h).

(** The values a name has after the insertions of [l], in order. *)
Definition overridden (l : list (string * string)) (n : string) (old : list string) : list string :=
  match list_find (λ nv, same_name nv.1 n) (reverse l) with
  | Some (_, (_, v)) => [v]
  | None => old
  end.

(** The values a name has after the request identifier was inserted, on a
    route with the [request_id] plugin. *)
Definition stamped (env : Env) (c : RouteStoreContainer) (n : string) (old : list string) : list string :=
  if decide (is_Some (rsc_plugins c !! "request_id") ∧ same_name "x-request-id" n) then [env_uuid env]
  else old.

(** The headers an upstream adds to its requests. *)
Definition added (u : RouteUpstream) : list RouteHeaderAdd :=
  default [] (h ← up_headers u; rh_add h).
Definition pairs (l : list RouteHeaderAdd) : list (string * string) :=
  (λ h, (rha_name h, rha_value h)) <$> l.

(** Everything a route inserts is a header. *)
Definition headers_valid (c : RouteStoreContainer) : Prop :=
  Forall (λ nv, insertable nv.1 nv.2) (host_header_add c) ∧
  ∀ u, u ∈ rsc_upstreams c → Forall (λ nv, insertable nv.1 nv.2) (pairs (added u)).

(** The identifier is at hand where it is needed. *)
Definition identified (env : Env) (x : Exchange) : Prop :=
  is_Some (rsc_plugins (route_container (ctx x)) !! "request_id") →
  extensions (ctx x) !! "request_id_header" = Some (env_uuid env).

(** Both kinds of insertion, per name. *)
Lemma add_headers_ok `{!HeaderLaws} l resp :
  Forall (λ nv, insertable nv.1 nv.2) l →
  ∃ resp', add_headers l resp = Ok resp' ∧ resp_status resp' = resp_status resp ∧
    ∀ n, hm_get_all (resp_headers resp') n = overridden l n (hm_get_all (resp_headers resp) n).
Proof.
  intros Hl. assert (Ht : ∃ resp', add_headers l resp = Ok resp').
  { revert resp. induction Hl as [|[n v] l Hnv _ IH]; intros resp; [by eexists|].
    simpl. unfold mbind, res_bind, insert_header. destruct (Hnv (resp_headers resp)) as [h Eh].
    simpl in Eh. rewrite Eh. apply IH. }
  destruct Ht as [resp' Ha]. exists resp'. split; [done|]. split; [|intros n];
    by destruct (add_headers_get l resp resp' ltac:(first [exact n | exact ""]) Ha).
Qed.

Lemma add_request_headers_get `{!HeaderLaws} l req :
  Forall (λ nv, insertable nv.1 nv.2) (pairs l) →
  ∀ n, hm_get_all (up_req_headers (fold_left add_request_header l req)) n =
       overridden (pairs l) n (hm_get_all (up_req_headers req) n).
Proof.
  unfold overridden. revert req. induction l as [|a l IH]; intros req Hl n; [done|].
  simpl in Hl. apply Forall_cons in Hl as [Ha Hl]. simpl fold_left. rewrite IH by done.
  change (pairs (a :: l)) with ((rha_name a, rha_value a) :: pairs l). rewrite reverse_cons.
  destruct (list_find _ (reverse (pairs l))) as [[i [n' v']]|] eqn:Ef.
  - by rewrite (list_find_app_l _ _ _ _ _ Ef).
  - rewrite list_find_app_r by done. unfold add_request_header. destruct (Ha (up_req_headers req)) as [m Em].
    simpl in Em. rewrite Em. simpl. rewrite (hm_get_all_insert _ _ _ _ n Em). by case_decide.
Qed.

(** ** Lemmas: towards the upstream *)

Lemma upstream_peer_picks `{!LbLaws} x b :
  container_ok (route_container (ctx x)) → select (load_balancer (route_container (ctx x))) = Some b →
  ∃ peer x', upstream_peer x = (Ok peer, x') ∧ peer_backend peer = b ∧
    ctx_upstream (ctx x') ∈ rsc_upstreams (route_container (ctx x)) ∧ onward x x' ∧
    written (session x') = written (session x) ∧ cache_storage (session x') = cache_storage (session x) ∧
    (cache_is_enabled (session x) = true → cache_max_file_size (session x') = Some max_size).
Proof.
  intros Hok Hsel.
  destruct (backends_covered _ Hok b) as ([ip port] & u & addrs & Hi & Hu & Hd & Ha);
    [by apply select_backend|].
  destruct (find_upstream_total (ip, port) (rsc_upstreams (route_container (ctx x)))) as [u' Hf];
    [apply Hok|by exists u, addrs|].
  pose proof (find_upstream_Some _ _ _ Hf) as [Hin _].
  unfold upstream_peer, mbind, M_bind, gets, lift.
  destruct (cache_is_enabled (session x)); simpl; rewrite Hsel, Hi, Hf; eexists _, _;
    (split_and!; [reflexivity|done|done|solve_onward|done|done|done]).
Qed.

Lemma connected_onward r a x :
  ∃ x', connected_to_upstream r a x = (Ok tt, x') ∧ onward x x' ∧ session x' = session x ∧
    ctx_upstream (ctx x') = ctx_upstream (ctx x) ∧
    extensions (ctx x') = <["peer" := a]> (<["reused" := show_bool r]> (extensions (ctx x))).
Proof.
  eexists. split; [reflexivity|]. split_and!; [split; try done; [by left|]|done..].
  simpl. by rewrite !lookup_insert_ne.
Qed.

(** The request an upstream gets. *)
Lemma upstream_request `{!HeaderLaws, !HashIterLaws} env x req :
  insertable "x-request-id" (env_uuid env) → identified env x →
  Forall (λ nv, insertable nv.1 nv.2) (pairs (added (ctx_upstream (ctx x)))) →
  ∃ req', with_header Router_upstream_request_filter req x = (Ok req', x) ∧
    ∀ n, hm_get_all (up_req_headers req') n =
      stamped env (route_container (ctx x)) n
        (overridden (pairs (added (ctx_upstream (ctx x)))) n (hm_get_all (up_req_headers req) n)).
Proof.
  intros Hid Hx Hadd. set (req1 := fold_left add_request_header (added (ctx_upstream (ctx x))) req).
  assert (Hrun : Router_upstream_request_filter (x, req) =
    (Ok tt, if decide ("request_id" ∈ (hash_iter (rsc_plugins (route_container (ctx x)))).*1)
            then snd (RequestId_upstream_request_filter (x, req1)) else (x, req1))).
  { unfold Router_upstream_request_filter. rewrite (bind_ok _ _ _ (ctx_upstream (ctx x)) (x, req)) by done.
    rewrite (bind_ok _ _ _ tt (x, req1)) by (unfold req1, added; by destruct (_ ≫= _)).
    unfold execute_upstream_request_plugins, catch_ok, gets, mbind, M_bind, mret, M_ret. simpl.
    by rewrite run_upstream_request_once by apply hash_iter_keys. }
  unfold with_header, stamped. rewrite Hrun.
  pose proof (add_request_headers_get _ req Hadd) as Hg. fold req1 in Hg.
  case_decide as Hp; rewrite hash_iter_keys_lookup in Hp.
  - unfold RequestId_upstream_request_filter. rewrite (Hx Hp).
    destruct (Hid (up_req_headers req1)) as [h Eh]. rewrite Eh. simpl. eexists. split; [done|].
    intros n. simpl. rewrite (hm_get_all_insert _ _ _ _ n Eh).
    repeat case_decide; try done; naive_solver.
  - eexists. split; [done|]. intros n. rewrite decide_False by naive_solver. apply Hg.
Qed.

(** ** Lemmas: back to the client *)

Lemma upstream_response `{!HeaderLaws, !HashIterLaws} env x resp :
  insertable "x-request-id" (env_uuid env) → identified env x →
  ∃ resp', with_header Router_upstream_response_filter resp x = (Ok resp', x) ∧
    resp_status resp' = resp_status resp ∧
    ∀ n, hm_get_all (resp_headers resp') n =
      stamped env (route_container (ctx x)) n (hm_get_all (resp_headers resp) n).
Proof.
  intros Hid Hx. unfold with_header, Router_upstream_response_filter, execute_upstream_response_plugins,
    gets, mbind, M_bind, mret, M_ret, stamped. simpl.
  rewrite run_upstream_response_once by apply hash_iter_keys.
  case_decide as Hp; rewrite hash_iter_keys_lookup in Hp.
  - unfold RequestId_upstream_response_filter, insert_header. rewrite (Hx Hp).
    destruct (Hid (resp_headers resp)) as [h Eh]. rewrite Eh. simpl. eexists. split_and!; [done|done|].
    intros n. simpl. rewrite (hm_get_all_insert _ _ _ _ n Eh). repeat case_decide; try done; naive_solver.
  - eexists. split_and!; [done|done|]. intros n. rewrite decide_False by naive_solver. done.
Qed.

(** What the response filter notes about the cache, per name. *)
Definition cache_noted (elapsed : N) (x : Exchange) (n : string) (old : list string) : list string :=
  match extensions (ctx x) !! "cache_state" with
  | Some state =>
      if cache_is_enabled (session x) then
        if decide (same_name "cache-duration" n) then [show_N elapsed]
        else if decide (same_name "cache-status" n) then [state] else old
      else old
  | None => old
  end.

(** What a route does to the values of a name in a response. *)
Definition route_edits (c : RouteStoreContainer) (n : string) (old : list string) : list string :=
  if decide (Exists (λ m, same_name m n) (host_header_remove c)) then []
  else overridden (host_header_add c) n old.

(** The notes about the cache can be written. *)
Definition notes_valid (elapsed : N) (x : Exchange) : Prop :=
  insertable "cache-duration" (show_N elapsed) ∧
  ∀ state, extensions (ctx x) !! "cache_state" = Some state → insertable "cache-status" state.

Lemma response_plugins_pass x : execute_response_plugins x = (Ok tt, x).
Proof.
  unfold execute_response_plugins. rewrite (bind_ok _ _ _ (rsc_plugins (route_container (ctx x))) x) by done.
  induction (hash_iter _) as [|[n v] l IH]; [done|]. cbn [run_response_plugins].
  rewrite (bind_ok _ _ _ false x); [done|]. by destruct (String.eqb n "oauth2").
Qed.

Lemma response_filter `{!HeaderLaws} elapsed x resp :
  headers_valid (route_container (ctx x)) → (cache_is_enabled (session x) = true → notes_valid elapsed x) →
  ∃ resp', Router_response_filter elapsed resp x = (Ok resp', x) ∧ resp_status resp' = resp_status resp ∧
    ∀ n, hm_get_all (resp_headers resp') n =
      cache_noted elapsed x n (route_edits (route_container (ctx x)) n (hm_get_all (resp_headers resp) n)).
Proof.
  intros [Hadd _] Hn. destruct (add_headers_ok _ resp Hadd) as (r1 & E1 & Hs1 & Hg1).
  set (r2 := remove_headers (host_header_remove (route_container (ctx x))) r1).
  assert (Hg2 : resp_status r2 = resp_status resp ∧ ∀ n, hm_get_all (resp_headers r2) n =
    route_edits (route_container (ctx x)) n (hm_get_all (resp_headers resp) n)).
  { split; [|intros n]; destruct (remove_headers_get (host_header_remove (route_container (ctx x))) r1
      ltac:(first [exact n|exact ""])) as [Hs2 Hg2]; unfold r2; [congruence|].
    rewrite Hg2, Hg1. done. }
  destruct Hg2 as [Hs2 Hg2].
  unfold Router_response_filter. rewrite (bind_ok _ _ _ (route_container (ctx x)) x) by done.
  rewrite (bind_ok _ _ _ r1 x) by (unfold lift; by rewrite E1). fold r2.
  rewrite (bind_ok _ _ _ (extensions (ctx x) !! "cache_state") x) by done.
  rewrite (bind_ok _ _ _ (cache_is_enabled (session x)) x) by done.
  unfold cache_noted.
  assert (Hend : ∀ r : ResponseHeader, (_ ← execute_response_plugins; mret r) x = (@Ok error _ r, x)).
  { intros r. by rewrite (bind_ok _ _ _ tt x) by apply response_plugins_pass. }
  destruct (extensions (ctx x) !! "cache_state") as [state|] eqn:Es;
    [destruct (cache_is_enabled (session x))|];
    [|rewrite (bind_ok _ _ _ r2 x) by done; rewrite Hend; eauto..].
  destruct (Hn eq_refl) as [Hd Hst]. destruct (Hst _ Es (resp_headers r2)) as [h3 E3].
  destruct (Hd h3) as [h4 E4].
  rewrite (bind_ok _ _ _ (mkResponseHeader _ (resp_status r2) h4) x).
  2: { unfold lift, insert_header, mbind, res_bind. rewrite E3. simpl. by rewrite E4. }
  rewrite Hend. eexists. split_and!; [done|done|]. intros n. simpl.
  rewrite (hm_get_all_insert _ _ _ _ n E4), (hm_get_all_insert _ _ _ _ n E3), Hg2. done.
Qed.

(** Writing an answer to a healthy client. *)
Lemma send_body_writes chunks x :
  healthy x → ∃ x', send_body chunks x = (Ok tt, x') ∧ ctx x' = ctx x ∧ healthy x' ∧ onward x x' ∧
    written (session x') = written (session x) ++ ((λ c, WriteBody c false) <$> chunks).
Proof.
  revert x. induction chunks as [|c chunks IH]; intros x Hx.
  - exists x. simpl. rewrite app_nil_r. by split_and!.
  - simpl. unfold write_response_body. rewrite (bind_ok _ _ _ tt (wrote (WriteBody c false) x))
      by (by apply on_session_downstream).
    destruct (IH (wrote (WriteBody c false) x)) as (x' & E1 & Hc & Hh & Ho & Hw); [done|].
    exists x'. split_and!; [done|done|done| |].
    { transitivity (wrote (WriteBody c false) x); [solve_onward|done]. }
    rewrite Hw. simpl. by rewrite <- app_assoc.
Qed.

Lemma answer_written `{!HeaderLaws} elapsed x resp body :
  healthy x → headers_valid (route_container (ctx x)) →
  (cache_is_enabled (session x) = true → notes_valid elapsed x) →
  ∃ resp' x', send_downstream elapsed resp body x = (Ok resp', x') ∧
    resp_status resp' = resp_status resp ∧
    (∀ n, hm_get_all (resp_headers resp') n =
       cache_noted elapsed x n (route_edits (route_container (ctx x)) n (hm_get_all (resp_headers resp) n))) ∧
    ctx x' = ctx x ∧ healthy x' ∧ onward x x' ∧
    written (session x') =
      written (session x) ++ WriteHeader resp' false :: ((λ c, WriteBody c false) <$> body).
Proof.
  intros Hx Hv Hn. destruct (response_filter elapsed x resp Hv Hn) as (resp' & E1 & Hs & Hg).
  destruct (send_body_writes body (wrote (WriteHeader resp' false) x)) as (x' & E2 & Hc & Hh & Ho & Hw); [done|].
  exists resp', x'. unfold send_downstream, write_response_header.
  rewrite (bind_ok _ _ _ _ _ E1), (bind_ok _ _ _ tt (wrote (WriteHeader resp' false) x))
    by (by apply on_session_downstream).
  rewrite (bind_ok _ _ _ _ _ E2). split_and!; [done..| |].
  - transitivity (wrote (WriteHeader resp' false) x); [solve_onward|done].
  - rewrite Hw. simpl. by rewrite <- app_assoc.
Qed.

(** ** Lemmas: what the request filter leaves *)

Lemma enable_cache_onward cache w r w' :
  enable_cache cache w = (r, w') → r = Ok tt ∧
  (∃ st, session (exchange w') = set_cache_storage st (session (exchange w)) ∨
         session (exchange w') = session (exchange w)) ∧ ctx (exchange w') = ctx (exchange w).
Proof.
  unfold enable_cache. destruct cache as [c|]; [|intros [= <- <-]; split_and!; [done|by exists None; right|done]].
  destruct (default false (rc_enabled c)); [|intros [= <- <-]; split_and!; [done|by exists None; right|done]].
  intros [= <- <-]. split_and!; [done| |done]. eexists. by left.
Qed.

Lemma filter_unknown env w r w' :
  route_store w !! request_host (exchange w) = None → Router_request_filter env w = (r, w') →
  r ≠ Ok false ∧ route_store w' = route_store w ∧ cache_routing w' = cache_routing w.
Proof.
  intros Ec. unfold Router_request_filter.
  rewrite (bind_ok _ _ _ (get_host (session (exchange w))) w) by done. cbv zeta.
  rewrite (bind_ok _ _ _ tt (set_exchange (addressed (exchange w)) w)) by done.
  rewrite (bind_ok _ _ _ None (set_exchange (addressed (exchange w)) w)).
  2: { unfold gets. do 2 f_equal. exact Ec. }
  unfold mbind, M_bind, on_exchange, zoom. by destruct (on_session _ _) as [[] ?]; intros [= <- <-].
Qed.

(** A run of the filter that lets the request through. *)
Lemma filter_run env w w' :
  Router_request_filter env w = (Ok false, w') →
  ∃ c x1 w1, route_store w !! request_host (exchange w) = Some c ∧
    execute_request_plugins env (rsc_plugins c) (addressed (exchange w)) = (Ok false, x1) ∧
    enable_cache (rsc_cache c) (set_exchange x1 w) = (Ok tt, w1) ∧
    w' = set_exchange (set_ctx (set_container c (ctx (exchange w1))) (exchange w1)) w1.
Proof.
  destruct (route_store w !! request_host (exchange w)) as [c|] eqn:Ec;
    [|by intros [? _]%filter_unknown].
  rewrite (request_filter_known env w c Ec). destruct (path_rejected _ _).
  { unfold mbind, M_bind. by destruct (on_exchange _ _) as [[]]. }
  unfold on_exchange, zoom, catch_ok, mbind at 1, M_bind at 1. cbn [exchange set_exchange].
  pose proof (execute_request_plugins_no_err env (rsc_plugins c) (addressed (exchange w))) as Hne.
  destruct (execute_request_plugins env _ _) as [[[]|e|] x1] eqn:Ex; [done| |by destruct (Hne e)|done].
  unfold mbind, M_bind. destruct (enable_cache _ _) as [r w1] eqn:Een.
  pose proof (enable_cache_onward _ _ _ _ Een) as (-> & _). intros [= <-]. by exists c, x1, w1.
Qed.

Lemma filter_passed `{!HashIterLaws} env w w' :
  Router_request_filter env w = (Ok false, w') →
  route_store w !! request_host (exchange w) = Some (route_container (ctx (exchange w'))) ∧
  route_store w' = route_store w ∧ identified env (exchange w') ∧
  (healthy (exchange w) → healthy (exchange w')) ∧
  ctx_host (ctx (exchange w')) = request_host (exchange w) ∧
  req_headers (session (exchange w')) = req_headers (session (exchange w)) ∧
  req_uri (session (exchange w')) = req_uri (session (exchange w)) ∧
  req_method (session (exchange w')) = req_method (session (exchange w)).
Proof.
  intros (c & x1 & w1 & Ec & Ex & Een & ->)%filter_run.
  assert (Hfr : frames (execute_request_plugins env (rsc_plugins c))) by apply run_request_plugins_frames.
  destruct (Hfr _ _ _ Ex) as (((Hm & Hu & Hh & _) & Hhost) & Hheal & _ & _).
  pose proof (enable_cache_spec _ _ _ _ Een) as (_ & Hs & _).
  apply enable_cache_onward in Een as (_ & (st & Hses) & Hctx).
  assert (Hreq : (healthy x1 → io (session (exchange w1)) = []) ∧
    req_headers (session (exchange w1)) = req_headers (session x1) ∧
    req_uri (session (exchange w1)) = req_uri (session x1) ∧
    req_method (session (exchange w1)) = req_method (session x1)) by by destruct Hses as [-> | ->].
  destruct Hreq as (R1 & R2 & R3 & R4). simpl in *. rewrite Hs, Hctx. unfold identified. simpl.
  split_and!; [done|done| | |done|congruence..].
  - intros Hp. apply (run_request_plugins_extension _ _ _ _ Ex).
    left. by apply hash_iter_keys_lookup.
  - intros Hx. by apply R1, Hheal.
Qed.

(** What the filter does to the tables and the cache of a request. *)
Lemma filter_caches env w w' cache :
  Router_request_filter env w = (Ok false, w') →
  rsc_cache (route_container (ctx (exchange w'))) = Some cache → rc_enabled cache = Some true →
  cache_storage (session (exchange w')) = Some (rc_cache_type cache) ∧
  cache_routing w' =
    insert_cache_routing (request_host (exchange w)) (rc_path cache) false (cache_routing w).
Proof.
  intros (c & x1 & w1 & Ec & Ex & Een & ->)%filter_run Hc Hen. simpl in *.
  assert (Hfr : frames (execute_request_plugins env (rsc_plugins c))) by apply run_request_plugins_frames.
  destruct (Hfr _ _ _ Ex) as ((_ & Hhost) & _).
  revert Een. unfold enable_cache. rewrite Hc, Hen. intros [= <-]. simpl in *. rewrite Hhost.
  split; [|done]. by destruct (rc_cache_type cache).
Qed.

(** ** Lemmas: the exchange with the upstream *)

(** The request an upstream gets, per name, from the client's. *)
Definition as_sent (env : Env) (c : RouteStoreContainer) (u : RouteUpstream) (n : string)
    (old : list string) : list string := stamped env c n (overridden (pairs (added u)) n old).

Lemma send_upstream_ok `{!HeaderLaws, !HashIterLaws, !LbLaws} env x b :
  container_ok (route_container (ctx x)) → headers_valid (route_container (ctx x)) →
  select (load_balancer (route_container (ctx x))) = Some b →
  insertable "x-request-id" (env_uuid env) → identified env x →
  ∃ peer req x', send_upstream x = (Ok (peer, req, answer peer req), x') ∧ peer_backend peer = b ∧
    ctx_upstream (ctx x') ∈ rsc_upstreams (route_container (ctx x)) ∧ onward x x' ∧
    written (session x') = written (session x) ∧
    extensions (ctx x') !! "peer" = Some (peer_address peer) ∧
    cache_storage (session x') = cache_storage (session x) ∧
    (cache_is_enabled (session x) = true → cache_max_file_size (session x') = Some max_size) ∧
    ∀ n, hm_get_all (up_req_headers req) n =
      as_sent env (route_container (ctx x)) (ctx_upstream (ctx x')) n
        (hm_get_all (req_headers (session x)) n).
Proof.
  intros Hok [_ Hv] Hsel Hid Hx.
  destruct (upstream_peer_picks x b Hok Hsel) as (peer & x1 & E1 & Hb & Hin & Ho1 & Hw1 & Hst1 & Hmax1).
  destruct (connected_onward (reused peer) (peer_address peer) x1) as (x2 & E2 & Ho2 & Hs2 & Hu2 & He2).
  assert (Ho : onward x x2) by by transitivity x1.
  assert (Hx2 : identified env x2).
  { unfold identified. rewrite (onward_container _ _ Ho), (onward_id _ _ Ho). apply Hx. }
  destruct (upstream_request env x2 (request_header (session x2))) as (req & E3 & Hg);
    [done|done|rewrite Hu2; by apply Hv|].
  exists peer, req, x2. unfold send_upstream.
  rewrite (bind_ok _ _ _ _ _ E1), (bind_ok _ _ _ _ _ E2), (bind_ok _ _ _ (session x2) x2) by done.
  rewrite (bind_ok _ _ _ _ _ E3). split_and!; [done|done|by rewrite Hu2|done|by rewrite Hs2| |by rewrite Hs2|by rewrite Hs2|].
  - rewrite He2. apply lookup_insert_eq.
  - intros n. rewrite Hg. unfold as_sent. rewrite (onward_container _ _ Ho).
    simpl. by rewrite (onward_headers _ _ Ho).
Qed.

(** The header of the upstream's answer as the cache and the response filter
    get it, when the cache is off. *)
Lemma receive_uncached `{!HeaderLaws, !HashIterLaws} env a x :
  insertable "x-request-id" (env_uuid env) → identified env x → cache_storage (session x) = None →
  ∃ resp, receive_header env a x = (Ok (resp, None), x) ∧ resp_status resp = resp_status (ans_header a) ∧
    ∀ n, hm_get_all (resp_headers resp) n =
      stamped env (route_container (ctx x)) n (hm_get_all (resp_headers (ans_header a)) n).
Proof.
  intros Hid Hx Hc. destruct (upstream_response env x (ans_header a) Hid Hx) as (resp & E1 & Hs & Hg).
  exists resp. unfold receive_header. rewrite (bind_ok _ _ _ _ _ E1), (bind_ok _ _ _ false x); [done|].
  unfold gets, cache_is_enabled. by rewrite Hc.
Qed.

Lemma cache_noted_off elapsed x n old :
  cache_storage (session x) = None → cache_noted elapsed x n old = old.
Proof. intros Hc. unfold cache_noted, cache_is_enabled. rewrite Hc. by destruct (_ !! _). Qed.
(** ** Lemmas: requests that the filter stops *)

(** A request the filter does not let through is over, the network and the
    disk cache out of it. *)
Lemma serve_stopped env elapsed given p :
  fst (Router_request_filter env (px_world p)) ≠ Ok false →
  serve env elapsed given p = (_ ← on_world (Router_request_filter env); mret Handled) p.
Proof.
  intros Hf. unfold serve, on_world, zoom, mbind, M_bind.
  by destruct (Router_request_filter env (px_world p)) as [[[]| |] w].
Qed.

Lemma filter_stopped env w r w' :
  Router_request_filter env w = (r, w') → r ≠ Ok false →
  route_store w' = route_store w ∧ cache_routing w' = cache_routing w.
Proof.
  intros Hf Hr. destruct (route_store w !! request_host (exchange w)) as [c|] eqn:Ec.
  - rewrite (request_filter_known env w c Ec) in Hf. revert Hf.
    destruct (path_rejected _ _).
    { unfold mbind, M_bind, on_exchange, zoom. by destruct (on_session _ _) as [[] ?]; intros [= <- <-]. }
    unfold on_exchange, zoom, catch_ok, mbind at 1, M_bind at 1. cbn [exchange set_exchange].
    destruct (execute_request_plugins env _ _) as [[[]|e|] x1]; [by intros [= <- <-]| |..|by intros [= <- <-]];
      unfold mbind, M_bind; destruct (enable_cache _ _) as [r1 w1] eqn:Een;
      apply enable_cache_onward in Een as (-> & _); by intros [= <- <-].
  - by destruct (filter_unknown _ _ _ _ Ec Hf).
Qed.

Lemma filter_no_err env w e :
  healthy (exchange w) → fst (Router_request_filter env w) ≠ Err e.
Proof.
  intros Hx. destruct (route_store w !! request_host (exchange w)) as [c|] eqn:Ec;
    [|by rewrite request_filter_unknown].
  rewrite (request_filter_known env w c Ec). destruct (path_rejected _ _).
  { unfold mbind, M_bind, on_exchange, zoom, respond_error. simpl. by rewrite on_session_downstream. }
  unfold on_exchange, zoom, catch_ok, mbind at 1, M_bind at 1. cbn [exchange set_exchange].
  destruct (execute_request_plugins env _ _) as [[[]| |] x1]; [done|..|done];
    unfold mbind, M_bind; destruct (enable_cache _ _) as [r1 w1] eqn:Een;
    by apply enable_cache_onward in Een as (-> & _).
Qed.

(** The WWW-Authenticate text for a host. *)
Definition challenge_text (host : string) : string :=
  "Basic realm=" +:+ dquote +:+ host +:+ dquote +:+ ", charset=" +:+ dquote +:+ "UTF-8" +:+ dquote.

(** No credentials, or text credentials that are not the configured ones. *)
Definition wrong_credentials (x : Exchange) (user pass : string) : Prop :=
  hm_get (req_headers (session x)) "authorization" = None ∨
  ∃ auth, presents x auth ∧
    (starts_with "Basic " auth = false ∨
     ∃ bytes, decode_block (trim_start_matches "Basic " auth) = Some bytes ∧ utf8_valid bytes = true ∧
       default ("", "") (split_once ":" bytes) ≠ (user, pass)).

Lemma basic_auth_stops env config user pass plugin x :
  healthy x → insertable "www-authenticate" (challenge_text (ctx_host (ctx x))) →
  plugin_config plugin = Some config → get_auth_config config = Some (user, pass) →
  wrong_credentials x user pass → fst (request_plugin_step env "basic_auth" plugin x) = Ok true.
Proof.
  intros Hx Hins Hp Hc Hw.
  assert (Hask : fst (ask_credentials x) = Ok true).
  { unfold ask_credentials. rewrite (bind_ok _ _ _ (ctx_host (ctx x)) x) by done.
    destruct (Hins hm_new) as [h Eh]. unfold challenge_text in Eh.
    rewrite (bind_ok _ _ _ (mkResponseHeader _ 401 h) x).
    2: { unfold lift, respond_with_authenticate, insert_header, build_no_case. simpl. simpl in Eh.
         by rewrite Eh. }
    unfold write_response_header. by rewrite (bind_ok _ _ _ _ _ (on_session_downstream _ _ Hx)). }
  change (fst (is_ok_and (E := error) (BasicAuth_request_filter env plugin) x) = Ok true).
  assert (Hrun : BasicAuth_request_filter env plugin x = ask_credentials x).
  { unfold BasicAuth_request_filter. rewrite Hp, Hc. unfold gets, mbind, M_bind, lift.
    destruct Hw as [-> |(auth & (h & Hh & Ha) & [Hs|(bytes & Hb & Hu & Hne)])]; [done|..];
      rewrite Hh, Ha; simpl.
    - by rewrite Hs.
    - destruct (starts_with "Basic " auth); [|done]. simpl.
      unfold validate_auth_header, ok_or, from_utf8, mbind, res_bind. rewrite Hb, Hu.
      destruct (default ("", "") (split_once ":" bytes)) as [u w].
      destruct (String.eqb_spec u user) as [-> |]; [|done].
      by destruct (String.eqb_spec w pass) as [-> |]. }
  unfold is_ok_and. rewrite Hrun. by destruct (ask_credentials x) as [[]].
Qed.
(** ** Lemmas: the cache on the way *)

(** Header values that are text, which is what the metadata file can keep. *)
Definition textual (h : HeaderMap) : Prop := ∀ k v, (k, v) ∈ hm_iter h → header_to_str v = Some v.

Lemma textual_values `{!HeaderLaws} h :
  textual h ↔ ∀ n v, v ∈ hm_get_all h n → header_to_str v = Some v.
Proof.
  split.
  - intros Ht n v. rewrite hm_iter_get_all, list_elem_of_fmap.
    intros ([k v'] & -> & [_ Hin]%list_elem_of_filter). by apply (Ht k).
  - intros Hv k v Hin. apply (Hv k). rewrite hm_iter_get_all, list_elem_of_fmap. exists (k, v).
    split; [done|]. apply list_elem_of_filter. split; [|done]. symmetry. by eapply hm_iter_lower.
Qed.

Lemma textual_Forall h : Forall (λ kv, header_to_str kv.2 = Some kv.2) (hm_iter h) → textual h.
Proof. intros Hh k v Hin. rewrite Forall_forall in Hh. exact (Hh _ Hin). Qed.

Lemma stamped_textual `{!HeaderLaws} env c h h' :
  textual h → header_to_str (env_uuid env) = Some (env_uuid env) →
  (∀ n, hm_get_all h' n = stamped env c n (hm_get_all h n)) → textual h'.
Proof.
  rewrite !textual_values. intros Ht Hid Hg n v. rewrite Hg. unfold stamped.
  case_decide; [by intros ->%list_elem_of_singleton|apply Ht].
Qed.

Lemma collect_textual l m :
  (∀ k v, (k, v) ∈ l → header_to_str v = Some v) → ∃ m', collect_headers l m = Ok m'.
Proof.
  revert m. induction l as [|[k v] l IH]; intros m Hl; [by eexists|]. simpl.
  unfold mbind, res_bind. rewrite (Hl k v) by by left. simpl. apply IH. intros k' v' Hin.
  apply (Hl k'). by right.
Qed.

Lemma textual_metadata meta :
  textual (resp_headers (response_header meta)) → ∃ item, DiskCacheItemMetadata_from meta = Ok item.
Proof.
  intros Ht. destruct (collect_textual _ ∅ Ht) as [m Em]. unfold DiskCacheItemMetadata_from, mbind, res_bind.
  rewrite Em. by eexists.
Qed.

(** The metadata with which a response is admitted. *)
Definition admission (env : Env) (cache : RouteCache) (resp : ResponseHeader) : CacheMeta :=
  CacheMeta_new (env_now env + rc_expires_in_secs cache) (env_now env)
    (rc_stale_while_revalidate_secs cache) (rc_stale_if_error_secs cache) resp.

Lemma receive_cached `{!HeaderLaws, !HashIterLaws} env a x cache :
  insertable "x-request-id" (env_uuid env) → identified env x → cache_is_enabled (session x) = true →
  rsc_cache (route_container (ctx x)) = Some cache → req_method (session x) ∈ CACHEABLE_METHODS →
  (env_now env + rc_expires_in_secs cache <= systime_max)%N →
  over_limit (cache_max_file_size (session x)) (resp_headers (ans_header a)) = false →
  ∃ resp x', receive_header env a x = (Ok (resp, Some (admission env cache resp)), x') ∧
    resp_status resp = resp_status (ans_header a) ∧ onward x x' ∧ same_cache x x' ∧
    written (session x') = written (session x) ∧ ctx_upstream (ctx x') = ctx_upstream (ctx x) ∧
    extensions (ctx x') !! "cache_state" = Some "fwd=miss" ∧
    ∀ n, hm_get_all (resp_headers resp) n =
      stamped env (route_container (ctx x)) n (hm_get_all (resp_headers (ans_header a)) n).
Proof.
  intros Hid Hx Hon Hc Hm Hov Hsize. destruct (upstream_response env x (ans_header a) Hid Hx) as (resp & E1 & Hs & Hg).
  exists resp. unfold receive_header. rewrite (bind_ok _ _ _ _ _ E1), (bind_ok _ _ _ true x).
  2: { unfold gets. by rewrite Hon. }
  rewrite (bind_ok _ _ _ (Cacheable (admission env cache resp)) x).
  2: { unfold response_cache_filter, gets, lift, unwrap, checked_add_secs, mbind, M_bind, mret, M_ret.
       rewrite Hc, bool_decide_true by done. simpl. by rewrite (proj2 (N.leb_le _ _) Hov). }
  rewrite (bind_ok _ _ _ (cache_max_file_size (session x)) x) by done.
  assert (over_limit (cache_max_file_size (session x)) (resp_headers resp) = false) as ->.
  { rewrite <- Hsize. unfold over_limit, declared_length, hm_get. rewrite Hg. unfold stamped.
    by rewrite decide_False by (intros [_ ?]; discriminate). }
  eexists. split; [reflexivity|]. split_and!; [done| |done|done|done|apply lookup_insert_eq|done].
  split; try done; [by left|]. simpl. by rewrite lookup_insert_ne.
Qed.

(** A response within the limit: its length as declared, if it is, and as sent. *)
Definition small (a : Answer) : Prop :=
  over_limit (Some max_size) (resp_headers (ans_header a)) = false ∧
  (N.of_nat (String.length (concat_str (ans_body a))) <= max_size)%N.

Lemma within_all limit chunks :
  (N.of_nat (String.length (concat_str chunks)) <= limit)%N → within limit chunks = (chunks, true).
Proof.
  revert limit. induction chunks as [|c rest IH]; intros limit Hle; [done|].
  simpl in Hle. rewrite length_app_str in Hle. simpl.
  rewrite (proj2 (N.leb_le _ _)) by lia. by rewrite IH by lia.
Qed.

Lemma admit_small key meta a : small a → admit_limited (Some max_size) key meta (ans_body a) = cache_response key meta (ans_body a).
Proof. intros [_ Hle]. unfold admit_limited. by rewrite within_all. Qed.

(** Whatever the limit, an admission is that of a front part of the body. *)
Lemma admit_part limit key meta chunks :
  ∃ part, part `prefix_of` chunks ∧ ∀ s, admit_limited limit key meta chunks s = cache_response key meta part s.
Proof.
  destruct limit as [n|]; [|by exists chunks]. unfold admit_limited.
  assert (Hp : (within n chunks).1 `prefix_of` chunks).
  { revert n. induction chunks as [|c rest IH]; intros n; [done|]. simpl. destruct (_ <=? _)%N; [|apply prefix_nil].
    specialize (IH (n - N.of_nat (String.length c))%N). destruct (within _ rest) as [l whole]. by apply prefix_cons. }
  destruct (within n chunks) as [l []]; exists l; (split; [done|]); intros s; [done|apply interrupted_eq].
Qed.

(** From the upstream to the client, the cache admitting the response. *)
Lemma caching_upstream `{!HeaderLaws, !HashIterLaws, !LbLaws} env elapsed p b cache :
  let x := px_exchange p in
  let c := route_container (ctx x) in
  healthy x → container_ok c → headers_valid c → select (load_balancer c) = Some b →
  insertable "x-request-id" (env_uuid env) → identified env x →
  rsc_cache c = Some cache → cache_storage (session x) = Some RouteCacheType_Disk →
  req_method (session x) ∈ CACHEABLE_METHODS →
  (env_now env + rc_expires_in_secs cache <= systime_max)%N →
  insertable "cache-duration" (show_N elapsed) → insertable "cache-status" "fwd=miss" →
  (∀ peer req, small (answer peer req)) →
  ∃ peer req r resp x', peer_backend peer = b ∧
    (∀ n, hm_get_all (resp_headers r) n =
       stamped env c n (hm_get_all (resp_headers (ans_header (answer peer req))) n)) ∧
    resp_status r = resp_status (ans_header (answer peer req)) ∧
    ∀ s', cache_response (cache_key_callback x) (admission env cache r) (ans_body (answer peer req))
            (px_storage p) = (Ok tt, s') →
      from_upstream env elapsed p = (Ok (FromUpstream peer req resp), put_exchange x' (set_disk s' p)).
Proof.
  intros x c Hx Hok Hv Hsel Hid Hi Hc Hon Hm Hov Hdur Hst Hsmall.
  destruct (send_upstream_ok env x b) as (peer & req & x2 & E2 & Hb & Hin & Ho & Hw2 & Hpe & Hst2 & Hmax2 & Hreq);
    [done..|].
  assert (Hen : cache_is_enabled (session x) = true) by (unfold cache_is_enabled; by rewrite Hon).
  specialize (Hmax2 Hen).
  pose proof (onward_container _ _ Ho) as Hc2.
  assert (Hi2 : identified env x2) by (unfold identified; by rewrite Hc2, (onward_id _ _ Ho)).
  destruct (receive_cached env (answer peer req) x2 cache Hid Hi2)
    as (r & x3 & E3 & Hs3 & Ho3 & [Hst3 Hmax3] & Hw3 & Hu3 & Hstate & Hg3);
    [|by rewrite Hc2|by rewrite (onward_method _ _ Ho)|done|by rewrite Hmax2; apply Hsmall|].
  { unfold cache_is_enabled. by rewrite Hst2, Hon. }
  assert (Ho13 : onward x x3) by by transitivity x2.
  destruct (answer_written elapsed x3 r (ans_body (answer peer req)))
    as (resp & x4 & E4 & _ & _ & _);
    [by apply (onward_healthy _ _ Ho13)|by rewrite (onward_container _ _ Ho13)| |].
  { intros _. split; [done|]. rewrite Hstate. by intros ? [= <-]. }
  exists peer, req, r, resp, x4. rewrite Hc2 in Hg3. split_and!; [done..|]. intros s' Hs'.
  unfold from_upstream. rewrite (bind_ok _ _ _ _ _ (on_request_ok _ p _ _ E2)).
  rewrite (bind_ok _ _ _ _ _ (on_request_ok _ (put_exchange x2 p) _ _ E3)). rewrite put_put.
  rewrite (bind_ok _ _ _ (cache_key_callback x) (put_exchange x3 p)).
  2: { unfold gets, cache_key_callback. rewrite px_put.
       by rewrite (onward_host _ _ Ho13), (onward_uri _ _ Ho13). }
  rewrite (bind_ok _ _ _ (Some RouteCacheType_Disk) (put_exchange x3 p)).
  2: { unfold gets. rewrite px_put. by rewrite Hst3, Hst2, Hon. }
  rewrite (bind_ok _ _ _ (Some max_size) (put_exchange x3 p)).
  2: { unfold gets. rewrite px_put. by rewrite Hmax3, Hmax2. }
  rewrite (bind_ok _ _ _ tt (set_disk s' (put_exchange x3 p))).
  2: { rewrite admit_small by apply Hsmall. unfold mbind, M_bind, on_disk, catch_ok, zoom. unfold px_storage in Hs'.
       setoid_rewrite Hs'. done. }
  by rewrite (bind_ok _ _ _ _ _ (on_request_ok _ (set_disk s' (put_exchange x3 p)) _ _ E4)).
Qed.

(** A fresh hit is read and answered, the network out of it. *)
Lemma serve_hit `{!HeaderLaws} env elapsed given p w found h :
  let s := px_storage (set_world w p) in
  let key := cache_key_callback (exchange w) in
  let c := route_container (ctx (exchange w)) in
  let slices := fst (read_slices given key h s) in
  Router_request_filter env (px_world p) = (Ok false, w) → healthy (exchange w) → headers_valid c →
  cache_storage (session (exchange w)) = Some RouteCacheType_Disk →
  lookup_cache key s = (Ok (Some (found, h)), s) →
  is_fresh found (env_now env) = true →
  insertable "cache-duration" (show_N elapsed) → insertable "cache-status" "hit" →
  ∃ resp p', serve env elapsed given p = (Ok (FromCache resp), p') ∧
    resp_status resp = resp_status (response_header found) ∧
    (∀ n, hm_get_all (resp_headers resp) n =
       if decide (same_name "cache-duration" n) then [show_N elapsed]
       else if decide (same_name "cache-status" n) then ["hit"]
       else route_edits c n (hm_get_all (resp_headers (response_header found)) n)) ∧
    written (session (px_exchange p')) =
      written (session (exchange w)) ++ WriteHeader resp false :: ((λ t, WriteBody t false) <$> slices) ∧
    px_disk p' = snd (read_slices given key h s) ∧
    route_store (px_world p') = route_store w ∧ cache_routing (px_world p') = cache_routing w.
Proof.
  intros s key c slices Hf Hx Hv Hst Hlook Hfresh Hdur Hhit. set (p1 := set_world w p) in *.
  set (x2 := snd (insert_extension "cache_state" "hit" (exchange w))).
  destruct (answer_written elapsed x2 (response_header found) slices)
    as (resp & x3 & E4 & Hs & Hg & _ & _ & _ & Hw); [exact Hx|exact Hv| |].
  { intros _. split; [done|]. unfold x2. simpl. rewrite lookup_insert_eq. by intros ? [= <-]. }
  set (s' := snd (read_slices given key h s)).
  exists resp, (put_exchange x3 (set_disk s' p1)).
  split_and!; [|done| |exact Hw|done|done|done].
  - unfold serve. rewrite (bind_ok _ _ _ false p1) by (unfold on_world, zoom; by rewrite Hf).
    rewrite (bind_ok _ _ _ (Some RouteCacheType_Disk) p1) by (unfold gets; do 2 f_equal; exact Hst).
    rewrite (bind_ok _ _ _ key p1) by done.
    rewrite (bind_ok _ _ _ (Some (Some (found, h))) (set_disk s p1)).
    2: { unfold on_disk, catch_ok, zoom. fold s. by rewrite Hlook. }
    rewrite (bind_ok _ _ _ false (put_exchange x2 (set_disk s p1))).
    2: { apply on_request_ok. unfold cache_hit_filter. by rewrite Hfresh. }
    unfold from_cache.
    rewrite (bind_ok _ _ _ slices (put_exchange x2 (set_disk s' p1))).
    2: { unfold read_hit, slices, s', read_slices.
         change (px_storage (put_exchange x2 (set_disk s p1))) with s. destruct h as [h|h]; [|done].
         by destruct (read_all given h s). }
    by rewrite (bind_ok _ _ _ _ _ (on_request_ok _ (put_exchange x2 (set_disk s' p1)) _ _ E4)).
  - intros n. rewrite Hg. unfold cache_noted, cache_is_enabled, x2. simpl. rewrite lookup_insert_eq, Hst. done.
Qed.

Lemma insert_cache_routing_idem k v t :
  insert_cache_routing k v false (insert_cache_routing k v false t) = insert_cache_routing k v false t.
Proof.
  unfold insert_cache_routing. destruct (t !! k) eqn:E; [by rewrite E|].
  unfold PathCacheStorage in *. by rewrite lookup_insert_eq.
Qed.

(** A request that can be answered and cached: what it needs of the route, the
    client, the clock and the disk, nothing of the entry being there yet. *)
Record caching_request (env : Env) (p : Proxy) (w : World) (cache : RouteCache) (b : Backend) : Prop := {
  cr_filter : Router_request_filter env (px_world p) = (Ok false, w);
  cr_client : healthy (px_exchange p);
  cr_route : container_ok (route_container (ctx (exchange w)));
  cr_headers : headers_valid (route_container (ctx (exchange w)));
  cr_select : select (load_balancer (route_container (ctx (exchange w)))) = Some b;
  cr_cache : rsc_cache (route_container (ctx (exchange w))) = Some cache;
  cr_enabled : rc_enabled cache = Some true;
  cr_disk : rc_cache_type cache = RouteCacheType_Disk;
  cr_method : req_method (session (exchange w)) ∈ CACHEABLE_METHODS;
  cr_expiry : (env_now env + rc_expires_in_secs cache <= systime_max)%N;
  cr_ready : disk_ready (cache_key_callback (exchange w)) (px_storage (set_world w p));
  cr_memory : memory (px_disk p) !! get_memory_key (cache_key_callback (exchange w)) = None;
  cr_new : files (px_disk p) !!
    cache_path (cache_key_callback (exchange w)) (px_storage (set_world w p)) = None }.

(** Answers with a body, a three-digit status and text headers, within the size
    limit. *)
Definition plain_answers : Prop := ∀ peer req,
  let a := answer peer req in
  ans_body a ≠ [] ∧ (100 ≤ resp_status (ans_header a) ≤ 999)%N ∧
  textual (resp_headers (ans_header a)) ∧ small a.

(** The first such request: an answer from the upstream, and the entry that it
    leaves on the disk. *)
Lemma first_request `{!HeaderLaws, !HashIterLaws, !LbLaws, !CacheMetaLaws, !MetaJsonLaws}
    env elapsed given p w cache b :
  caching_request env p w cache b → plain_answers →
  (∀ k v, header_to_str v = Some v → insertable k v) → (∀ item, is_Some (meta_to_json item)) →
  Forall (λ t, header_to_str t = Some t) [env_uuid env; "fwd=miss"; show_N elapsed] →
  let c := route_container (ctx (exchange w)) in
  let key := cache_key_callback (exchange w) in
  ∃ peer req resp p' item json, serve env elapsed given p = (Ok (FromUpstream peer req resp), p') ∧
    let a := answer peer req in
    peer_backend peer = b ∧ px_world (put_exchange (exchange w) p') = w ∧
    disk_routing (px_disk p') = cache_routing w ∧ meta_to_json item = Some json ∧
    entry_kept key item json (concat_str (ans_body a)) (px_disk p') ∧
    let found := rebuild_meta item in
    (∀ now, (now < env_now env + rc_expires_in_secs cache)%N → is_fresh found now = true) ∧
    resp_status (response_header found) = resp_status (ans_header a) ∧
    ∀ n, hm_get_all (resp_headers (response_header found)) n =
      option_list (last (stamped env c n (hm_get_all (resp_headers (ans_header a)) n))).
Proof.
  intros [] Hplain Hins Hjson Htexts c key.
  apply Forall_cons in Htexts as [Hid [Hmiss [Hel _]%Forall_cons]%Forall_cons].
  destruct (filter_passed _ _ _ cr_filter0) as (_ & Hstore & Hident & Hheal & _).
  destruct (filter_caches _ _ _ _ cr_filter0 cr_cache0 cr_enabled0) as [Hst _]. rewrite cr_disk0 in Hst.
  set (p1 := set_world w p). set (s := px_storage p1). set (p2 := set_disk s p1).
  assert (Hnone : files s !! cache_path key s = None) by exact cr_new0.
  destruct (caching_upstream env elapsed p2 b cache)
    as (peer & req & r & resp & x' & Hb & Hg & Hs & Hserve); try done;
    [by apply Hheal|by apply Hins..|by intros; apply Hplain|].
  destruct (Hplain peer req) as (Hbody & Hstatus & Htext & _).
  assert (Hfields : fresh_until (admission env cache r) = (env_now env + rc_expires_in_secs cache)%N ∧
    response_header (admission env cache r) = r) by (unfold admission; split; apply CacheMeta_fields).
  destruct Hfields as [Hfresh Hresp].
  destruct (textual_metadata (admission env cache r)) as [item Hitem].
  { rewrite Hresp. by eapply stamped_textual. }
  destruct (Hjson item) as [json Hj]. destruct (item_fields _ _ Hitem) as (Hst' & _ & Hfr & _).
  destruct (admission_kept key (admission env cache r) (ans_body (answer peer req)) s item json)
    as (s' & Ha & Hrout & Hkept); try done.
  assert (Hh : response_header (rebuild_meta item) = convert_headers item)
    by (unfold rebuild_meta; apply CacheMeta_fields).
  exists peer, req, resp, (put_exchange x' (set_disk s' p2)), item, json. split.
  - unfold serve. rewrite (bind_ok _ _ _ false p1) by (unfold on_world, zoom; by rewrite cr_filter0).
    rewrite (bind_ok _ _ _ (Some RouteCacheType_Disk) p1) by (unfold gets; do 2 f_equal; exact Hst).
    rewrite (bind_ok _ _ _ key p1) by done.
    rewrite (bind_ok _ _ _ (Some None) p2).
    2: { unfold on_disk, catch_ok, zoom, lookup_cache, get_state, mbind, M_bind, mret, M_ret. fold s.
         change (memory s) with (memory (px_disk p)). unfold key. rewrite cr_memory0. fold key.
         unfold read_file. rewrite Hnone. by destruct (can_read _). }
    apply Hserve. exact Ha.
  - cbv zeta. rewrite Hh. split_and!; try done.
    + exact (set_exchange_self w x').
    + intros now Hnow. unfold rebuild_meta. rewrite Hfr, Hfresh. by apply is_fresh_before.
    + rewrite convert_status; rewrite Hst', Hresp, Hs; done.
    + intros n. rewrite (stored_headers_spec _ _ _ n Hitem (λ k v h Hv, Hins k v Hv h)), Hresp, Hg. done.
Qed.

(** A forwarded request, from end to end. *)
Lemma forwarded `{!HeaderLaws, !HashIterLaws, !LbLaws} env elapsed given p w b
    (Hfilter : Router_request_filter env (px_world p) = (Ok false, w))
    (Hx : healthy (px_exchange p))
    (Hok : container_ok (route_container (ctx (exchange w))))
    (Hvalid : headers_valid (route_container (ctx (exchange w))))
    (Hid : insertable "x-request-id" (env_uuid env))
    (Hoff : cache_storage (session (exchange w)) = None)
    (Hsel : select (load_balancer (route_container (ctx (exchange w)))) = Some b) :
  let c := route_container (ctx (exchange w)) in
  ∃ peer req resp p', serve env elapsed given p = (Ok (FromUpstream peer req resp), p') ∧
    peer_backend peer = b ∧ ctx_upstream (ctx (px_exchange p')) ∈ rsc_upstreams c ∧
    (∀ n, hm_get_all (up_req_headers req) n =
       as_sent env c (ctx_upstream (ctx (px_exchange p'))) n
         (hm_get_all (req_headers (session (px_exchange p))) n)) ∧
    resp_status resp = resp_status (ans_header (answer peer req)) ∧
    (∀ n, hm_get_all (resp_headers resp) n =
       route_edits c n (stamped env c n (hm_get_all (resp_headers (ans_header (answer peer req))) n))) ∧
    written (session (px_exchange p')) =
      written (session (exchange w)) ++
        WriteHeader resp false :: ((λ t, WriteBody t false) <$> ans_body (answer peer req)) ∧
    extensions (ctx (px_exchange p')) !! "peer" = Some (peer_address peer) ∧
    onward (exchange w) (px_exchange p') ∧ px_disk p' = px_disk p ∧ route_store (px_world p') = route_store (px_world p).
Proof.
  intros c. destruct (filter_passed _ _ _ Hfilter) as (_ & Hstore & Hident & Hheal & _ & Hhead & _).
  set (p1 := set_world w p).
  destruct (send_upstream_ok env (exchange w) b) as (peer & req & x2 & E2 & Hb & Hin & Ho & Hw2 & Hpe & Hst2 & _ & Hreq);
    [done..|].
  pose proof (onward_container _ _ Ho) as Hc2.
  assert (Hi2 : identified env x2) by (unfold identified; by rewrite Hc2, (onward_id _ _ Ho)).
  assert (Hoff2 : cache_storage (session x2) = None) by by rewrite Hst2.
  destruct (receive_uncached env (answer peer req) x2 Hid Hi2 Hoff2) as (r1 & E3 & Hs3 & Hg3).
  destruct (answer_written elapsed x2 r1 (ans_body (answer peer req)))
    as (resp & x3 & E4 & Hs4 & Hg4 & Hctx & _ & Ho4 & Hw4);
    [by apply (onward_healthy _ _ Ho), Hheal|by rewrite Hc2|unfold cache_is_enabled; by rewrite Hoff2|].
  assert (Hup : from_upstream env elapsed p1 = (Ok (FromUpstream peer req resp), put_exchange x3 p1)).
  { unfold from_upstream. rewrite (bind_ok _ _ _ _ _ (on_request_ok _ p1 _ _ E2)).
    rewrite (bind_ok _ _ _ _ _ (on_request_ok _ (put_exchange x2 p1) _ _ E3)).
    rewrite (bind_ok _ _ _ (cache_key_callback x2) (put_exchange x2 p1)) by done.
    rewrite (bind_ok _ _ _ (cache_storage (session x2)) (put_exchange x2 p1)) by done.
    rewrite (bind_ok _ _ _ (cache_max_file_size (session x2)) (put_exchange x2 p1)) by done.
    rewrite (bind_ok _ _ _ tt (put_exchange x2 p1)) by done.
    by rewrite (bind_ok _ _ _ _ _ (on_request_ok _ (put_exchange x2 p1) _ _ E4)). }
  exists peer, req, resp, (put_exchange x3 p1). unfold serve.
  rewrite (bind_ok _ _ _ false p1) by (unfold on_world, zoom; by rewrite Hfilter).
  rewrite (bind_ok _ _ _ None p1) by (unfold gets; do 2 f_equal; exact Hoff). rewrite Hup.
  assert (Ho3 : onward (exchange w) x3) by by transitivity x2.
  cbn [px_exchange px_world put_exchange set_world exchange set_exchange px_disk p1 route_store].
  unfold px_exchange. rewrite Hctx. split_and!; [done..| |congruence| | |done|done|done|done].
  - intros n. rewrite Hreq. by rewrite Hhead.
  - intros n. rewrite Hg4, cache_noted_off, Hg3, Hc2 by done. done.
  - rewrite Hw4, Hw2. done.
Qed.

End phases.

(** ** Lemmas: the requests after one that was cached *)

Section later.
Context `{HttpApi, LbApi, PathTreeApi, Base64, JwtApi, ShortCrypt, CookieApi, HttpClient, HashIter}.
Context `{Dns} `{!CacheMetaApi} `{MetaJson, CacheHash, Disk}.
Implicit Types p q : Proxy.

(** A later request: its moment, its reading of a hit, its exchange, and the
    upstreams as they are then. *)
Record Later := mkLater {
  lt_env : Env;
  lt_elapsed : N;
  lt_given : list (option nat);
  lt_exchange : Exchange;
  lt_upstreams : Network }.

Definition next_request (v : Later) (p : Proxy) : res error Served * Proxy :=
  serve (net := lt_upstreams v) (lt_env v) (lt_elapsed v) (lt_given v) (put_exchange (lt_exchange v) p).
Fixpoint after_requests (l : list Later) (p : Proxy) : Proxy :=
  match l with [] => p | v :: l => after_requests l (snd (next_request v p)) end.

(** What the filter says of it, with the tables of [p]. *)
Definition filtered (p : Proxy) (v : Later) : res error bool * World :=
  Router_request_filter (lt_env v) (px_world (put_exchange (lt_exchange v) p)).

(** It is answered by the filter; or it is one for the host and path of [x]
    before [expiry], on a healthy connection, which reads a hit of [len] bytes to
    its end. *)
Definition turned_away (p : Proxy) (v : Later) : Prop :=
  fst (filtered p v) ≠ Ok false ∧ fst (filtered p v) ≠ Panic.
Record reader (p : Proxy) (x : Exchange) (expiry : N) (len : nat) (v : Later) : Prop := {
  rd_filter : fst (filtered p v) = Ok false;
  rd_client : healthy (lt_exchange v);
  rd_host : request_host (lt_exchange v) = request_host x;
  rd_path : cached_path (lt_exchange v) = cached_path x;
  rd_fresh : (env_now (lt_env v) < expiry)%N;
  rd_given : Forall is_Some (lt_given v);
  rd_long : (len < length (lt_given v))%nat;
  rd_text : header_to_str (show_N (lt_elapsed v)) = Some (show_N (lt_elapsed v)) }.

(** What such requests leave as it was: the tables, and the entry. *)
Record cached_since (p : Proxy) (key : CacheKey) item json body (q : Proxy) : Prop := {
  cs_routes : route_store (px_world q) = route_store (px_world p);
  cs_routing : cache_routing (px_world q) = cache_routing (px_world p);
  cs_entry : entry_kept key item json body
    (mkDiskState (files (px_disk q)) (memory (px_disk q)) (cache_routing (px_world p))) }.

Lemma filtered_same p q v :
  route_store (px_world q) = route_store (px_world p) →
  cache_routing (px_world q) = cache_routing (px_world p) → filtered q v = filtered p v.
Proof.
  intros Hr Hc. unfold filtered.
  assert (px_world (put_exchange (lt_exchange v) q) = px_world (put_exchange (lt_exchange v) p)) as ->; [|done].
  unfold put_exchange, set_world, set_exchange. simpl. by rewrite Hr, Hc.
Qed.

Lemma turned_away_keeps p key item json body q v :
  cached_since p key item json body q → turned_away p v →
  cached_since p key item json body (snd (next_request v q)).
Proof.
  intros [Hr Hc He] [Ha _]. pose proof (filtered_same p q v Hr Hc) as Hf. rewrite <- Hf in Ha.
  unfold next_request. rewrite serve_stopped by exact Ha. unfold on_world, zoom, mbind, M_bind.
  pose proof (filter_stopped (lt_env v) (px_world (put_exchange (lt_exchange v) q))) as Hst.
  unfold filtered in Ha. destruct (Router_request_filter _ _) as [r w].
  destruct (Hst r w eq_refl Ha) as [Hr' Hc']. simpl in Hr', Hc'.
  destruct r as [b|e|]; simpl; (split; simpl; [by rewrite Hr'|by rewrite Hc'|exact He]).
Qed.

(** One that reads gets the entry, and leaves it. *)
Lemma reader_served `{!HeaderLaws, !HashIterLaws, !MetaJsonLaws} p q x expiry item json body v c cache key :
  cached_since p key item json body q → reader p x expiry (String.length body) v →
  meta_to_json item = Some json → (∀ now, (now < expiry)%N → is_fresh (rebuild_meta item) now = true) →
  route_store (px_world p) !! request_host x = Some c → headers_valid c →
  rsc_cache c = Some cache → rc_enabled cache = Some true → rc_cache_type cache = RouteCacheType_Disk →
  key = mkCacheKey (request_host x) (encode_block (cached_path x)) "" →
  insert_cache_routing (request_host x) (rc_path cache) false (cache_routing (px_world p)) = cache_routing (px_world p) →
  (∀ k t, header_to_str t = Some t → insertable k t) → header_to_str "hit" = Some "hit" →
  ∃ resp slices q', next_request v q = (Ok (FromCache resp), q') ∧
    cached_since p key item json body q' ∧
    resp_status resp = resp_status (response_header (rebuild_meta item)) ∧
    concat_str slices = body ∧
    written (session (px_exchange q')) = written (session (exchange (snd (filtered p v)))) ++
      WriteHeader resp false :: ((λ t, WriteBody t false) <$> slices) ∧
    ∀ n, hm_get_all (resp_headers resp) n =
      if decide (same_name "cache-duration" n) then [show_N (lt_elapsed v)]
      else if decide (same_name "cache-status" n) then ["hit"]
      else route_edits c n (hm_get_all (resp_headers (response_header (rebuild_meta item))) n).
Proof.
  intros [Hr Hc He] [Hf Hy Hhost Hpath Hnow Hg Hlen Htext] Hj Hfresh Hroute Hv Hcache Hen Hdisk -> Hidem Hins Hhit.
  pose proof (filtered_same p q v Hr Hc) as Hfq. rewrite <- Hfq in Hf |- *. unfold filtered in Hf |- *.
  destruct (Router_request_filter (lt_env v) (px_world (put_exchange (lt_exchange v) q))) as [r w] eqn:Ew.
  simpl in Hf. subst r.
  destruct (filter_passed _ _ _ Ew) as (Hr2 & Hstore & _ & Hheal & Hh2 & _ & Hu2 & _). simpl in Hr2, Hh2, Hu2, Hstore.
  assert (Hcont : route_container (ctx (exchange w)) = c).
  { rewrite Hhost, Hr, Hroute in Hr2. by injection Hr2. }
  destruct (filter_caches _ _ w cache Ew) as [Hsto Hc2]; [by rewrite Hcont|done|].
  rewrite Hdisk in Hsto. simpl in Hc2. rewrite Hhost, Hc, Hidem in Hc2.
  assert (Hkey : cache_key_callback (exchange w) = mkCacheKey (request_host x) (encode_block (cached_path x)) "").
  { unfold cache_key_callback. rewrite Hh2, Hhost, Hu2. unfold cached_path in Hpath |- *. by rewrite <- Hpath. }
  destruct (kept_found _ _ _ _ _ He Hj) as (h & Hlook & Hread). specialize (Hread _ Hg Hlen).
  assert (Hview : px_storage (set_world w (put_exchange (lt_exchange v) q)) =
    mkDiskState (files (px_disk q)) (memory (px_disk q)) (cache_routing (px_world p)))
    by (unfold px_storage; simpl; by rewrite Hc2).
  destruct (serve_hit (net := lt_upstreams v) (lt_env v) (lt_elapsed v) (lt_given v)
    (put_exchange (lt_exchange v) q) w (rebuild_meta item) h)
    as (resp & q' & E & Hs2 & Hg2 & Hw2 & Hd2 & Hr2' & Hc2'); rewrite ?Hview, ?Hcont, ?Hkey;
    [done|by apply Hheal|done|done|done|by apply Hfresh|by apply Hins..|].
  rewrite Hview, Hkey in Hd2, Hw2. rewrite Hcont in Hg2.
  destruct (read_slices _ _ h _) as [slices s']. destruct Hread as (Hbody & Hrout & Hkept).
  exists resp, slices, q'. split_and!; try done. split.
  - by rewrite Hr2', Hstore.
  - by rewrite Hc2', Hc2.
  - rewrite Hd2. simpl in Hrout |- *. rewrite <- Hrout. by destruct s'.
Qed.
End later.

(** ** Properties *)

Section properties.
Context `{HttpApi, LbApi, PathTreeApi, Base64, JwtApi, ShortCrypt, CookieApi, HttpClient, HashIter}.
Context `{Dns} `{!CacheMetaApi} `{MetaJson, CacheHash, Disk} {net : Network}.
Implicit Types x y : Exchange.
Implicit Types p : Proxy.

(** A request while [now] is the resolver. *)
Definition serve_at (now : Dns) (env : Env) (elapsed : N) (given : list (option nat)) : M Proxy error Served :=
  serve env elapsed given.

(** C7. A forwarded request, from end to end: on a healthy connection, a
    request the filter lets through, on a route that can be served, whose
    cache is off, whose headers are valid, and whose balancer selects a
    backend, is sent to that backend with, per name, the client's headers, those
    its upstream adds in their place and the request identifier in theirs; the
    client gets, after what plugins wrote, the status, the edited headers and
    the body the upstream answered, the last recorded as peer; nothing
    is cached and no route changes. *)
Theorem forwarded_exchange (Hl : HeaderLaws) (Hit : HashIterLaws) (Hlb : LbLaws)
    env elapsed given p w b
    (Hfilter : Router_request_filter env (px_world p) = (Ok false, w))
    (Hx : healthy (px_exchange p))
    (Hok : container_ok (route_container (ctx (exchange w))))
    (Hvalid : headers_valid (route_container (ctx (exchange w))))
    (Hid : insertable "x-request-id" (env_uuid env))
    (Hoff : cache_storage (session (exchange w)) = None)
    (Hsel : select (load_balancer (route_container (ctx (exchange w)))) = Some b) :
  let c := route_container (ctx (exchange w)) in
  ∃ peer req resp p', serve env elapsed given p = (Ok (FromUpstream peer req resp), p') ∧
    peer_backend peer = b ∧ ctx_upstream (ctx (px_exchange p')) ∈ rsc_upstreams c ∧
    (∀ n, hm_get_all (up_req_headers req) n =
       as_sent env c (ctx_upstream (ctx (px_exchange p'))) n
         (hm_get_all (req_headers (session (px_exchange p))) n)) ∧
    resp_status resp = resp_status (ans_header (answer peer req)) ∧
    (∀ n, hm_get_all (resp_headers resp) n =
       route_edits c n (stamped env c n (hm_get_all (resp_headers (ans_header (answer peer req))) n))) ∧
    written (session (px_exchange p')) =
      written (session (exchange w)) ++
        WriteHeader resp false :: ((λ t, WriteBody t false) <$> ans_body (answer peer req)) ∧
    extensions (ctx (px_exchange p')) !! "peer" = Some (peer_address peer) ∧
    px_disk p' = px_disk p ∧ route_store (px_world p') = route_store (px_world p).
Proof.
  intros c. destruct (forwarded env elapsed given p w b Hfilter Hx Hok Hvalid Hid Hoff Hsel)
    as (peer & req & resp & p' & E1 & E2 & E3 & E4 & E5 & E6 & E7 & E8 & _ & E9).
  by exists peer, req, resp, p'.
Qed.

(** C6. From the configuration to the client: once the routing service has
    stored the configured routes and those of the messages, a request for the
    host of an announcement that the table follows ([RouteTable.table]: the last
    that changed the host's backends), one without a cache, on a healthy
    connection, whose path the patterns accept and whose plugins let it through,
    is answered, if the route's headers are valid, its balancer selects a
    backend and its upstreams resolve now as they did when it was stored: the
    peer is the selected backend, the upstream recorded for it one of those
    announced, and the client gets the status and body it answered, and its
    headers as the container that was built for the route edits them. *)
Theorem configured_route_answers `{!Pki, !Files} {T : Type} `{!Store T}
    (Hl : HeaderLaws) (Hit : HashIterLaws) (Hlb : LbLaws)
    (reg now : Dns) config received (s s' : Registry T) a env elapsed given p b
    (Hempty : reg_routes s = ∅) (Hrun : service_ran reg config received s s')
    (Ha : follows reg config received a) (Hnocache : an_cache a = None)
    (Hx : healthy (px_exchange p)) (Hnew : cache_storage (session (px_exchange p)) = None)
    (Hw : route_store (px_world p) = reg_routes s')
    (Hhost : request_host (px_exchange p) = an_host a)
    (Hplugins : ∀ n v, collect_plugins (default [] (an_plugins a)) !! n = Some v →
       fst (request_plugin_step env n v (addressed (px_exchange p))) = Ok false)
    (Hid : insertable "x-request-id" (env_uuid env))
    (Hbuilt : ∀ c, built_for reg a c →
       path_rejected (path_matcher c) (uri_path (req_uri (session (px_exchange p)))) = false ∧
       headers_valid c ∧ select (load_balancer c) = Some b)
    (Hdns : ∀ u, u ∈ an_upstreams a →
       to_socket_addrs (Dns := now) (upstream_text u) = to_socket_addrs (Dns := reg) (upstream_text u)) :
  ∃ c peer req resp p', built_for reg a c ∧
    serve_at now env elapsed given p = (Ok (FromUpstream peer req resp), p') ∧
    peer_backend peer = b ∧ ctx_upstream (ctx (px_exchange p')) ∈ an_upstreams a ∧
    resp_status resp = resp_status (ans_header (answer peer req)) ∧
    (∀ n, hm_get_all (resp_headers resp) n =
       route_edits c n (stamped env c n (hm_get_all (resp_headers (ans_header (answer peer req))) n))) ∧
    (∃ before, written (session (px_exchange p')) =
       before ++ WriteHeader resp false :: ((λ t, WriteBody t false) <$> ans_body (answer peer req))).
Proof.
  destruct (announced_route_passes reg config received s s' a env (px_world p)) as (w & Hf & Hc); try done.
  { intros c Hc. by apply Hbuilt. }
  destruct (Hbuilt _ Hc) as (_ & Hvalid & Hsel). pose proof Hc as (lb & Hlb' & Hb).
  pose proof (build_container_fields _ _ _ _ _ _ _ _ Hb) as (_ & Hus & _ & _ & Hca).
  assert (Hoff : cache_storage (session (exchange w)) = None).
  { destruct (request_filter_forwards env (px_world p) Hx) as [_ Hfw].
    destruct (Hfw w Hf) as (_ & _ & _ & Hst). rewrite Hca in Hst. rewrite Hnocache in Hst. exact (eq_trans Hst Hnew). }
  assert (Hok : @container_ok now _ _ (route_container (ctx (exchange w)))).
  { apply (container_ok_later reg now); [intros u; rewrite Hus; apply Hdns|]. by eapply (@build_container_ok _ reg). }
  destruct (forwarded env elapsed given p w b Hf Hx Hok Hvalid Hid Hoff Hsel)
    as (peer & req & resp & p' & E1 & E2 & E3 & _ & E5 & E6 & E7 & _).
  rewrite Hus in E3. exists (route_container (ctx (exchange w))), peer, req, resp, p'. split_and!; eauto.
Qed.

(** C9. Behind [basic_auth] nothing is reached without the credentials: on a
    route with that plugin, whatever other plugins it has, on a healthy
    connection and for a host whose challenge header can be set, a request with
    no Authorization header, with one of another scheme, or with well-formed
    credentials that are not the configured user and password, ends in the same
    way and the same state whatever upstreams there are, never in an answer from them or from the cache; the files and the
    memory of the cache and both shared tables are untouched. *)
Theorem wrong_credentials_reach_nothing (Hit : HashIterLaws) env elapsed given p c plugin config user pass
    (Hx : healthy (px_exchange p))
    (Hc : route_store (px_world p) !! request_host (px_exchange p) = Some c)
    (Hp : rsc_plugins c !! "basic_auth" = Some plugin)
    (Hconfig : plugin_config plugin = Some config) (Hauth : get_auth_config config = Some (user, pass))
    (Hins : insertable "www-authenticate" (challenge_text (request_host (px_exchange p))))
    (Hwrong : wrong_credentials (px_exchange p) user pass) :
  (∀ upstreams upstreams' : Network,
     serve (net := upstreams) env elapsed given p = serve (net := upstreams') env elapsed given p) ∧
  ∀ r p', serve env elapsed given p = (r, p') →
    (r = Ok Handled ∨ r = Panic) ∧ px_disk p' = px_disk p ∧
    route_store (px_world p') = route_store (px_world p) ∧
    cache_routing (px_world p') = cache_routing (px_world p).
Proof.
  assert (Hf : fst (Router_request_filter env (px_world p)) ≠ Ok false).
  { intros Hf. apply (request_filter_forwards env (px_world p) Hx) in Hf as (c' & Hc' & _ & Hall).
    unfold px_exchange in Hc. rewrite Hc in Hc'. injection Hc' as <-. specialize (Hall _ _ Hp).
    rewrite (basic_auth_stops env config user pass) in Hall; done. }
  split; [intros u u'; by rewrite !serve_stopped by done|].
  intros r p'. rewrite serve_stopped by done. unfold on_world, zoom, mbind, M_bind.
  pose proof (filter_stopped env (px_world p)) as Hst.
  destruct (Router_request_filter env (px_world p)) as [[b|e|] w] eqn:E; destruct (Hst _ _ eq_refl Hf); simpl.
  - intros [= <- <-]. by auto.
  - intros [= <- <-]. by destruct (filter_no_err env (px_world p) e Hx); rewrite E.
  - intros [= <- <-]. by auto.
Qed.

End properties.

(** ** Witnesses *)

#[local] Existing Instances toy_http toy_lb toy_pt toy_base64 toy_jwt toy_crypt toy_cookies
  toy_client toy_hash_iter toy_dns toy_meta toy_meta_json toy_disk numbered.

(** An upstream that adds a header to its requests, and answers "hello" in two
    pieces. *)
Definition edge_upstream : RouteUpstream :=
  mkRouteUpstream "10.0.0.1" 443 None None (Some "web")
    (Some (mkRouteHeader (Some [mkRouteHeaderAdd "x-up" "1"]) None)).
Definition toy_network : Network := {|
  answer := λ _ _, mkAnswer toy_http (mkResponseHeader toy_http 200
    ([("server", "x"); ("x-b", "2")] : list (string * string))) ["hel"; "lo"];
  reused := λ _, false;
  peer_address := λ _, "10.0.0.1:443" |}.
#[local] Existing Instance toy_network.

Definition edge_plugin : RoutePlugin := mkRoutePlugin "request_id" None.
Definition edge (cache : option RouteCache) : RouteStoreContainer :=
  match try_from_iter ["10.0.0.1:443"] with
  | Some lb => mkContainer _ _ lb RouteStorePathMatcher_new ["Server"] [("x-a", "1")] [edge_upstream] false
                 {["request_id" := edge_plugin]} cache
  | None => toy_container
  end.
Definition at_edge (cache : option RouteCache) (x : Exchange) : Proxy :=
  mkProxy _ _ _ (toy_world (edge cache) x) empty_disk.

Lemma edge_ok cache : container_ok (edge cache).
Proof.
  pose proof toy_lb_laws as Hl. apply (build_container_ok
    (default (load_balancer toy_container) (try_from_iter (upstream_text <$> [edge_upstream])))
    [edge_upstream] None
    (Some (mkRouteHeader (Some [mkRouteHeaderAdd "x-a" "1"]) (Some [mkRouteHeaderRemove "Server"])))
    (Some [edge_plugin]) cache false); reflexivity.
Qed.

Lemma toy_insertable k v : header_to_str v = Some v → insertable k v.
Proof. intros Hv h. simpl in *. destruct (visible v); [by eexists|discriminate]. Qed.

Lemma edge_headers cache : headers_valid (edge cache).
Proof.
  split.
  - constructor; [by apply toy_insertable|constructor].
  - intros u ->%list_elem_of_singleton. constructor; [by apply toy_insertable|constructor].
Qed.

Lemma filter_pair env w : fst (Router_request_filter env w) = Ok false →
  Router_request_filter env w = (Ok false, snd (Router_request_filter env w)).
Proof. destruct (Router_request_filter env w). simpl. by intros ->. Qed.

Lemma forwarded_exchange_witness :
  let x := toy_request "/page" [("x-up", "0")] in
  ∃ peer req resp p', serve toy_env 7 [] (at_edge None x) = (Ok (FromUpstream peer req resp), p') ∧
    peer_backend peer = ("10.0.0.1", 443%N) ∧
    hm_get_all (up_req_headers req) "x-up" = ["1"] ∧
    hm_get_all (up_req_headers req) "x-request-id" = ["5f0c2a1e-uuid"] ∧
    hm_get_all (resp_headers resp) "server" = [] ∧ hm_get_all (resp_headers resp) "x-a" = ["1"].
Proof.
  intros x.
  destruct (forwarded_exchange toy_http_laws toy_hash_iter_laws toy_lb_laws toy_env 7 [] (at_edge None x) _
    ("10.0.0.1", 443%N) (filter_pair toy_env (px_world (at_edge None x)) eq_refl))
    as (peer & req & resp & p' & E & Hb & Hu & Hreq & _ & Hresp & _);
    [reflexivity|exact (edge_ok None)|exact (edge_headers None)|by apply toy_insertable|reflexivity|reflexivity|].
  exists peer, req, resp, p'. apply list_elem_of_singleton in Hu. rewrite Hu in Hreq.
  refine (conj E (conj Hb (conj (Hreq "x-up") (conj (Hreq "x-request-id")
    (conj (Hresp "server") (Hresp "x-a")))))).
Defined.

Lemma wrong_credentials_reach_nothing_witness :
  let p := mkProxy _ _ _ (toy_world (plugged two_plugins) (toy_request "/" [("authorization", "Basic b64:bob:guess")]))
             empty_disk in
  let '(r, p') := serve toy_env 7 [] p in (r = Ok Handled ∨ r = Panic) ∧ px_disk p' = px_disk p.
Proof.
  intros p.
  destruct (wrong_credentials_reach_nothing toy_hash_iter_laws toy_env 7 [] p (plugged two_plugins)
    basic_plugin basic_config "bob" "secret") as [_ Hall];
    [reflexivity|reflexivity|reflexivity|reflexivity|reflexivity|by apply toy_insertable| |].
  { right. exists "Basic b64:bob:guess". split; [by eexists|]. right. exists "bob:guess". by split_and!. }
  destruct (serve toy_env 7 [] p) as [r p'] eqn:E. destruct (Hall r p' eq_refl) as (Hr & Hd & _).
  exact (conj Hr Hd).
Defined.

Definition edge_cache : RouteCache := toy_cache.
Lemma edge_caching x :
  request_host x = "a.test" → healthy x → req_method (session x) = "GET" →
  fst (Router_request_filter toy_env (toy_world (edge (Some edge_cache)) x)) = Ok false →
  route_container (ctx (exchange (snd (Router_request_filter toy_env (toy_world (edge (Some edge_cache)) x)))))
    = edge (Some edge_cache) →
  caching_request toy_env (at_edge (Some edge_cache) x)
    (snd (Router_request_filter toy_env (toy_world (edge (Some edge_cache)) x))) edge_cache ("10.0.0.1", 443%N).
Proof.
  intros Hh Hx Hm Hf Hc. pose proof (filter_pair _ _ Hf) as Hp. pose proof toy_hash_iter_laws as Hl.
  destruct (filter_passed _ _ _ Hp) as (_ & _ & _ & _ & _ & _ & _ & Hm2).
  split; rewrite ?Hc; [exact Hp|exact Hx|apply edge_ok|apply edge_headers|reflexivity..| |discriminate
    |by repeat split|reflexivity|apply lookup_empty].
  rewrite Hm2. simpl. rewrite Hm. by left.
Qed.

(** The first request, one from elsewhere, one that reads from disk, and one
    that reads what that left in memory. *)
Definition down_network : Network := {|
  answer := λ _ _, mkAnswer toy_http (mkResponseHeader toy_http 503 hm_new) [];
  reused := λ _, false;
  peer_address := λ _, "10.0.0.1:443" |}.
Definition revisit (now : Z) (x : Exchange) : Later := mkLater (mkEnv now "later") 3 (repeat (Some 2) 8) x down_network.

Lemma revisit_filtered p' now y :
  route_store (px_world p') = {["a.test" := edge (Some edge_cache)]} →
  fst (Router_request_filter (mkEnv now "later")
    (mkWorld _ _ _ {["a.test" := edge (Some edge_cache)]} (cache_routing (px_world p')) y)) = Ok false →
  fst (filtered p' (revisit now y)) = Ok false.
Proof. intros Hr Hf. unfold filtered, put_exchange, set_world, set_exchange. simpl px_world. by rewrite Hr. Qed.


#[local] Existing Instances toy_pki toy_files.

(** A configured route, the service that stores it, and a request. *)
Definition edge_route : Route :=
  mkRoute "a.test" None (Some [edge_plugin]) None None
    (Some (mkRouteHeader (Some [mkRouteHeaderAdd "x-a" "1"]) (Some [mkRouteHeaderRemove "Server"])))
    [edge_upstream] None.
Definition configured : Registry MemoryStore := snd (RoutingService_start [edge_route] [] empty_registry).
Definition at_configured (x : Exchange) : Proxy :=
  mkProxy _ _ _ (mkWorld _ _ _ (reg_routes configured) ∅ x) empty_disk.

Lemma configured_route_answers_witness :
  let x := toy_request "/page" [] in
  ∃ c peer req resp p', built_for toy_dns (of_route edge_route) c ∧
    serve_at toy_dns toy_env 7 [] (at_configured x) = (Ok (FromUpstream peer req resp), p') ∧
    peer_backend peer = ("10.0.0.1", 443%N) ∧ resp_status resp = 200%N.
Proof.
  intros x.
  destruct (configured_route_answers toy_http_laws toy_hash_iter_laws toy_lb_laws toy_dns toy_dns [edge_route] []
    empty_registry configured (of_route edge_route) toy_env 7 [] (at_configured x) ("10.0.0.1", 443%N))
    as (c & peer & req & resp & p' & Hc & E & Hb & _ & Hst & _);
    [reflexivity|reflexivity|reflexivity|reflexivity|reflexivity|reflexivity|reflexivity|reflexivity
    | |by apply toy_insertable| |done|].
  - intros n v Hn. change (({["request_id" := edge_plugin]} : gmap string RoutePlugin) !! n = Some v) in Hn.
    apply lookup_singleton_Some in Hn as [<- <-]. reflexivity.
  - intros c (lb & Hlb & Hc). injection Hlb as <-. injection Hc as <-. split; [reflexivity|]. split; [|reflexivity].
    exact (edge_headers None).
  - exists c, peer, req, resp, p'. exact (conj Hc (conj E (conj Hb Hst))).
Defined.
