(* ===== verification/Aborts.v ===== *)
(** Which requests end the process. The release profile (src/Cargo.toml) turns
    a panic into an abort, so one [unwrap] on the path of a request takes down
    the proxy of all hosts. Here: exactly when the oauth2 filter panics, and
    all the causes of a panic between the arrival of a request and its answer. *)
From S2P Require Import Prelude Strs Config Stores Http Routes Plugins Oauth2 Middleware Router Discovery DiskCache Caching Lifecycle.
#[local] Open Scope string_scope.
#[local] Open Scope list_scope.

(** ** Causes *)

Section causes.
Context `{HttpApi, LbApi, PathTreeApi, Base64, JwtApi, ShortCrypt, CookieApi, HttpClient, HashIter}.
Context `{Dns} `{!CacheMetaApi}.
Implicit Types x : Exchange.

(** A Cookie header that is not text. *)
Definition bad_cookie (x : Exchange) : Prop :=
  ∃ cookie, cookie ∈ hm_get_all (req_headers (session x)) "cookie" ∧ header_to_str cookie = None.

(** A callback whose state decrypts to a text that is no time and address, or
    one that gets as far as the clock, or the provider, and fails there. *)
Definition bad_callback (env : Env) (p : Provider) (vs : option Value) (x : Exchange) : Prop :=
  ∃ query code state text,
    uri_query (req_uri (session x)) = Some query ∧
    from_string_to_query_params query !! "code" = Some code ∧
    from_string_to_query_params query !! "state" = Some state ∧
    decrypt_url_component state = Some text ∧ utf8_valid text = true ∧
    (split_once ";" text = None ∨
     ∃ ts address, split_once ";" text = Some (ts, address) ∧
       (parse_u64 ts = None ∨
        ∃ n, parse_u64 ts = Some n ∧
          ((env_clock env < 0)%Z ∨
           (env_now env <= wrap64 (n + 120))%N ∧
             (get_oauth_user p code = Panic ∨
              ∃ user, get_oauth_user p code = Ok user ∧ is_authorized user vs = true ∧
                (u64_max < env_now env + one_day_in_secs)%N)))).

(** A request that is redirected to the provider, for want of a login. *)
Definition no_login (env : Env) (secret : string) (x : Exchange) : Prop :=
  ∃ found, find_secure_jwt (hm_get_all (req_headers (session x)) "cookie") None = Ok found ∧
    ∀ token, found = Some token → jwt_decode (env_now env) token secret = None.

Definition oauth_aborts (env : Env) (plugin : RoutePlugin) (x : Exchange) : Prop :=
  ∃ p secret vs, settings plugin p secret vs ∧
    if String.eqb (uri_path (req_uri (session x))) (callback_path (provider_typ p))
    then bad_callback env p vs x
    else bad_cookie x ∨ (env_clock env < 0)%Z ∧ no_login env secret x.

(** A provider that panics is GitHub, with a user without a primary address. *)
Lemma get_oauth_user_panics p code :
  get_oauth_user p code = Panic →
  provider_typ p = OauthType_Github ∧
  ∃ token tok emails, get_oauth_token (client_id p) (client_secret p) code = Ok token ∧
    access_token token = Some tok ∧ get_user_emails tok = Ok emails ∧ List.find gh_primary emails = None.
Proof.
  unfold get_oauth_user. destruct (provider_typ p).
  - intros Hp. split; [done|]. revert Hp. unfold github_get_oauth_user, mbind, res_bind.
    destruct (get_oauth_token _ _ _) as [token|e|] eqn:Et; [|done|].
    2: { unfold get_oauth_token, ok_or, mbind, res_bind in Et. by repeat case_match. }
    destruct (access_token token) as [tok|] eqn:Ea; [|done].
    destruct (get_user_info tok) as [user|e|] eqn:Eu; [|done|].
    2: { unfold get_user_info, ok_or, mbind, res_bind in Eu. by repeat case_match. }
    destruct (get_user_emails tok) as [emails|e|] eqn:Ee; [|done|].
    2: { unfold get_user_emails, ok_or, mbind, res_bind in Ee. by repeat case_match. }
    destruct (List.find gh_primary emails) eqn:Ef; [done|]. intros _. by exists token, tok, emails.
  - unfold workos_get_oauth_user, ok_or, mbind, res_bind. by repeat case_match.
Qed.

(** ** Lemmas: the oauth2 filter *)

Lemma insert_header_no_panic n v h : insert_header n v h ≠ Panic.
Proof. unfold insert_header. by destruct (hm_insert _ _ _). Qed.
Lemma append_header_no_panic n v h : append_header n v h ≠ Panic.
Proof. unfold append_header. by destruct (hm_append _ _ _). Qed.

Lemma downstream_no_panic d x : fst (on_session (downstream d) x) ≠ Panic.
Proof. unfold on_session, zoom, downstream. by destruct (io (session x)) as [|[] ?]. Qed.

Lemma unauthorized_no_panic x : fst (unauthorized_response x) ≠ Panic.
Proof.
  unfold unauthorized_response, write_response_header, mbind, M_bind.
  pose proof (downstream_no_panic (WriteHeader (build_no_case 401) true) x) as Hw.
  by destruct (on_session _ x) as [[]].
Qed.

Lemma redirect_panics env p x : fst (redirect_to_oauth_callback env p x) = Panic ↔ (env_clock env < 0)%Z.
Proof.
  unfold redirect_to_oauth_callback, get_current_timestamp, write_response_header, mbind, M_bind, gets, lift.
  cbv zeta. destruct (Z.ltb_spec (env_clock env) 0) as [Hc|Hc]; [done|]. split; [|lia].
  destruct (append_header "location" _ _) as [h|e|] eqn:E1; [|done|by apply append_header_no_panic in E1].
  destruct (append_header "cache-control" _ _) as [h'|e|] eqn:E2; [|done|by apply append_header_no_panic in E2].
  pose proof (downstream_no_panic (WriteHeader h' true) x) as Hw.
  by destruct (on_session (downstream (WriteHeader h' true)) x) as [[]].
Qed.

Lemma find_secure_jwt_panics cookies found :
  find_secure_jwt cookies found = Panic ↔ ∃ c, c ∈ cookies ∧ header_to_str c = None.
Proof.
  revert found. induction cookies as [|c cookies IH]; intros found; simpl.
  { split; [done|]. by intros (c & []%elem_of_nil & _). }
  unfold unwrap, mbind, res_bind. destruct (header_to_str c) as [t|] eqn:E.
  - assert (Hrest : (∃ c', c' ∈ c :: cookies ∧ header_to_str c' = None) ↔
      ∃ c', c' ∈ cookies ∧ header_to_str c' = None).
    { split; intros (c' & Hin & Hn); exists c'; (split; [|done]).
      - apply elem_of_cons in Hin as [-> | ?]; [congruence|done].
      - by right. }
    rewrite Hrest. by destruct (cookie_parse t) as [[n v]|]; rewrite IH.
  - split; [|done]. intros _. exists c. split; [by left|done].
Qed.

Lemma decode_jwt_no_panic now token secret : decode_jwt now token secret ≠ Panic.
Proof. unfold decode_jwt, ok_or. by destruct (jwt_decode _ _ _). Qed.

Lemma validate_cookie_panics env secret vs x :
  fst (validate_cookie env secret vs x) = Panic ↔ bad_cookie x.
Proof.
  unfold bad_cookie. rewrite <- (find_secure_jwt_panics _ None).
  unfold validate_cookie, mbind, M_bind, gets, lift.
  destruct (find_secure_jwt _ None) as [[token|]|e|]; [|done..].
  destruct (decode_jwt _ _ _) as [claims|e|] eqn:E; [|done|by apply decode_jwt_no_panic in E].
  destruct (negb _); [|done]. split; [|done]. intros Hp. by apply unauthorized_no_panic in Hp.
Qed.

Lemma validate_cookie_no_login env secret vs x :
  fst (validate_cookie env secret vs x) = Ok false ↔ no_login env secret x.
Proof.
  unfold no_login, validate_cookie, decode_jwt, ok_or, mbind, M_bind, gets, lift.
  destruct (find_secure_jwt _ None) as [[token|]|e|]; [| |by split; [|intros (? & ? & _)]..].
  - destruct (jwt_decode _ _ _) as [claims|] eqn:E.
    + split; [|intros (? & [= <-] & Hn); specialize (Hn _ eq_refl); congruence].
      destruct (negb _); [|done]. unfold unauthorized_response, mbind, M_bind. by destruct (on_session _ x) as [[]].
    + split; [|done]. intros _. exists (Some token). split; [done|]. by intros t [= <-].
  - split; [|done]. intros _. by exists None.
Qed.

Lemma create_secure_cookie_panics now user secret host :
  create_secure_cookie now user secret host = Panic ↔ (u64_max < now + one_day_in_secs)%N.
Proof.
  unfold create_secure_cookie, encode_jwt, ok_or, mbind, res_bind.
  destruct (u64_max <? now + one_day_in_secs)%N eqn:E.
  - apply N.ltb_lt in E. done.
  - apply N.ltb_ge in E. split; [|lia]. by destruct (jwt_encode _ _).
Qed.

(** No panic, and no cause; a panic, and the cause so far. *)
Ltac refute_cause :=
  intros (? & ? & ? & ? & ? & ? & ? & ? & ? &
    [?|(? & ? & ? & [?|(? & ? & [?|(? & [?|(? & ? & ? & ?)])])])]); simplify_eq; first [congruence | lia | naive_solver].
Ltac no_cause := split; [done|refute_cause].
Ltac a_cause := split; [intros _|done]; eexists _, _, _, _; split_and!; [done..|].

Lemma handle_callback_panics env p secret vs x :
  fst (handle_callback env p secret vs x) = Panic ↔ bad_callback env p vs x.
Proof.
  pose proof (unauthorized_no_panic x) as Hun.
  unfold handle_callback, bad_callback, mbind, M_bind, gets, lift, unwrap, from_utf8.
  destruct (uri_query _) as [query|]; [|split; [done|by intros (? & ? & ? & ? & ? & _)]].
  destruct (_ !! "code") as [code|] eqn:Ec; [|no_cause].
  destruct (_ !! "state") as [state|] eqn:Es; [|no_cause].
  destruct (decrypt_url_component state) as [text|] eqn:Ed; [|no_cause].
  destruct (utf8_valid text) eqn:Eu; [|no_cause].
  destruct (split_once ";" text) as [[ts address]|] eqn:Ep; [|a_cause; by left].
  destruct (parse_u64 ts) as [n|] eqn:Et; [|a_cause; right; exists ts, address; auto].
  unfold get_current_timestamp. destruct (Z.ltb_spec (env_clock env) 0) as [Hclock|Hclock];
    [a_cause; right; exists ts, address; eauto 10|].
  destruct (wrap64 (n + 120) <? env_now env)%N eqn:En; [apply N.ltb_lt in En; no_cause|].
  apply N.ltb_ge in En.
  destruct (get_oauth_user p code) as [user|e|] eqn:Eg; [|no_cause|a_cause; right; exists ts, address; eauto 10].
  destruct (is_authorized user vs) eqn:Ea; simpl; [|no_cause].
  pose proof (create_secure_cookie_panics (env_now env) user secret (ctx_host (ctx x))) as Hc.
  destruct (create_secure_cookie _ _ _ _) as [cookie|e|]; cbn [fst];
    [|no_cause|a_cause; right; exists ts, address; naive_solver].
  assert (Hno : ¬ (u64_max < env_now env + one_day_in_secs)%N) by by intros Hover%Hc.
  split; [|refute_cause].
  destruct (insert_header "set-cookie" _ _) as [h1|e|] eqn:E1; [|done|by apply insert_header_no_panic in E1].
  destruct (insert_header "location" _ _) as [h2|e|] eqn:E2; [|done|by apply insert_header_no_panic in E2].
  destruct (insert_header "cache-control" _ _) as [h3|e|] eqn:E3; [|done|by apply insert_header_no_panic in E3].
  unfold write_response_header. pose proof (downstream_no_panic (WriteHeader h3 true) x) as Hw.
  by destruct (on_session (downstream (WriteHeader h3 true)) x) as [[]].
Qed.

Lemma oauth2_panics env plugin x :
  fst (Oauth2_request_filter env plugin x) = Panic ↔ oauth_aborts env plugin x.
Proof.
  split.
  - unfold Oauth2_request_filter. destruct (plugin_config plugin) as [config|] eqn:Ec; [|done].
    unfold mbind, M_bind, lift, gets.
    destruct (parse_provider config) as [ty|e|] eqn:Ep; [|done|].
    2: { unfold parse_provider, ok_or, mbind, res_bind in Ep. by repeat case_match. }
    assert (Hreq : ∀ key, get_required_config config key ≠ Panic).
    { intros key. unfold get_required_config, ok_or. by repeat case_match. }
    destruct (get_required_config config "client_id") as [id|e|] eqn:Ei; [|done|by apply Hreq in Ei].
    destruct (get_required_config config "client_secret") as [sec|e|] eqn:Es; [|done|by apply Hreq in Es].
    destruct (get_required_config config "jwt_secret") as [jwt|e|] eqn:Ej; [|done|by apply Hreq in Ej].
    assert (Hset : settings plugin (mkProvider ty id sec) jwt (config !! "validations")) by by exists config.
    intros Hp. exists (mkProvider ty id sec), jwt, (config !! "validations"). split; [done|].
    cbn [provider_typ]. destruct (String.eqb _ _); [by apply handle_callback_panics in Hp|].
    rewrite <- (validate_cookie_panics env jwt (config !! "validations")),
      <- (validate_cookie_no_login env jwt (config !! "validations")). revert Hp.
    destruct (validate_cookie env jwt _ x) as [[[]|e|] y]; [done| |done|by left].
    intros Hp. right. by apply redirect_panics in Hp.
  - intros (p & secret & vs & Hset & Hbad). rewrite (filter_settings _ _ _ _ _ _ Hset).
    destruct (String.eqb _ _); [by apply handle_callback_panics|].
    rewrite <- (validate_cookie_panics env secret vs), <- (validate_cookie_no_login env secret vs) in Hbad.
    unfold mbind, M_bind. destruct (validate_cookie env secret vs x) as [[[]|e|] y]; try naive_solver.
    destruct Hbad as [|[Hc _]]; [done|]. by apply redirect_panics.
Qed.
End causes.

(** Upstreams whose answers have a header value that is not text, other than
    the one the proxy sets itself, and declare no more than the cache admits. *)
Definition binary_answers `{HttpApi, LbApi} {net : Network} : Prop := ∀ peer req,
  over_limit (Some max_size) (resp_headers (ans_header (answer peer req))) = false ∧ ∃ n v,
  ¬ same_name "x-request-id" n ∧ v ∈ hm_get_all (resp_headers (ans_header (answer peer req))) n ∧
  header_to_str v = None.

(** ** Lemmas: the phases *)

Section phases.
Context `{HttpApi, LbApi, PathTreeApi, Base64, JwtApi, ShortCrypt, CookieApi, HttpClient, HashIter}.
Context `{Dns} `{!CacheMetaApi} `{MetaJson, CacheHash, Disk} {net : Network}.
Implicit Types x y : Exchange.
Implicit Types p : Proxy.

Lemma ask_credentials_no_panic x : fst (ask_credentials x) ≠ Panic.
Proof. by destruct (ask_credentials_stops x) as [-> | [e ->]]. Qed.

Lemma BasicAuth_no_panic env plugin x : fst (BasicAuth_request_filter env plugin x) ≠ Panic.
Proof.
  pose proof (ask_credentials_no_panic x) as Hask.
  unfold BasicAuth_request_filter, mbind, M_bind, gets, lift, ok_or.
  destruct (plugin_config plugin) as [config|]; [|done].
  destruct (get_auth_config config) as [[user pass]|]; [|done].
  destruct (hm_get _ _) as [header|]; [|done]. destruct (header_to_str header) as [auth|]; [|done].
  destruct (negb _); [done|].
  destruct (validate_auth_header _ _ _) as [b|e|] eqn:E; [by destruct (negb b)|done|].
  by apply validate_auth_header_no_panic in E.
Qed.

Lemma plugin_step_panics env n v x :
  fst (request_plugin_step env n v x) = Panic ↔ n = "oauth2" ∧ oauth_aborts env v x.
Proof.
  rewrite <- oauth2_panics. unfold request_plugin_step.
  destruct (String.eqb_spec n "oauth2") as [-> | Hn].
  { unfold is_ok_and, Oauth2. cbn [request_filter].
    destruct (Oauth2_request_filter env v x) as [[]]; simpl; naive_solver. }
  split; [|naive_solver]. destruct (String.eqb n "request_id"); [done|].
  destruct (String.eqb n "basic_auth"); [|done].
  pose proof (BasicAuth_no_panic env v x) as Hb. unfold is_ok_and, BasicAuth. cbn [request_filter].
  by destruct (BasicAuth_request_filter env v x) as [[]].
Qed.

Lemma run_plugins_panic env l x :
  healthy x → fst (run_request_plugins env l x) = Panic →
  ∃ v, ("oauth2", v) ∈ l ∧ oauth_aborts env v x.
Proof.
  revert x. induction l as [|[n v] l IH]; intros x Hx; [done|]. cbn [run_request_plugins].
  unfold mbind, M_bind. pose proof (plugin_step_panics env n v x) as Hp.
  pose proof (request_plugin_step_frames env n v x) as Hf.
  destruct (request_plugin_step env n v x) as [[[]|e|] y]; [done| |done|].
  - destruct (Hf _ _ eq_refl) as (((Hm & Hu & Hh & _) & Hhost) & Hy & _).
    intros (w & Hin & Hw)%(IH y (Hy Hx)). exists w. split; [by right|].
    unfold oauth_aborts, bad_callback, bad_cookie, no_login in *. by rewrite Hu, Hh in Hw.
  - intros _. destruct Hp as [Hp _]. destruct (Hp eq_refl) as [-> Ha]. exists v. split; [by left|done].
Qed.

Lemma request_filter_panics `{!HashIterLaws} env w :
  healthy (exchange w) → fst (Router_request_filter env w) = Panic →
  ∃ c v, route_store w !! request_host (exchange w) = Some c ∧ rsc_plugins c !! "oauth2" = Some v ∧
    oauth_aborts env v (exchange w).
Proof.
  intros Hx. destruct (route_store w !! request_host (exchange w)) as [c|] eqn:Ec;
    [|by rewrite request_filter_unknown].
  rewrite (request_filter_known env w c Ec). destruct (path_rejected _ _).
  { unfold mbind, M_bind, on_exchange, zoom, respond_error. simpl. by rewrite on_session_downstream. }
  unfold on_exchange, zoom, catch_ok, mbind at 1, M_bind at 1. cbn [exchange set_exchange].
  pose proof (run_plugins_panic env (hash_iter (rsc_plugins c)) (addressed (exchange w)) Hx) as Hp.
  unfold execute_request_plugins.
  destruct (run_request_plugins env _ _) as [[[]|e|] x1]; [done| | |].
  1,2: unfold mbind, M_bind; destruct (enable_cache _ _) as [r1 w1] eqn:Een;
    by apply enable_cache_onward in Een as (-> & _).
  intros _. destruct (Hp eq_refl) as (v & Hin & Ha). exists c, v.
  split; [done|]. split; [by apply hash_iter_lookup|exact Ha].
Qed.

(** The filters over the headers keep the exchange and end well. *)
Lemma request_header_filter `{!HashIterLaws} req x :
  ∃ req', with_header Router_upstream_request_filter req x = (Ok req', x).
Proof.
  unfold with_header, Router_upstream_request_filter.
  rewrite (bind_ok _ _ _ (ctx_upstream (ctx x)) (x, req)) by done.
  rewrite (bind_ok _ _ _ tt (x, fold_left add_request_header (added (ctx_upstream (ctx x))) req))
    by (unfold added; by destruct (_ ≫= _)).
  unfold execute_upstream_request_plugins, catch_ok, gets, mbind, M_bind, mret, M_ret. simpl.
  rewrite run_upstream_request_once by apply hash_iter_keys.
  destruct (decide _); [|by eexists]. unfold RequestId_upstream_request_filter.
  destruct (_ !! _); [|by eexists]. destruct (hm_insert _ _ _); by eexists.
Qed.

Lemma response_header_filter `{!HashIterLaws} resp x :
  ∃ resp', with_header Router_upstream_response_filter resp x = (Ok resp', x) ∧
    (resp' = resp ∨ ∃ id, insert_header "x-request-id" id resp = Ok resp' ∧
       extensions (ctx x) !! "request_id_header" = Some id).
Proof.
  unfold with_header, Router_upstream_response_filter, execute_upstream_response_plugins,
    gets, mbind, M_bind, mret, M_ret. simpl.
  rewrite run_upstream_response_once by apply hash_iter_keys.
  destruct (decide _); [|eauto]. unfold RequestId_upstream_response_filter.
  destruct (_ !! _) as [id|] eqn:Eid; [|eauto].
  destruct (insert_header _ id resp) as [h|err|] eqn:E; simpl; eauto 6.
Qed.

Lemma find_upstream_panics addr us :
  find_upstream addr us = Panic → ∃ u, u ∈ us ∧ to_socket_addrs (upstream_text u) = None.
Proof.
  induction us as [|u us IH]; simpl; [done|].
  unfold upstream_matches, unwrap, mbind, res_bind. fold (upstream_text u).
  destruct (to_socket_addrs (upstream_text u)) eqn:E; [|exists u; split; [by left|done]].
  destruct (existsb _ _); [done|]. intros (v & Hin & Hv)%IH. exists v. split; [by right|done].
Qed.

Lemma upstream_peer_cases x r x' :
  upstream_peer x = (r, x') → onward x x' ∧
  (r = Panic → ∃ u, u ∈ rsc_upstreams (route_container (ctx x)) ∧ to_socket_addrs (upstream_text u) = None).
Proof.
  unfold upstream_peer, mbind, M_bind, gets, lift, throw.
  destruct (cache_is_enabled (session x)); simpl;
    (destruct (select _) as [b|]; [|intros [= <- <-]; split; [solve_onward|done]]);
    (destruct (as_inet b) as [[ip port]|]; [|intros [= <- <-]; split; [solve_onward|done]]);
    (destruct (find_upstream _ _) as [[u|]|e|] eqn:Ef); intros [= <- <-];
    (split; [solve_onward|done || (intros _; by eapply find_upstream_panics)]).
Qed.

Lemma send_upstream_cases `{!HashIterLaws} x r x' :
  send_upstream x = (r, x') → onward x x' ∧
  (r = Panic → ∃ u, u ∈ rsc_upstreams (route_container (ctx x)) ∧ to_socket_addrs (upstream_text u) = None) ∧
  ∀ peer req a, r = Ok (peer, req, a) → a = answer peer req.
Proof.
  unfold send_upstream. destruct (upstream_peer x) as [r1 x1] eqn:E1.
  apply upstream_peer_cases in E1 as E1'. destruct E1' as [Ho Hp]. destruct r1 as [peer|e|].
  - destruct (connected_onward (reused peer) (peer_address peer) x1) as (x2 & E2 & Ho2 & _).
    destruct (request_header_filter (request_header (session x2)) x2) as [req E3].
    rewrite (bind_ok _ _ _ _ _ E1), (bind_ok _ _ _ _ _ E2), (bind_ok _ _ _ (session x2) x2) by done.
    rewrite (bind_ok _ _ _ _ _ E3). intros [= <- <-]. split; [by transitivity x1|]. split; [done|].
    by intros ? ? ? [= <- <- <-].
  - unfold mbind, M_bind. rewrite E1. intros [= <- <-]. by split_and!.
  - unfold mbind, M_bind. rewrite E1. intros [= <- <-]. split_and!; auto. done.
Qed.

Lemma receive_cases `{!HashIterLaws} env a x r x' :
  receive_header env a x = (r, x') → onward x x' ∧
  (r = Panic → ∃ cache, rsc_cache (route_container (ctx x)) = Some cache ∧
     cache_is_enabled (session x) = true ∧ req_method (session x) ∈ CACHEABLE_METHODS ∧
     (systime_max < env_now env + rc_expires_in_secs cache)%N) ∧
  ∀ resp m, r = Ok (resp, m) →
    (resp = ans_header a ∨ ∃ id, insert_header "x-request-id" id (ans_header a) = Ok resp ∧
       extensions (ctx x) !! "request_id_header" = Some id) ∧
    ∀ meta, m = Some meta → ∃ cache, rsc_cache (route_container (ctx x)) = Some cache ∧
      req_method (session x) ∈ CACHEABLE_METHODS ∧ meta = admission env cache resp.
Proof.
  unfold receive_header. destruct (response_header_filter (ans_header a) x) as (h & E1 & Hh).
  rewrite (bind_ok _ _ _ _ _ E1), (bind_ok _ _ _ (cache_is_enabled (session x)) x) by done.
  destruct (cache_is_enabled (session x)) eqn:Een.
  2: { intros [= <- <-]. split; [done|]. split; [done|]. intros ? ? [= <- <-]. by split. }
  unfold response_cache_filter, gets, lift, unwrap, checked_add_secs, mbind, M_bind, mret, M_ret.
  destruct (rsc_cache (route_container (ctx x))) as [cache|] eqn:Ec.
  2: { intros [= <- <-]. split; [done|]. split; [done|]. intros ? ? [= <- <-]. by split. }
  case_bool_decide as Em; simpl.
  2: { intros [= <- <-]. split; [done|]. split; [done|]. intros ? ? [= <- <-]. by split. }
  destruct (_ <=? _)%N eqn:El; simpl.
  - destruct (over_limit _ _); intros [= <- <-].
    + split; [solve_onward|]. split; [done|]. intros ? ? [= <- <-]. by split.
    + split; [split; try done; [by left|]; simpl; by rewrite lookup_insert_ne|]. split; [done|].
      intros ? ? [= <- <-]. split; [done|]. intros ? [= <-]. by exists cache.
  - intros [= <- <-]. split; [done|]. split; [|done]. intros _. apply N.leb_gt in El. by exists cache.
Qed.

(** ** Lemmas: the disk and the answer *)

Lemma collect_headers_panics l m :
  collect_headers l m = Panic ↔ ∃ k v, (k, v) ∈ l ∧ header_to_str v = None.
Proof.
  revert m. induction l as [|[k v] l IH]; intros m; simpl.
  { split; [done|]. by intros (? & ? & []%elem_of_nil & _). }
  unfold unwrap, mbind, res_bind. destruct (header_to_str v) as [t|] eqn:E.
  - rewrite IH. split; intros (k' & v' & Hin & Hn); exists k', v'; (split; [|done]); [by right|].
    apply elem_of_cons in Hin as [[= -> ->]|?]; [congruence|done].
  - split; [|done]. intros _. exists k, v. split; [by left|done].
Qed.

Lemma write_all_no_panic h chunks s : fst (write_all h chunks s) ≠ Panic.
Proof.
  assert (Hb : ∀ data e s, fst (write_body h data e s) ≠ Panic).
  { intros data e s0. unfold write_body, write_to_file. destruct (can_write _); [|done]. by destruct e. }
  revert s. induction chunks as [|c [|c' rest] IH]; intros s; [done|apply Hb|].
  rewrite write_all_cons. unfold mbind, M_bind. specialize (Hb c false s).
  destruct (write_body h c false s) as [[]]; [apply IH|done..].
Qed.

(** The conversion of the metadata panics, and nothing else in an admission,
    on a header value that is not text. *)
Lemma metadata_panics meta :
  DiskCacheItemMetadata_from meta = Panic ↔
  ∃ k v, (k, v) ∈ hm_iter (resp_headers (response_header meta)) ∧ header_to_str v = None.
Proof.
  rewrite <- (collect_headers_panics _ ∅). unfold DiskCacheItemMetadata_from, mbind, res_bind.
  by destruct (collect_headers _ ∅).
Qed.

Lemma cache_response_panics key meta chunks s :
  fst (cache_response key meta chunks s) = Panic ↔
  can_create_dir (get_directory_for (key_namespace key) (disk_routing s)) = true ∧
  ∃ k v, (k, v) ∈ hm_iter (resp_headers (response_header meta)) ∧ header_to_str v = None.
Proof.
  rewrite <- metadata_panics. unfold cache_response, get_miss_handler, mbind, M_bind, gets, lift, throw.
  destruct (can_create_dir _); simpl; [|naive_solver].
  destruct (DiskCacheItemMetadata_from meta) as [item|err|]; simpl; [|naive_solver..].
  destruct (meta_to_json item); simpl; [|naive_solver]. split; [|naive_solver].
  pose proof (write_all_no_panic (DiskCacheMissHandler_new key item
    (get_directory_for (key_namespace key) (disk_routing s))) chunks) as Hw.
  match goal with |- context [write_all ?h ?c ?s'] => specialize (Hw s'); destruct (write_all h c s') as [[]] end;
    done.
Qed.

Lemma admit_panics limit key meta chunks s :
  fst (admit_limited limit key meta chunks s) = Panic ↔
  can_create_dir (get_directory_for (key_namespace key) (disk_routing s)) = true ∧
  ∃ k v, (k, v) ∈ hm_iter (resp_headers (response_header meta)) ∧ header_to_str v = None.
Proof. destruct (admit_part limit key meta chunks) as (part & _ & ->). apply cache_response_panics. Qed.

Lemma lookup_no_panic key s : fst (lookup_cache key s) ≠ Panic.
Proof.
  unfold lookup_cache, get_state, mbind, M_bind. destruct (memory s !! _) as [[? ?]|]; [done|].
  destruct (read_file _ s); [|done]. by destruct (get_cached_metadata key s).
Qed.

Lemma send_body_no_panic chunks x : fst (send_body chunks x) ≠ Panic.
Proof.
  revert x. induction chunks as [|c chunks IH]; intros x; [done|]. simpl. unfold write_response_body, mbind, M_bind.
  pose proof (downstream_no_panic (WriteBody c false) x) as Hw.
  destruct (on_session (downstream (WriteBody c false)) x) as [[[]| |] y]; [apply IH|done..].
Qed.

Lemma add_headers_no_panic l resp : add_headers l resp ≠ Panic.
Proof.
  revert resp. induction l as [|[n v] l IH]; intros resp; [done|]. simpl. unfold mbind, res_bind.
  pose proof (insert_header_no_panic n v resp). by destruct (insert_header n v resp).
Qed.

Lemma response_filter_no_panic elapsed resp x : fst (Router_response_filter elapsed resp x) ≠ Panic.
Proof.
  unfold Router_response_filter, mbind, M_bind, gets, lift.
  pose proof (add_headers_no_panic (host_header_add (route_container (ctx x))) resp) as Ha.
  destruct (add_headers _ resp) as [r1|e|]; [|done..]. cbv zeta.
  set (r2 := remove_headers _ r1). clearbody r2.
  assert (Hend : ∀ r : ResponseHeader, fst ((_ ← execute_response_plugins; mret r) x) ≠ @Panic error _).
  { intros r. by rewrite (bind_ok _ _ _ _ _ (response_plugins_pass x)). }
  unfold mbind, M_bind in Hend.
  destruct (extensions (ctx x) !! "cache_state"); [|apply Hend].
  destruct (cache_is_enabled (session x)); [|apply Hend]. unfold res_bind.
  destruct (insert_header "cache-status" _ _) as [r3|e|] eqn:E3; [|done|by apply insert_header_no_panic in E3].
  destruct (insert_header "cache-duration" _ _) as [r4|e|] eqn:E4; [|done|by apply insert_header_no_panic in E4].
  apply Hend.
Qed.

Lemma send_downstream_no_panic elapsed resp body x : fst (send_downstream elapsed resp body x) ≠ Panic.
Proof.
  unfold send_downstream, write_response_header, mbind, M_bind.
  pose proof (response_filter_no_panic elapsed resp x) as Hr.
  destruct (Router_response_filter elapsed resp x) as [[r| |] y]; [|done..].
  pose proof (downstream_no_panic (WriteHeader r false) y) as Hw.
  destruct (on_session (downstream (WriteHeader r false)) y) as [[[]| |] z]; [|done..].
  pose proof (send_body_no_panic body z) as Hb. by destruct (send_body body z) as [[]].
Qed.
(** ** Lemmas: the path of a request *)

Lemma on_request_eq {A} (m : M Exchange error A) p :
  on_request m p = let '(r, x) := m (px_exchange p) in (r, put_exchange x p).
Proof. unfold on_request, on_world, on_exchange, zoom, px_exchange. by destruct (m _) as [r x]. Qed.

(** What a request may meet on its way to an upstream and back. *)
Definition upstream_abort (env : Env) (x : Exchange) : Prop :=
  (∃ u, u ∈ rsc_upstreams (route_container (ctx x)) ∧ to_socket_addrs (upstream_text u) = None) ∨
  ∃ cache, rsc_cache (route_container (ctx x)) = Some cache ∧ cache_is_enabled (session x) = true ∧
    req_method (session x) ∈ CACHEABLE_METHODS ∧
    ((systime_max < env_now env + rc_expires_in_secs cache)%N ∨
     ∃ peer req n v, v ∈ hm_get_all (resp_headers (ans_header (answer peer req))) n ∧ header_to_str v = None).

(** The request identifier, if there is one, is text. *)
Definition text_id (x : Exchange) : Prop :=
  ∀ id, extensions (ctx x) !! "request_id_header" = Some id → header_to_str id = Some id.

Lemma bad_stored_header `{!HeaderLaws} (resp stored : ResponseHeader) id k v :
  (stored = resp ∨ insert_header "x-request-id" id resp = Ok stored ∧ header_to_str id = Some id) →
  (k, v) ∈ hm_iter (resp_headers stored) → header_to_str v = None →
  ∃ n, v ∈ hm_get_all (resp_headers resp) n.
Proof.
  intros Hst Hin Hv.
  assert (Hk : v ∈ hm_get_all (resp_headers stored) k).
  { rewrite hm_iter_get_all, list_elem_of_fmap. exists (k, v). split; [done|].
    apply list_elem_of_filter. split; [|done]. symmetry. by eapply hm_iter_lower. }
  destruct Hst as [-> | [Hins Hid]]; [by exists k|]. exists k.
  destruct (insert_header_get _ _ _ _ k Hins) as [_ Hg]. rewrite Hg in Hk. case_decide; [|done].
  apply list_elem_of_singleton in Hk as ->. congruence.
Qed.

Lemma from_upstream_panics `{!HeaderLaws, !HashIterLaws, !CacheMetaLaws} env elapsed p :
  text_id (px_exchange p) → fst (from_upstream env elapsed p) = Panic → upstream_abort env (px_exchange p).
Proof.
  intros Hid. unfold from_upstream, upstream_abort. intros [Hp|([[peer req] a] & p1 & E1 & Hp)]%bind_panics.
  { rewrite on_request_eq in Hp. destruct (send_upstream _) as [r x1] eqn:Es.
    left. by apply (send_upstream_cases _ _ _ Es). }
  rewrite on_request_eq in E1. destruct (send_upstream _) as [r x1] eqn:Es. injection E1 as -> <-.
  destruct (send_upstream_cases _ _ _ Es) as (Ho1 & _ & Ha). specialize (Ha _ _ _ eq_refl). subst a.
  apply bind_panics in Hp as [Hp|([resp m] & p2 & E2 & Hp)];
    [rewrite on_request_eq in Hp|rewrite on_request_eq in E2]; rewrite px_put in *;
    destruct (receive_header _ _ _) as [r x2] eqn:Er; destruct (receive_cases _ _ _ _ _ Er) as (Ho2 & Hover & Hmeta).
  { right. destruct (Hover Hp) as (cache & Hc & Hen & Hm & Hlt). exists cache.
    apply (onward_enabled _ _ Ho1) in Hen. rewrite <- (onward_container _ _ Ho1), <- (onward_method _ _ Ho1). auto. }
  injection E2 as -> <-. destruct (Hmeta _ _ eq_refl) as [Hresp Hm]. rewrite put_put in Hp.
  apply bind_panics in Hp as [|(key & ? & [= <- <-] & Hp)]; [done|].
  apply bind_panics in Hp as [|(st & ? & [= <- <-] & Hp)]; [done|].
  apply bind_panics in Hp as [|(limit & ? & [= <- <-] & Hp)]; [done|].
  rewrite px_put in Hp.
  apply bind_panics in Hp as [Hp|([] & p3 & _ & Hp)].
  2: { exfalso. apply bind_panics in Hp as [Hp|(? & ? & _ & ?)]; [|done].
       rewrite on_request_eq in Hp. pose proof (send_downstream_no_panic elapsed resp (ans_body (answer peer req)) (px_exchange p3)).
       by destruct (send_downstream _ _ _ _). }
  destruct m as [meta|]; [|done]. destruct (cache_storage (session x2)) as [[]|] eqn:Est; [|done..].
  destruct (Hm meta eq_refl) as (cache & Hc & Hmeth & ->).
  apply bind_panics in Hp as [Hp|(? & ? & _ & ?)]; [|done].
  right. exists cache. assert (Ho : onward (px_exchange p) x2) by by transitivity x1.
  rewrite <- (onward_container _ _ Ho1), <- (onward_method _ _ Ho1).
  unfold cache_is_enabled. rewrite (onward_stored _ _ _ Ho Est).
  split_and!; [done|done|done|]. right. exists peer, req.
  unfold on_disk, catch_ok, zoom in Hp.
  set (s := px_storage (put_exchange x2 p)) in *. set (k := cache_key_callback _) in *.
  set (limit := cache_max_file_size (session x2)) in *.
  pose proof (admit_panics limit k (admission env cache resp) (ans_body (answer peer req)) s) as Hcr.
  destruct (admit_limited _ _ _ _ s) as [[]]; [done..|].
  destruct (proj1 Hcr eq_refl) as (_ & n & v & Hin & Hv).
  assert (Heq : response_header (admission env cache resp) = resp) by (unfold admission; apply CacheMeta_fields).
  rewrite Heq in Hin. destruct Hresp as [Hresp | (id & Hins & Hext)].
  - destruct (bad_stored_header (ans_header (answer peer req)) resp "" n v (or_introl Hresp) Hin Hv) as [n' Hn'].
    by exists n', v.
  - destruct (bad_stored_header (ans_header (answer peer req)) resp id n v) as [n' Hn']; [|done|done|by exists n', v].
    right. split; [done|]. apply Hid. by rewrite <- (onward_id _ _ Ho1).
Qed.

Lemma run_plugins_id env l x r x' :
  run_request_plugins env l x = (r, x') →
  extensions (ctx x') !! "request_id_header" = extensions (ctx x) !! "request_id_header" ∨
  extensions (ctx x') !! "request_id_header" = Some (env_uuid env).
Proof.
  revert x. induction l as [|[n v] l IH]; intros x; cbn [run_request_plugins]; [intros [= <- <-]; by left|].
  unfold mbind, M_bind. destruct (request_plugin_step env n v x) as [r1 y] eqn:Es.
  apply request_plugin_step_extension in Es. destruct r1 as [[]|e|]; intros Hr.
  2: destruct (IH _ Hr) as [-> | ->]; [|by right].
  all: unfold mret, M_ret in *; simplify_eq/=; rewrite ?Es; destruct (String.eqb n "request_id"); auto.
Qed.

Lemma filter_text_id env w w' :
  Router_request_filter env w = (Ok false, w') → text_id (exchange w) →
  header_to_str (env_uuid env) = Some (env_uuid env) → text_id (exchange w').
Proof.
  intros (c & x1 & w1 & _ & Ex & Een & ->)%filter_run Hx Hu id.
  apply enable_cache_onward in Een as (_ & _ & Hctx). simpl. rewrite Hctx.
  unfold execute_request_plugins in Ex. destruct (run_plugins_id _ _ _ _ _ Ex) as [Hs|Hs]; simpl in *; rewrite Hs.
  - apply Hx.
  - by intros [= <-].
Qed.

(** A let-through request panics on its way to an upstream or not at all. *)
Lemma serve_panics `{!HeaderLaws, !HashIterLaws, !CacheMetaLaws} env elapsed given p w :
  Router_request_filter env (px_world p) = (Ok false, w) → text_id (exchange w) →
  fst (serve env elapsed given p) = Panic → upstream_abort env (exchange w).
Proof.
  intros Hf Hid. unfold serve. set (p1 := set_world w p).
  rewrite (bind_ok _ _ _ false p1) by (unfold on_world, zoom; by rewrite Hf).
  rewrite (bind_ok _ _ _ (cache_storage (session (exchange w))) p1) by done.
  pose proof (from_upstream_panics env elapsed p1 Hid) as Hup.
  destruct (cache_storage (session (exchange w))) as [[]|] eqn:Est; [|exact Hup..].
  rewrite (bind_ok _ _ _ (cache_key_callback (exchange w)) p1) by done.
  intros [Hp|(found & p2 & E2 & Hp)]%bind_panics.
  { exfalso. unfold on_disk, catch_ok, zoom in Hp.
    pose proof (lookup_no_panic (cache_key_callback (exchange w)) (px_storage p1)) as Hl.
    by destruct (lookup_cache _ _) as [[]]. }
  assert (Hx2 : px_exchange p2 = exchange w).
  { unfold on_disk, catch_ok, zoom in E2. by destruct (lookup_cache _ _) as [[]]; injection E2 as _ <-. }
  pose proof (from_upstream_panics env elapsed p2) as Hup2. rewrite Hx2 in Hup2.
  destruct found as [[[meta h]|]|]; [|by apply Hup2..].
  set (expired := negb (is_fresh meta (env_now env))).
  set (x3 := snd (insert_extension "cache_state" (if expired then "expired" else "hit") (exchange w))).
  rewrite (bind_ok _ _ _ expired (put_exchange x3 p2)) in Hp.
  2: { apply on_request_ok. rewrite Hx2. unfold cache_hit_filter. fold expired. by destruct expired. }
  assert (Hx3 : text_id x3) by (intros id; unfold x3; simpl; rewrite lookup_insert_ne by done; apply Hid).
  destruct expired; [exact (from_upstream_panics env elapsed (put_exchange x3 p2) Hx3 Hp)|].
  exfalso. unfold from_cache in Hp. apply bind_panics in Hp as [Hp|(body & p4 & _ & Hp)].
  { unfold read_hit in Hp. destruct h; [|done]. by destruct (read_all _ _ _). }
  apply bind_panics in Hp as [Hp|(? & ? & _ & ?)]; [|done].
  rewrite on_request_eq in Hp. pose proof (send_downstream_no_panic elapsed (response_header meta) body (px_exchange p4)).
  by destruct (send_downstream _ _ _ _).
Qed.
End phases.

(** ** Properties *)

Section properties.
Context `{HttpApi, LbApi, PathTreeApi, Base64, JwtApi, ShortCrypt, CookieApi, HttpClient, HashIter}.
Context `{Dns} `{!CacheMetaApi} `{MetaJson, CacheHash, Disk} {net : Network}.
Implicit Types x y : Exchange.
Implicit Types p : Proxy.

(** C10. All that can end the process between the arrival of a request and its
    answer. On a healthy connection a new request that panics is for a stored
    host whose route has the oauth2 plugin, and then it is a Cookie header that
    is not text, a bad callback or a clock before 1970; or has an upstream that does not resolve; or
    has its cache enabled, and then the expiry overflows the clock, or an
    upstream's answer has a header value that is not text. No other callback of
    the proxy, plugin or operation of the cache ever panics. *)
Theorem abort_causes (Hl : HeaderLaws) (Hit : HashIterLaws) (Hm : CacheMetaLaws) env elapsed given p
    (Hx : healthy (px_exchange p))
    (Hnew : cache_storage (session (px_exchange p)) = None ∧ extensions (ctx (px_exchange p)) = ∅)
    (Huuid : header_to_str (env_uuid env) = Some (env_uuid env))
    (Hpanic : fst (serve env elapsed given p) = Panic) :
  ∃ c, route_store (px_world p) !! request_host (px_exchange p) = Some c ∧
    ((∃ plugin, rsc_plugins c !! "oauth2" = Some plugin ∧ oauth_aborts env plugin (px_exchange p)) ∨
     (∃ u, u ∈ rsc_upstreams c ∧ to_socket_addrs (upstream_text u) = None) ∨
     ∃ cache, rsc_cache c = Some cache ∧ default false (rc_enabled cache) = true ∧
       req_method (session (px_exchange p)) ∈ CACHEABLE_METHODS ∧
       ((systime_max < env_now env + rc_expires_in_secs cache)%N ∨
        ∃ peer req n v, v ∈ hm_get_all (resp_headers (ans_header (answer peer req))) n ∧
          header_to_str v = None)).
Proof.
  destruct Hnew as [Hoff Hext]. destruct (Router_request_filter env (px_world p)) as [r w] eqn:Ef.
  assert (Hcases : r = Panic ∨ r = Ok false ∨ fst (Router_request_filter env (px_world p)) ≠ Ok false ∧ r ≠ Panic)
    by (rewrite Ef; destruct r as [[]| |]; naive_solver).
  destruct Hcases as [-> | [-> | [Hstop Hr]]].
  - destruct (request_filter_panics env (px_world p) Hx) as (c & v & Hc & Hv & Ha); [by rewrite Ef|].
    exists c. split; [exact Hc|]. left. by exists v.
  - destruct (filter_passed _ _ _ Ef) as (Hc & _ & _ & _ & _ & _ & _ & Hmeth).
    exists (route_container (ctx (exchange w))). split; [exact Hc|]. right.
    assert (Htext : text_id (exchange w)).
    { apply (filter_text_id _ _ _ Ef); [|done]. intros id. unfold px_exchange in Hext. by rewrite Hext. }
    destruct (serve_panics _ _ _ _ _ Ef Htext Hpanic) as [Hu|(cache & Hca & Hen & Hme & Hcause)]; [by left|].
    right. exists cache. split; [done|]. unfold px_exchange. rewrite <- Hmeth. split_and!; [|done|done].
    pose proof (request_filter_forwards env (px_world p) Hx) as [_ Hfw].
    destruct (Hfw w Ef) as (_ & _ & _ & Hst). unfold cache_is_enabled in Hen. apply bool_decide_eq_true in Hen.
    rewrite Hst, Hca in Hen. destruct (default false _); [done|]. unfold px_exchange in Hoff.
    rewrite Hoff in Hen. by destruct Hen.
  - exfalso. rewrite serve_stopped in Hpanic by done. apply bind_panics in Hpanic as [Hp|(? & ? & _ & ?)]; [|done].
    unfold on_world, zoom in Hp. by rewrite Ef in Hp.
Qed.

(** C37. A Cookie header can end the process, and exactly when: on a route
    whose only plugin is oauth2, a request that the path patterns admit panics
    in the filter if and only if it is a callback whose decrypted state is no
    time and address (or whose provider panics, or at either end of the clock),
    or, elsewhere, has a Cookie header that is not text, or no login and a clock
    before 1970; the request then ends in the panic whatever the upstreams and
    the cache. *)
Theorem oauth2_route_aborts_iff (Hit : HashIterLaws) env elapsed given p c plugin
    (Hx : healthy (px_exchange p))
    (Hc : route_store (px_world p) !! request_host (px_exchange p) = Some c)
    (Hmatch : path_rejected (path_matcher c) (uri_path (req_uri (session (px_exchange p)))) = false)
    (Hplugins : rsc_plugins c = {["oauth2" := plugin]}) :
  (fst (Router_request_filter env (px_world p)) = Panic ↔ oauth_aborts env plugin (px_exchange p)) ∧
  (oauth_aborts env plugin (px_exchange p) →
     ∀ upstreams : Network, fst (serve (net := upstreams) env elapsed given p) = Panic).
Proof.
  assert (Hiff : fst (Router_request_filter env (px_world p)) = Panic ↔ oauth_aborts env plugin (px_exchange p)).
  { split.
    - intros (c' & v & Hc' & Hv & Ha)%request_filter_panics; [|done]. unfold px_exchange in Hc.
      rewrite Hc in Hc'. injection Hc' as <-. rewrite Hplugins in Hv.
      apply lookup_singleton_Some in Hv as [_ <-]. done.
    - intros Ha. rewrite (request_filter_known env (px_world p) c Hc). unfold px_exchange in Hmatch.
      rewrite Hmatch, Hplugins.
      assert (Hrun : fst (execute_request_plugins env {["oauth2" := plugin]} (addressed (px_exchange p))) = Panic).
      { unfold execute_request_plugins.
        assert (hash_iter {["oauth2" := plugin]} = [("oauth2", plugin)]) as ->
          by (apply Permutation_singleton_r; rewrite hash_iter_perm; by rewrite map_to_list_singleton).
        cbn [run_request_plugins]. unfold mbind, M_bind.
        assert (Hs : fst (request_plugin_step env "oauth2" plugin (addressed (px_exchange p))) = Panic)
          by (apply plugin_step_panics; split; [done|exact Ha]).
        by destruct (request_plugin_step env "oauth2" plugin _) as [[]]. }
      unfold on_exchange, zoom, catch_ok, mbind, M_bind. cbn [exchange set_exchange]. unfold px_exchange in Hrun.
      by destruct (execute_request_plugins _ _ _) as [[]]. }
  split; [exact Hiff|]. intros Ha ups. apply Hiff in Ha.
  rewrite serve_stopped by (rewrite Ha; done). unfold mbind, M_bind, on_world, zoom.
  by destruct (Router_request_filter env (px_world p)) as [[]].
Qed.

(** Admitting an answer that has a header value that is not text. *)
Lemma binary_admission `{!HeaderLaws, !CacheMetaLaws} env c cache peer req r key (s : DiskState) :
  binary_answers → disk_ready key s →
  (∀ n, hm_get_all (resp_headers r) n =
     stamped env c n (hm_get_all (resp_headers (ans_header (answer peer req))) n)) →
  fst (admit_limited (Some max_size) key (admission env cache r) (ans_body (answer peer req)) s) = Panic.
Proof.
  intros Hbad (Hdir & _) Hg. apply admit_panics. split; [exact Hdir|].
  assert (Heq : response_header (admission env cache r) = r) by (unfold admission; apply CacheMeta_fields).
  rewrite Heq. destruct (Hbad peer req) as (_ & n & v & Hn & Hin & Hv).
  assert (Hin' : v ∈ hm_get_all (resp_headers r) n).
  { rewrite Hg. unfold stamped. rewrite decide_False by naive_solver. done. }
  rewrite hm_iter_get_all, list_elem_of_fmap in Hin'. destruct Hin' as ([k v'] & -> & [_ Hkv]%list_elem_of_filter).
  by exists k, v'.
Qed.

(** C38. An upstream can end the process: on a route cached on disk, an answer
    with a header value that is not text (other than x-request-id), and that does
    not declare more than the 100 MiB the cache admits, aborts when the cache
    admits it, before anything of it reaches the client. *)
Theorem binary_header_aborts (Hl : HeaderLaws) (Hit : HashIterLaws) (Hlb : LbLaws) (Hm : CacheMetaLaws)
    env elapsed given p w cache b
    (Hfirst : caching_request env p w cache b)
    (Hid : insertable "x-request-id" (env_uuid env))
    (Hbad : binary_answers) :
  fst (serve env elapsed given p) = Panic ∧
  written (session (px_exchange (snd (serve env elapsed given p)))) = written (session (exchange w)).
Proof.
  destruct Hfirst as [cr_filter0 ? ? ? ? cr_cache0 cr_enabled0 cr_disk0 ? ? cr_ready0 cr_memory0 cr_new0].
  destruct (filter_passed _ _ _ cr_filter0) as (_ & _ & Hident & Hheal & _).
  destruct (filter_caches _ _ _ _ cr_filter0 cr_cache0 cr_enabled0) as [Hst _]. rewrite cr_disk0 in Hst.
  set (x := exchange w) in *. set (p1 := set_world w p). set (s := px_storage p1). set (p2 := set_disk s p1).
  assert (Hnone : files s !! cache_path (cache_key_callback x) s = None) by exact cr_new0.
  destruct (send_upstream_ok env x b) as (peer & req & x2 & E2 & _ & _ & Ho & Hw2 & _ & Hst2 & Hmax2 & _);
    [done..|].
  specialize (Hmax2 ltac:(unfold cache_is_enabled; by rewrite Hst)).
  destruct (receive_cached env (answer peer req) x2 cache) as (r & x3 & E3 & _ & Ho3 & [Hst3 Hmax3] & Hw3 & _ & _ & Hg);
    [done|by unfold identified; rewrite (onward_container _ _ Ho), (onward_id _ _ Ho)
    |by unfold cache_is_enabled; rewrite Hst2, Hst|by rewrite (onward_container _ _ Ho)
    |by rewrite (onward_method _ _ Ho)|done|by rewrite Hmax2; apply Hbad|].
  assert (Ho13 : onward x x3) by by transitivity x2.
  assert (Hcr : fst (admit_limited (Some max_size) (cache_key_callback x) (admission env cache r)
    (ans_body (answer peer req)) s) = Panic) by by eapply binary_admission.
  assert (Hend : ∃ s', serve env elapsed given p = (Panic, put_exchange x3 (set_disk s' p2))).
  { unfold serve. rewrite (bind_ok _ _ _ false p1) by (unfold on_world, zoom; by rewrite cr_filter0).
    rewrite (bind_ok _ _ _ (Some RouteCacheType_Disk) p1) by (unfold gets; do 2 f_equal; exact Hst).
    rewrite (bind_ok _ _ _ (cache_key_callback x) p1) by done.
    rewrite (bind_ok _ _ _ (Some None) p2).
    2: { unfold on_disk, catch_ok, zoom, lookup_cache, get_state, mbind, M_bind, mret, M_ret. fold s.
         change (memory s) with (memory (px_disk p)). rewrite cr_memory0.
         unfold read_file. rewrite Hnone. by destruct (can_read _). }
    unfold from_upstream. rewrite (bind_ok _ _ _ _ _ (on_request_ok _ p2 _ _ E2)).
    rewrite (bind_ok _ _ _ _ _ (on_request_ok _ (put_exchange x2 p2) _ _ E3)). rewrite put_put.
    rewrite (bind_ok _ _ _ (cache_key_callback x) (put_exchange x3 p2)).
    2: { unfold gets, cache_key_callback. rewrite px_put.
         by rewrite (onward_host _ _ Ho13), (onward_uri _ _ Ho13). }
    rewrite (bind_ok _ _ _ (Some RouteCacheType_Disk) (put_exchange x3 p2)).
    2: { unfold gets. rewrite px_put. by rewrite Hst3, Hst2, Hst. }
    rewrite (bind_ok _ _ _ (Some max_size) (put_exchange x3 p2)).
    2: { unfold gets. rewrite px_put. by rewrite Hmax3, Hmax2. }
    unfold mbind, M_bind, on_disk, catch_ok, zoom. change (px_storage (put_exchange x3 p2)) with s.
    destruct (admit_limited _ _ _ _ s) as [[]]; [done..|]. eexists. reflexivity. }
  destruct Hend as [s' ->]. split; [done|]. exact (eq_trans Hw3 Hw2).
Qed.
End properties.

(** ** Witnesses *)

#[local] Existing Instances toy_http toy_lb toy_pt toy_base64 toy_jwt toy_crypt toy_cookies
  toy_client toy_hash_iter toy_dns toy_meta toy_meta_json toy_disk toy_network numbered.

Definition not_text : string := String (ascii_of_nat 200) "=1".
Definition private : RouteStoreContainer := plugged {["oauth2" := oauth2_plugin by_email]}.
Definition visitor (cookie : string) : Proxy :=
  mkProxy _ _ _ (toy_world private (toy_request "/private" [("cookie", cookie)])) empty_disk.

Lemma private_aborts : oauth_aborts toy_env (oauth2_plugin by_email) (px_exchange (visitor not_text)).
Proof.
  eexists github, "key", _. split; [apply oauth2_plugin_settings|]. left. exists not_text. split; [by left|reflexivity].
Qed.

Lemma oauth2_route_aborts_iff_witness :
  fst (Router_request_filter toy_env (px_world (visitor not_text))) = Panic ∧
  fst (serve toy_env 7 [] (visitor not_text)) = Panic.
Proof.
  destruct (oauth2_route_aborts_iff toy_hash_iter_laws toy_env 7 [] (visitor not_text) private
    (oauth2_plugin by_email) eq_refl eq_refl eq_refl eq_refl) as [Hiff Hall].
  exact (conj (proj2 Hiff private_aborts) (Hall private_aborts toy_network)).
Defined.

Lemma abort_causes_witness :
  ∃ c, route_store (px_world (visitor not_text)) !! "a.test" = Some c ∧
    ((∃ plugin, rsc_plugins c !! "oauth2" = Some plugin) ∨ (∃ u, u ∈ rsc_upstreams c) ∨ is_Some (rsc_cache c)).
Proof.
  destruct (abort_causes toy_http_laws toy_hash_iter_laws toy_meta_laws toy_env 7 [] (visitor not_text))
    as (c & Hc & Hcause); [reflexivity|by split|reflexivity| |].
  - assert (Hst : fst (Router_request_filter toy_env (px_world (visitor not_text))) = Panic) by reflexivity.
    rewrite serve_stopped by (rewrite Hst; discriminate). unfold mbind, M_bind, on_world, zoom.
    destruct (Router_request_filter toy_env (px_world (visitor not_text))) as [r w']. simpl in Hst. by subst r.
  - exists c. split; [exact Hc|]. destruct Hcause as [(v & Hv & _)|[(u & Hu & _)|(k & Hk & _)]]; eauto.
Defined.

(** An upstream that answers with a header value that is not text. *)
Definition latin1_network : Network := {|
  answer := λ _ _, mkAnswer toy_http (mkResponseHeader toy_http 200
    ([("x-name", not_text)] : list (string * string))) ["hello"];
  reused := λ _, false;
  peer_address := λ _, "10.0.0.1:443" |}.

Lemma binary_header_aborts_witness :
  fst (serve (net := latin1_network) toy_env 7 [] (at_edge (Some edge_cache) (toy_request "/page" []))) = Panic.
Proof.
  refine (proj1 (binary_header_aborts (net := latin1_network) toy_http_laws toy_hash_iter_laws toy_lb_laws
    toy_meta_laws toy_env 7 [] (at_edge (Some edge_cache) (toy_request "/page" [])) _ edge_cache
    ("10.0.0.1", 443%N) (edge_caching (toy_request "/page" []) eq_refl eq_refl eq_refl eq_refl eq_refl) _ _)).
  - by apply toy_insertable.
  - intros peer req. split; [reflexivity|]. exists "x-name", not_text. split; [discriminate|]. split; [by left|reflexivity].
Defined.
