(* ===== verification/Outage.v ===== *)
(** The requests that Pingora has to answer itself: those that end in an error
    of a callback. The only one there is, on a healthy connection, is a route
    of which no backend can be selected. *)
From S2P Require Import Prelude Strs Config Stores Http Routes Plugins Oauth2 Middleware Router Discovery DiskCache Caching Lifecycle Aborts.
#[local] Open Scope string_scope.
#[local] Open Scope list_scope.

Section outage.
Context `{HttpApi, LbApi, PathTreeApi, Base64, JwtApi, ShortCrypt, CookieApi, HttpClient, HashIter}.
Context `{Dns} `{!CacheMetaApi} `{MetaJson, CacheHash, Disk} {net : Network}.
Implicit Types x y : Exchange.
Implicit Types w : World.
Implicit Types p : Proxy.

(** ** Specification *)

(** The copy a forwarded request is answered from, if there is one that is
    still fresh. *)
Definition cached_copy (env : Env) (w : World) (p : Proxy) : option (CacheMeta * HitHandler) :=
  match cache_storage (session (exchange w)) with
  | Some RouteCacheType_Disk =>
      match fst (lookup_cache (cache_key_callback (exchange w)) (px_storage (set_world w p))) with
      | Ok (Some (meta, h)) => if is_fresh meta (env_now env) then Some (meta, h) else None
      | _ => None
      end
  | _ => None
  end.

(** What the proxy writes into headers of its own accord is header text. *)
Definition notes_writable (env : Env) (elapsed : N) : Prop :=
  insertable "x-request-id" (env_uuid env) ∧ insertable "cache-duration" (show_N elapsed) ∧
  Forall (insertable "cache-status") ["hit"; "expired"; "fwd=miss"].

(** The state of the cache noted in an exchange, if any, is one of those. *)
Definition noted (x : Exchange) : Prop :=
  ∀ st, extensions (ctx x) !! "cache_state" = Some st → st ∈ ["hit"; "expired"; "fwd=miss"].

(** What holds of an exchange that an answer can be written to. *)
Record answerable (env : Env) (x : Exchange) : Prop := {
  an_healthy : healthy x;
  an_headers : headers_valid (route_container (ctx x));
  an_identified : identified env x;
  an_noted : noted x }.

(** ** Lemmas *)

Lemma onward_answerable env x y : onward x y → noted y → answerable env x → answerable env y.
Proof.
  intros Ho Hn []. split; [by apply (onward_healthy _ _ Ho)|by rewrite (onward_container _ _ Ho)| |done].
  unfold identified in *. by rewrite (onward_container _ _ Ho), (onward_id _ _ Ho).
Qed.

Lemma noted_valid env elapsed x : notes_writable env elapsed → noted x → notes_valid elapsed x.
Proof.
  intros (_ & Hd & Hs) Hn. split; [done|]. intros st Hst%Hn. rewrite Forall_forall in Hs. by apply Hs.
Qed.

Lemma lookup_keeps key s : snd (lookup_cache key s) = s.
Proof.
  unfold lookup_cache, get_state, mbind, M_bind. destruct (memory s !! _) as [[? ?]|]; [done|].
  destruct (read_file _ s); [|done]. by destruct (get_cached_metadata key s).
Qed.

(** A plugin notes nothing about the cache. *)
Lemma plugin_step_noted env n v x r x' :
  request_plugin_step env n v x = (r, x') → noted x → noted x'.
Proof.
  intros E%request_plugin_step_extensions Hx st. rewrite E.
  destruct (String.eqb n "request_id"); [rewrite lookup_insert_ne by done|]; apply Hx.
Qed.

Lemma run_plugins_noted env l x r x' :
  run_request_plugins env l x = (r, x') → noted x → noted x'.
Proof.
  revert x. induction l as [|[n v] l IH]; intros x; cbn [run_request_plugins]; [by intros [= <- <-]|].
  unfold mbind, M_bind. destruct (request_plugin_step env n v x) as [r1 y] eqn:Es. intros Hr Hx.
  apply plugin_step_noted in Es; [|done]. destruct r1 as [[]|e|]; unfold mret, M_ret in *; simplify_eq/=; eauto.
Qed.

(** A request that passes the filter can be answered. *)
Lemma filter_answerable `{!HashIterLaws} env w w' :
  Router_request_filter env w = (Ok false, w') → healthy (exchange w) → extensions (ctx (exchange w)) = ∅ →
  headers_valid (route_container (ctx (exchange w'))) → answerable env (exchange w').
Proof.
  intros Hf Hx Hext Hv. destruct (filter_passed _ _ _ Hf) as (_ & _ & Hi & Hh & _).
  split; [auto|done|done|]. apply filter_run in Hf as (c & x1 & w1 & _ & Ex & Een & ->).
  apply enable_cache_onward in Een as (_ & _ & Hctx). unfold noted. simpl. rewrite Hctx.
  apply (run_plugins_noted _ _ _ _ _ Ex). intros st. simpl. by rewrite Hext.
Qed.

(** Each phase on the way to the upstream and back. *)
Lemma send_upstream_none x :
  select (load_balancer (route_container (ctx x))) = None →
  ∃ x', send_upstream x = (Err (HTTPStatus 503), x') ∧ onward x x' ∧ written (session x') = written (session x).
Proof.
  intros Hsel. unfold send_upstream, upstream_peer, mbind, M_bind, gets.
  destruct (cache_is_enabled (session x)); simpl; rewrite Hsel; eexists; (split; [done|split; [solve_onward|done]]).
Qed.

Lemma receive_no_err `{!HashIterLaws} env a x r x' :
  receive_header env a x = (r, x') → noted x → noted x' ∧ ∀ e, r ≠ Err e.
Proof.
  unfold receive_header. destruct (response_header_filter (ans_header a) x) as (h & E1 & _).
  rewrite (bind_ok _ _ _ _ _ E1), (bind_ok _ _ _ (cache_is_enabled (session x)) x) by done.
  destruct (cache_is_enabled (session x)); [|by intros [= <- <-]].
  unfold response_cache_filter, gets, lift, unwrap, checked_add_secs, mbind, M_bind, mret, M_ret.
  destruct (rsc_cache _) as [cache|]; [|by intros [= <- <-]].
  case_bool_decide; simpl; [|by intros [= <- <-]].
  destruct (_ <=? _)%N; simpl; [|by intros [= <- <-]].
  destruct (over_limit _ _); intros [= <- <-] Hn; (split; [|done]); [done|].
  intros st. simpl. rewrite lookup_insert_eq. intros [= <-]. set_solver.
Qed.

Lemma on_disk_no_err {A} (m : M DiskState string A) p e : fst (on_disk m p) ≠ Err e.
Proof. unfold on_disk, catch_ok, zoom. by destruct (m _) as [[]]. Qed.

Lemma on_disk_world {A} (m : M DiskState string A) p : px_world (snd (on_disk m p)) = px_world p.
Proof. unfold on_disk, catch_ok, zoom. by destruct (m _) as [[]]. Qed.

Lemma send_downstream_no_err `{!HeaderLaws} env elapsed resp body p e :
  notes_writable env elapsed → answerable env (px_exchange p) →
  fst (on_request (send_downstream elapsed resp body) p) ≠ Err e.
Proof.
  intros Hw []. destruct (answer_written elapsed (px_exchange p) resp body) as (r & x' & E1 & _); [done..| |].
  { intros _. by eapply noted_valid. }
  by rewrite (on_request_ok _ _ _ _ E1).
Qed.

Lemma upstream_peer_extensions x : extensions (ctx (snd (upstream_peer x))) = extensions (ctx x).
Proof.
  unfold upstream_peer, mbind, M_bind, gets, lift, throw.
  destruct (cache_is_enabled (session x)); simpl; (destruct (select _) as [b|]; [|done]);
    (destruct (as_inet b) as [[ip port]|]; [|done]); by destruct (find_upstream _ _) as [[u|]| |].
Qed.

Lemma send_upstream_noted `{!HashIterLaws} x r x' : send_upstream x = (r, x') → noted x → noted x'.
Proof.
  unfold send_upstream. pose proof (upstream_peer_extensions x) as He.
  destruct (upstream_peer x) as [[peer|e|] x1] eqn:E1; simpl in He;
    [|unfold mbind, M_bind; rewrite E1; intros [= <- <-]; unfold noted; by rewrite He..].
  destruct (connected_onward (reused peer) (peer_address peer) x1) as (x2 & E2 & _ & _ & _ & He2).
  destruct (request_header_filter (request_header (session x2)) x2) as [req E3].
  rewrite (bind_ok _ _ _ _ _ E1), (bind_ok _ _ _ _ _ E2), (bind_ok _ _ _ (session x2) x2) by done.
  rewrite (bind_ok _ _ _ _ _ E3). intros [= <- <-] Hn st. rewrite He2, !lookup_insert_ne, He by done. apply Hn.
Qed.

(** Admitting a response neither fails nor touches the exchange. *)
Lemma admission_keeps limit (key : CacheKey) (m : option CacheMeta) st body p r p' :
  (match m, st with
   | Some meta, Some RouteCacheType_Disk => _ ← on_disk (admit_limited limit key meta body); mret tt
   | _, _ => mret tt
   end) p = (r, p') → px_world p' = px_world p ∧ ∀ e, r ≠ Err e.
Proof.
  destruct m as [meta|]; [|by intros [= <- <-]]. destruct st as [[]|]; [|by intros [= <- <-]..].
  intros Ep. pose proof (on_disk_world (admit_limited limit key meta body) p) as Hd.
  pose proof (on_disk_no_err (admit_limited limit key meta body) p) as He.
  unfold mbind, M_bind in Ep. destruct (on_disk _ p) as [[o|e|] q]; injection Ep as <- <-; simpl in *;
    (split; [done|naive_solver]).
Qed.

(** A backend that can be selected keeps the exchange from ending in an error. *)
Lemma from_upstream_no_err `{!HeaderLaws, !HashIterLaws, !LbLaws} env elapsed p b e :
  notes_writable env elapsed → answerable env (px_exchange p) →
  container_ok (route_container (ctx (px_exchange p))) →
  select (load_balancer (route_container (ctx (px_exchange p)))) = Some b →
  fst (from_upstream env elapsed p) ≠ Err e.
Proof.
  intros Hw Ha Hok Hsel Hfst.
  destruct (send_upstream_ok env (px_exchange p) b) as (peer & req & x2 & E2 & _ & _ & Ho & _);
    [done|apply Ha|done|apply Hw|apply Ha|].
  assert (Ha2 : answerable env x2).
  { apply (onward_answerable _ _ _ Ho); [|done]. apply (send_upstream_noted _ _ _ E2), Ha. }
  unfold from_upstream in Hfst. rewrite (bind_ok _ _ _ _ _ (on_request_ok _ p _ _ E2)) in Hfst.
  destruct (receive_header env (answer peer req) x2) as [r x3] eqn:E3.
  destruct (receive_no_err _ _ _ _ _ E3 (an_noted _ _ Ha2)) as [Hn3 Hr].
  apply receive_cases in E3 as Hc. destruct Hc as [Ho3 _].
  assert (Ha3 : answerable env x3) by by eapply onward_answerable.
  apply bind_errs in Hfst as [Hfst|([resp m] & p2 & Ep2 & Hfst)].
  { rewrite on_request_eq, px_put, E3 in Hfst. by destruct (Hr e). }
  rewrite on_request_eq, px_put, E3 in Ep2. injection Ep2 as _ <-.
  do 3 (apply bind_errs in Hfst as [Hfst|(? & ? & [= <- <-] & Hfst)]; [done|]).
  apply bind_errs in Hfst as [Hfst|([] & p3 & Ep3 & Hfst)].
  { match type of Hfst with fst (?f ?q) = _ => destruct (f q) as [r4 q4] eqn:E4 end.
    apply admission_keeps in E4 as [_ He]. by destruct (He e). }
  apply admission_keeps in Ep3 as [Hworld _].
  assert (Hx3 : px_exchange p3 = x3) by (unfold px_exchange; rewrite Hworld; done).
  apply bind_errs in Hfst as [Hfst|(? & ? & _ & ?)]; [|done].
  eapply (send_downstream_no_err env); [done|by rewrite Hx3|exact Hfst].
Qed.

Lemma from_upstream_none env elapsed p :
  select (load_balancer (route_container (ctx (px_exchange p)))) = None →
  ∃ x', from_upstream env elapsed p = (Err (HTTPStatus 503), put_exchange x' p) ∧
    written (session x') = written (session (px_exchange p)).
Proof.
  intros (x' & E1 & _ & Hw)%send_upstream_none. exists x'. split; [|done].
  unfold from_upstream, mbind at 1, M_bind at 1. by rewrite on_request_eq, E1.
Qed.

Lemma from_cache_no_err `{!HeaderLaws} env elapsed given key meta h p e :
  notes_writable env elapsed → answerable env (px_exchange p) →
  fst (from_cache elapsed given key meta h p) ≠ Err e.
Proof.
  intros Hw Ha Hfst. unfold from_cache in Hfst. apply bind_errs in Hfst as [Hfst|(body & p1 & E1 & Hfst)].
  { unfold read_hit in Hfst. destruct h; [|done]. by destruct (read_all _ _ _). }
  assert (Hx1 : px_exchange p1 = px_exchange p).
  { unfold read_hit in E1. destruct h; [|by injection E1 as _ <-].
    destruct (read_all _ _ _). by injection E1 as _ <-. }
  apply bind_errs in Hfst as [Hfst|(? & ? & _ & ?)]; [|done].
  eapply (send_downstream_no_err env); [done|by rewrite Hx1|exact Hfst].
Qed.

(** A request the filter let through: from the cache, or to an upstream, with
    the cache as it was. *)
Lemma serve_through env elapsed given p w :
  Router_request_filter env (px_world p) = (Ok false, w) →
  ∃ p2, serve env elapsed given p =
      match cached_copy env w p with
      | Some (meta, h) => from_cache elapsed given (cache_key_callback (exchange w)) meta h p2
      | None => from_upstream env elapsed p2
      end ∧
    route_store (px_world p2) = route_store w ∧ onward (exchange w) (px_exchange p2) ∧
    written (session (px_exchange p2)) = written (session (exchange w)) ∧
    (noted (exchange w) → noted (px_exchange p2)) ∧
    files (px_disk p2) = files (px_disk p) ∧ memory (px_disk p2) = memory (px_disk p).
Proof.
  intros Hf. set (p1 := set_world w p). set (key := cache_key_callback (exchange w)).
  assert (Hs : serve env elapsed given p =
    (storage ← gets (λ p, cache_storage (session (px_exchange p)));
     match storage with
     | Some RouteCacheType_Disk =>
         key ← gets (λ p, cache_key_callback (px_exchange p));
         found ← on_disk (lookup_cache key);
         match found with
         | Some (Some (meta, h)) =>
             expired ← on_request (cache_hit_filter env meta);
             if expired : bool then from_upstream env elapsed else from_cache elapsed given key meta h
         | _ => from_upstream env elapsed
         end
     | _ => from_upstream env elapsed
     end) p1).
  { unfold serve. by rewrite (bind_ok _ _ _ false p1) by (unfold on_world, zoom; by rewrite Hf). }
  rewrite Hs, (bind_ok _ _ _ (cache_storage (session (exchange w))) p1) by done. unfold cached_copy. fold p1 key.
  destruct (cache_storage (session (exchange w))) as [[]|]; [|exists p1; by split_and!..].
  rewrite (bind_ok _ _ _ key p1) by done.
  pose proof (lookup_keeps key (px_storage p1)) as Hk. pose proof (lookup_no_panic key (px_storage p1)) as Hp.
  set (p2 := set_disk (px_storage p1) p1).
  destruct (lookup_cache key (px_storage p1)) as [found s] eqn:El. simpl in Hk, Hp. subst s. cbn [fst].
  set (f := match found with Ok o => Some o | _ => None end).
  rewrite (bind_ok _ _ _ f p2) by (unfold on_disk, catch_ok, zoom; rewrite El; by destruct found).
  destruct found as [[[meta h]|]|err|]; subst f; cbn iota; [|exists p2; by split_and!..|done].
  set (expired := negb (is_fresh meta (env_now env))).
  set (x3 := snd (insert_extension "cache_state" (if expired then "expired" else "hit") (exchange w))).
  rewrite (bind_ok _ _ _ expired (put_exchange x3 p2)).
  2: { apply on_request_ok. unfold cache_hit_filter. fold expired. by destruct expired. }
  exists (put_exchange x3 p2). split_and!; try done.
  - unfold expired. by destruct (is_fresh meta (env_now env)).
  - split; try done; [by left|]. unfold x3. simpl. by rewrite lookup_insert_ne.
  - intros _ st. unfold x3. simpl. rewrite lookup_insert_eq. intros [= <-]. destruct expired; set_solver.
Qed.

(** When a request the filter let through ends in an error, and how. *)
Lemma serve_errs `{!HeaderLaws, !HashIterLaws, !LbLaws} env elapsed given p w :
  Router_request_filter env (px_world p) = (Ok false, w) → notes_writable env elapsed →
  answerable env (exchange w) → container_ok (route_container (ctx (exchange w))) →
  (∀ e, fst (serve env elapsed given p) = Err e ↔
     e = HTTPStatus 503 ∧ cached_copy env w p = None ∧
     select (load_balancer (route_container (ctx (exchange w)))) = None) ∧
  ∀ e p', serve env elapsed given p = (Err e, p') →
    written (session (px_exchange p')) = written (session (exchange w)) ∧
    route_store (px_world p') = route_store w ∧
    files (px_disk p') = files (px_disk p) ∧ memory (px_disk p') = memory (px_disk p).
Proof.
  intros Hf Hw Ha Hok. destruct (serve_through env elapsed given p w Hf) as (p2 & -> & Hst2 & Ho & Hwr & Hn2 & Hf2 & Hm2).
  assert (Ha2 : answerable env (px_exchange p2)) by (eapply onward_answerable; [done|apply Hn2, Ha|done]).
  destruct (cached_copy env w p) as [[meta h]|].
  { pose proof (from_cache_no_err env elapsed given (cache_key_callback (exchange w)) meta h p2) as Hn.
    split; [intros e; split; [intros He; by destruct (Hn e Hw Ha2)|naive_solver]|].
    intros e p' E1. destruct (Hn e Hw Ha2). by rewrite E1. }
  rewrite <- (onward_container _ _ Ho) in *.
  destruct (select (load_balancer (route_container (ctx (px_exchange p2))))) as [b|] eqn:Esel.
  { pose proof (from_upstream_no_err env elapsed p2 b) as Hn.
    split; [intros e; split; [intros He; by destruct (Hn e Hw Ha2 Hok Esel)|naive_solver]|].
    intros e p' E1. destruct (Hn e Hw Ha2 Hok Esel). by rewrite E1. }
  destruct (from_upstream_none env elapsed p2 Esel) as (x' & -> & Hw1). split.
  - intros e. split; [by intros [= <-]|by intros (-> & _)].
  - intros e p' [= <- <-]. split; [exact (eq_trans Hw1 Hwr)|done].
Qed.
End outage.

(** ** Properties *)

Section properties.
Context `{HttpApi, LbApi, PathTreeApi, Base64, JwtApi, ShortCrypt, CookieApi, HttpClient, HashIter}.
Context `{Dns} `{!CacheMetaApi} `{MetaJson, CacheHash, Disk} {net : Network}.
Implicit Types p : Proxy.

(** C24. The one error a client can be left with. On a healthy connection, when the
    route of the host can be served and its headers are valid, a new request
    ends in an error of a callback exactly when the filter lets it through, no
    fresh copy is cached and the balancer selects no backend: the error is then
    503, nothing was written after the filter, and routes and cache are as
    they were. With a fresh copy, or with a backend, it never does. *)
Theorem only_outage_fails (Hl : HeaderLaws) (Hit : HashIterLaws) (Hlb : LbLaws) env elapsed given p
    (Hx : healthy (px_exchange p)) (Hnew : extensions (ctx (px_exchange p)) = ∅)
    (Hroute : ∀ c, route_store (px_world p) !! request_host (px_exchange p) = Some c →
       container_ok c ∧ headers_valid c)
    (Hw : notes_writable env elapsed) :
  (∀ e, fst (serve env elapsed given p) = Err e ↔
     e = HTTPStatus 503 ∧ ∃ w, Router_request_filter env (px_world p) = (Ok false, w) ∧
       cached_copy env w p = None ∧
       select (load_balancer (route_container (ctx (exchange w)))) = None) ∧
  ∀ e p', serve env elapsed given p = (Err e, p') →
    written (session (px_exchange p')) =
      written (session (exchange (snd (Router_request_filter env (px_world p))))) ∧
    route_store (px_world p') = route_store (px_world p) ∧
    files (px_disk p') = files (px_disk p) ∧ memory (px_disk p') = memory (px_disk p).
Proof.
  destruct (Router_request_filter env (px_world p)) as [r w] eqn:Ef.
  assert (Hcases : r = Ok false ∨ r ≠ Ok false ∧ ∀ e, fst (serve env elapsed given p) ≠ Err e).
  { destruct r as [[]|e'|]; [right|by left|right..]; (split; [done|]); intros e;
      (rewrite serve_stopped by by rewrite Ef); unfold on_world, zoom, mbind, M_bind; rewrite Ef; try done.
    destruct (filter_no_err env (px_world p) e' Hx). by rewrite Ef. }
  destruct Hcases as [-> | [Hstop Hn]].
  2: { split; [|intros e p' E1; by destruct (Hn e); rewrite E1].
       intros e. split; [intros He; by destruct (Hn e)|]. intros (_ & w' & [= -> _] & _). done. }
  destruct (filter_passed _ _ _ Ef) as (Hc & Hstore & _). destruct (Hroute _ Hc) as [Hok Hv].
  pose proof (filter_answerable _ _ _ Ef Hx Hnew Hv) as Ha.
  destruct (serve_errs env elapsed given p w Ef Hw Ha Hok) as [Hiff Hstate]. split.
  - intros e. rewrite Hiff. naive_solver.
  - intros e p' E1. rewrite <- Hstore. by apply (Hstate e).
Qed.
End properties.

(** ** Witnesses *)

#[local] Existing Instances toy_http toy_lb toy_pt toy_base64 toy_jwt toy_crypt toy_cookies
  toy_client toy_hash_iter toy_dns toy_meta toy_meta_json toy_disk toy_network numbered.

(** The route of Lifecycle.v, all its backends down. *)
Definition down : RouteStoreContainer :=
  mkContainer toy_lb _ ([] : list SocketAddr) RouteStorePathMatcher_new ["Server"] [("x-a", "1")] [edge_upstream]
    false {["request_id" := edge_plugin]} (Some edge_cache).
Definition at_down : Proxy := mkProxy _ _ _ (toy_world down (toy_request "/page" [])) empty_disk.

Lemma down_ok : container_ok down.
Proof.
  destruct (edge_ok None) as [_ Hu Hp]. split; [|exact Hu|exact Hp]. intros b Hb. by apply not_elem_of_nil in Hb.
Qed.

Lemma only_outage_fails_witness : fst (serve toy_env 7 [] at_down) = Err (HTTPStatus 503).
Proof.
  apply (only_outage_fails toy_http_laws toy_hash_iter_laws toy_lb_laws toy_env 7 [] at_down).
  - reflexivity.
  - reflexivity.
  - intros c [= <-]. split; [exact down_ok|exact (edge_headers None)].
  - split; [by apply toy_insertable|]. split; [by apply toy_insertable|].
    repeat constructor; by apply toy_insertable.
  - split; [reflexivity|]. eexists. split; [by apply filter_pair|]. split; reflexivity.
Defined.
