(* ===== verification/Answers.v ===== *)
(** What a client is sent. A judgement on computations, [sends], says by which
    writes to the client the log of a session grows, per outcome; with it the
    answers of the proxy are shown to be well formed, on any connection, except
    behind the oauth2 plugin. *)
From S2P Require Import Prelude Strs Config Stores Http Routes Plugins Oauth2 Middleware Router Discovery DiskCache Caching Lifecycle Aborts Outage.
#[local] Open Scope string_scope.
#[local] Open Scope list_scope.

(** ** The judgement *)

Section judgement.
Context `{HttpApi} {S : Type} (log : S → list Downstream).

(** From any state, [m] appends some writes to the log that [Q] admits for its
    outcome. *)
Definition sends {A} (m : M S error A) (Q : res error A → list Downstream → Prop) : Prop :=
  ∀ s r s', m s = (r, s') → ∃ sent, log s' = log s ++ sent ∧ Q r sent.

(** Nothing is written. *)
Definition quiet {A} (m : M S error A) : Prop := sends m (λ _ sent, sent = []).

Lemma quiet_log {A} (m : M S error A) : (∀ s, log (snd (m s)) = log s) → quiet m.
Proof.
  intros Hm s r s' E. specialize (Hm s). rewrite E in Hm. simpl in Hm. exists []. by rewrite app_nil_r.
Qed.

Lemma sends_quiet {A} (m : M S error A) Q : quiet m → (∀ r, Q r []) → sends m Q.
Proof. intros Hm HQ s r s' E. destruct (Hm _ _ _ E) as (sent & Hl & ->). by exists []. Qed.

Lemma sends_ret {A} (a : A) (Q : res error A → list Downstream → Prop) : Q (Ok a) [] → sends (mret a) Q.
Proof. intros HQ s r s' [= <- <-]. exists []. by rewrite app_nil_r. Qed.

Lemma sends_bind {A B} (m : M S error A) (f : A → M S error B) P Q :
  sends m P →
  (∀ a l, P (Ok a) l → sends (f a) (λ r l', Q r (l ++ l'))) →
  (∀ e l, P (Err e) l → Q (Err e) l) → (∀ l, P Panic l → Q Panic l) →
  sends (m ≫= f) Q.
Proof.
  intros Hm Hf He Hp s r s'. unfold mbind, M_bind. destruct (m s) as [r1 s1] eqn:E1.
  destruct (Hm _ _ _ E1) as (l1 & Hl1 & HP). destruct r1 as [a|e|].
  - intros E2. destruct (Hf _ _ HP _ _ _ E2) as (l2 & Hl2 & HQ). exists (l1 ++ l2).
    split; [by rewrite Hl2, Hl1, <- app_assoc|done].
  - intros [= <- <-]. eauto.
  - intros [= <- <-]. eauto.
Qed.

(** After a quiet step nothing was sent yet. *)
Lemma sends_after {A B} (m : M S error A) (f : A → M S error B) Q :
  quiet m → (∀ a, sends (f a) Q) → (∀ e, Q (Err e) []) → Q Panic [] → sends (m ≫= f) Q.
Proof.
  intros Hm Hf He Hp. eapply sends_bind; [exact Hm|..]; [intros a l ->; apply Hf|by intros e l ->|by intros l ->].
Qed.

Lemma quiet_bind {A B} (m : M S error A) (f : A → M S error B) :
  quiet m → (∀ a, quiet (f a)) → quiet (m ≫= f).
Proof. intros Hm Hf. by apply sends_after. Qed.

Lemma quiet_ret {A} (a : A) : quiet (mret a).
Proof. by apply quiet_log. Qed.
Lemma quiet_lift {A} (r : res error A) : quiet (lift r).
Proof. by apply quiet_log. Qed.
Lemma quiet_throw {A} (e : error) : quiet (A := A) (throw e).
Proof. by apply quiet_log. Qed.
Lemma quiet_gets {A} (f : S → A) : quiet (gets f).
Proof. by apply quiet_log. Qed.
End judgement.

(** A part of the state that holds the log. *)
Lemma sends_zoom `{HttpApi} {S T} (get : T → S) (set : S → T → T) (log : S → list Downstream) {A}
    (m : M S error A) Q :
  (∀ s t, get (set s t) = s) → sends log m Q → sends (λ t, log (get t)) (zoom get set m) Q.
Proof.
  intros Hgs Hm t r t'. unfold zoom. destruct (m (get t)) as [r1 s1] eqn:E1. intros [= <- <-].
  destruct (Hm _ _ _ E1) as (sent & Hl & HQ). exists sent. by rewrite Hgs.
Qed.

Create HintDb quiet discriminated.
#[export] Hint Resolve quiet_ret quiet_lift quiet_throw quiet_gets : quiet.

(** Walks through a computation that writes nothing: one goal per step that
    neither the hints nor its state settle. *)
Ltac quiet_step :=
  match goal with
  | |- quiet _ (_ ≫= _) => apply quiet_bind; [|intros ?]
  | |- quiet _ (if ?b then _ else _) => destruct b
  | |- quiet _ (match ?x with _ => _ end) => destruct x
  | |- quiet _ _ => solve [auto with quiet | by apply quiet_log]
  end.
Ltac quiet_auto := repeat quiet_step.

(** ** Specification *)

Section spec.
Context `{HttpApi, LbApi, PathTreeApi}.

(** The log of an exchange, and of a proxy. *)
Definition xlog (x : Exchange) : list Downstream := written (session x).
Definition wlog (w : World) : list Downstream := xlog (exchange w).
Definition plog (p : Proxy) : list Downstream := wlog (px_world p).

(** An answer that is over with one write: an error page, or a header that
    ends the stream. *)
Definition final (d : Downstream) : Prop :=
  match d with RespondError _ => True | WriteHeader _ e => e = true | WriteBody _ _ => False end.

(** One header, then pieces of the body. *)
Definition streamed (resp : ResponseHeader) (sent : list Downstream) : Prop :=
  ∃ body, sent = WriteHeader resp false :: ((λ t, WriteBody t false) <$> body).

(** A filter that stops a request has answered it, and has written nothing
    otherwise. *)
Definition stop_or_silence (r : res error bool) (sent : list Downstream) : Prop :=
  match r with Ok true => ∃ d, sent = [d] ∧ final d | _ => sent = [] end.

(** The answers of a whole request. *)
Definition answered (r : res error Served) (sent : list Downstream) : Prop :=
  match r with
  | Ok Handled => ∃ d, sent = [d] ∧ final d
  | Ok (FromUpstream _ _ resp) | Ok (FromCache resp) => streamed resp sent
  | _ => sent = [] ∨ ∃ resp, streamed resp sent
  end.
End spec.

(** ** Lemmas: the filter *)

Section lemmas.
Context `{HttpApi, LbApi, PathTreeApi, Base64, JwtApi, ShortCrypt, CookieApi, HttpClient, HashIter}.
Context `{Dns} `{!CacheMetaApi} `{MetaJson, CacheHash, Disk} {net : Network}.
Implicit Types x y : Exchange.

Lemma sends_downstream d :
  sends xlog (on_session (downstream d)) (λ r sent, match r with Ok _ => sent = [d] | _ => sent = [] end).
Proof.
  intros x r x'. unfold on_session, zoom, downstream, xlog. destruct (io (session x)) as [|[] rest];
    intros [= <- <-]; simpl; [by exists [d]..|]. exists []. by rewrite app_nil_r.
Qed.

Lemma quiet_on_ctx f : quiet xlog (on_ctx f).
Proof. by apply quiet_log. Qed.

Lemma ask_credentials_sends : sends xlog ask_credentials stop_or_silence.
Proof.
  unfold ask_credentials, write_response_header.
  apply sends_after; [apply quiet_gets|intros host|done|done].
  apply sends_after; [apply quiet_lift|intros h|done|done].
  eapply sends_bind; [apply sends_downstream|intros [] l -> |by intros e l ->|by intros l ->].
  apply sends_ret. by exists (WriteHeader h true).
Qed.

Lemma BasicAuth_sends env plugin : sends xlog (BasicAuth_request_filter env plugin) stop_or_silence.
Proof.
  unfold BasicAuth_request_filter. destruct (plugin_config plugin) as [config|]; [|by apply sends_ret].
  destruct (get_auth_config config) as [[user pass]|]; [|apply ask_credentials_sends].
  apply sends_after; [apply quiet_gets|intros found|done|done].
  destruct found as [header|]; [|apply ask_credentials_sends].
  apply sends_after; [apply quiet_lift|intros auth|done|done].
  destruct (negb _); [apply ask_credentials_sends|].
  apply sends_after; [apply quiet_lift|intros valid|done|done].
  destruct (negb _); [apply ask_credentials_sends|by apply sends_ret].
Qed.

(** The two ways the chain takes an outcome. *)
Lemma sends_is_ok_and (m : M Exchange error bool) :
  sends xlog m stop_or_silence → sends xlog (is_ok_and (E := error) m) stop_or_silence.
Proof.
  intros Hm x r x'. unfold is_ok_and. destruct (m x) as [r1 x1] eqn:E1.
  destruct (Hm _ _ _ E1) as (sent & Hl & HQ). destruct r1 as [[]| |]; intros [= <- <-]; by exists sent.
Qed.

Lemma plugin_step_sends env n v : n ≠ "oauth2" → sends xlog (request_plugin_step env n v) stop_or_silence.
Proof.
  intros Hn. unfold request_plugin_step. rewrite (proj2 (String.eqb_neq _ _) Hn).
  destruct (String.eqb n "request_id").
  { apply sends_after; [|intros ?; by apply sends_ret|done|done]. apply quiet_log. intros x. done. }
  destruct (String.eqb n "basic_auth"); [apply sends_is_ok_and, BasicAuth_sends|by apply sends_ret].
Qed.

Lemma run_plugins_sends env l : "oauth2" ∉ l.*1 → sends xlog (run_request_plugins env l) stop_or_silence.
Proof.
  induction l as [|[n v] l IH]; simpl; [intros _; by apply sends_ret|].
  intros [Hn Hl]%not_elem_of_cons.
  eapply sends_bind; [by apply plugin_step_sends|intros [] sent|by intros e l' ->|by intros l' ->].
  - intros (d & -> & Hd). apply sends_ret. by exists d.
  - intros ->. exact (IH Hl).
Qed.

Lemma enable_cache_quiet cache : quiet wlog (enable_cache cache).
Proof.
  apply quiet_log. intros w. destruct (enable_cache cache w) as [r w'] eqn:E.
  by apply enable_cache_spec in E as (_ & _ & _ & ? & _).
Qed.

(** A chain of plugins without oauth2, then the rest of the filter. *)
Lemma filter_sends `{!HashIterLaws} env w r w' :
  (∀ c, route_store w !! request_host (exchange w) = Some c → rsc_plugins c !! "oauth2" = None) →
  Router_request_filter env w = (r, w') →
  ∃ sent, wlog w' = wlog w ++ sent ∧ stop_or_silence r sent.
Proof.
  intros Ho. set (w0 := set_exchange (addressed (exchange w)) w). change (wlog w) with (wlog w0).
  assert (H404 : sends wlog (_ ← on_exchange (on_session (respond_error 404)); mret true) stop_or_silence).
  { eapply sends_bind; [apply (sends_zoom exchange set_exchange xlog); [done|apply sends_downstream]|..].
    - intros [] l ->. apply sends_ret. by exists (RespondError 404).
    - by intros e l ->.
    - by intros l ->. }
  destruct (route_store w !! request_host (exchange w)) as [c|] eqn:Ec.
  2: { unfold Router_request_filter. rewrite (bind_ok _ _ _ (get_host (session (exchange w))) w) by done. cbv zeta.
       rewrite (bind_ok _ _ _ tt w0) by done.
       rewrite (bind_ok _ _ _ None w0) by (unfold gets; do 2 f_equal; exact Ec). apply H404. }
  rewrite (request_filter_known env w c Ec). fold w0. revert w0. intros w0.
  destruct (path_rejected _ _); [apply H404|].
  assert (Hrun : sends wlog (on_exchange (catch_ok (execute_request_plugins env (rsc_plugins c))))
    (λ r sent, match r with Ok (Some true) => ∃ d, sent = [d] ∧ final d | _ => sent = [] end)).
  { apply (sends_zoom exchange set_exchange xlog); [done|]. intros x r1 x1.
    unfold catch_ok. destruct (execute_request_plugins env (rsc_plugins c) x) as [r2 x2] eqn:E2.
    apply run_plugins_sends in E2 as (sent & Hl & HQ).
    - intros E3. exists sent. destruct r2 as [[]| |]; by injection E3 as <- <-.
    - rewrite hash_iter_keys_lookup, (Ho c eq_refl). by intros [? [=]]. }
  assert (Hrest : sends wlog (_ ← enable_cache (rsc_cache c); _ ← on_exchange (on_ctx (set_container c)); mret false)
    stop_or_silence).
  { apply sends_after; [apply enable_cache_quiet|intros []|done|done].
    apply sends_after; [by apply quiet_log|intros []; by apply sends_ret|done|done]. }
  revert r w'. refine ((sends_bind wlog _ _ _ stop_or_silence Hrun _ _ _) w0).
  - intros [[]|] sent; [intros (d & -> & Hd); apply sends_ret; by exists d|intros ->; exact Hrest..].
  - by intros e l ->.
  - by intros l ->.
Qed.

(** ** Lemmas: the phases *)

Lemma on_request_sends {A} (m : M Exchange error A) Q : sends xlog m Q → sends plog (on_request m) Q.
Proof.
  intros Hm. apply (sends_zoom px_world set_world wlog); [done|].
  by apply (sends_zoom exchange set_exchange xlog).
Qed.

Lemma send_upstream_quiet `{!HashIterLaws} : quiet xlog send_upstream.
Proof.
  unfold send_upstream. apply quiet_bind; [|intros peer].
  { apply quiet_log. intros x. unfold xlog, upstream_peer, mbind, M_bind, gets, lift, throw.
    destruct (cache_is_enabled (session x)); simpl; (destruct (select _) as [b|]; [|done]);
      (destruct (as_inet b) as [[ip port]|]; [|done]); by destruct (find_upstream _ _) as [[u|]| |]. }
  quiet_auto. apply quiet_log. intros x. by destruct (request_header_filter (request_header a0) x) as [req ->].
Qed.

Lemma receive_header_quiet `{!HashIterLaws} env a : quiet xlog (receive_header env a).
Proof.
  unfold receive_header. apply quiet_bind; [|intros resp].
  { apply quiet_log. intros x. by destruct (response_header_filter (ans_header a) x) as (resp & -> & _). }
  unfold response_cache_filter, cache_miss, insert_extension. quiet_auto.
Qed.

Lemma send_body_sends chunks :
  sends xlog (send_body chunks) (λ _ sent, ∃ body, sent = (λ t, WriteBody t false) <$> body).
Proof.
  induction chunks as [|c chunks IH]; simpl; [apply sends_ret; by exists []|].
  unfold write_response_body. eapply sends_bind; [apply sends_downstream|intros [] l ->|intros e l ->|intros l ->];
    [|by exists []..].
  intros x r x' E. destruct (IH x r x' E) as (sent & Hl & body & ->). exists ((λ t, WriteBody t false) <$> body).
  split; [done|]. by exists (c :: body).
Qed.

Lemma send_downstream_sends elapsed resp body :
  sends xlog (send_downstream elapsed resp body)
    (λ r sent, match r with Ok resp' => streamed resp' sent | _ => sent = [] ∨ ∃ resp', streamed resp' sent end).
Proof.
  unfold send_downstream, write_response_header.
  apply sends_after; [apply quiet_log|intros resp'|by left|by left].
  { intros x. unfold Router_response_filter, mbind, M_bind, gets, lift.
    destruct (add_headers _ _) as [r1|e|]; [|done..]. cbv zeta.
    set (r2 := remove_headers _ r1). clearbody r2.
    assert (Hpass : ∀ y, execute_response_plugins y = (Ok tt, y)) by apply response_plugins_pass.
    destruct (extensions (ctx x) !! "cache_state"); [|by rewrite Hpass].
    destruct (cache_is_enabled (session x)); [|by rewrite Hpass]. unfold res_bind.
    destruct (insert_header "cache-status" _ _) as [r3|e|]; [|done..].
    destruct (insert_header "cache-duration" _ _) as [r4|e|]; [|done..]. by rewrite Hpass. }
  eapply sends_bind; [apply sends_downstream|intros [] l -> |intros e l ->; by left|intros l ->; by left].
  eapply sends_bind; [apply send_body_sends| | |].
  - intros [] l (chunks & ->). apply sends_ret. rewrite app_nil_r. by exists chunks.
  - intros e l (chunks & ->). right. exists resp'. by exists chunks.
  - intros l (chunks & ->). right. exists resp'. by exists chunks.
Qed.

Lemma from_upstream_sends `{!HashIterLaws} env elapsed : sends plog (from_upstream env elapsed) answered.
Proof.
  unfold from_upstream.
  apply sends_after; [apply on_request_sends, send_upstream_quiet|intros [[peer req] a]|by left|by left].
  apply sends_after; [apply on_request_sends, receive_header_quiet|intros [resp m]|by left|by left].
  apply sends_after; [apply quiet_gets|intros key|by left|by left].
  apply sends_after; [apply quiet_gets|intros st|by left|by left].
  apply sends_after; [apply quiet_gets|intros limit|by left|by left].
  apply sends_after; [|intros []|by left|by left].
  { apply quiet_log. intros p. match goal with |- plog (snd (?f p)) = _ => destruct (f p) as [r p'] eqn:E end.
    apply admission_keeps in E as [Hw _]. unfold plog. simpl. by rewrite Hw. }
  eapply sends_bind; [apply on_request_sends, send_downstream_sends|intros resp' l Hl|done|done].
  apply sends_ret. by rewrite app_nil_r.
Qed.

Lemma from_cache_sends elapsed given key meta h : sends plog (from_cache elapsed given key meta h) answered.
Proof.
  unfold from_cache. apply sends_after; [|intros body|by left|by left].
  { apply quiet_log. intros p. unfold read_hit. destruct h; [|done]. by destruct (read_all _ _ _). }
  eapply sends_bind; [apply on_request_sends, send_downstream_sends|intros resp' l Hl|done|done].
  apply sends_ret. by rewrite app_nil_r.
Qed.

(** After the filter. *)
Lemma serve_through_sends `{!HashIterLaws} env elapsed given p w r p' :
  Router_request_filter env (px_world p) = (Ok false, w) → serve env elapsed given p = (r, p') →
  ∃ sent, plog p' = wlog w ++ sent ∧ answered r sent.
Proof.
  intros Hf. destruct (serve_through env elapsed given p w Hf) as (p2 & -> & _ & _ & Hw & _).
  change (written (session (px_exchange p2))) with (plog p2) in Hw.
  change (written (session (exchange w))) with (wlog w) in Hw. rewrite <- Hw.
  destruct (cached_copy env w p) as [[meta h]|]; [apply from_cache_sends|apply from_upstream_sends].
Qed.
End lemmas.

(** ** Properties *)

Section properties.
Context `{HttpApi, LbApi, PathTreeApi, Base64, JwtApi, ShortCrypt, CookieApi, HttpClient, HashIter}.
Context `{Dns} `{!CacheMetaApi} `{MetaJson, CacheHash, Disk} {net : Network}.
Implicit Types p : Proxy.

(** C25. Behind every plugin but oauth2 the answers of the proxy are well formed,
    however the connection to the client behaves: a request that the filter
    answers gets one error page or one header that ends the stream, and nothing
    else; one that is answered by an upstream or from the cache gets the header
    that the result names, once and first, then pieces of the body; and a
    request that ends in an error or a panic got nothing, or the beginning of
    such an answer. *)
Theorem answers_well_formed (Hit : HashIterLaws) env elapsed given p r p'
    (Hno : ∀ c, route_store (px_world p) !! request_host (px_exchange p) = Some c → rsc_plugins c !! "oauth2" = None)
    (Hserve : serve env elapsed given p = (r, p')) :
  ∃ sent, written (session (px_exchange p')) = written (session (px_exchange p)) ++ sent ∧ answered r sent.
Proof.
  destruct (Router_request_filter env (px_world p)) as [rf w] eqn:Ef.
  destruct (filter_sends env _ _ _ Hno Ef) as (sent & Hw & Hq).
  assert (Hcases : rf = Ok false ∨ rf ≠ Ok false) by (destruct rf as [[]| |]; naive_solver).
  destruct Hcases as [-> | Hstop].
  - simpl in Hq. subst sent. rewrite app_nil_r in Hw.
    destruct (serve_through_sends env elapsed given p w r p' Ef Hserve) as (sent & Hl & Ha).
    exists sent. rewrite Hw in Hl. by split.
  - rewrite serve_stopped in Hserve by by rewrite Ef. unfold on_world, zoom, mbind, M_bind in Hserve.
    rewrite Ef in Hserve. exists sent. destruct rf as [[]|e|]; injection Hserve as <- <-; (split; [exact Hw|]);
      simpl in *; [done|done|by left|by left].
Qed.
End properties.

(** ** Witnesses *)

#[local] Existing Instances toy_http toy_lb toy_pt toy_base64 toy_jwt toy_crypt toy_cookies
  toy_client toy_hash_iter toy_dns toy_meta toy_meta_json toy_disk toy_network numbered.

(** A request without credentials, behind basic_auth. *)
Definition at_login : Proxy :=
  mkProxy _ _ _ (toy_world (plugged {["basic_auth" := basic_plugin]}) (toy_request "/" [])) empty_disk.

Lemma answers_well_formed_witness :
  ∃ p' d, serve toy_env 7 [] at_login = (Ok Handled, p') ∧ written (session (px_exchange p')) = [d] ∧ final d.
Proof.
  assert (Hf : fst (Router_request_filter toy_env (px_world at_login)) = Ok true) by reflexivity.
  assert (Hs : fst (serve toy_env 7 [] at_login) = Ok Handled).
  { rewrite serve_stopped by (rewrite Hf; discriminate). unfold mbind, M_bind, on_world, zoom.
    destruct (Router_request_filter toy_env (px_world at_login)) as [r w]. simpl in Hf. by subst r. }
  destruct (serve toy_env 7 [] at_login) as [r p'] eqn:E. simpl in Hs. subst r.
  destruct (answers_well_formed toy_hash_iter_laws toy_env 7 [] at_login (Ok Handled) p')
    as (sent & Hw & d & -> & Hd); [by intros c [= <-]|exact E|].
  exists p', d. split; [reflexivity|]. split; [exact Hw|exact Hd].
Defined.
