(* ===== verification/AsyncIo.v ===== *)
(** Asynchronous writing as the logging service meets it: the [AsyncWrite] trait
    that the source implements, and tokio's [BufWriter], which is generic over
    it and a parameter here. *)
From S2P Require Import Prelude Strs.
#[local] Open Scope string_scope.
#[local] Open Scope list_scope.

(** [std::task::Poll] *)
Inductive Poll (A : Type) : Type :=
| Pending
| Ready (a : A).
Arguments Pending {A}.
Arguments Ready {A} a.

(** [tokio::io::AsyncWrite]: what a call returns, and the writer after it. *)
Class AsyncWrite (W : Type) := {
  poll_write : W → string → Poll (res string nat) * W;
  poll_flush : W → Poll (res string unit) * W;
  poll_shutdown : W → Poll (res string unit) * W }.

(** The bytes that a writer has accepted. Its methods keep to the trait's
    documentation: only a write that is ready with a number of bytes accepts
    something, that many bytes of the front of the buffer. *)
Class Accepts (W : Type) := accepted : W → string.
Class AsyncWriteLaws (W : Type) `{AsyncWrite W, Accepts W} : Prop := {
  poll_write_spec w buf :
    match poll_write w buf with
    | (Ready (Ok n), w') => (n ≤ String.length buf)%nat ∧ accepted w' = accepted w +:+ str_take n buf
    | (_, w') => accepted w' = accepted w
    end;
  poll_flush_spec w : accepted (snd (poll_flush w)) = accepted w;
  poll_shutdown_spec w : accepted (snd (poll_shutdown w)) = accepted w }.

(** [tokio::io::BufWriter] with its [AsyncWriteExt] methods. *)
Class BufWriterApi := {
  BufWriter : Type → Type;
  with_capacity {W} : nat → W → BufWriter W;
  write {W} `{AsyncWrite W} : BufWriter W → string → res string nat * BufWriter W;
  flush {W} `{AsyncWrite W} : BufWriter W → res string unit * BufWriter W;
  get_ref {W} : BufWriter W → W;
  buffer {W} : BufWriter W → string;
  capacity {W} : BufWriter W → nat }.

(** The bytes taken from the caller: accepted below, or still in the buffer. *)
Definition held `{BufWriterApi, Accepts W} (b : BufWriter W) : string :=
  accepted (get_ref b) +:+ buffer b.

(** A write may take a part of what it is given, but takes it whole if it is
    shorter than the capacity; if there is room for it, it stays in the buffer. A
    flush that succeeds leaves the buffer empty. Failures lose nothing. *)
Class BufWriterLaws `{BufWriterApi} : Prop := {
  with_capacity_spec {W} c (w : W) :
    get_ref (with_capacity c w) = w ∧ buffer (with_capacity c w) = "" ∧ capacity (with_capacity c w) = c;
  write_spec {W} `{AsyncWriteLaws W} (b : BufWriter W) buf :
    capacity (snd (write b buf)) = capacity b ∧
    match write b buf with
    | (Ok n, b') => (n ≤ String.length buf)%nat ∧ held b' = held b +:+ str_take n buf ∧
                    ((String.length buf < capacity b)%nat → n = String.length buf)
    | (Err _, b') => held b' = held b
    | (Panic, _) => False
    end;
  write_fits {W} `{AsyncWrite W} (b : BufWriter W) buf :
    (String.length (buffer b) + String.length buf ≤ capacity b)%nat →
    (String.length buf < capacity b)%nat →
    ∃ b', write b buf = (Ok (String.length buf), b') ∧ get_ref b' = get_ref b ∧
          buffer b' = buffer b +:+ buf ∧ capacity b' = capacity b;
  flush_spec {W} `{AsyncWriteLaws W} (b : BufWriter W) :
    capacity (snd (flush b)) = capacity b ∧ held (snd (flush b)) = held b ∧
    match flush b with
    | (Ok tt, b') => buffer b' = ""
    | (Err _, _) => True
    | (Panic, _) => False
    end }.

(** ** A buffered writer for the examples *)

Definition ToyBuf (W : Type) : Type := nat * string * W.

Section toy.
Context {W : Type} `{AsyncWrite W}.

Fixpoint drain (fuel : nat) (pending : string) (w : W) : res string unit * (string * W) :=
  match pending, fuel with
  | EmptyString, _ => (Ok tt, (EmptyString, w))
  | _, O => (Err "write zero", (pending, w))
  | _, S fuel =>
      match poll_write w pending with
      | (Ready (Ok n), w') => drain fuel (str_drop n pending) w'
      | (_, w') => (Err "interrupted", (pending, w'))
      end
  end.

Definition toy_drain (b : ToyBuf W) : res string unit * ToyBuf W :=
  let '(c, pending, w) := b in
  let '(r, (rest, w')) := drain (String.length pending) pending w in (r, (c, rest, w')).

Definition toy_write (b : ToyBuf W) (buf : string) : res string nat * ToyBuf W :=
  let '(r, b') := if (b.1.1 <? String.length b.1.2 + String.length buf)%nat then toy_drain b
                  else (Ok tt, b) in
  match r with
  | Ok _ =>
      let '(c, pending, w) := b' in
      if (c <=? String.length buf)%nat then
        match poll_write w buf with
        | (Ready (Ok n), w') => (Ok n, (c, pending, w'))
        | (_, w') => (Err "interrupted", (c, pending, w'))
        end
      else (Ok (String.length buf), (c, pending +:+ buf, w))
  | _ => (Err "interrupted", b')
  end.

Definition toy_flush (b : ToyBuf W) : res string unit * ToyBuf W :=
  let '(r, (c, pending, w)) := toy_drain b in
  match r with
  | Ok _ => match poll_flush w with
            | (Ready (Ok _), w') => (Ok tt, (c, pending, w'))
            | (_, w') => (Err "interrupted", (c, pending, w'))
            end
  | _ => (Err "interrupted", (c, pending, w))
  end.
End toy.

Definition toy_buf_writer : BufWriterApi := {|
  BufWriter := ToyBuf; with_capacity W c w := (c, "", w);
  write := @toy_write; flush := @toy_flush;
  get_ref W b := b.2; buffer W b := b.1.2; capacity W b := b.1.1 |}.

Section toy_laws.
Context {W : Type} `{AsyncWriteLaws W}.

Lemma drain_spec fuel pending (w : W) :
  let '(r, (rest, w')) := drain fuel pending w in
  accepted w' +:+ rest = accepted w +:+ pending ∧
  match r with Ok _ => rest = "" | Err _ => True | Panic => False end.
Proof.
  revert pending w. induction fuel as [|fuel IH]; intros pending w; [by destruct pending|].
  destruct pending as [|a pending]; [done|]. cbn [drain].
  pose proof (poll_write_spec w (String a pending)) as Hw.
  destruct (poll_write w (String a pending)) as [[|[n|e|]] w']; [by rewrite Hw| |by rewrite Hw..].
  destruct Hw as [_ Hw]. specialize (IH (str_drop n (String a pending)) w').
  destruct (drain fuel _ w') as [r [rest w'']]. destruct IH as [IH ?]. split; [|done].
  by rewrite IH, Hw, app_assoc_str, str_take_drop.
Qed.

Lemma toy_drain_spec (b : ToyBuf W) :
  let '(r, b') := toy_drain b in
  b'.1.1 = b.1.1 ∧ accepted b'.2 +:+ b'.1.2 = accepted b.2 +:+ b.1.2 ∧
  match r with Ok _ => b'.1.2 = "" | Err _ => True | Panic => False end.
Proof.
  destruct b as [[c pending] w]. unfold toy_drain.
  pose proof (drain_spec (String.length pending) pending w) as Hd.
  by destruct (drain _ pending w) as [r [rest w']].
Qed.

(** A write first makes room, if it must. *)
Definition toy_room (b : ToyBuf W) (buf : string) : res string unit * ToyBuf W :=
  if (b.1.1 <? String.length b.1.2 + String.length buf)%nat then toy_drain b else (Ok tt, b).

Lemma toy_room_spec (b : ToyBuf W) buf :
  let '(r, b') := toy_room b buf in
  b'.1.1 = b.1.1 ∧ accepted b'.2 +:+ b'.1.2 = accepted b.2 +:+ b.1.2 ∧
  match r with
  | Ok _ => (b.1.1 <= String.length buf)%nat → b'.1.2 = ""
  | Err _ => True
  | Panic => False
  end.
Proof.
  unfold toy_room. destruct (Nat.ltb_spec b.1.1 (String.length b.1.2 + String.length buf)).
  - pose proof (toy_drain_spec b) as Hd. destruct (toy_drain b) as [[] b']; naive_solver.
  - split_and!; [done..|]. intros ?. apply length_nil_str. lia.
Qed.

Lemma toy_write_spec (b : ToyBuf W) buf :
  let '(r, b') := toy_write b buf in
  b'.1.1 = b.1.1 ∧
  match r with
  | Ok n => (n ≤ String.length buf)%nat ∧
      accepted b'.2 +:+ b'.1.2 = (accepted b.2 +:+ b.1.2) +:+ str_take n buf ∧
      ((String.length buf < b.1.1)%nat → n = String.length buf)
  | Err _ => accepted b'.2 +:+ b'.1.2 = accepted b.2 +:+ b.1.2
  | Panic => False
  end.
Proof.
  unfold toy_write. fold (toy_room b buf). pose proof (toy_room_spec b buf) as Hf.
  destruct (toy_room b buf) as [[[]|e|] [[c p] w]]; simpl in *; [|naive_solver..].
  destruct Hf as (-> & Hh & Hempty). rewrite <- Hh. destruct (Nat.leb_spec b.1.1 (String.length buf)).
  - rewrite Hempty by done. pose proof (poll_write_spec w buf) as Hw.
    destruct (poll_write w buf) as [[|[n|e|]] w']; simpl; [by rewrite Hw| |by rewrite Hw..].
    destruct Hw as [Hn ->]. rewrite !app_nil_r_str. split_and!; [done|done|done|lia].
  - split_and!; [done|done| |done]. by rewrite str_take_all, app_assoc_str.
Qed.

Lemma toy_flush_spec (b : ToyBuf W) :
  let '(r, b') := toy_flush b in
  b'.1.1 = b.1.1 ∧ accepted b'.2 +:+ b'.1.2 = accepted b.2 +:+ b.1.2 ∧
  match r with Ok tt => b'.1.2 = "" | Err _ => True | Panic => False end.
Proof.
  unfold toy_flush. pose proof (toy_drain_spec b) as Hd.
  destruct (toy_drain b) as [[[]|e|] [[c p] w]]; simpl in *; [|naive_solver..].
  destruct Hd as (-> & Hh & ->). pose proof (poll_flush_spec w) as Hw.
  destruct (poll_flush w) as [[|[[]|e|]] w']; simpl in *; rewrite Hw; by split_and!.
Qed.
End toy_laws.

Lemma toy_buf_writer_laws : @BufWriterLaws toy_buf_writer.
Proof.
  split.
  - done.
  - intros W ? ? ? b buf. pose proof (toy_write_spec b buf) as Hw. simpl.
    destruct (toy_write b buf) as [[n|e|] b']; exact Hw.
  - intros W ? [[c p] w] buf. simpl. intros Hroom Hshort. unfold toy_write. simpl.
    rewrite (proj2 (Nat.ltb_ge _ _) Hroom), (proj2 (Nat.leb_gt _ _) Hshort).
    by eexists.
  - intros W ? ? ? b. pose proof (toy_flush_spec b) as Hf. simpl.
    destruct (toy_flush b) as [[[]|e|] b']; naive_solver.
Qed.
