(* ===== verification/Logger.v ===== *)
(** The logging service: services/logger/mod.rs (which events are skipped,
    the receiver and its file) and services/logger/rotation.rs (when a file is
    rolled over). The [time] crate, the file system, tokio's writers and their
    buffering (AsyncIo.v) are parameters. *)
From S2P Require Import Prelude Strs Config AsyncIo.
#[local] Open Scope string_scope.
#[local] Open Scope list_scope.
#[local] Open Scope Z_scope.

(** ** External code *)

(** [time::OffsetDateTime], for dates in UTC; [unix_timestamp] in seconds.
    [replace_time] takes hour, minute and second; [format] the text of a format
    description. *)
Class TimeApi := {
  Date : Type;
  unix_timestamp : Date → Z;
  from_unix_timestamp : Z → option Date;
  add_secs : Date → Z → Date;
  hour : Date → Z;
  minute : Date → Z;
  replace_time : Date → Z → Z → Z → Date;
  format : string → Date → string }.
Class TimeLaws `{TimeApi} : Prop := {
  from_unix_timestamp_spec t d : from_unix_timestamp t = Some d → unix_timestamp d = t;
  add_secs_spec d s : unix_timestamp (add_secs d s) = unix_timestamp d + s;
  hour_spec d : hour d = (unix_timestamp d mod 86400) / 3600;
  minute_spec d : minute d = (unix_timestamp d mod 3600) / 60;
  replace_time_spec d h m s :
    unix_timestamp (replace_time d h m s) =
    unix_timestamp d - unix_timestamp d mod 86400 + 3600 * h + 60 * m + s }.

(** [std::path::absolute]; [tokio::io::Stdout] and [tokio::fs::File] with the
    [AsyncWrite] they implement; opening a file with [create] and [append]. *)
Class LogFiles := {
  absolute : string → option string;
  TStdout : Type;
  TFile : Type;
  stdout_write :: AsyncWrite TStdout;
  file_write :: AsyncWrite TFile;
  tokio_stdout : TStdout;
  open_append : string → option TFile }.

(** What the writers accept, counted from the start of the process for the
    standard output, from the opening for a file. *)
Class LogSinks `{LogFiles} := {
  stdout_accepts :: Accepts TStdout;
  file_accepts :: Accepts TFile }.
Class LogSinksLaws `{LogSinks} : Prop := {
  stdout_laws :: AsyncWriteLaws TStdout;
  file_laws :: AsyncWriteLaws TFile;
  stdout_new : accepted tokio_stdout = "";
  file_new path f : open_append path = Some f → accepted f = "" }.

(** ** Which events are logged *)

(** What [make_writer_for] reads of an event's metadata. *)
Record Metadata := mkMetadata { meta_level : LevelFilter; meta_fields : list string }.

Record ProxyLog := mkProxyLog { pl_enabled : bool; pl_access_logs : bool; pl_error_logs : bool }.

(** The sender is the channel that [StdoutWriter_write] is given. *)
Definition ProxyLog_new (log_enabled access_logs error_logs : bool) : ProxyLog :=
  mkProxyLog log_enabled access_logs error_logs.

(** The channel is the list of the messages sent. *)
Record StdoutWriter := mkStdoutWriter { skip_log : bool }.

#[export] Instance LevelFilter_eq_dec : EqDecision LevelFilter.
Proof. solve_decision. Defined.

Definition StdoutWriter_write (w : StdoutWriter) (buf : string) (chan : list string) : list string * nat :=
  (if negb (skip_log w) then chan ++ [buf] else chan, String.length buf).

(** [stdout] is what flushing the standard output returns. *)
Definition StdoutWriter_flush (w : StdoutWriter) (stdout : res string unit) : res string unit :=
  if skip_log w then Ok tt else stdout.

Definition make_writer (self : ProxyLog) : StdoutWriter := mkStdoutWriter false.

Definition make_writer_for (self : ProxyLog) (meta : Metadata) : StdoutWriter :=
  let skip_log := false in
  let skip_log := if negb (pl_error_logs self) then bool_decide (meta_level meta = ERROR) else skip_log in
  let skip_log := if negb (pl_access_logs self) then bool_decide ("access_log" ∈ meta_fields meta)
                  else skip_log in
  mkStdoutWriter (skip_log || negb (pl_enabled self)).

(** ** The writer (mod.rs) *)

Section log_writer.
Context `{LogFiles}.

(** The standard output or a file. *)
Inductive LogWriter := Stdout (w : TStdout) | File (w : TFile).

Definition LogWriter_poll_write (self : LogWriter) (buf : string) : Poll (res string nat) * LogWriter :=
  match self with
  | Stdout w => let '(r, w') := poll_write w buf in (r, Stdout w')
  | File w => let '(r, w') := poll_write w buf in (r, File w')
  end.

Definition LogWriter_poll_flush (self : LogWriter) : Poll (res string unit) * LogWriter :=
  match self with
  | Stdout w => let '(r, w') := poll_flush w in (r, Stdout w')
  | File w => let '(r, w') := poll_flush w in (r, File w')
  end.

Definition LogWriter_poll_shutdown (self : LogWriter) : Poll (res string unit) * LogWriter :=
  match self with
  | Stdout w => let '(r, w') := poll_shutdown w in (r, Stdout w')
  | File w => let '(r, w') := poll_shutdown w in (r, File w')
  end.

#[export] Instance LogWriter_AsyncWrite : AsyncWrite LogWriter := {|
  poll_write := LogWriter_poll_write;
  poll_flush := LogWriter_poll_flush;
  poll_shutdown := LogWriter_poll_shutdown |}.

#[export] Instance LogWriter_accepts `{!LogSinks} : Accepts LogWriter := λ self,
  match self with Stdout w => accepted w | File w => accepted w end.

(** The delegation keeps to the trait. *)
#[export] Instance LogWriter_laws `{!LogSinks, !LogSinksLaws} : AsyncWriteLaws LogWriter.
Proof.
  split.
  - intros [w|w] buf; unfold accepted; simpl; pose proof (poll_write_spec w buf) as Hw;
      destruct (poll_write w buf) as [[|[]] w']; exact Hw.
  - intros [w|w]; unfold accepted; simpl; rewrite <- (poll_flush_spec w); by destruct (poll_flush w).
  - intros [w|w]; unfold accepted; simpl; rewrite <- (poll_shutdown_spec w); by destruct (poll_shutdown w).
Qed.
End log_writer.

Section logger.
Context `{TimeApi, LogFiles, BufWriterApi}.

(** ** Rotation (rotation.rs) *)

(** [unreachable!] for [Never]. *)
Definition round_date (self : LogRotation) (date : Date) : res string Date :=
  match self with
  | LogRotation_Minutely => Ok (replace_time date (hour date) (minute date) 0)
  | LogRotation_Hourly => Ok (replace_time date (hour date) 0 0)
  | LogRotation_Daily => Ok (replace_time date 0 0 0)
  | LogRotation_Never => Panic
  end.

Definition next_date (self : LogRotation) (current_date : Date) : res string (option Date) :=
  match self with
  | LogRotation_Never => Ok None
  | _ =>
      let unrounded_next_date :=
        match self with
        | LogRotation_Minutely => add_secs current_date 60
        | LogRotation_Hourly => add_secs current_date 3600
        | _ => add_secs current_date 86400
        end in
      d ← round_date self unrounded_next_date;
      Ok (Some d)
  end.

(** The description that file names are formatted with. *)
Definition date_format (self : LogRotation) : string :=
  match self with
  | LogRotation_Minutely => "[year]-[month]-[day]-[hour]-[minute]"
  | LogRotation_Hourly => "[year]-[month]-[day]-[hour]"
  | LogRotation_Daily => "[year]-[month]-[day]"
  | LogRotation_Never => ""
  end.

(** ** The receiver (mod.rs) *)

(** [replaced] keeps the writers that were dropped, with what they held. *)
Record Receiver := mkReceiver {
  bufwriter : BufWriter LogWriter;
  suffix : string;
  next : Z;
  rotation : LogRotation;
  replaced : list (BufWriter LogWriter) }.

Definition Receiver_new : Receiver :=
  mkReceiver (with_capacity 10 (Stdout tokio_stdout)) "" 0 LogRotation_Never [].

Definition set_suffix (x : string) (r : Receiver) : Receiver :=
  mkReceiver (bufwriter r) x (next r) (rotation r) (replaced r).
Definition set_bufwriter (x : BufWriter LogWriter) (r : Receiver) : Receiver :=
  mkReceiver x (suffix r) (next r) (rotation r) (replaced r).
Definition set_next (x : Z) (r : Receiver) : Receiver :=
  mkReceiver (bufwriter r) (suffix r) x (rotation r) (replaced r).
Definition set_rotation (x : LogRotation) (r : Receiver) : Receiver :=
  mkReceiver (bufwriter r) (suffix r) (next r) x (replaced r).

(** An assignment to [bufwriter], which drops the old one without a flush. *)
Definition replace_bufwriter (x : BufWriter LogWriter) (r : Receiver) : Receiver :=
  mkReceiver x (suffix r) (next r) (rotation r) (replaced r ++ [bufwriter r]).

(** A method of the buffered writer. *)
Definition on_bufwriter {A} (f : BufWriter LogWriter → res string A * BufWriter LogWriter)
    : M Receiver string A := zoom bufwriter set_bufwriter f.

Definition new_buf_writer (writer : LogWriter) : BufWriter LogWriter := with_capacity 1024 writer.

Definition file_buf_writer (config : Logging) (date : Date) : M Receiver string unit :=
  rotation ← gets rotation;
  _ ← modify (set_suffix (if bool_decide (rotation = LogRotation_Never) then ""
                          else "." +:+ format (date_format rotation) date));
  path ← lift (unwrap (log_path config));
  match absolute path with
  | None => mret tt
  | Some path =>
      suffix ← gets suffix;
      match open_append (path_join path ("proksi" +:+ suffix +:+ ".log")) with
      | None => mret tt
      | Some file =>
          _ ← modify (replace_bufwriter (new_buf_writer (File file)));
          next ← lift (next_date rotation date);
          match next with
          | Some next_date => modify (set_next (unix_timestamp next_date))
          | None => mret tt
          end
      end
  end.

Definition prepare_buf_writer (config : Logging) (now : Date) : M Receiver string unit :=
  match log_path config with
  | Some _ =>
      _ ← modify (set_rotation (log_rotation config));
      file_buf_writer config now
  | None => mret tt
  end.

Definition should_rollover (date : Date) (self : Receiver) : option Z :=
  let next_date := next self in
  if next_date =? 0 then None
  else if next_date <=? unix_timestamp date then Some next_date
  else None.

Definition handle_log_rotation (config : Logging) (now : Date) : M Receiver string unit :=
  rotation ← gets rotation;
  if bool_decide (rotation = LogRotation_Never) then mret tt
  else
    roll ← gets (should_rollover now);
    match roll with
    | Some next_date =>
        date ← lift (unwrap (from_unix_timestamp next_date));
        _ ← catch_ok (on_bufwriter flush);
        file_buf_writer config date
    | None => mret tt
    end.

(** One message: one write to the current file, then the rotation. *)
Definition log_message (config : Logging) (buf : string) (now : Date) : M Receiver string unit :=
  _ ← catch_ok (on_bufwriter (λ b, write b buf));
  handle_log_rotation config now.

Fixpoint receive_loop (config : Logging) (received : list (string * Date)) : M Receiver string unit :=
  match received with
  | [] => mret tt
  | (buf, now) :: rest => _ ← log_message config buf now; receive_loop config rest
  end.

Definition Logger_start (config : Logging) (start : Date) (received : list (string * Date))
    : M Receiver string unit :=
  _ ← prepare_buf_writer config start;
  receive_loop config received.

(** ** Lemmas *)

(** The length of a rotation's period in seconds. *)
Definition period (r : LogRotation) : Z :=
  match r with
  | LogRotation_Minutely => 60
  | LogRotation_Hourly => 3600
  | LogRotation_Daily => 86400
  | LogRotation_Never => 0
  end.

Lemma mod_of_mod a p k : 0 < p → 0 < k → (a mod (p * k)) mod p = a mod p.
Proof. intros Hp Hk. rewrite Z.rem_mul_r by lia. rewrite Z.mul_comm, Z.mod_add, Z.mod_mod by lia. done. Qed.

Lemma mod_add_self a p : 0 < p → (a + p) mod p = a mod p.
Proof. intros Hp. replace (a + p) with (a + 1 * p) by lia. apply Z.mod_add. lia. Qed.

Lemma boundary_mod t p : 0 < p → (t + p - t mod p) mod p = 0.
Proof.
  intros Hp. replace (t + p - t mod p) with ((t / p + 1) * p)
    by (rewrite (Z.div_mod t p) at 2 by lia; lia).
  apply Z.mod_mul. lia.
Qed.

(** The boundary after one message, then [n] more, all at [t]. *)
Lemma boundary_step next t p n :
  0 < p → next mod p = 0 →
  let next' := if next <=? t then next + p else next in
  Z.max next' (Z.min (next' + Z.of_nat n * p) (t + p - t mod p)) =
  Z.max next (Z.min (next + Z.of_nat (S n) * p) (t + p - t mod p)).
Proof.
  intros Hp Hn. pose proof (Z.mod_pos_bound t p Hp) as Hmod.
  pose proof (Z.div_mod t p) as Hdm. pose proof (Z.div_mod next p) as Hdn. rewrite Hn in Hdn.
  destruct (next <=? t) eqn:E; simpl.
  - apply Z.leb_le in E. assert (next / p <= t / p) by (by apply Z.div_le_mono). nia.
  - apply Z.leb_gt in E. assert (t / p < next / p) by nia. nia.
Qed.

(** Rounding drops what is left over of the period. *)
Lemma round_date_spec `{!TimeLaws} r d d' :
  round_date r d = Ok d' → unix_timestamp d' = unix_timestamp d - unix_timestamp d mod period r.
Proof.
  destruct r; simpl; [done|..]; intros [= <-]; rewrite replace_time_spec.
  - lia.
  - rewrite hour_spec. set (t := unix_timestamp d).
    assert (E : (t mod 86400) mod 3600 = t mod 3600) by (apply (mod_of_mod t 3600 24); lia).
    pose proof (Z.div_mod (t mod 86400) 3600). lia.
  - rewrite hour_spec, minute_spec. set (t := unix_timestamp d).
    assert (E : (t mod 86400) mod 3600 = t mod 3600) by (apply (mod_of_mod t 3600 24); lia).
    assert (E' : (t mod 3600) mod 60 = t mod 60) by (apply (mod_of_mod t 60 60); lia).
    pose proof (Z.div_mod (t mod 86400) 3600). pose proof (Z.div_mod (t mod 3600) 60). lia.
Qed.

Lemma next_date_ok r d : r ≠ LogRotation_Never → ∃ d', next_date r d = Ok (Some d').
Proof. destruct r; intros Hr; [done|eexists; reflexivity..]. Qed.

Lemma next_date_timestamp `{!TimeLaws} r d d' :
  next_date r d = Ok (Some d') →
  unix_timestamp d' = unix_timestamp d + period r - unix_timestamp d mod period r.
Proof.
  unfold next_date, mbind, res_bind. destruct r; [done|..];
    (destruct (round_date _ _) as [e|e|] eqn:E; [|done..]); intros [= <-];
    apply round_date_spec in E; rewrite E, add_secs_spec; unfold period;
    rewrite mod_add_self by lia; lia.
Qed.
End logger.

(** ** What becomes of the messages *)

(** What a write has taken of its message. *)
Definition taken (r : res string nat) (buf : string) : string :=
  match r with Ok n => str_take n buf | _ => "" end.

(** A message shorter than [c] is taken whole, unless this write of it failed. *)
Definition whole (c : nat) (r : res string nat) (buf : string) : Prop :=
  (String.length buf < c)%nat → taken r buf = buf ∨ ∃ e, r = Err e.

(** Without failures, messages that are all shorter than [c] are all kept. *)
Lemma all_whole c rs bufs :
  Forall2 (whole c) rs bufs → (∀ r e, r ∈ rs → r ≠ Err e) → Forall (λ b, (String.length b < c)%nat) bufs →
  concat_str (zip_with taken rs bufs) = concat_str bufs.
Proof.
  induction 1 as [|r b rs bufs Hw _ IH]; intros Hok Hs; [done|]. simpl.
  apply Forall_cons in Hs as [Hb Hs]. rewrite IH; [|intros r' e Hr; apply Hok; by right|done].
  destruct (Hw Hb) as [->|[e He]]; [done|]. by destruct (Hok r e ltac:(by left)).
Qed.

(** What the write of each message returns, on the writer that the receiver has
    when the message comes. *)
Section results.
Context `{TimeApi, LogFiles, BufWriterApi}.
Fixpoint write_results (config : Logging) (received : list (string * Date)) (s : Receiver) : list (res string nat) :=
  match received with
  | [] => []
  | (buf, now) :: rest =>
      fst (write (bufwriter s) buf) :: write_results config rest (snd (log_message config buf now s))
  end.

(** The receiver when it begins to receive. *)
Definition ready (config : Logging) (start : Date) : Receiver :=
  snd (prepare_buf_writer config start Receiver_new).

(** The start of the service does not panic, whatever the files. *)
Lemma prepare_returns config now s : fst (prepare_buf_writer config now s) = Ok tt.
Proof.
  unfold prepare_buf_writer, file_buf_writer. munfold. destruct (log_path config) as [dir|]; [|done]. simpl.
  destruct (absolute dir); [|done]. simpl. destruct (open_append _); [|done]. by destruct (log_rotation config).
Qed.
End results.

Section kept.
Context `{TimeApi, LogFiles, BufWriterApi} `{!LogSinks}.
Implicit Types s : Receiver.

(** All that was taken, the dropped writers first. *)
Definition logged s : string := concat_str (held <$> (replaced s ++ [bufwriter s])).

(** Nothing was in the buffer, or the flush before the drop had failed. *)
Definition drained (b : BufWriter LogWriter) : Prop :=
  buffer b = "" ∨ ∃ b0 e, flush b0 = (Err e, b).

Definition well_kept (c : nat) s : Prop :=
  (c <= capacity (bufwriter s))%nat ∧ Forall drained (replaced s).

Lemma logged_eq s : logged s = concat_str (held <$> replaced s) +:+ held (bufwriter s).
Proof. unfold logged. rewrite fmap_app, concat_str_app. simpl. by rewrite app_nil_r_str. Qed.

Context {Hsinks : LogSinksLaws} {Hbuf : BufWriterLaws}.

Lemma held_new path f : open_append path = Some f → held (new_buf_writer (File f)) = "".
Proof.
  intros Hf. unfold held, new_buf_writer. destruct (with_capacity_spec 1024 (File f)) as (-> & -> & _).
  unfold accepted at 1. simpl. by rewrite (file_new _ _ Hf).
Qed.

Lemma Receiver_new_kept : well_kept 10 Receiver_new ∧ logged Receiver_new = "" ∧ drained (bufwriter Receiver_new).
Proof.
  destruct (with_capacity_spec 10 (Stdout tokio_stdout)) as (Hr & Hb & Hc).
  split; [split; [by rewrite <- Hc at 1|done]|]. split; [|by left].
  rewrite logged_eq. unfold held. simpl. rewrite Hr, Hb. exact (f_equal (λ x, x +:+ "") stdout_new).
Qed.

(** The change of file drops nothing, if the old writer had been flushed. *)
Lemma file_buf_writer_kept config date c s r s' :
  well_kept c s → (c <= 1024)%nat → drained (bufwriter s) →
  file_buf_writer config date s = (r, s') → well_kept c s' ∧ logged s' = logged s.
Proof.
  intros [Hc Hd] Hle Hb. unfold file_buf_writer, gets, modify, lift, unwrap, mbind, M_bind, mret, M_ret.
  destruct (log_path config) as [dir|]; [|by intros [= <- <-]].
  destruct (absolute dir) as [path|]; [|by intros [= <- <-]]. cbn [suffix set_suffix].
  destruct (open_append _) as [f|] eqn:Hf; [|by intros [= <- <-]].
  set (s1 := replace_bufwriter _ _).
  assert (Hone : well_kept c s1 ∧ logged s1 = logged s).
  { rewrite !logged_eq. subst s1. unfold well_kept. simpl.
    rewrite fmap_app, concat_str_app, (held_new _ _ Hf). simpl. rewrite !app_nil_r_str.
    unfold new_buf_writer. destruct (with_capacity_spec 1024 (File f)) as (_ & _ & ->).
    split; [|done]. split; [done|]. apply Forall_app. split; [done|]. by apply Forall_singleton. }
  destruct (next_date _ _) as [[d|]|e|]; by intros [= <- <-].
Qed.

(** One message. *)
Lemma log_message_kept config buf now c s r s' :
  well_kept c s → (c <= 1024)%nat → log_message config buf now s = (r, s') →
  let w := fst (write (bufwriter s) buf) in
  well_kept c s' ∧ whole c w buf ∧ logged s' = logged s +:+ taken w buf.
Proof.
  intros [Hc Hd] Hle. unfold log_message, catch_ok, on_bufwriter, zoom, mbind, M_bind.
  destruct (write_spec (bufwriter s) buf) as [Hcap Hw].
  assert (Hone : ∃ o b, write (bufwriter s) buf = (o, b) ∧ o ≠ Panic ∧ whole c o buf ∧
    capacity b = capacity (bufwriter s) ∧ held b = held (bufwriter s) +:+ taken o buf).
  { destruct (write (bufwriter s) buf) as [[n|e|] b]; [| |done].
    - destruct Hw as (Hn & Hh & Hall). exists (Ok n), b. split_and!; try done.
      intros Hlt. left. simpl. rewrite (Hall ltac:(simpl in *; lia)). apply str_take_all.
    - exists (Err e), b. split_and!; try done; [by right; exists e|by rewrite app_nil_r_str]. }
  destruct Hone as (o & b & -> & Ho & He & Hcb & Hh).
  set (s1 := set_bufwriter b s).
  assert (Hk : well_kept c s1) by (split; [simpl; lia|done]).
  assert (Hl : logged s1 = logged s +:+ taken o buf).
  { rewrite !logged_eq. subst s1. simpl. by rewrite Hh, app_assoc_str. }
  cbv zeta. simpl fst. intros E. cut (well_kept c s' ∧ logged s' = logged s1); [rewrite Hl; naive_solver|].
  assert (Hrot : handle_log_rotation config now s1 = (r, s')) by (by destruct o).
  clear E. revert Hrot. generalize s1 Hk. clear -Hle Hsinks Hbuf. intros s [Hc Hd].
  unfold handle_log_rotation, gets, lift, unwrap, mbind, M_bind, mret, M_ret.
  case_bool_decide; [by intros [= <- <-]|]. destruct (should_rollover now s) as [t|]; [|by intros [= <- <-]].
  destruct (from_unix_timestamp t) as [d|]; [|by intros [= <- <-]].
  unfold catch_ok, on_bufwriter, zoom. destruct (flush_spec (bufwriter s)) as (Hcap & Hh & Hf).
  assert (Hs : ∀ b, capacity b = capacity (bufwriter s) → held b = held (bufwriter s) →
    well_kept c (set_bufwriter b s) ∧ logged (set_bufwriter b s) = logged s).
  { intros b Hcb Hhb. rewrite !logged_eq. unfold well_kept. simpl. by rewrite Hcb, Hhb. }
  destruct (flush (bufwriter s)) as [[[]|e|] b] eqn:Efl; [| |done]; simpl in *;
    destruct (Hs b Hcap Hh) as [Hk <-]; apply file_buf_writer_kept; try done; [by left|right; eauto].
Qed.
End kept.

Section rollover.
Context `{TimeApi, LogFiles, BufWriterApi} (config : Logging) (dir path : string).
Context {Htime : TimeLaws} {Hbuf : BufWriterLaws}.
Context (Hpath : log_path config = Some dir) (Habs : absolute dir = Some path).
Context (Hopen : ∀ file, is_Some (open_append file)).
Implicit Types s : Receiver.

(** The file of the period that starts at [d]. *)
Definition period_file (r : LogRotation) (d : Date) : string :=
  path_join path ("proksi" +:+ ("." +:+ format (date_format r) d) +:+ ".log").

Lemma file_buf_writer_rotating s d :
  rotation s ≠ LogRotation_Never →
  ∃ s' f, file_buf_writer config d s = (Ok tt, s') ∧ rotation s' = rotation s ∧
    open_append (period_file (rotation s) d) = Some f ∧ bufwriter s' = new_buf_writer (File f) ∧
    next s' = unix_timestamp d + period (rotation s) - unix_timestamp d mod period (rotation s).
Proof.
  intros Hr. destruct (next_date_ok (rotation s) d Hr) as [d' Hd].
  pose proof (next_date_timestamp _ _ _ Hd) as Ht.
  destruct (Hopen (period_file (rotation s) d)) as [f Hf].
  unfold file_buf_writer, gets, modify, lift, unwrap, mbind, M_bind.
  rewrite bool_decide_false by done. rewrite Hpath, Habs. cbn [suffix set_suffix].
  fold (period_file (rotation s) d). rewrite Hf, Hd.
  eexists _, f. split; [reflexivity|]. by split_and!.
Qed.

(** One message: if the boundary has passed, the file of the period starting at
    the boundary is opened, otherwise the current one is kept. *)
Lemma log_message_rotating buf now s :
  rotation s ≠ LogRotation_Never → next s ≠ 0 → next s mod period (rotation s) = 0 →
  (next s <= unix_timestamp now → is_Some (from_unix_timestamp (next s))) →
  (∀ b, fst (write b buf) ≠ Panic) → (∀ b : BufWriter LogWriter, fst (flush b) ≠ Panic) →
  ∃ s', log_message config buf now s = (Ok tt, s') ∧ rotation s' = rotation s ∧
    if next s <=? unix_timestamp now then
      next s' = next s + period (rotation s) ∧
      ∃ d f, unix_timestamp d = next s ∧ open_append (period_file (rotation s) d) = Some f ∧
             bufwriter s' = new_buf_writer (File f)
    else next s' = next s.
Proof.
  intros Hr Hn Hm Hd Hw Hfl. unfold log_message, catch_ok, on_bufwriter, zoom.
  unfold gets, modify, lift, mbind, M_bind. specialize (Hw (bufwriter s)).
  destruct (write (bufwriter s) buf) as [o b]. set (s1 := set_bufwriter b s).
  assert (Hrot : ∃ s', handle_log_rotation config now s1 = (Ok tt, s') ∧ rotation s' = rotation s ∧
    if next s <=? unix_timestamp now then
      next s' = next s + period (rotation s) ∧
      ∃ d f, unix_timestamp d = next s ∧ open_append (period_file (rotation s) d) = Some f ∧
             bufwriter s' = new_buf_writer (File f)
    else next s' = next s); [|by destruct o].
  unfold handle_log_rotation, should_rollover, gets, lift, unwrap, mbind, M_bind. cbv beta zeta.
  change (rotation s1) with (rotation s). change (next s1) with (next s).
  rewrite bool_decide_false by done. change (next s1) with (next s). rewrite (proj2 (Z.eqb_neq _ _) Hn).
  destruct (next s <=? unix_timestamp now) eqn:E; [|by eexists].
  destruct Hd as [d Hd]; [by apply Z.leb_le|]. rewrite Hd. apply from_unix_timestamp_spec in Hd.
  unfold catch_ok, on_bufwriter, zoom. specialize (Hfl (bufwriter s1)).
  destruct (flush (bufwriter s1)) as [o' b'].
  destruct (file_buf_writer_rotating (set_bufwriter b' s1) d Hr) as (s' & f & Hs' & Hrot & Hf & Hb & Hnext).
  exists s'. split; [by destruct o'|]. split; [done|].
  split; [|by exists d, f]. rewrite Hnext, Hd. simpl. rewrite Hm. lia.
Qed.

Lemma write_no_panic `{!LogSinks, !LogSinksLaws} (b : BufWriter LogWriter) buf : fst (write b buf) ≠ Panic.
Proof. destruct (write_spec b buf) as [_ Hw]. by destruct (write b buf) as [[]]. Qed.
Lemma flush_no_panic `{!LogSinks, !LogSinksLaws} (b : BufWriter LogWriter) : fst (flush b) ≠ Panic.
Proof. destruct (flush_spec b) as (_ & _ & Hw). by destruct (flush b) as [[]]. Qed.

(** A burst of messages at [now]: the boundary advances by a period per
    message, until it is in the future. *)
Lemma receive_loop_rotating `{!LogSinks, !LogSinksLaws} c (bufs : list string) now s :
  (∀ t, 0 < t <= unix_timestamp now → is_Some (from_unix_timestamp t)) →
  rotation s ≠ LogRotation_Never → 0 < next s → next s mod period (rotation s) = 0 →
  well_kept c s → (c <= 1024)%nat →
  let received := (λ b, (b, now)) <$> bufs in
  let results := write_results config received s in
  ∃ s', receive_loop config received s = (Ok tt, s') ∧
    well_kept c s' ∧ logged s' = logged s +:+ concat_str (zip_with taken results bufs) ∧
    Forall2 (whole c) results bufs ∧
    next s' = Z.max (next s) (Z.min (next s + Z.of_nat (length bufs) * period (rotation s))
      (unix_timestamp now + period (rotation s) - unix_timestamp now mod period (rotation s))).
Proof.
  intros Hfrom Hr Hpos Hbound Hk Hc.
  assert (Hp : 0 < period (rotation s)) by (by destruct (rotation s)).
  cbv zeta. revert s Hr Hpos Hbound Hp Hk. induction bufs as [|b bufs IH]; intros s Hr Hpos Hbound Hp Hk.
  - exists s. split_and!; [done|done| |constructor|simpl; lia]. simpl. by rewrite app_nil_r_str.
  - destruct (log_message_rotating b now s Hr) as (s1 & Hs1 & Hrot & Hn);
      [lia|done|intros ?; apply Hfrom; lia|intros; apply write_no_panic|apply flush_no_panic|].
    destruct (log_message_kept config b now c s (Ok tt) s1 Hk Hc Hs1) as (Hk1 & He & Hl).
    cbn [fmap list_fmap receive_loop write_results zip_with concat_str]. unfold mbind, M_bind. rewrite Hs1.
    destruct (IH s1) as (s' & Hs' & Hk' & Hl' & Hparts & Hn');
      [by rewrite Hrot| | |by rewrite Hrot|done|].
    + destruct (next s <=? unix_timestamp now); [destruct Hn as [-> _]|]; lia.
    + rewrite Hrot. destruct (next s <=? unix_timestamp now); [|by rewrite Hn].
      destruct Hn as [-> _]. by rewrite mod_add_self.
    + exists s'. split_and!; [done|done| |by constructor|].
      * simpl. rewrite Hl', Hl. by rewrite app_assoc_str.
      * rewrite Hn', Hrot. assert (next s1 = if next s <=? unix_timestamp now then next s + period (rotation s)
          else next s) as -> by (destruct (next s <=? unix_timestamp now); naive_solver).
        by apply boundary_step.
Qed.
End rollover.

(** The receiver from its start, with rotation. *)
Section start.
Context `{TimeApi, LogFiles, BufWriterApi} `{!LogSinks}.

Lemma rotating_log `{!TimeLaws, !LogSinksLaws, !BufWriterLaws} config dir path start (bufs : list string) now
    (Hpath : log_path config = Some dir) (Habs : absolute dir = Some path)
    (Hopen : ∀ file, is_Some (open_append file))
    (Hfrom : ∀ t, 0 < t <= unix_timestamp now → is_Some (from_unix_timestamp t))
    (Hr : log_rotation config ≠ LogRotation_Never) (Hstart : 0 <= unix_timestamp start) :
  let p := period (log_rotation config) in
  let first := unix_timestamp start + p - unix_timestamp start mod p in
  let received := (λ b, (b, now)) <$> bufs in
  let results := write_results config received (ready config start) in
  ∃ s', Logger_start config start received Receiver_new = (Ok tt, s') ∧
    logged s' = concat_str (zip_with taken results bufs) ∧ Forall2 (whole 1024) results bufs ∧
    ((∀ r e, r ∈ results → r ≠ Err e) → Forall (λ b, (String.length b < 1024)%nat) bufs →
       logged s' = concat_str bufs) ∧
    Forall drained (replaced s') ∧
    next s' = Z.max first (Z.min (first + Z.of_nat (length bufs) * p)
      (unix_timestamp now + p - unix_timestamp now mod p)).
Proof.
  intros p first received results. destruct Receiver_new_kept as (Hk & Hlog & Hd).
  set (s0 := set_rotation (log_rotation config) Receiver_new).
  destruct (file_buf_writer_rotating config dir path Hpath Habs Hopen s0 start Hr)
    as (s1 & f & Hs1 & Hrot & _ & Hw & Hn).
  destruct (file_buf_writer_kept config start 10 s0 (Ok tt) s1 Hk ltac:(lia) Hd Hs1) as [[_ Hd1] Hl1].
  change (logged s0) with (logged Receiver_new) in Hl1. rewrite Hlog in Hl1.
  change (rotation s0) with (log_rotation config) in *. fold p in Hn.
  assert (Hp : 0 < p) by (subst p; by destruct (log_rotation config)).
  pose proof (Z.mod_pos_bound (unix_timestamp start) p Hp).
  destruct (receive_loop_rotating config dir path Hpath Habs Hopen 1024 bufs now s1)
    as (s' & Hs' & [_ Hd'] & Hl' & Hparts & Hn'); [done|by rewrite Hrot|lia| | |lia|].
  { rewrite Hrot, Hn. apply boundary_mod. by destruct (log_rotation config). }
  { split; [|done]. rewrite Hw. unfold new_buf_writer.
    by destruct (with_capacity_spec 1024 (File f)) as (_ & _ & ->). }
  assert (Hprep : prepare_buf_writer config start Receiver_new = (Ok tt, s1)).
  { unfold prepare_buf_writer, modify, mbind, M_bind. rewrite Hpath. by fold s0. }
  assert (Hready : ready config start = s1) by (unfold ready; by rewrite Hprep).
  subst results. rewrite Hready. rewrite Hl1 in Hl'. exists s'. split_and!; [|done|done| |done|].
  - unfold Logger_start, mbind, M_bind. by rewrite Hprep.
  - intros Hok Hs. rewrite Hl'. by apply (all_whole 1024).
  - by rewrite Hn', Hrot, Hn.
Qed.
End start.

(** ** Properties *)

Section properties.
Context `{TimeApi, LogFiles, BufWriterApi} `{!LogSinks}.

(** C35. The next rollover is the first boundary of the rotation's period
    (minute, hour or day) strictly after the current date. *)
Theorem next_date_spec (Hl : TimeLaws) r d (Hr : r ≠ LogRotation_Never) :
  ∃ d', next_date r d = Ok (Some d') ∧
    unix_timestamp d < unix_timestamp d' <= unix_timestamp d + period r ∧
    unix_timestamp d' mod period r = 0.
Proof.
  destruct (next_date_ok r d Hr) as [d' Hd]. exists d'. split; [done|].
  apply next_date_timestamp in Hd. rewrite Hd.
  assert (Hp : 0 < period r) by (by destruct r).
  pose proof (Z.mod_pos_bound (unix_timestamp d) (period r) Hp).
  split; [lia|]. by apply boundary_mod.
Qed.

(** C36. The log of a burst of messages, after a time without any, is in order
    what the write of each message took of it, on the writer that the receiver
    had then: all of a message shorter than the buffer (1024 bytes), unless that
    very write failed. If none failed and all are shorter, the log is their
    concatenation. What had been buffered when a file was replaced is in that
    file, unless the flush had failed. Each message advances the file by at most
    one period, so messages are written to files of past periods; the boundary
    ends in the future once there were enough of them. *)
Theorem rotation_catches_up (Hl : TimeLaws) (Hs : LogSinksLaws) (Hb : BufWriterLaws)
    config dir path start (bufs : list string) now
    (Hpath : log_path config = Some dir) (Habs : absolute dir = Some path)
    (Hopen : ∀ file, is_Some (open_append file))
    (Hfrom : ∀ t, 0 < t <= unix_timestamp now → is_Some (from_unix_timestamp t))
    (Hr : log_rotation config ≠ LogRotation_Never) (Hstart : 0 <= unix_timestamp start) :
  let p := period (log_rotation config) in
  let first := unix_timestamp start + p - unix_timestamp start mod p in
  let received := (λ b, (b, now)) <$> bufs in
  let results := write_results config received (ready config start) in
  ∃ s', Logger_start config start received Receiver_new = (Ok tt, s') ∧
    logged s' = concat_str (zip_with taken results bufs) ∧ Forall2 (whole 1024) results bufs ∧
    ((∀ r e, r ∈ results → r ≠ Err e) → Forall (λ b, (String.length b < 1024)%nat) bufs →
       logged s' = concat_str bufs) ∧
    Forall drained (replaced s') ∧
    next s' = Z.max first (Z.min (first + Z.of_nat (length bufs) * p)
      (unix_timestamp now + p - unix_timestamp now mod p)).
Proof. by eapply rotating_log. Qed.

(** Without rotation nothing is ever flushed: of messages that fit into the
    buffer together, none has reached the file when the process ends. *)
Theorem short_log_never_written (Hs : LogSinksLaws) (Hb : BufWriterLaws)
    config dir path start (received : list (string * Date))
    (Hpath : log_path config = Some dir) (Habs : absolute dir = Some path)
    (Hopen : ∀ file, is_Some (open_append file)) (Hr : log_rotation config = LogRotation_Never)
    (Hfit : (String.length (concat_str received.*1) < 1024)%nat) :
  ∃ s' f, Logger_start config start received Receiver_new = (Ok tt, s') ∧
    get_ref (bufwriter s') = File f ∧ accepted f = "" ∧ buffer (bufwriter s') = concat_str received.*1.
Proof.
  set (s0 := set_rotation (log_rotation config) Receiver_new).
  destruct (Hopen (path_join path ("proksi" +:+ "" +:+ ".log"))) as [f Hf].
  destruct (with_capacity_spec 1024 (File f)) as (Hget & Hbuf & Hcap).
  set (s1 := replace_bufwriter (new_buf_writer (File f)) (set_suffix "" s0)).
  assert (Hs1 : file_buf_writer config start s0 = (Ok tt, s1)).
  { unfold file_buf_writer, gets, modify, lift, unwrap, mbind, M_bind.
    change (rotation s0) with (log_rotation config). rewrite Hr, Hpath, Habs.
    rewrite bool_decide_true by done. cbn [suffix set_suffix]. by rewrite Hf. }
  assert (Hloop : ∀ rec s, rotation s = LogRotation_Never → capacity (bufwriter s) = 1024%nat →
    get_ref (bufwriter s) = File f →
    (String.length (buffer (bufwriter s)) + String.length (concat_str rec.*1) < 1024)%nat →
    ∃ s', receive_loop config rec s = (Ok tt, s') ∧ get_ref (bufwriter s') = File f ∧
      buffer (bufwriter s') = buffer (bufwriter s) +:+ concat_str rec.*1).
  { induction rec as [|[buf now] rec IH]; intros s Hn Hc Hg Hlen.
    - exists s. split_and!; [done|done|]. simpl. by rewrite app_nil_r_str.
    - change (concat_str ((buf, now) :: rec).*1) with (buf +:+ concat_str rec.*1) in *.
      rewrite length_app_str in Hlen.
      destruct (write_fits (bufwriter s) buf) as (b' & Hw & Hg' & Hb' & Hc'); [lia..|].
      destruct (IH (set_bufwriter b' s)) as (s' & Hs' & Hg2 & Hb2);
        [done|by simpl; rewrite Hc'|by simpl; rewrite Hg'|change (bufwriter (set_bufwriter b' s)) with b'; rewrite Hb', length_app_str; lia|].
      exists s'. split_and!; [|done|rewrite Hb2; simpl; by rewrite Hb', app_assoc_str].
      cbn [receive_loop]. unfold mbind, M_bind, log_message, catch_ok, on_bufwriter, zoom, mbind, M_bind.
      rewrite Hw. unfold handle_log_rotation, gets, mbind, M_bind, mret, M_ret.
      change (rotation (set_bufwriter b' s)) with (rotation s). by rewrite bool_decide_true. }
  destruct (Hloop received s1) as (s' & Hs' & Hg & Hbf); [done|done|done| |].
  { simpl. unfold new_buf_writer. rewrite Hbuf. exact Hfit. }
  exists s', f. split_and!; [|done|by apply (file_new _ _ Hf)|].
  - unfold Logger_start, prepare_buf_writer, modify, mbind, M_bind. rewrite Hpath. fold s0. by rewrite Hs1.
  - rewrite Hbf. simpl. unfold new_buf_writer. by rewrite Hbuf.
Qed.
End properties.

(** With access logs disabled, the setting for error logs has no effect:
    error events that are not access logs are written even when error logs are
    disabled too. *)
Theorem error_logs_setting_ignored enabled errors meta
    (Herror : meta_level meta = ERROR) (Hfield : "access_log" ∉ meta_fields meta) :
  skip_log (make_writer_for (mkProxyLog enabled false errors) meta) = negb enabled ∧
  skip_log (make_writer_for (mkProxyLog enabled true false) meta) = true.
Proof.
  unfold make_writer_for. simpl. rewrite (bool_decide_false ("access_log" ∈ _)) by done.
  by rewrite bool_decide_true.
Qed.

(** ** Witnesses *)

Definition toy_time : TimeApi := {|
  Date := Z; unix_timestamp := λ d, d; from_unix_timestamp := Some; add_secs := Z.add;
  hour := λ d, (d mod 86400) / 3600; minute := λ d, (d mod 3600) / 60;
  replace_time := λ d h m s, d - d mod 86400 + 3600 * h + 60 * m + s;
  format := λ _ d, show_N (Z.to_N d) |}.
Lemma toy_time_laws : @TimeLaws toy_time.
Proof. split; simpl; [congruence|done..]. Qed.
Definition toy_date (t : Z) : @Date toy_time := t.
(** Writers that take at most three bytes at a time. *)
Definition toy_sink : AsyncWrite string := {|
  poll_write := λ w buf, (Ready (Ok (Nat.min 3 (String.length buf))), w +:+ str_take 3 buf);
  poll_flush := λ w, (Ready (Ok tt), w);
  poll_shutdown := λ w, (Ready (Ok tt), w) |}.
Definition toy_log_files : LogFiles := {|
  absolute := Some; TStdout := string; TFile := string; stdout_write := toy_sink; file_write := toy_sink;
  tokio_stdout := EmptyString; open_append := λ _, Some EmptyString |}.
Definition toy_log_sinks : @LogSinks toy_log_files :=
  @Build_LogSinks toy_log_files (λ w, w) (λ w, w).
Lemma toy_sink_laws : @AsyncWriteLaws string toy_sink (λ w, w).
Proof.
  split; [|done..]. intros w buf. cbn [poll_write toy_sink]. unfold accepted. split; [lia|]. by rewrite str_take_min.
Qed.
Lemma toy_log_sinks_laws : @LogSinksLaws toy_log_files toy_log_sinks.
Proof. split; [apply toy_sink_laws..|done|by intros path f [= <-]]. Qed.

#[local] Existing Instances toy_time toy_log_files toy_log_sinks toy_buf_writer.

Definition toy_logging : Logging :=
  mkLogging true LogLevel_Info true true LogFormat_Json (Some "/var/log") LogRotation_Minutely.
Definition quiet_logging : Logging :=
  mkLogging true LogLevel_Info true true LogFormat_Json (Some "/var/log") LogRotation_Never.

Lemma next_date_spec_witness :
  ∃ d', next_date LogRotation_Hourly (4000 : Date) = Ok (Some d') ∧ unix_timestamp d' = 7200.
Proof.
  destruct (next_date_spec toy_time_laws LogRotation_Hourly (4000 : Z)) as (d' & Hd & _ & _); [done|].
  exists d'. split; [exact Hd|]. vm_compute in Hd. simpl. congruence.
Defined.

Lemma rotation_catches_up_witness :
  ∃ s', Logger_start toy_logging (toy_date 0) [("a", toy_date 330); ("b", toy_date 330)] Receiver_new
      = (Ok tt, s') ∧
    logged s' = "ab" ∧ next s' = 180.
Proof.
  destruct (rotation_catches_up toy_time_laws toy_log_sinks_laws toy_buf_writer_laws toy_logging
    "/var/log" "/var/log" (toy_date 0) ["a"; "b"] (toy_date 330))
    as (s' & Hs & _ & _ & Hl & _ & Hn);
    [reflexivity|reflexivity|intros file; by eexists|intros t _; by exists t|discriminate|discriminate|].
  exists s'. split_and!; [exact Hs| |rewrite Hn; reflexivity]. apply Hl.
  - intros r e Hr ->. vm_compute in Hr. set_solver.
  - repeat constructor.
Defined.

Lemma short_log_never_written_witness :
  ∃ s' f, Logger_start quiet_logging (toy_date 0) [("a", toy_date 330); ("b", toy_date 330)] Receiver_new
      = (Ok tt, s') ∧
    get_ref (bufwriter s') = File f ∧ f = EmptyString ∧ buffer (bufwriter s') = "ab".
Proof.
  destruct (short_log_never_written toy_log_sinks_laws toy_buf_writer_laws quiet_logging
    "/var/log" "/var/log" (toy_date 0) [("a", toy_date 330); ("b", toy_date 330)])
    as (s' & f & Hs & Hg & Ha & Hb); [reflexivity|reflexivity|intros file; by eexists|reflexivity|simpl; lia|].
  exists s', f. split_and!; [exact Hs|exact Hg|exact Ha|exact Hb].
Defined.

Lemma error_logs_setting_ignored_witness :
  skip_log (make_writer_for (mkProxyLog true false false) (mkMetadata ERROR ["message"])) = false.
Proof.
  refine (proj1 (error_logs_setting_ignored true false (mkMetadata ERROR ["message"]) _ _));
    [reflexivity|set_solver].
Defined.

(** The one write per message: a writer that takes three bytes at a time gets
    three bytes of a message that does not fit into the buffer. *)
Example long_message_cut :
  logged (snd (log_message quiet_logging "twelve bytes" (toy_date 0) Receiver_new)) = "twe".
Proof. vm_compute. reflexivity. Qed.
