(* ===== verification/Docker.v ===== *)
(** The Docker label service (services/docker/mod.rs): from the labels of
    services or containers to route messages. The Docker API, serde_json and
    the order in which hash maps are iterated are parameters. *)
From S2P Require Import Prelude Strs Config Stores Http Routes Plugins Router Discovery.
#[local] Open Scope string_scope.
#[local] Open Scope list_scope.

(** ** External code *)

(** [serde_json::from_str] at the three types the labels hold. *)
Class LabelJson := {
  json_header_add : string → option (list RouteHeaderAdd);
  json_header_remove : string → option (list RouteHeaderRemove);
  json_value : string → option Value }.

(** [SocketAddr::from_str] succeeds. *)
Class SocketText := { is_socket_addr : string → bool }.

(** [bollard::Docker]: a client, and the ways to connect one; the number is
    the timeout in seconds. *)
Class DockerApi := {
  DockerClient : Type;
  connect_with_unix : string → N → res string DockerClient;
  connect_with_http : string → N → res string DockerClient;
  connect_with_local_defaults : res string DockerClient }.

(** ** Data *)

Record ProksiDockerRoute := mkDockerRoute {
  dr_upstreams : list string;
  dr_path_matchers : list string;
  dr_host_header_add : option (list RouteHeaderAdd);
  dr_host_header_remove : option (list RouteHeaderRemove);
  dr_self_signed : bool;
  dr_plugins : option (list RoutePlugin) }.

Definition ProksiDockerRoute_new (upstreams path_matchers : list string) : ProksiDockerRoute :=
  mkDockerRoute upstreams path_matchers None None false None.

(** The iteration order of the map of routes. *)
Class RouteIter := { route_iter : gmap string ProksiDockerRoute → list (string * ProksiDockerRoute) }.
Class RouteIterLaws `{RouteIter} : Prop := { route_iter_perm m : route_iter m ≡ₚ map_to_list m }.

(** What is read of the API's replies; labels are given in the order in which
    their map is iterated. *)
Record ServiceSpec := mkServiceSpec {
  spec_name : option string;
  spec_labels : option (list (string * string)) }.
Record DockerService := mkDockerService {
  service_id : option string;
  service_spec : option ServiceSpec }.
Record DockerContainer := mkDockerContainer {
  container_labels : option (list (string * string));
  container_networks : option (option (list (option string))) }.

(** The locals that the label loop fills: those of both loops, and those of
    the plugins (services only). *)
Record Labels := mkLabels {
  proxy_enabled : bool;
  proxy_host : string;
  proxy_port : string;
  path_patterns : list string;
  route_header_add : option (list RouteHeaderAdd);
  route_header_remove : option (list RouteHeaderRemove);
  self_signed_on_failure : bool }.
Record PluginLabels := mkPluginLabels {
  oauth2_provider : option string;
  oauth2_client_id : option string;
  oauth2_client_secret : option string;
  oauth2_jwt_secret : option string;
  oauth2_validations : option Value;
  docker_request_id : bool;
  basic_auth_user : option string;
  basic_auth_password : option string }.

Definition no_labels : Labels := mkLabels false "" "" [] None None false.
Definition no_plugin_labels : PluginLabels := mkPluginLabels None None None None None false None None.

(** The fields that both loops set on a new route. *)
Definition set_labels (l : Labels) (r : ProksiDockerRoute) : ProksiDockerRoute :=
  mkDockerRoute (dr_upstreams r) (dr_path_matchers r) (route_header_add l) (route_header_remove l)
    (self_signed_on_failure l) (dr_plugins r).

Definition pattern_prefix := "proksi.match_with.path.pattern.".

(** ** The connection *)

Section connection.
Context `{DockerApi}.

Definition connect_to_docker (endpoint : string) : res string DockerClient :=
  if starts_with "unix:///" endpoint then connect_with_unix endpoint 120
  else if starts_with "tcp://" endpoint || starts_with "http" endpoint then connect_with_http endpoint 120
  else connect_with_local_defaults.

Record LabelService := mkLabelService { ls_config : Config; ls_inner : DockerClient }.

(** [unwrap]: a client that cannot be made is a panic, enabled or not. *)
Definition LabelService_new (config : Config) : res string LabelService :=
  let endpoint := default "" (docker_endpoint (cfg_docker config)) in
  match connect_to_docker endpoint with
  | Ok docker => Ok (mkLabelService config docker)
  | _ => Panic
  end.
End connection.

(** ** The routes *)

Section docker.
Context `{LabelJson, SocketText, RouteIter}.

(** One label of either loop. *)
Definition read_label (kv : string * string) (l : Labels) : Labels :=
  let '(k, v) := kv in
  let '(mkLabels en ho po pa ad re se) := l in
  if negb (starts_with "proksi." k) then l
  else if String.eqb k "proksi.enabled" then mkLabels (String.eqb v "true") ho po pa ad re se
  else if String.eqb k "proksi.host" then mkLabels en v po pa ad re se
  else if String.eqb k "proksi.port" then mkLabels en ho v pa ad re se
  else if starts_with pattern_prefix k then mkLabels en ho po (pa ++ [v]) ad re se
  else if String.eqb k "proksi.headers.add" then
    mkLabels en ho po pa (Some (default [] (json_header_add v))) re se
  else if String.eqb k "proksi.headers.remove" then
    mkLabels en ho po pa ad (Some (default [] (json_header_remove v))) se
  else if String.eqb k "proksi.ssl_certificate.self_signed_on_failure" then
    mkLabels en ho po pa ad re (String.eqb v "true")
  else l.

(** The remaining arms of the services' loop. *)
Definition read_plugin_label (kv : string * string) (l : PluginLabels) : PluginLabels :=
  let '(k, v) := kv in
  let '(mkPluginLabels pr id se jw va ri us pw) := l in
  if String.eqb k "proksi.plugins.oauth2.provider" then mkPluginLabels (Some v) id se jw va ri us pw
  else if String.eqb k "proksi.plugins.oauth2.client_id" then mkPluginLabels pr (Some v) se jw va ri us pw
  else if String.eqb k "proksi.plugins.oauth2.client_secret" then mkPluginLabels pr id (Some v) jw va ri us pw
  else if String.eqb k "proksi.plugins.oauth2.jwt_secret" then mkPluginLabels pr id se (Some v) va ri us pw
  else if String.eqb k "proksi.plugins.oauth2.validations" then
    mkPluginLabels pr id se jw (Some (default (VArray []) (json_value v))) ri us pw
  else if String.eqb k "proksi.plugins.request_id.enabled" then
    mkPluginLabels pr id se jw va (String.eqb v "true") us pw
  else if String.eqb k "proksi.plugins.basic_auth.user" then mkPluginLabels pr id se jw va ri (Some v) pw
  else if String.eqb k "proksi.plugins.basic_auth.password" then mkPluginLabels pr id se jw va ri us (Some v)
  else l.

Definition read_labels (labels : list (string * string)) : Labels :=
  fold_left (λ l kv, read_label kv l) labels no_labels.
Definition read_plugin_labels (labels : list (string * string)) : PluginLabels :=
  fold_left (λ l kv, read_plugin_label kv l) labels no_plugin_labels.

Definition get_oauth2_plugin (provider client_id client_secret jwt_secret : option string)
    (validations : option Value) : option RoutePlugin :=
  match provider, client_id, client_secret, jwt_secret, validations with
  | Some provider, Some client_id, Some client_secret, Some jwt_secret, Some validations =>
      let plugin_hashmap : gmap string Value := <["client_id" := VString client_id]> ∅ in
      let plugin_hashmap := <["provider" := VString provider]> plugin_hashmap in
      let plugin_hashmap := <["client_secret" := VString client_secret]> plugin_hashmap in
      let plugin_hashmap := <["jwt_secret" := VString jwt_secret]> plugin_hashmap in
      let plugin_hashmap := <["validations" := validations]> plugin_hashmap in
      Some (mkRoutePlugin "oauth2" (Some plugin_hashmap))
  | _, _, _, _, _ => None
  end.

(** The plugins of a service, in the order they are pushed. *)
Definition service_plugins (p : PluginLabels) : list RoutePlugin :=
  match get_oauth2_plugin (oauth2_provider p) (oauth2_client_id p) (oauth2_client_secret p)
          (oauth2_jwt_secret p) (oauth2_validations p) with
  | Some plugin => [plugin]
  | None => []
  end
  ++ (if docker_request_id p then [mkRoutePlugin "request_id" None] else [])
  ++ match basic_auth_user p, basic_auth_password p with
     | Some user, Some password =>
         [mkRoutePlugin "basic_auth"
            (Some (<["pass" := VString password]> (<["user" := VString user]> ∅)))]
     | _, _ => []
     end.

(** One turn of the services' loop. *)
Definition add_service (service : DockerService) (host_map : gmap string ProksiDockerRoute)
    : res string (gmap string ProksiDockerRoute) :=
  _ ← unwrap (service_id service);
  spec ← unwrap (service_spec service);
  match spec_name spec with
  | None => Ok host_map
  | Some service_name =>
      service_labels ← unwrap (spec_labels spec);
      let l := read_labels service_labels in
      let p := read_plugin_labels service_labels in
      if negb (proxy_enabled l) then Ok host_map
      else if String.eqb (proxy_host l) "" || String.eqb (proxy_port l) "" then Ok host_map
      else match host_map !! proxy_host l with
           | Some _ => Ok host_map
           | None =>
               let routed := mkDockerRoute ["tasks." +:+ service_name +:+ ":" +:+ proxy_port l]
                 (path_patterns l) (route_header_add l) (route_header_remove l)
                 (self_signed_on_failure l) (Some (service_plugins p)) in
               Ok (<[proxy_host l := routed]> host_map)
           end
  end.

Fixpoint add_services (services : list DockerService) (host_map : gmap string ProksiDockerRoute)
    : res string (gmap string ProksiDockerRoute) :=
  match services with
  | [] => Ok host_map
  | s :: rest => host_map ← add_service s host_map; add_services rest host_map
  end.

(** [None] is an error of the API. *)
Definition list_services (reply : option (list DockerService)) : res string (gmap string ProksiDockerRoute) :=
  match reply with None => Ok ∅ | Some services => add_services services ∅ end.

(** The endpoints of a container: the addresses that parse. *)
Fixpoint container_endpoints (networks : list (option string)) (port : string) : res string (list string) :=
  match networks with
  | [] => Ok []
  | ip :: rest =>
      ip_on_network ← unwrap ip;
      let ip_plus_port := ip_on_network +:+ ":" +:+ port in
      others ← container_endpoints rest port;
      if String.eqb ip_on_network "" || negb (is_socket_addr ip_plus_port) then Ok others
      else Ok (ip_plus_port :: others)
  end.

Definition push_upstreams (endpoints : list string) (r : ProksiDockerRoute) : ProksiDockerRoute :=
  mkDockerRoute (dr_upstreams r ++ endpoints) (dr_path_matchers r) (dr_host_header_add r)
    (dr_host_header_remove r) (dr_self_signed r) (dr_plugins r).

(** One turn of the containers' loop. *)
Definition add_container (container : DockerContainer) (host_map : gmap string ProksiDockerRoute)
    : res string (gmap string ProksiDockerRoute) :=
  labels ← unwrap (container_labels container);
  let l := read_labels labels in
  if negb (proxy_enabled l) then Ok host_map
  else if String.eqb (proxy_port l) "" || String.eqb (proxy_host l) "" then Ok host_map
  else
    let entry := default (set_labels l (ProksiDockerRoute_new [] (path_patterns l)))
                   (host_map !! proxy_host l) in
    settings ← unwrap (container_networks container);
    networks ← unwrap settings;
    endpoints ← container_endpoints networks (proxy_port l);
    Ok (<[proxy_host l := push_upstreams endpoints entry]> host_map).

Fixpoint add_containers (containers : list DockerContainer) (host_map : gmap string ProksiDockerRoute)
    : res string (gmap string ProksiDockerRoute) :=
  match containers with
  | [] => Ok host_map
  | c :: rest => host_map ← add_container c host_map; add_containers rest host_map
  end.

Definition list_containers (reply : option (list DockerContainer)) : res string (gmap string ProksiDockerRoute) :=
  match reply with None => Ok ∅ | Some containers => add_containers containers ∅ end.

(** What the API replies at a tick. *)
Record DockerReply := mkReply {
  reply_services : option (list DockerService);
  reply_containers : option (list DockerContainer) }.

Definition get_routes_from_docker (mode : DockerServiceMode) (reply : DockerReply)
    : res string (gmap string ProksiDockerRoute) :=
  match mode with
  | DockerServiceMode_Swarm => list_services (reply_services reply)
  | DockerServiceMode_Container => list_containers (reply_containers reply)
  end.

(** The message sent for a host, if any. *)
Definition route_message (hv : string * ProksiDockerRoute) : option MsgRoute :=
  let '(host, value) := hv in
  match dr_upstreams value with
  | [] => None
  | upstreams =>
      Some (mkMsgRoute host upstreams (dr_path_matchers value)
        (default [] (dr_host_header_add value)) (default [] (dr_host_header_remove value))
        (default [] (dr_plugins value)) (dr_self_signed value))
  end.

Definition send_route_message (hosts : gmap string ProksiDockerRoute) : list MsgRoute :=
  omap route_message (route_iter hosts).

Fixpoint docker_loop (mode : DockerServiceMode) (ticks : list DockerReply) : M (list MsgRoute) string unit :=
  match ticks with
  | [] => mret tt
  | reply :: rest =>
      hosts ← lift (get_routes_from_docker mode reply);
      _ ← modify (λ sent, sent ++ send_route_message hosts);
      docker_loop mode rest
  end.

(** Whether the loop is entered. [tokio::time::interval] panics on a zero
    period. *)
Definition docker_running (config : Docker) : res string bool :=
  if match docker_enabled config with Some v => negb v | None => false end then Ok false
  else if N.eqb (default 15%N (docker_interval_secs config)) 0 then Panic
  else Ok true.

Definition LabelService_start (config : Docker) (ticks : list DockerReply) : M (list MsgRoute) string unit :=
  running ← lift (docker_running config);
  if running : bool then docker_loop (docker_mode config) ticks else mret tt.

(** ** Lemmas *)

Lemma container_entry_no_plugins containers hosts hosts' :
  add_containers containers hosts = Ok hosts' →
  map_Forall (λ _ r, dr_plugins r = None) hosts → map_Forall (λ _ r, dr_plugins r = None) hosts'.
Proof.
  revert hosts. induction containers as [|c rest IH]; intros hosts; cbn [add_containers]; [by intros [= <-]|].
  unfold mbind, res_bind. destruct (add_container c hosts) as [h1|e|] eqn:E; [|done..].
  intros Hr Hall. apply (IH _ Hr). clear IH Hr.
  unfold add_container, mbind, res_bind, unwrap in E.
  destruct (container_labels c) as [ls|]; [|done]. destruct (negb _); [by simplify_eq|].
  destruct (_ || _); [by simplify_eq|]. destruct (container_networks c) as [[ns|]|]; [|done..].
  destruct (container_endpoints ns _) as [eps|e|]; [|done..]. injection E as <-.
  apply map_Forall_insert_2; [|done]. unfold push_upstreams. simpl.
  destruct (hosts !! _) as [r|] eqn:Er; [by apply (Hall _ _ Er)|done].
Qed.

(** ** From a label to its message *)

(** The label sets of a reply, in order. *)
Definition service_labels (s : DockerService) : option (list (string * string)) :=
  spec ← service_spec s; _ ← spec_name spec; spec_labels spec.
Definition label_sets (mode : DockerServiceMode) (reply : DockerReply) : list (list (string * string)) :=
  match mode with
  | DockerServiceMode_Swarm => omap service_labels (default [] (reply_services reply))
  | DockerServiceMode_Container => omap container_labels (default [] (reply_containers reply))
  end.

(** Labels that ask for a route of the host. *)
Definition announces (labels : list (string * string)) (host : string) : Prop :=
  let l := read_labels labels in
  proxy_enabled l = true ∧ proxy_host l = host ∧ host ≠ "" ∧ proxy_port l ≠ "".

(** The label that counts for the headers to add, and what is read of it. *)
Definition adds_headers (labels : list (string * string)) (hs : list RouteHeaderAdd) : Prop :=
  ∃ before v after, labels = before ++ ("proksi.headers.add", v) :: after ∧
    "proksi.headers.add" ∉ after.*1 ∧ json_header_add v = Some hs.

Lemma read_label_other k v l :
  k ≠ "proksi.headers.add" → route_header_add (read_label (k, v) l) = route_header_add l.
Proof.
  intros Hk. unfold read_label. destruct l as [en ho po pa ad re se].
  destruct (negb _); [done|]. do 3 (destruct (String.eqb k _); [done|]).
  destruct (starts_with _ k); [done|]. rewrite (proj2 (String.eqb_neq _ _) Hk).
  by do 2 (destruct (String.eqb k _); [done|]).
Qed.

Lemma adds_headers_read labels hs : adds_headers labels hs → route_header_add (read_labels labels) = Some hs.
Proof.
  intros (before & v & after & -> & Hafter & Hv). unfold read_labels. rewrite fold_left_app. cbn [fold_left].
  generalize (fold_left (λ l kv, read_label kv l) before no_labels) as l0. intros l0.
  assert (Hstep : route_header_add (read_label ("proksi.headers.add", v) l0) = Some hs).
  { destruct l0. cbn. by rewrite Hv. }
  revert Hstep. generalize (read_label ("proksi.headers.add", v) l0) as l. clear Hv.
  induction after as [|[k w] after IH]; intros l Hl; [done|]. rewrite fmap_cons, not_elem_of_cons in Hafter.
  destruct Hafter as [Hk Hafter]. apply (IH Hafter). rewrite read_label_other; [done|by intros ->].
Qed.

(** What the turn for an item does to the map, given its labels. *)
Definition item_effect (labels : option (list (string * string))) (m m' : gmap string ProksiDockerRoute) : Prop :=
  m' = m ∧ (∀ ls host, labels = Some ls → announces ls host → is_Some (m !! host)) ∨
  ∃ ls r, labels = Some ls ∧ announces ls (proxy_host (read_labels ls)) ∧ m' = <[proxy_host (read_labels ls) := r]> m ∧
    dr_host_header_add r = match m !! proxy_host (read_labels ls) with
                           | Some r0 => dr_host_header_add r0
                           | None => route_header_add (read_labels ls)
                           end.

Lemma not_announced ls host :
  proxy_enabled (read_labels ls) = false ∨ proxy_host (read_labels ls) = "" ∨ proxy_port (read_labels ls) = "" →
  ¬ announces ls host.
Proof. intros Hn (He & <- & Hh & Hp). destruct Hn as [Hn|[Hn|Hn]]; congruence. Qed.

Lemma add_service_effect s m m' : add_service s m = Ok m' → item_effect (service_labels s) m m'.
Proof.
  unfold add_service, service_labels, mbind, res_bind, unwrap. destruct (service_id s); [|done].
  destruct (service_spec s) as [spec|]; [|done]. simpl. destruct (spec_name spec); [|intros [= ->]; left; split; [done|]; by intros].
  destruct (spec_labels spec) as [ls|]; [|done]. simpl.
  destruct (proxy_enabled (read_labels ls)) eqn:He; simpl;
    [|intros [= ->]; left; split; [done|]; intros ? h [= <-] Ha; by destruct (not_announced ls h (or_introl He))].
  destruct (String.eqb_spec (proxy_host (read_labels ls)) "") as [Hh|Hh]; simpl.
  { intros [= ->]; left; split; [done|]; intros ? h [= <-] Ha; by destruct (not_announced ls h (or_intror (or_introl Hh))). }
  destruct (String.eqb_spec (proxy_port (read_labels ls)) "") as [Hp|Hp]; simpl.
  { intros [= ->]; left; split; [done|]; intros ? h [= <-] Ha; by destruct (not_announced ls h (or_intror (or_intror Hp))). }
  destruct (m !! proxy_host (read_labels ls)) as [r0|] eqn:Em; intros [= <-].
  - left. split; [done|]. intros ? h [= <-] (_ & <- & _). by eexists.
  - right. eexists ls, _. split_and!; [done..|]. by rewrite Em.
Qed.

Lemma add_container_effect c m m' : add_container c m = Ok m' → item_effect (container_labels c) m m'.
Proof.
  unfold add_container, mbind, res_bind, unwrap. destruct (container_labels c) as [ls|]; [|done].
  destruct (proxy_enabled (read_labels ls)) eqn:He; simpl;
    [|intros [= ->]; left; split; [done|]; intros ? h [= <-] Ha; by destruct (not_announced ls h (or_introl He))].
  destruct (String.eqb_spec (proxy_port (read_labels ls)) "") as [Hp|Hp]; simpl.
  { intros [= ->]; left; split; [done|]; intros ? h [= <-] Ha; by destruct (not_announced ls h (or_intror (or_intror Hp))). }
  destruct (String.eqb_spec (proxy_host (read_labels ls)) "") as [Hh|Hh]; simpl.
  { intros [= ->]; left; split; [done|]; intros ? h [= <-] Ha; by destruct (not_announced ls h (or_intror (or_introl Hh))). }
  destruct (container_networks c) as [[ns|]|]; [|done..].
  destruct (container_endpoints ns _) as [eps|e|]; [|done..]. intros [= <-].
  right. eexists ls, _. split_and!; [done|done|done|].
  destruct (m !! proxy_host (read_labels ls)); done.
Qed.

(** Of the items of a host, the first decides on its headers. *)
Inductive items_effect : list (option (list (string * string))) → gmap string ProksiDockerRoute →
    gmap string ProksiDockerRoute → Prop :=
| items_nil m : items_effect [] m m
| items_cons ls rest m m1 m' : item_effect ls m m1 → items_effect rest m1 m' → items_effect (ls :: rest) m m'.

Lemma items_keep l m m' host r :
  items_effect l m m' → m !! host = Some r →
  ∃ r', m' !! host = Some r' ∧ dr_host_header_add r' = dr_host_header_add r.
Proof.
  intros Hi. revert r. induction Hi as [m|ls rest m m1 m' He _ IH]; intros r Hr; [by exists r|].
  destruct He as [[-> _]|(ls' & r1 & -> & Ha & -> & Hr1)]; [by apply IH|].
  destruct (decide (host = proxy_host (read_labels ls'))) as [->|Hne].
  - rewrite Hr in Hr1. destruct (IH r1) as (r' & Hr' & Hd); [apply lookup_insert_eq|]. exists r'. by rewrite Hd.
  - apply IH. by rewrite lookup_insert_ne.
Qed.

Lemma items_first l before labels after m m' host :
  items_effect l m m' → omap id l = before ++ labels :: after → m !! host = None →
  Forall (λ ls, ¬ announces ls host) before → announces labels host →
  ∃ r, m' !! host = Some r ∧ dr_host_header_add r = route_header_add (read_labels labels).
Proof.
  intros Hi. revert before. induction Hi as [m|ls rest m m1 m' He Hi IH]; intros before E Hm Hb Ha;
    [by destruct before|].
  destruct ls as [ls|]; [|destruct He as [[-> _]|(? & ? & [=] & _)]; by apply (IH before)]. simpl in E.
  destruct before as [|b before]; injection E as <- E.
  - destruct He as [[-> Hnone]|(ls' & r & [= <-] & _ & -> & Hr)].
    { destruct (Hnone ls host eq_refl Ha) as [? Hs]. congruence. }
    pose proof Ha as (_ & Hh & _). rewrite Hh in *. rewrite Hm in Hr. rewrite <- Hr.
    eapply items_keep; [exact Hi|apply lookup_insert_eq].
  - apply Forall_cons in Hb as [Hb0 Hb]. apply (IH before); [done| |done|done].
    destruct He as [[-> _]|(ls' & r & [= <-] & Ha' & -> & _)]; [done|].
    rewrite lookup_insert_ne; [done|]. intros Hh. rewrite Hh in Ha'. done.
Qed.

Lemma add_services_effect l m m' : add_services l m = Ok m' → items_effect (service_labels <$> l) m m'.
Proof.
  revert m. induction l as [|s l IH]; intros m; cbn [add_services]; [intros [= <-]; constructor|].
  unfold mbind, res_bind. destruct (add_service s m) as [m1|e|] eqn:E; [|done..]. intros Hr.
  econstructor; [by apply add_service_effect|by apply IH].
Qed.
Lemma add_containers_effect l m m' : add_containers l m = Ok m' → items_effect (container_labels <$> l) m m'.
Proof.
  revert m. induction l as [|c l IH]; intros m; cbn [add_containers]; [intros [= <-]; constructor|].
  unfold mbind, res_bind. destruct (add_container c m) as [m1|e|] eqn:E; [|done..]. intros Hr.
  econstructor; [by apply add_container_effect|by apply IH].
Qed.

Lemma omap_id_fmap {A B} (f : A → option B) (l : list A) : omap id (f <$> l) = omap f l.
Proof. induction l as [|x l IH]; [done|]. cbn. destruct (f x); cbn; [f_equal|]; exact IH. Qed.

(** The headers asked for by the first labels of a host are those of its route. *)
Lemma labels_read mode reply hosts before labels after host hs :
  get_routes_from_docker mode reply = Ok hosts → label_sets mode reply = before ++ labels :: after →
  Forall (λ ls, ¬ announces ls host) before → announces labels host → adds_headers labels hs →
  ∃ r, hosts !! host = Some r ∧ dr_host_header_add r = Some hs.
Proof.
  intros Hr Hl Hb Ha Hh. apply adds_headers_read in Hh. rewrite <- Hh. destruct mode; simpl in *.
  - unfold list_services in Hr. destruct (reply_services reply) as [l|]; [|by apply app_cons_not_nil in Hl].
    simpl in Hl. rewrite <- omap_id_fmap in Hl. by eapply items_first; [apply add_services_effect|..].
  - unfold list_containers in Hr. destruct (reply_containers reply) as [l|]; [|by apply app_cons_not_nil in Hl].
    simpl in Hl. rewrite <- omap_id_fmap in Hl. by eapply items_first; [apply add_containers_effect|..].
Qed.

Lemma sent_of_route `{!RouteIterLaws} hosts m :
  m ∈ send_route_message hosts →
  ∃ r, hosts !! msg_host m = Some r ∧ host_headers_add m = default [] (dr_host_header_add r).
Proof.
  intros ([h r] & Hin & Hm)%list_elem_of_omap. rewrite route_iter_perm in Hin. apply elem_of_map_to_list in Hin.
  exists r. unfold route_message in Hm. destruct (dr_upstreams r); [done|]. by injection Hm as <-.
Qed.

Lemma sent_hosts_nodup `{!RouteIterLaws} hosts : NoDup (msg_host <$> send_route_message hosts).
Proof.
  unfold send_route_message. assert (Hnd : NoDup (route_iter hosts).*1)
    by (rewrite route_iter_perm; apply NoDup_fst_map_to_list).
  induction (route_iter hosts) as [|[h r] l IH]; [constructor|].
  rewrite fmap_cons in Hnd. apply NoDup_cons in Hnd as [Hh Hnd]. simpl.
  destruct (dr_upstreams r); [by apply IH|]. rewrite fmap_cons. apply NoDup_cons. split; [|by apply IH].
  simpl. intros ([? ? ? ? ? ? ?] & -> & ([h' r'] & Hin & Hm)%list_elem_of_omap)%list_elem_of_fmap. apply Hh.
  apply list_elem_of_fmap. exists (h', r'). split; [|done]. unfold route_message in Hm.
  destruct (dr_upstreams r'); [done|]. injection Hm as -> _. done.
Qed.

Lemma route_iter_lookup `{!RouteIterLaws} m h r : (h, r) ∈ route_iter m ↔ m !! h = Some r.
Proof. rewrite route_iter_perm. by rewrite elem_of_map_to_list. Qed.

Lemma docker_loop_messages mode ticks sent r sent' m :
  docker_loop mode ticks sent = (r, sent') → m ∈ sent' →
  m ∈ sent ∨ ∃ reply hosts h v, reply ∈ ticks ∧ get_routes_from_docker mode reply = Ok hosts ∧
    (h, v) ∈ route_iter hosts ∧ route_message (h, v) = Some m.
Proof.
  revert sent. induction ticks as [|reply ticks IH]; intros sent; cbn [docker_loop];
    [intros [= <- <-]; by left|].
  unfold mbind, M_bind, lift, modify.
  destruct (get_routes_from_docker mode reply) as [hosts|e|] eqn:E; [|intros [= <- <-]; by left..].
  intros Hr Hm. destruct (IH _ Hr Hm) as [[Hin|Hin]%elem_of_app|(reply' & hosts' & h & v & ? & ?)].
  - by left.
  - right. unfold send_route_message in Hin. apply list_elem_of_omap in Hin as ([h v] & Hi & Hv).
    exists reply, hosts, h, v. split_and!; [by left|done..].
  - right. exists reply', hosts', h, v. split; [by right|done].
Qed.
End docker.

(** ** Properties *)

Section properties.
Context `{LabelJson, SocketText, RouteIter}.

(** In container mode no route ever has a plugin: whatever labels the
    containers carry (oauth2 and basic_auth ones included), every message
    sent to the routing service has an empty plugin list. *)
Theorem container_routes_have_no_plugins (Hit : RouteIterLaws) config ticks r sent m
    (Hmode : docker_mode config = DockerServiceMode_Container)
    (Hrun : LabelService_start config ticks [] = (r, sent)) (Hm : m ∈ sent) :
  msg_plugins m = [].
Proof.
  unfold LabelService_start, mbind, M_bind, lift in Hrun. rewrite Hmode in Hrun.
  destruct (docker_running config) as [[]|e|]; try (injection Hrun as <- <-; by apply elem_of_nil in Hm).
  destruct (docker_loop_messages _ _ _ _ _ _ Hrun Hm)
    as [[]%elem_of_nil|(reply & hosts & h & v & _ & Hhosts & Hin & Hmsg)].
  apply route_iter_lookup in Hin. simpl in Hhosts. unfold list_containers in Hhosts.
  destruct (reply_containers reply) as [cs|]; [|by simplify_eq].
  assert (Hv : dr_plugins v = None)
    by (eapply (container_entry_no_plugins cs ∅ hosts); [done|apply map_Forall_empty|done]).
  unfold route_message in Hmsg. destruct (dr_upstreams v); [done|]. simplify_eq/=. by rewrite Hv.
Qed.

(** A service gets the [oauth2] plugin only if all five of its labels,
    the validations included, are present; a service that lacks one is routed
    without it. The plugin then carries exactly the labelled values. *)
Theorem oauth2_needs_every_label p plugin :
  (plugin ∈ service_plugins p ∧ plugin_name plugin = "oauth2") ↔
  ∃ provider id secret jwt validations,
    oauth2_provider p = Some provider ∧ oauth2_client_id p = Some id ∧
    oauth2_client_secret p = Some secret ∧ oauth2_jwt_secret p = Some jwt ∧
    oauth2_validations p = Some validations ∧
    plugin = mkRoutePlugin "oauth2" (Some
      (<["validations" := validations]> (<["jwt_secret" := VString jwt]>
        (<["client_secret" := VString secret]> (<["provider" := VString provider]>
          (<["client_id" := VString id]> ∅)))))).
Proof.
  unfold service_plugins, get_oauth2_plugin. rewrite !elem_of_app. split.
  - intros [[Hin|[Hin|Hin]] Hname].
    + destruct (oauth2_provider p) as [pr|], (oauth2_client_id p) as [id|],
        (oauth2_client_secret p) as [se|], (oauth2_jwt_secret p) as [jw|],
        (oauth2_validations p) as [va|]; try by apply elem_of_nil in Hin.
      apply list_elem_of_singleton in Hin as ->. by exists pr, id, se, jw, va.
    + destruct (docker_request_id p); [|by apply elem_of_nil in Hin].
      apply list_elem_of_singleton in Hin as ->. done.
    + destruct (basic_auth_user p), (basic_auth_password p); try by apply elem_of_nil in Hin.
      apply list_elem_of_singleton in Hin as ->. done.
  - intros (pr & id & se & jw & va & -> & -> & -> & -> & -> & ->). split; [|done].
    left. by apply list_elem_of_singleton.
Qed.
End properties.

(** A configuration that passes validation never makes the label service
    panic on its interval: if the service panics, it is while reading a reply
    of the Docker API. *)
Theorem validated_interval_ticks `{LabelJson, SocketText, RouteIter} config ticks sent
    (Hvalid : check_config config = Ok tt)
    (Hpanic : fst (LabelService_start (cfg_docker config) ticks sent) = Panic) :
  ∃ reply, reply ∈ ticks ∧ get_routes_from_docker (docker_mode (cfg_docker config)) reply = Panic.
Proof.
  unfold LabelService_start, docker_running, mbind, M_bind, lift in Hpanic.
  destruct (match docker_enabled (cfg_docker config) with Some v => negb v | None => false end); [done|].
  assert (Hi : N.eqb (default 15%N (docker_interval_secs (cfg_docker config))) 0 = false)
    by (apply check_config_Ok in Hvalid as (_ & (n & -> & Hn) & _); by apply N.eqb_neq).
  rewrite Hi in Hpanic. revert sent Hpanic.
  induction ticks as [|reply ticks IH]; intros sent; cbn [docker_loop]; [done|].
  unfold mbind, M_bind, lift, modify.
  destruct (get_routes_from_docker _ reply) as [hosts|e|] eqn:E; [|done|].
  - intros Hp. destruct (IH _ Hp) as (r & ? & ?). exists r. split; [by right|done].
  - intros _. exists reply. split; [by left|done].
Qed.

(** ** Witnesses *)

Definition toy_label_json : LabelJson := {|
  json_header_add := λ _, None; json_header_remove := λ _, None; json_value := λ _, None |}.
Definition toy_socket : SocketText := {| is_socket_addr := λ s, negb (String.eqb s "") |}.
Definition toy_route_iter : RouteIter := {| route_iter := map_to_list |}.
Lemma toy_route_iter_laws : @RouteIterLaws toy_route_iter.
Proof. by split. Qed.

#[local] Existing Instances toy_label_json toy_socket toy_route_iter.

Definition guarded_labels : list (string * string) :=
  [("proksi.enabled", "true"); ("proksi.host", "a.test"); ("proksi.port", "80");
   ("proksi.plugins.basic_auth.user", "bob"); ("proksi.plugins.basic_auth.password", "secret")].
Definition guarded_container : DockerContainer :=
  mkDockerContainer (Some guarded_labels) (Some (Some [Some "10.0.0.1"])).
Definition container_mode : Docker :=
  mkDocker (Some 15%N) None (Some true) DockerServiceMode_Container.
Definition container_ticks : list DockerReply := [mkReply None (Some [guarded_container])].

Lemma container_routes_have_no_plugins_witness :
  ∃ m, snd (LabelService_start container_mode container_ticks []) = [m] ∧
    msg_host m = "a.test" ∧ msg_plugins m = [].
Proof.
  destruct (LabelService_start container_mode container_ticks []) as [r sent] eqn:E.
  pose proof (f_equal snd E) as Es. vm_compute in Es. subst sent. eexists. split; [reflexivity|].
  split; [reflexivity|].
  eapply (container_routes_have_no_plugins toy_route_iter_laws container_mode container_ticks r _ _
    eq_refl E). apply list_elem_of_singleton. reflexivity.
Defined.

Lemma validated_interval_ticks_witness :
  ∃ reply, reply ∈ [mkReply None None; mkReply None (Some [mkDockerContainer None None])] ∧
    get_routes_from_docker DockerServiceMode_Container reply = Panic.
Proof.
  apply (validated_interval_ticks
    (mkConfig "proksi" StoreConfig_default (cfg_server Config_default) false false (Some 1%N) None
       (cfg_logging Config_default) AutoReload_default container_mode LetsEncrypt_default Path_default [])
    [mkReply None None; mkReply None (Some [mkDockerContainer None None])] []);
    reflexivity.
Defined.
