(* ===== verification/AcmeStorage.v ===== *)
(** Where the Let's Encrypt account and certificates are kept
    (services/letsencrypt/storage.rs): the choice of Redis or of a directory,
    and the Redis implementation of [acme_v2]'s [Persist].
    The Redis client, [FilePersist] and the text of a [PersistKey] are
    parameters; values are byte strings. *)
From S2P Require Import Prelude Strs Config Stores.
#[local] Open Scope string_scope.
#[local] Open Scope list_scope.

(** ** External code *)

(** [redis::Client] and [acme_v2::persist]. The commands are those of
    [RedisApi], whose [Redis] is the content of the server. *)
Class PersistApi `{RedisApi} := {
  Client : Type;
  client_open : string → option Client;
  get_connection : Client → Redis → bool;
  FilePersist : Type;
  FilePersist_new : string → FilePersist;
  Files : Type;
  create_dir_all : string → Files → option Files;
  PersistKey : Type;
  key_text : PersistKey → string;
  file_get : FilePersist → PersistKey → Files → res string (option string);
  file_put : FilePersist → PersistKey → string → Files → res string unit * Files }.

(** What is outside the process. *)
Record Persisted `{PersistApi} := mkPersisted { p_redis : Redis; p_files : Files }.

(** ** Definitions *)

Section storage.
Context `{PersistApi}.

Record RedisPersist := mkRedisPersist { persist_client : Client }.

Inductive PersistType :=
| PersistType_Redis (p : RedisPersist)
| PersistType_File (p : FilePersist).

(** Both operations get a connection first, with [expect]. *)
Definition RedisPersist_get (self : RedisPersist) (key : PersistKey)
    : M Persisted string (option string) :=
  s ← get_state;
  if get_connection (persist_client self) (p_redis s) then
    match redis_get (p_redis s) (key_text key) with
    | Some (Some value) =>
        if utf8_valid value then
          if String.eqb value "" then mret None else mret (Some value)
        else mret None
    | _ => mret None
    end
  else crash.

Definition RedisPersist_put (self : RedisPersist) (key : PersistKey) (value : string)
    : M Persisted string unit :=
  s ← get_state;
  if get_connection (persist_client self) (p_redis s) then
    db ← lift (ok_or "redis" (redis_set (key_text key) value (p_redis s)));
    modify (λ s, mkPersisted _ _ db (p_files s))
  else crash.

Definition PersistType_get (self : PersistType) (key : PersistKey)
    : M Persisted string (option string) :=
  match self with
  | PersistType_Redis p => RedisPersist_get p key
  | PersistType_File p => s ← get_state; lift (file_get p key (p_files s))
  end.

Definition PersistType_put (self : PersistType) (key : PersistKey) (value : string)
    : M Persisted string unit :=
  match self with
  | PersistType_Redis p => RedisPersist_put p key value
  | PersistType_File p =>
      zoom p_files (λ f s, mkPersisted _ _ (p_redis s) f) (file_put p key value)
  end.

Definition RedisPersist_new (redis_url : string) : res string RedisPersist :=
  client ← unwrap (client_open redis_url); Ok (mkRedisPersist client).

(** [cwd] is the working directory, for [path::absolute]. *)
Definition get_lets_encrypt_directory (cwd : option string) (config : Config) : string :=
  let suffix := match le_staging (cfg_lets_encrypt config) with
                | Some false => "production"
                | _ => "staging"
                end in
  let path := path_join (paths_lets_encrypt (cfg_paths config)) suffix in
  match path_absolute cwd path with
  | Some res => res
  | None => path
  end.

Definition get_persist (cwd : option string) (config : Config) : M Persisted string PersistType :=
  match store_type (cfg_store config) with
  | StoreType_Redis =>
      let url := default "redis://localhost:6379" (redis_url (cfg_store config)) in
      p ← lift (RedisPersist_new url); mret (PersistType_Redis p)
  | StoreType_Memory =>
      let certificates_dir := get_lets_encrypt_directory cwd config in
      s ← get_state;
      files ← lift (unwrap (create_dir_all certificates_dir (p_files s)));
      _ ← modify (λ s, mkPersisted _ _ (p_redis s) files);
      mret (PersistType_File (FilePersist_new (get_lets_encrypt_directory cwd config)))
  end.
End storage.

(** ** Properties *)

(** What is put in Redis is what the next read of its key returns, other keys
    being unchanged; but an empty value and one that is not UTF-8 read back
    as absent. *)
Theorem redis_persist_roundtrip `{PersistApi} (Hl : RedisLaws) p key key' v s s' :
  RedisPersist_put p key v s = (Ok tt, s') →
  get_connection (persist_client p) (p_redis s') = true →
  fst (RedisPersist_get p key' s') =
    if decide (key_text key = key_text key')
    then Ok (if utf8_valid v && negb (String.eqb v "") then Some v else None)
    else fst (RedisPersist_get p key' s).
Proof.
  unfold RedisPersist_put, RedisPersist_get. munfold. simpl.
  destruct (get_connection _ (p_redis s)) eqn:Hup; [|done].
  destruct (redis_set _ _ _) as [db|] eqn:Hs; [|done]. intros [= <-] Hc. simpl in *.
  rewrite Hc, (redis_get_set _ _ _ _ _ Hs). case_decide.
  - destruct (utf8_valid v); simpl; [|done]. by destruct (String.eqb v "").
  - by repeat case_match.
Qed.

(** A store backed by files is opened in a directory named after the
    environment the orders go to, [production] only when [staging] is false. *)
Theorem persist_directory `{PersistApi} cwd config s p s' :
  get_persist cwd config s = (Ok (PersistType_File p), s') →
  p = FilePersist_new (get_lets_encrypt_directory cwd config) ∧
  store_type (cfg_store config) = StoreType_Memory ∧
  create_dir_all (get_lets_encrypt_directory cwd config) (p_files s) = Some (p_files s').
Proof.
  unfold get_persist, RedisPersist_new. intros E. mcases; try done.
Qed.

(** ** A concrete backend for the examples *)

#[local] Existing Instances toy_redis.

Definition toy_persist : @PersistApi toy_redis := {|
  Client := string;
  client_open := λ url, if starts_with "redis://" url then Some url else None;
  get_connection := λ _ _, true;
  FilePersist := string;
  FilePersist_new := λ d, d;
  Files := gmap string string;
  create_dir_all := λ d f, Some (<[d := ""]> f);
  PersistKey := string;
  key_text := λ k, k;
  file_get := λ d k f, Ok (f !! (d +:+ "/" +:+ k));
  file_put := λ d k v f, (Ok tt, <[d +:+ "/" +:+ k := v]> f) |}.
#[local] Existing Instance toy_persist.
Definition nothing_persisted : @Persisted toy_redis toy_persist :=
  @mkPersisted toy_redis toy_persist (∅ : gmap string string) (∅ : gmap string string).

Lemma redis_persist_roundtrip_witness :
  let p := mkRedisPersist "redis://a" in
  let s' := snd (RedisPersist_put p "acct" "k1" nothing_persisted) in
  fst (RedisPersist_get p "acct" s') = Ok (Some "k1").
Proof.
  intros p s'.
  exact (redis_persist_roundtrip toy_redis_laws p "acct" "acct" "k1"
           nothing_persisted s' eq_refl eq_refl).
Defined.

Lemma persist_directory_witness :
  snd (get_persist (Some "/srv") Config_default nothing_persisted)
    = @mkPersisted toy_redis toy_persist (∅ : gmap string string)
        ({["/etc/proksi/letsencrypt/staging" := ""]} : gmap string string) ∧
  store_type (cfg_store Config_default) = StoreType_Memory.
Proof.
  split; [reflexivity|].
  exact (proj1 (proj2 (persist_directory (Some "/srv") Config_default nothing_persisted
    "/etc/proksi/letsencrypt/staging"
    (snd (get_persist (Some "/srv") Config_default nothing_persisted)) eq_refl))).
Defined.
