(* ===== verification/LetsEncrypt.v ===== *)
(** The Let's Encrypt service (services/letsencrypt/http01.rs): orders with
    the HTTP-01 challenge, the self-signed fallback, and the two loops that
    create and renew certificates. It is a client of the [Store] interface;
    the ACME client ([acme_v2]) and OpenSSL's certificate builder are
    parameters acting on what is outside the process: the authority, the
    network, the files of the account, the clock, the entropy. *)
From S2P Require Import Prelude Strs Config Stores Routes AcmeStorage.
#[local] Open Scope string_scope.
#[local] Open Scope list_scope.

(** ** External code *)

Inductive DirectoryUrl := DirectoryUrl_LetsEncrypt | DirectoryUrl_LetsEncryptStaging.

(** [openssl::x509::X509Builder], as what the setters have set. *)
Record X509Builder (PKey : Type) := mkX509Builder {
  x509_version : N;
  x509_subject : list (string * string);
  x509_issuer : list (string * string);
  x509_pubkey : PKey;
  x509_not_before_days : N;
  x509_not_after_days : N }.
Arguments mkX509Builder {PKey} _ _ _ _ _ _.

(** [acme_v2] and the certificate builder. [validate] asks the authority to
    check a challenge, which it does by a request to a replica of the proxy:
    it depends on what the store [T] holds. *)
Class AcmeApi `{Pki, PersistApi} (T : Type) := {
  Outside : Type;
  persisted : Outside → Persisted;
  set_persisted : Persisted → Outside → Outside;
  Directory : Type;
  Account : Type;
  NewOrder : Type;
  Auth : Type;
  CsrOrder : Type;
  CertOrder : Type;
  AcmeCert : Type;
  AcmeKey : Type;
  directory_from_url : PersistType → DirectoryUrl → M Outside string Directory;
  directory_account : Directory → string → M Outside string Account;
  account_certificate : Account → string → M Outside string (option AcmeCert);
  new_order : Account → string → list string → M Outside string NewOrder;
  confirm_validations : NewOrder → option CsrOrder;
  authorizations : NewOrder → M Outside string (list Auth);
  domain_name : Auth → string;
  http_token : Auth → string;
  http_proof : Auth → string;
  validate : N → Auth → T → M Outside string unit;
  refresh : NewOrder → M Outside string NewOrder;
  create_p384_key : M Outside string AcmeKey;
  finalize_pkey : CsrOrder → AcmeKey → N → M Outside string CertOrder;
  download_and_save_cert : CertOrder → M Outside string AcmeCert;
  cert_certificate : AcmeCert → string;
  cert_private_key : AcmeCert → string;
  valid_days_left : AcmeCert → Outside → Z;
  rsa_generate : N → M Outside string PKey;
  append_entry_by_text : string → string → list (string * string) → option (list (string * string));
  x509_sign : X509Builder PKey → PKey → option X509 }.

(** How code that may loop for ever ends: with an error, or still running
    when the rounds it was given are over. *)
Inductive stop :=
| Failed (msg : string)
| Running.

(** ** Definitions *)

Definition DEFAULT_RENEW_INTERVAL_DAYS : Z := 30.

(** The static GLOBAL_STORE and what is outside the process. *)
Record LeWorld (T : Type) `{AcmeApi T} := mkLeWorld {
  le_store : option T;
  outside : Outside }.
Arguments mkLeWorld {T _ _ _ _} _ _.
Arguments le_store {T _ _ _ _} _.
Arguments outside {T _ _ _ _} _.

Section service.
Context `{LbApi, PathTreeApi} {T : Type} `{AcmeApi T} `{!Store T}.
(** The rounds the loop of an order is run for. *)
Variable fuel : nat.

(** [stores::global::get_store()] and an operation of the store. *)
Definition on_store {A} (m : M T string A) : M (LeWorld T) stop A := λ w,
  match get_store (le_store w) with
  | Ok s => let '(r, s') := m s in (map_err Failed r, mkLeWorld (Some s') (outside w))
  | Err e => (Err (Failed e), w)
  | Panic => (Panic, w)
  end.

Definition on_outside {A} (m : M Outside string A) : M (LeWorld T) stop A := λ w,
  let '(r, o) := m (outside w) in (map_err Failed r, mkLeWorld (le_store w) o).

(** [r.map_err(|e| anyhow!("...{e}"))] *)
Definition context {A} (msg : string) (m : M (LeWorld T) stop A) : M (LeWorld T) stop A := λ w,
  let '(r, w') := m w in
  (map_err (λ e, match e with Failed e => Failed (msg +:+ e) | Running => Running end) r, w').

(** The error of a call, made a value. *)
Definition attempt {A} (m : M (LeWorld T) stop A) : M (LeWorld T) stop (option A) := λ w,
  match m w with
  | (Ok a, w') => (Ok (Some a), w')
  | (Err (Failed _), w') => (Ok None, w')
  | (Err Running, w') => (Err Running, w')
  | (Panic, w') => (Panic, w')
  end.

Definition parse_x509_cert (cert_pem : string) : res stop X509 :=
  ok_or (Failed "x509") (x509_from_pem cert_pem).

Definition parse_private_key (key_pem : string) : res stop PKey :=
  ok_or (Failed "pkey") (private_key_from_pem key_pem).

Definition end_marker : string := "-----END CERTIFICATE-----".

(** The certificate of a bundle: what [insert_certificate] stores. *)
Definition bundle_certificate (bundle key_pem : string) : res stop Certificate :=
  let split := trim <$> split_inclusive end_marker bundle in
  let leaf_pem := split !! 0%nat in
  let chain_pem := split !! 1%nat in
  match leaf_pem with
  | None => Err (Failed "Certificate is empty")
  | Some leaf =>
      leaf ← parse_x509_cert leaf;
      chain ← match chain_pem with
              | Some chain_pem => c ← parse_x509_cert chain_pem; Ok (Some c)
              | None => Ok None
              end;
      key ← parse_private_key key_pem;
      Ok (mkCertificate _ key leaf chain)
  end.

Definition insert_certificate (domain bundle key_pem : string) : M (LeWorld T) stop unit :=
  cert ← lift (bundle_certificate bundle key_pem);
  context "failed to save certificate in the store: " (on_store (set_certificate domain cert)).

(** [challenge.validate(5000)]: the authority asks a replica, which answers
    from the store. *)
Definition validate_challenge (auth : Auth) : M (LeWorld T) stop unit := λ w,
  match get_store (le_store w) with
  | Ok s => on_outside (validate 5000 auth s) w
  | Err e => (Err (Failed e), w)
  | Panic => (Panic, w)
  end.

(** One turn of the loop over the authorizations. *)
Definition handle_authorization (auth : Auth) : M (LeWorld T) stop unit :=
  _ ← context "Failed to set challenge in store: "
        (on_store (set_challenge (domain_name auth) (http_token auth) (http_proof auth)));
  validate_challenge auth.

Fixpoint handle_authorizations (auths : list Auth) : M (LeWorld T) stop unit :=
  match auths with
  | [] => mret tt
  | auth :: rest => _ ← handle_authorization auth; handle_authorizations rest
  end.

Definition handle_http_01_challenge (order : NewOrder) : M (LeWorld T) stop unit :=
  auths ← on_outside (authorizations order);
  handle_authorizations auths.

Definition self_signed_name (domain : string) : option (list (string * string)) :=
  x509_name ← append_entry_by_text "CN" domain [];
  x509_name ← append_entry_by_text "ST" "TX" x509_name;
  append_entry_by_text "O" "Proksi" x509_name.

Definition create_self_signed_certificate (domain : string) (enabled : bool)
    : M (LeWorld T) stop unit :=
  if negb enabled then mret tt
  else
    key ← on_outside (rsa_generate 2048);
    x509_name ← lift (ok_or (Failed "x509 name") (self_signed_name domain));
    openssl_cert ← lift (ok_or (Failed "x509")
      (x509_sign (mkX509Builder 2 x509_name x509_name key 0 365) key));
    context "failed to save self-signed certificate "
      (on_store (set_certificate domain (mkCertificate _ key openssl_cert None))).

Definition get_lets_encrypt_url (config : Config) : DirectoryUrl :=
  match le_staging (cfg_lets_encrypt config) with
  | Some false => DirectoryUrl_LetsEncrypt
  | _ => DirectoryUrl_LetsEncryptStaging
  end.

(** The loop of an order, [n] rounds of it. An error of [refresh] leaves the
    order as it was. *)
Fixpoint validation_loop (n : nat) (order : NewOrder) : M (LeWorld T) stop CsrOrder :=
  match n with
  | O => throw Running
  | S n' =>
      match confirm_validations order with
      | Some csr => mret csr
      | None =>
          _ ← context "Failed to handle HTTP-01 challenge: " (handle_http_01_challenge order);
          refreshed ← attempt (on_outside (refresh order));
          validation_loop n' (default order refreshed)
      end
  end.

Definition create_order_for_domain (domain : string) (account : Account)
    : M (LeWorld T) stop unit :=
  order ← on_outside (new_order account domain []);
  order_csr ← validation_loop fuel order;
  pkey ← on_outside create_p384_key;
  order_cert ← on_outside (finalize_pkey order_csr pkey 5000);
  cert ← on_outside (download_and_save_cert order_cert);
  insert_certificate domain (cert_certificate cert) (cert_private_key cert).

Definition has_certificate (domain : string) : M (LeWorld T) stop bool :=
  certificates ← on_store get_certificates;
  mret (bool_decide (is_Some (certificates !! domain))).

Definition handle_certificate_for_domain (domain : string) (account : Account)
    (self_signed_on_failure : bool) : M (LeWorld T) stop unit :=
  certificate ← attempt (on_outside (account_certificate account domain));
  match certificate with
  | Some (Some cert) =>
      exists_already ← has_certificate domain;
      if exists_already : bool then mret tt
      else
        _ ← attempt (insert_certificate domain (cert_certificate cert) (cert_private_key cert));
        mret tt
  | Some None =>
      r ← attempt (create_order_for_domain domain account);
      match r with
      | Some _ => mret tt
      | None =>
          _ ← attempt (create_self_signed_certificate domain self_signed_on_failure);
          mret tt
      end
  | None => mret tt
  end.

(** A tick of each loop. Its argument is what the iteration over the route
    store yields at that tick. *)
Notation Routes := (list (string * RouteStoreContainer)).

Fixpoint watch_for_route_changes (account : Account) (routes : Routes) : M (LeWorld T) stop unit :=
  match routes with
  | [] => mret tt
  | (key, value) :: rest =>
      exists_already ← has_certificate key;
      _ ← (if exists_already : bool then mret tt
           else handle_certificate_for_domain key account (self_signed_certificate value));
      watch_for_route_changes account rest
  end.

(** One turn of the renewal. *)
Definition renew_domain (account : Account) (domain : string) : M (LeWorld T) stop unit :=
  certificate ← attempt (on_outside (account_certificate account domain));
  match certificate with
  | Some (Some cert) =>
      days_left ← gets (λ w, valid_days_left cert (outside w));
      if (DEFAULT_RENEW_INTERVAL_DAYS <? days_left)%Z then mret tt
      else
        _ ← attempt (context ("Failed to create order for " +:+ domain +:+ ": ")
                       (create_order_for_domain domain account));
        mret tt
  | _ => mret tt
  end.

Fixpoint renew_domains (account : Account) (routes : Routes) : M (LeWorld T) stop unit :=
  match routes with
  | [] => mret tt
  | (domain, _) :: rest => _ ← renew_domain account domain; renew_domains account rest
  end.

(** [time::interval] panics on a period of zero. *)
Definition check_for_certificates_expiration (config : Config) (account : Account)
    (routes : Routes) : M (LeWorld T) stop unit :=
  let interval := default 84600%N (le_renew_interval_secs (cfg_lets_encrypt config)) in
  if (interval =? 0)%N then crash else renew_domains account routes.

(** The two loops share one thread and await nothing but the store and their
    ticks: any sequence of ticks of both. *)
Inductive LeEvent :=
| WatchTick (routes : Routes)
| RenewTick (routes : Routes).

Definition le_tick (config : Config) (account : Account) (e : LeEvent) : M (LeWorld T) stop unit :=
  match e with
  | WatchTick routes => watch_for_route_changes account routes
  | RenewTick routes => check_for_certificates_expiration config account routes
  end.

Fixpoint le_loops (config : Config) (account : Account) (events : list LeEvent)
    : M (LeWorld T) stop unit :=
  match events with
  | [] => mret tt
  | e :: rest => _ ← le_tick config account e; le_loops config account rest
  end.

(** [expect] on the result of a call. *)
Definition expect {A} (m : M (LeWorld T) stop A) : M (LeWorld T) stop A := λ w,
  match m w with
  | (Err (Failed _), w') => (Panic, w')
  | rw => rw
  end.

(** The start of the service: its account, [None] when it is disabled. *)
Definition open_account (cwd : option string) (config : Config)
    : M (LeWorld T) stop (option Account) :=
  if negb (default true (le_enabled (cfg_lets_encrypt config))) then mret None
  else
    persist ← on_outside (zoom persisted set_persisted (get_persist cwd config));
    dir ← expect (on_outside (directory_from_url persist (get_lets_encrypt_url config)));
    account ← expect (on_outside (directory_account dir (le_email (cfg_lets_encrypt config))));
    mret (Some account).

Definition LetsencryptService_start (cwd : option string) (config : Config) (events : list LeEvent)
    : M (LeWorld T) stop unit :=
  account ← open_account cwd config;
  match account with
  | None => mret tt
  | Some account => le_loops config account events
  end.
End service.

(** ** The contract of the ACME client *)

(** The certificates the account has persisted, the domain an order is for,
    and the challenges the authority has accepted. *)
Class AcmeView `{Pki, PersistApi} (T : Type) `{!AcmeApi T} := {
  saved : Outside → string → option AcmeCert;
  order_domain : NewOrder → string;
  csr_domain : CsrOrder → string;
  cert_order_domain : CertOrder → string;
  auths_of : NewOrder → list Auth;
  validated : Outside → Auth → Prop }.

Definition keeps_saved `{AcmeView T} {A} (m : M Outside string A) : Prop :=
  ∀ o d, saved (snd (m o)) d = saved o d.

(** Only the download of a certificate changes what is persisted, for the
    domain the order was made for; a look-up returns what is persisted. *)
Class AcmeLaws `{Pki, PersistApi} (T : Type) `{!AcmeApi T, !AcmeView T} : Prop := {
  account_certificate_keeps a d : keeps_saved (account_certificate a d);
  account_certificate_ok a d o c : fst (account_certificate a d o) = Ok c → c = saved o d;
  new_order_keeps a d alt : keeps_saved (new_order a d alt);
  new_order_domain a d alt o ord : fst (new_order a d alt o) = Ok ord → order_domain ord = d;
  confirm_domain ord csr : confirm_validations ord = Some csr → csr_domain csr = order_domain ord;
  authorizations_keeps ord : keeps_saved (authorizations ord);
  validate_keeps n a s : keeps_saved (validate n a s);
  refresh_keeps ord : keeps_saved (refresh ord);
  refresh_domain ord o ord' : fst (refresh ord o) = Ok ord' → order_domain ord' = order_domain ord;
  key_keeps : keeps_saved create_p384_key;
  finalize_keeps csr k n : keeps_saved (finalize_pkey csr k n);
  finalize_domain csr k n o co :
    fst (finalize_pkey csr k n o) = Ok co → cert_order_domain co = csr_domain csr;
  rsa_keeps n : keeps_saved (rsa_generate n);
  download_saves co o c :
    fst (download_and_save_cert co o) = Ok c →
    saved (snd (download_and_save_cert co o)) (cert_order_domain co) = Some c;
  download_others co o d :
    d ≠ cert_order_domain co → saved (snd (download_and_save_cert co o)) d = saved o d }.

(** An authority that can be reached: an order all of whose challenges are
    accepted is confirmed by the next refresh, and a confirmed order is
    finalised. *)
Class AcmeLive `{Pki, PersistApi} (T : Type) `{!AcmeApi T, !AcmeView T} : Prop := {
  authorizations_live ord o :
    ∃ o', authorizations ord o = (Ok (auths_of ord), o') ∧
      ∀ a, validated o a → validated o' a;
  refresh_live ord o :
    (∀ a, a ∈ auths_of ord → validated o a) →
    ∃ ord' o', refresh ord o = (Ok ord', o') ∧ is_Some (confirm_validations ord');
  key_live o : ∃ k o', create_p384_key o = (Ok k, o');
  finalize_live csr k n o : ∃ co o', finalize_pkey csr k n o = (Ok co, o');
  download_live co o : ∃ cert o', download_and_save_cert co o = (Ok cert, o') }.

(** An authority that reaches the proxy: it accepts a challenge the store holds. *)
Class AcmeAccepts `{Pki, PersistApi} (T : Type) `{!StoreView T, !AcmeApi T, !AcmeView T} : Prop := {
  validate_live n a s o :
    challenges_of s (domain_name a) = Some (http_token a, http_proof a) →
    ∃ o', validate n a s o = (Ok tt, o') ∧ validated o' a ∧ ∀ b, validated o b → validated o' b }.

(** A store whose operations succeed, and that lists all it holds. *)
Class StoreUp `{Pki} (T : Type) `{!Store T, !StoreView T} : Prop := {
  set_challenge_up d t p (s : T) : ∃ s', set_challenge d t p s = (Ok tt, s');
  set_certificate_up d c (s : T) : ∃ s', set_certificate d c s = (Ok tt, s');
  get_certificates_up (s : T) :
    ∃ m s', get_certificates s = (Ok m, s') ∧ ∀ d, m !! d = certs_of s d;
  get_challenge_up d (s : T) : ∃ s', get_challenge d s = (Ok (challenges_of s d), s');
  get_certificate_up d (s : T) : ∃ s', get_certificate d s = (Ok (certs_of s d), s') }.

(** ** Lemmas: bundles *)

#[export] Instance MemoryStore_up `{Pki} : StoreUp MemoryStore.
Proof.
  split; intros.
  - by eexists.
  - by eexists.
  - by exists (inner_certs s), s.
  - by exists s.
  - by exists s.
Qed.

Definition newline : string := utf8_bytes [10].

(** A PEM block, and a bundle of blocks each on lines of its own. *)
Definition pem_block (b : string) : Prop := ends_at end_marker b = true ∧ trim b = b.
Definition pem_bundle (blocks : list string) : string :=
  concat_str ((λ b, b +:+ newline) <$> blocks).

Lemma ends_at_newline b : ends_at end_marker b = true → ends_at end_marker (newline +:+ b) = true.
Proof. intros Hb. change (newline +:+ b) with (String "010" b). simpl. by rewrite Hb. Qed.

Lemma split_after_newline blocks :
  Forall pem_block blocks →
  trim <$> split_inclusive end_marker (newline +:+ pem_bundle blocks) = blocks ++ [""].
Proof.
  induction 1 as [|b blocks [Hb Ht] _ IH]; [reflexivity|].
  change (pem_bundle (b :: blocks)) with ((b +:+ newline) +:+ pem_bundle blocks).
  rewrite app_assoc_str, <- app_assoc_str.
  rewrite split_inclusive_ends_at by (done || by apply ends_at_newline).
  rewrite fmap_cons, IH. by rewrite trim_newline, Ht.
Qed.

Lemma split_pem_bundle b blocks :
  Forall pem_block (b :: blocks) →
  trim <$> split_inclusive end_marker (pem_bundle (b :: blocks)) = (b :: blocks) ++ [""].
Proof.
  intros [[Hb Ht] Hbs]%Forall_cons.
  change (pem_bundle (b :: blocks)) with ((b +:+ newline) +:+ pem_bundle blocks).
  rewrite app_assoc_str, split_inclusive_ends_at by done.
  rewrite fmap_cons, split_after_newline by done. by rewrite Ht.
Qed.

(** ** Lemmas: what the service changes *)

Section lemmas.
Context `{LbApi, PathTreeApi} {T : Type} `{AcmeApi T} `{!Store T, !StoreView T, !AcmeView T}.
Implicit Types w : LeWorld T.

Definition held w (d : string) : option Certificate := s ← le_store w; certs_of s d.

Section hoare.
Context {A : Type}.
(** [m] moves the world within [R], and its value meets [Q]. *)
Definition spec (R : LeWorld T → LeWorld T → Prop) (Q : A → Prop) (m : M (LeWorld T) stop A) : Prop :=
  ∀ w r w', m w = (r, w') → R w w' ∧ ∀ a, r = Ok a → Q a.
End hoare.

(** Nothing observable has changed for the domains of [P]. *)
Definition untouched (P : string → Prop) w w' : Prop :=
  ∀ d, P d → held w' d = held w d ∧ saved (outside w') d = saved (outside w) d.
#[export] Instance untouched_preorder P : PreOrder (untouched P).
Proof. split; [done|]. intros w1 w2 w3 A B d Hd. destruct (A d Hd), (B d Hd). split; congruence. Qed.

Lemma untouched_weaken (P P' : string → Prop) w w' :
  (∀ d, P' d → P d) → untouched P w w' → untouched P' w w'.
Proof. intros HP Hu d Hd. auto. Qed.

Section rules.
Context {R : LeWorld T → LeWorld T → Prop} `{!PreOrder R}.

Lemma spec_ret {A} (Q : A → Prop) a : Q a → spec R Q (mret a).
Proof. intros Ha w r w' [= <- <-]. split; [done|]. by intros a' [= <-]. Qed.

Lemma spec_throw {A} (Q : A → Prop) e : spec R Q (throw e).
Proof. by intros w r w' [= <- <-]. Qed.

Lemma spec_crash {A} (Q : A → Prop) : spec R Q crash.
Proof. by intros w r w' [= <- <-]. Qed.

Lemma spec_lift {A} (Q : A → Prop) r0 : (∀ a, r0 = Ok a → Q a) → spec R Q (lift r0).
Proof. by intros HQ w r w' [= <- <-]. Qed.

Lemma spec_gets {A} (Q : A → Prop) (f : LeWorld T → A) : (∀ w, Q (f w)) → spec R Q (gets f).
Proof. intros HQ w r w' [= <- <-]. split; [done|]. by intros a [= <-]. Qed.

Lemma spec_bind {A B} (Q : A → Prop) (Q' : B → Prop) m f :
  spec R Q m → (∀ a, Q a → spec R Q' (f a)) → spec R Q' (m ≫= f).
Proof.
  intros Hm Hf w r w' E. unfold mbind, M_bind in E. specialize (Hm w).
  destruct (m w) as [[a|e|] w1].
  - destruct (Hm _ _ eq_refl) as [R1 HQ]. destruct (Hf a (HQ a eq_refl) _ _ _ E) as [R2 HQ'].
    split; [by transitivity w1|done].
  - injection E as <- <-. by destruct (Hm _ _ eq_refl).
  - injection E as <- <-. by destruct (Hm _ _ eq_refl).
Qed.

Lemma spec_attempt {A} (Q : A → Prop) (m : M (LeWorld T) stop A) :
  spec R Q m → spec R (λ o, ∀ a, o = Some a → Q a) (attempt m).
Proof.
  intros Hm w r w' E. unfold attempt in E. specialize (Hm w).
  destruct (m w) as [[a|[e|]|] w1]; injection E as <- <-; destruct (Hm _ _ eq_refl) as [R1 HQ];
    (split; [done|]); naive_solver.
Qed.

Lemma spec_context {A} (Q : A → Prop) msg (m : M (LeWorld T) stop A) :
  spec R Q m → spec R Q (context msg m).
Proof.
  intros Hm w r w' E. unfold context in E. specialize (Hm w).
  destruct (m w) as [[a|[e|]|] w1]; injection E as <- <-; destruct (Hm _ _ eq_refl) as [R1 HQ];
    (split; [done|]); naive_solver.
Qed.

Lemma spec_expect {A} (Q : A → Prop) (m : M (LeWorld T) stop A) : spec R Q m → spec R Q (expect m).
Proof.
  intros Hm w r w' E. unfold expect in E. specialize (Hm w).
  destruct (m w) as [[a|[e|]|] w1]; injection E as <- <-; destruct (Hm _ _ eq_refl) as [R1 HQ];
    (split; [done|]); naive_solver.
Qed.
End rules.

Lemma spec_any {A} R (Q : A → Prop) (m : M (LeWorld T) stop A) :
  spec R Q m → spec R (λ _, True) m.
Proof. intros Hm w r w' E. split; [by destruct (Hm _ _ _ E)|done]. Qed.

Lemma spec_outside {A} P (Q : A → Prop) (m : M Outside string A) :
  (∀ o d, P d → saved (snd (m o)) d = saved o d) → (∀ o a, fst (m o) = Ok a → Q a) →
  spec (untouched P) Q (on_outside m).
Proof.
  intros Hk HQ w r w' E. unfold on_outside in E.
  pose proof (Hk (outside w)) as K. pose proof (HQ (outside w)) as KQ.
  destruct (m (outside w)) as [r0 o]. injection E as <- <-. simpl in *. split.
  - intros d Hd. split; [done|by apply K].
  - intros a Ha. destruct r0; naive_solver.
Qed.

Section contract.
Context `{!StoreSpec T}.

(** An operation of the store that keeps the certificates of [P]. *)
Lemma spec_store {A} (P : string → Prop) (m : M T string A) :
  (∀ s r s', m s = (r, s') → ∀ d, P d → certs_of s' d = certs_of s d) →
  spec (untouched P) (λ _, True) (on_store m).
Proof.
  intros Hk w r w' E. split; [|done]. unfold on_store, get_store, unwrap in E.
  destruct (le_store w) as [s|] eqn:Es; [|injection E as <- <-; done].
  specialize (Hk s). destruct (m s) as [r0 s']. injection E as <- <-.
  intros d Hd. split; [|done]. unfold held. simpl. rewrite Es. simpl. by apply (Hk r0 s').
Qed.

Lemma spec_set_challenge P d t p : spec (untouched P) (λ _, True) (on_store (set_challenge d t p)).
Proof.
  apply spec_store. intros s r s' E d' _.
  destruct (set_challenge_spec _ _ _ _ _ _ E) as [(_ & Hc & _)|[_ [Hc _]]]; apply Hc.
Qed.

Lemma spec_get_certificates P : spec (untouched P) (λ _, True) (on_store get_certificates).
Proof.
  apply spec_store. intros s r s' E d' _. by destruct (get_certificates_spec _ _ _ E) as [[Hc _] _].
Qed.

Lemma spec_set_certificate d c :
  spec (untouched (λ d', d' ≠ d)) (λ _, True) (on_store (set_certificate d c)).
Proof.
  apply spec_store. intros s r s' E d' Hd.
  destruct (set_certificate_spec _ _ _ _ _ E) as [(_ & _ & Hc)|[_ [Hc _]]]; [|apply Hc].
  by rewrite Hc, decide_False.
Qed.

Lemma spec_insert_certificate d b k :
  spec (untouched (λ d', d' ≠ d)) (λ _, True) (insert_certificate d b k).
Proof.
  eapply spec_bind; [by apply (spec_lift (λ _, True))|]. intros c _.
  apply spec_context, spec_set_certificate.
Qed.

Lemma spec_has_certificate P d : spec (untouched P) (λ _, True) (has_certificate d).
Proof. eapply spec_bind; [apply spec_get_certificates|]. intros m _. by apply spec_ret. Qed.

Section acme.
Context `{!AcmeLaws T}.

Lemma spec_keeping {A} P (Q : A → Prop) (m : M Outside string A) :
  keeps_saved m → (∀ o a, fst (m o) = Ok a → Q a) → spec (untouched P) Q (on_outside m).
Proof. intros Hk. apply spec_outside. intros o d _. apply Hk. Qed.

Lemma spec_handle_authorizations P auths :
  spec (untouched P) (λ _, True) (handle_authorizations auths).
Proof.
  induction auths as [|a auths IH]; simpl; [by apply spec_ret|].
  eapply spec_bind; [|intros; apply IH].
  eapply spec_bind; [apply spec_context, spec_set_challenge|]. intros _ _ w r w' E.
  unfold validate_challenge, get_store, unwrap in E.
  destruct (le_store w) as [s|]; [|by injection E as <- <-].
  revert E. apply (spec_keeping P (λ _, True)); [apply validate_keeps|done].
Qed.

Lemma spec_validation_loop P n ord d :
  order_domain ord = d → spec (untouched P) (λ csr, csr_domain csr = d) (validation_loop n ord).
Proof.
  revert ord. induction n as [|n IH]; intros ord Hd; simpl; [apply spec_throw|].
  destruct (confirm_validations ord) as [csr|] eqn:Ec;
    [apply spec_ret; by rewrite (confirm_domain _ _ Ec)|].
  eapply spec_bind with (Q := λ _, True).
  { apply spec_context. eapply spec_bind; [by apply spec_keeping, (λ _ _ _, I); apply authorizations_keeps|].
    intros; apply spec_handle_authorizations. }
  intros _ _. eapply spec_bind.
  { apply spec_attempt, (spec_keeping P (λ o, order_domain o = d)); [apply refresh_keeps|].
    intros o ord' E. by rewrite (refresh_domain _ _ _ E). }
  intros [ord'|] Ho; apply IH; simpl; eauto.
Qed.

Lemma spec_then {A B} R (Q : A → Prop) m (f : A → M (LeWorld T) stop B) w r w' :
  spec R Q m → (m ≫= f) w = (r, w') →
  (∃ a w1, R w w1 ∧ Q a ∧ f a w1 = (r, w')) ∨ ((∀ b, r ≠ Ok b) ∧ R w w').
Proof.
  intros Hm E. unfold mbind, M_bind in E. specialize (Hm w).
  destruct (m w) as [[a|e|] w1]; destruct (Hm _ _ eq_refl) as [HR HQ];
    [left; exists a, w1; auto|right; by injection E as <- <-..].
Qed.

Lemma insert_certificate_outcome d b k w r w' :
  insert_certificate d b k w = (r, w') →
  outside w' = outside w ∧ (∀ d', d' ≠ d → held w' d' = held w d') ∧
  ((r = Ok tt ∧ ∃ c, bundle_certificate b k = Ok c ∧ held w' d = Some c) ∨
   (r ≠ Ok tt ∧ held w' d = held w d)).
Proof.
  intros E. unfold insert_certificate, mbind, M_bind, lift in E.
  destruct (bundle_certificate b k) as [c|e|]; [|injection E as <- <-; by auto..].
  unfold context, on_store, get_store, unwrap in E.
  destruct (le_store w) as [s|] eqn:Es; [|injection E as <- <-; by auto].
  destruct (set_certificate d c s) as [r0 s'] eqn:Eset.
  assert (Hh : ∀ d', held w d' = certs_of s d') by (intros d'; unfold held; by rewrite Es).
  destruct (set_certificate_spec _ _ _ _ _ Eset) as [(-> & _ & Hc)|[[e ->] [Hc _]]];
    injection E as <- <-; (split; [done|]); split; try setoid_rewrite Hh; unfold held; simpl.
  - intros d' Hne. by rewrite Hc, decide_False.
  - left. split; [done|]. exists c. by rewrite Hc, decide_True.
  - intros d' _. apply Hc.
  - right. split; [done|]. apply Hc.
Qed.

Lemma create_order_outcome fuel d account w r w' :
  create_order_for_domain fuel d account w = (r, w') →
  untouched (λ d', d' ≠ d) w w' ∧
  ((r = Ok tt ∧ ∃ cert c, saved (outside w') d = Some cert ∧ held w' d = Some c ∧
      bundle_certificate (cert_certificate cert) (cert_private_key cert) = Ok c) ∨
   (r ≠ Ok tt ∧ held w' d = held w d)).
Proof.
  set (all := λ _ : string, True). intros E.
  match goal with |- ?g =>
    assert (Hfail : ∀ w1, untouched all w w1 → (∀ b, r ≠ Ok b) → untouched all w1 w' → g) end.
  { intros w1 U1 Hr U2. assert (U : untouched all w w') by (by transitivity w1).
    split; [by apply (untouched_weaken all)|]. right. split; [done|]. by apply U. }
  apply (spec_then (untouched all) (λ o, order_domain o = d)) in E as [(ord & w1 & U1 & Ho & E)|[Hr U]];
    [|by apply (Hfail w)
     |apply spec_keeping; [apply new_order_keeps|intros; by eapply new_order_domain]].
  apply (spec_then (untouched all) (λ csr, csr_domain csr = d)) in E as [(csr & w2 & U2 & Hc & E)|[Hr U]];
    [|by apply (Hfail w1)|by apply spec_validation_loop].
  assert (U : untouched all w w2) by (by transitivity w1). clear U1 U2 w1 Ho.
  apply (spec_then (untouched all) (λ _, True)) in E as [(key & w3 & U3 & _ & E)|[Hr U']];
    [|by apply (Hfail w2)|by apply spec_keeping; [apply key_keeps|]].
  assert (U4 : untouched all w w3) by (by transitivity w2). clear U U3 w2.
  apply (spec_then (untouched all) (λ co, cert_order_domain co = d)) in E as [(co & w4 & U5 & Hco & E)|[Hr U']];
    [|by apply (Hfail w3)
     |apply spec_keeping; [apply finalize_keeps|intros o a Hf; by rewrite (finalize_domain _ _ _ _ _ Hf)]].
  assert (U : untouched all w w4) by (by transitivity w3). clear U4 U5 w3.
  unfold mbind, M_bind, on_outside in E.
  pose proof (download_saves co (outside w4)) as Hsave.
  pose proof (λ d', download_others co (outside w4) d') as Hother.
  destruct (download_and_save_cert co (outside w4)) as [r0 o']. simpl in *. rewrite Hco in *.
  assert (U5 : untouched (λ d', d' ≠ d) w (mkLeWorld (le_store w4) o')).
  { intros d' Hd. simpl. rewrite Hother by done. by apply U. }
  destruct r0 as [cert|e|]; simpl in E; [|injection E as <- <-; split; [done|]; right; split; [done|by apply U]..].
  apply insert_certificate_outcome in E as (Eo & Hoth & Hcase). split.
  { intros d' Hd. rewrite Eo, Hoth by done. apply U5, Hd. }
  destruct Hcase as [(-> & c & Hbc & Hheld)|[Hr Hheld]]; [left|right].
  - split; [done|]. exists cert, c. rewrite Eo. simpl. by rewrite (Hsave _ eq_refl).
  - split; [done|]. rewrite Hheld. by apply U.
Qed.

Lemma spec_create_order fuel d account :
  spec (untouched (λ d', d' ≠ d)) (λ _, True) (create_order_for_domain fuel d account).
Proof. intros w r w' E. split; [|done]. by destruct (create_order_outcome _ _ _ _ _ _ E). Qed.

Lemma spec_self_signed d enabled :
  spec (untouched (λ d', d' ≠ d)) (λ _, True) (create_self_signed_certificate d enabled).
Proof.
  unfold create_self_signed_certificate. destruct enabled; simpl; [|by apply spec_ret].
  eapply spec_bind; [by apply spec_keeping, (λ _ _ _, I); apply rsa_keeps|]. intros key _.
  eapply spec_bind; [by apply (spec_lift (λ _, True))|]. intros name _.
  eapply spec_bind; [by apply (spec_lift (λ _, True))|]. intros crt _.
  apply spec_context, spec_set_certificate.
Qed.

Lemma spec_ignore {A} R `{!PreOrder R} (m : M (LeWorld T) stop A) :
  spec R (λ _, True) m → spec R (λ _, True) (_ ← attempt m; mret tt).
Proof. intros Hm. eapply spec_bind; [by apply spec_attempt|]. intros. by apply spec_ret. Qed.

Lemma spec_account_certificate P account d :
  spec (untouched P) (λ _, True) (attempt (on_outside (account_certificate account d))).
Proof.
  eapply spec_any, spec_attempt, spec_keeping; [apply account_certificate_keeps|].
  by intros o a _; instantiate (1 := λ _, True).
Qed.

Lemma spec_handle_certificate fuel d account b :
  spec (untouched (λ d', d' ≠ d)) (λ _, True) (handle_certificate_for_domain fuel d account b).
Proof.
  eapply spec_bind; [apply spec_account_certificate|]. intros [[cert|]|] _; [..|by apply spec_ret].
  - eapply spec_bind; [apply spec_has_certificate|]. intros [] _; [by apply spec_ret|].
    apply spec_ignore; [apply _|apply spec_insert_certificate].
  - eapply spec_bind; [eapply spec_any, spec_attempt, spec_create_order|].
    intros [|] _; [by apply spec_ret|]. apply spec_ignore; [apply _|apply spec_self_signed].
Qed.

Lemma spec_renew_domain fuel d account :
  spec (untouched (λ d', d' ≠ d)) (λ _, True) (renew_domain fuel account d).
Proof.
  eapply spec_bind; [apply spec_account_certificate|]. intros [[cert|]|] _; [|by apply spec_ret..].
  eapply spec_bind; [by apply (spec_gets (λ _, True))|]. intros days _.
  case_match; [by apply spec_ret|]. apply spec_ignore; [apply _|apply spec_context, spec_create_order].
Qed.

#[local] Arguments Z.ltb : simpl never.

(** A renewal leaves the certificate of its domain or replaces it; it replaces
    it when the persisted one is due. *)
Definition due (account : Account) (d : string) w : Prop :=
  ∃ cert, saved (outside w) d = Some cert ∧
    (valid_days_left cert (snd (account_certificate account d (outside w)))
       ≤ DEFAULT_RENEW_INTERVAL_DAYS)%Z.

Lemma renew_domain_outcome fuel account d w r w' :
  renew_domain fuel account d w = (r, w') →
  held w' d = held w d ∨ (is_Some (held w' d) ∧ due account d w).
Proof.
  unfold due, renew_domain, mbind, M_bind, mret, M_ret, attempt, on_outside, gets.
  pose proof (account_certificate_ok account d (outside w)) as Hok.
  destruct (account_certificate account d (outside w)) as [r0 o]. simpl in *.
  destruct r0 as [x|e|]; simpl; [|intros [= <- <-]; by left..].
  specialize (Hok x eq_refl). destruct x as [cert|]; [|intros [= <- <-]; by left].
  destruct (_ <? _)%Z eqn:Hle; [intros [= <- <-]; by left|].
  apply Z.ltb_ge in Hle. unfold context. intros E.
  destruct (create_order_for_domain fuel d account (mkLeWorld (le_store w) o)) as [r1 w1] eqn:Eo.
  assert (w' = w1) as -> by (destruct r1 as [?|[?|]|]; by injection E).
  destruct (create_order_outcome _ _ _ _ _ _ Eo) as [_ [(_ & c & ce & _ & Hh & _)|[_ Hh]]]; [right|by left].
  split; [by eexists|]. eauto.
Qed.

Lemma renew_domains_outcome fuel account d routes w r w' :
  renew_domains fuel account routes w = (r, w') →
  held w' d = held w d ∨
  (is_Some (held w' d) ∧ ∃ pre c post w1, routes = pre ++ (d, c) :: post ∧
     renew_domains fuel account pre w = (Ok tt, w1) ∧ due account d w1).
Proof.
  revert w. induction routes as [|[key c] rest IH]; intros w; [intros [= <- <-]; by left|].
  simpl. intros E. unfold mbind, M_bind in E.
  destruct (renew_domain fuel account key w) as [r1 w1] eqn:E1.
  assert (Hstep : held w1 d = held w d ∨ (is_Some (held w1 d) ∧ key = d ∧ due account d w)).
  { destruct (decide (key = d)) as [->|Hne].
    - destruct (renew_domain_outcome _ _ _ _ _ _ E1) as [?|[? ?]]; auto.
    - left. destruct (spec_renew_domain _ _ _ _ _ _ E1) as [U _]. by apply (U d). }
  assert (Hfirst : key = d → due account d w → ∃ pre c0 post w0,
            (key, c) :: rest = pre ++ (d, c0) :: post ∧
            renew_domains fuel account pre w = (Ok tt, w0) ∧ due account d w0).
  { intros -> Hd. by exists [], c, rest, w. }
  destruct r1 as [[]|e|]; [|injection E as <- <-; destruct Hstep as [?|(? & ? & ?)]; auto..].
  destruct (IH w1 E) as [Heq|(Hs & pre & c0 & post & w0 & -> & Epre & Hdue)].
  - rewrite Heq. destruct Hstep as [?|(? & ? & ?)]; auto.
  - right. split; [done|]. exists ((key, c) :: pre), c0, post, w0. split_and!; [done| |done].
    simpl. unfold mbind, M_bind. by rewrite E1.
Qed.

(** ** Lemmas: states the loops do not leave *)

Definition stable (I : LeWorld T → Prop) {A} (m : M (LeWorld T) stop A) : Prop :=
  ∀ w, I w → I (snd (m w)).

Lemma stable_ret I {A} (a : A) : stable I (mret a).
Proof. by intros w. Qed.

Lemma stable_bind I {A B} (m : M (LeWorld T) stop A) (f : A → M (LeWorld T) stop B) :
  stable I m → (∀ a, stable I (f a)) → stable I (m ≫= f).
Proof.
  intros Hm Hf w Hw. unfold mbind, M_bind. specialize (Hm w Hw).
  destruct (m w) as [[a|e|] w1]; [by apply Hf|done..].
Qed.

(** What depends on one domain only. *)
Definition about (d : string) (I : LeWorld T → Prop) : Prop :=
  ∀ w w', untouched (λ d', d' = d) w w' → I w → I w'.

Lemma stable_spec I d (P : string → Prop) {A} (m : M (LeWorld T) stop A) :
  about d I → P d → spec (untouched P) (λ _, True) m → stable I m.
Proof.
  intros HI HP Hm w Hw. specialize (Hm w). destruct (m w) as [r w1].
  destruct (Hm _ _ eq_refl) as [HR _]. eapply HI; [|done].
  eapply untouched_weaken; [|exact HR]. by intros d' ->.
Qed.

Section loops.
Context (fuel : nat) (config : Config) (account : Account) (d : string) (I : LeWorld T → Prop).
Context (Iabout : about d I).
Context (Iwatch : ∀ b, stable I (exists_already ← has_certificate d;
  if exists_already : bool then mret tt else handle_certificate_for_domain fuel d account b)).

Lemma stable_watch routes : stable I (watch_for_route_changes fuel account routes).
Proof.
  induction routes as [|[key value] rest IH]; simpl; [apply stable_ret|].
  destruct (decide (key = d)) as [->|Hne].
  - intros w Hw. specialize (Iwatch (self_signed_certificate value) w Hw).
    unfold mbind, M_bind in *. destruct (has_certificate d w) as [[[]|e|] w1]; simpl in *; [..|done|done].
    + by apply IH.
    + destruct (handle_certificate_for_domain _ _ _ _ w1) as [[[]|e|] w2]; simpl in *; [by apply IH|done..].
  - apply stable_bind; [eapply stable_spec; [done| |apply (spec_has_certificate (λ _, True))]; done|].
    intros []; (apply stable_bind; [|intros; apply IH]); [apply stable_ret|].
    eapply stable_spec; [done| |apply spec_handle_certificate]. done.
Qed.

Context (Irenew : stable I (renew_domain fuel account d)).

Lemma stable_renew routes : stable I (renew_domains fuel account routes).
Proof.
  induction routes as [|[key value] rest IH]; simpl; [apply stable_ret|].
  apply stable_bind; [|intros; apply IH]. destruct (decide (key = d)) as [->|Hne]; [done|].
  eapply stable_spec; [done| |apply spec_renew_domain]. done.
Qed.

Lemma stable_loops events : stable I (le_loops fuel config account events).
Proof.
  induction events as [|e events IH]; simpl; [apply stable_ret|].
  apply stable_bind; [|intros; apply IH]. destruct e as [routes|routes]; simpl; [apply stable_watch|].
  unfold check_for_certificates_expiration. destruct (_ =? 0)%N; [by intros w|apply stable_renew].
Qed.
End loops.

Context `{!StoreUp T}.

(** With a store that lists all it holds, the look-up is exact. *)
Lemma has_certificate_exact d w c s :
  le_store w = Some s → held w d = c →
  ∃ w', has_certificate d w = (Ok (bool_decide (is_Some c)), w') ∧ untouched (λ _, True) w w' ∧
    outside w' = outside w ∧ is_Some (le_store w').
Proof.
  intros Hs Hc. destruct (get_certificates_up s) as (m & s' & E & Hm).
  exists (mkLeWorld (Some s') (outside w)).
  assert (Eq : has_certificate d w = (Ok (bool_decide (is_Some c)), mkLeWorld (Some s') (outside w))).
  { unfold has_certificate, on_store, get_store, unwrap, mbind, M_bind, mret, M_ret. rewrite Hs, E.
    simpl. rewrite Hm, <- Hc. unfold held. by rewrite Hs. }
  split; [done|]. split; [|done].
  by destruct (spec_has_certificate (λ _, True) d _ _ _ Eq).
Qed.

(** A domain with a certificate in the store, none of its own persisted. *)
Definition settled (d : string) (c : Certificate) w : Prop :=
  held w d = Some c ∧ saved (outside w) d = None.

Lemma settled_about d c : about d (settled d c).
Proof. intros w w' U [Hh Hs]. destruct (U d eq_refl) as [E1 E2]. by rewrite <- E1 in Hh; rewrite <- E2 in Hs. Qed.

Lemma settled_watch fuel account d c b :
  stable (settled d c) (exists_already ← has_certificate d;
    if exists_already : bool then mret tt else handle_certificate_for_domain fuel d account b).
Proof.
  intros w Hw. pose proof Hw as [Hh _].
  destruct (le_store w) as [s|] eqn:Es; [|by unfold held in Hh; rewrite Es in Hh].
  destruct (has_certificate_exact d w _ s Es Hh) as (w' & E & U & _).
  unfold mbind, M_bind. rewrite E. simpl. eapply settled_about; [|done].
  by apply (untouched_weaken (λ _, True)).
Qed.

Lemma settled_renew fuel account d c : stable (settled d c) (renew_domain fuel account d).
Proof.
  intros w Hw. unfold renew_domain, mbind, M_bind at 1, attempt, on_outside.
  pose proof (account_certificate_keeps account d (outside w)) as Hk.
  pose proof (account_certificate_ok account d (outside w)) as Hok.
  destruct (account_certificate account d (outside w)) as [r o]. simpl in *.
  assert (Hw' : settled d c (mkLeWorld (le_store w) o))
    by (destruct Hw as [Hh Hs]; split; [done|simpl; by rewrite Hk]).
  destruct r as [x|e|]; simpl; [|done..]. rewrite (Hok x eq_refl). by rewrite (proj2 Hw).
Qed.

(** A domain whose persisted certificate cannot be used, with none in the store. *)
Definition unusable (d : string) w : Prop :=
  held w d = None ∧ ∃ cert, saved (outside w) d = Some cert ∧
  ∀ c, bundle_certificate (cert_certificate cert) (cert_private_key cert) ≠ Ok c.

Lemma unusable_about d : about d (unusable d).
Proof. intros w w' U [Hh Hs]. destruct (U d eq_refl) as [E1 E2]. split; [congruence|]. by rewrite E2. Qed.

Lemma unusable_has_certificate d w :
  unusable d w →
  (∃ r w', has_certificate d w = (r, w') ∧ (r = Ok false ∨ r = Panic) ∧ unusable d w' ).
Proof.
  intros Hw. destruct (le_store w) as [s|] eqn:Es.
  - destruct (has_certificate_exact d w _ s Es (proj1 Hw)) as (w' & E & U & _).
    exists (Ok false), w'. split; [done|]. split; [by left|].
    eapply unusable_about; [|done]. by apply (untouched_weaken (λ _, True)).
  - exists Panic, w. split; [|auto]. unfold has_certificate, on_store, get_store, unwrap, mbind, M_bind.
    by rewrite Es.
Qed.

Lemma unusable_handle fuel account d b :
  stable (unusable d) (handle_certificate_for_domain fuel d account b).
Proof.
  intros w Hw. unfold handle_certificate_for_domain, mbind at 1, M_bind at 1, attempt at 1, on_outside at 1.
  pose proof (account_certificate_keeps account d (outside w)) as Hk.
  pose proof (account_certificate_ok account d (outside w)) as Hok.
  destruct (account_certificate account d (outside w)) as [r o]. simpl in *.
  assert (Hw' : unusable d (mkLeWorld (le_store w) o))
    by (destruct Hw as [Hh Hs]; split; [done|simpl; by rewrite Hk]).
  destruct r as [x|e|]; simpl; [|done..]. rewrite (Hok x eq_refl).
  destruct Hw as [_ (cert & Hcert & _)]. rewrite Hcert.
  destruct (unusable_has_certificate _ _ Hw') as (r & w' & E & [->| ->] & Hu);
    unfold mbind, M_bind; rewrite E; simpl; [|done].
  assert (Hbad : ∀ c, bundle_certificate (cert_certificate cert) (cert_private_key cert) ≠ Ok c).
  { destruct Hw' as (_ & cert' & Hc' & Hbad). simpl in Hc'. rewrite Hk, Hcert in Hc'. by simplify_eq. }
  unfold attempt, insert_certificate, mbind, M_bind, lift.
  destruct (bundle_certificate _ _) as [c|[e|]|]; [by destruct (Hbad c)|done..].
Qed.

Lemma unusable_watch fuel account d b :
  stable (unusable d) (exists_already ← has_certificate d;
    if exists_already : bool then mret tt else handle_certificate_for_domain fuel d account b).
Proof.
  intros w Hw. destruct (unusable_has_certificate _ _ Hw) as (r & w' & E & [->| ->] & Hu);
    unfold mbind, M_bind; rewrite E; simpl; [|done]. by apply unusable_handle.
Qed.

(** ** Lemmas: orders end *)

Context `{!AcmeLive T, !AcmeAccepts T}.

Lemma handle_authorization_live a w :
  is_Some (le_store w) →
  ∃ w', handle_authorization a w = (Ok tt, w') ∧ is_Some (le_store w') ∧
    validated (outside w') a ∧ ∀ b, validated (outside w) b → validated (outside w') b.
Proof.
  intros [s Es].
  destruct (set_challenge_up (domain_name a) (http_token a) (http_proof a) s) as [s' E].
  destruct (set_challenge_spec _ _ _ _ _ _ E) as [(_ & _ & Hc)|[[? ?] _]]; [|done].
  specialize (Hc (domain_name a)). rewrite decide_True in Hc by done.
  destruct (validate_live 5000 a s' (outside w) Hc) as (o' & Ev & Hv & Hmono).
  exists (mkLeWorld (Some s') o'). split; [|by eauto].
  unfold handle_authorization, validate_challenge, context, on_store, get_store, unwrap, on_outside,
    mbind, M_bind. by rewrite Es, E; simpl; rewrite Ev.
Qed.

Lemma handle_authorizations_live auths w :
  is_Some (le_store w) →
  ∃ w', handle_authorizations auths w = (Ok tt, w') ∧ is_Some (le_store w') ∧
    (∀ a, a ∈ auths → validated (outside w') a) ∧
    ∀ b, validated (outside w) b → validated (outside w') b.
Proof.
  revert w. induction auths as [|a auths IH]; intros w Hs; simpl.
  - exists w. split_and!; [done|done|by intros a ?%elem_of_nil|done].
  - destruct (handle_authorization_live a w Hs) as (w1 & E1 & Hs1 & Ha & Hm1).
    destruct (IH w1 Hs1) as (w2 & E2 & Hs2 & Hall & Hm2). exists w2. split_and!; [|done| |by auto].
    + unfold mbind, M_bind. by rewrite E1.
    + intros b [->|Hb]%elem_of_cons; auto.
Qed.

Lemma validation_loop_live n ord w :
  is_Some (le_store w) → ∃ csr w', validation_loop (S (S n)) ord w = (Ok csr, w') ∧ is_Some (le_store w').
Proof.
  intros Hs. cbn [validation_loop].
  destruct (confirm_validations ord) as [csr|]; [by exists csr, w|].
  destruct (authorizations_live ord (outside w)) as (o1 & E1 & _).
  destruct (handle_authorizations_live (auths_of ord) (mkLeWorld (le_store w) o1) Hs)
    as (w2 & E2 & Hs2 & Hall & _).
  destruct (refresh_live ord (outside w2) Hall) as (ord' & o3 & E3 & [csr Ec]).
  exists csr, (mkLeWorld (le_store w2) o3). split; [|done].
  unfold context, handle_http_01_challenge, attempt, on_outside, mbind, M_bind. rewrite E1. simpl.
  rewrite E2. simpl. rewrite E3. simpl. by rewrite Ec.
Qed.

Lemma create_order_live n d account w ord o :
  is_Some (le_store w) → new_order account d [] (outside w) = (Ok ord, o) →
  (∀ co o cert, cert_order_domain co = d → fst (download_and_save_cert co o) = Ok cert →
     ∃ c, bundle_certificate (cert_certificate cert) (cert_private_key cert) = Ok c) →
  ∃ w', create_order_for_domain (S (S n)) d account w = (Ok tt, w').
Proof.
  intros Hs Hord Hgood. unfold create_order_for_domain, mbind at 1, M_bind at 1, on_outside at 1.
  rewrite Hord. cbn -[validation_loop].
  destruct (validation_loop_live n ord (mkLeWorld (le_store w) o) Hs) as (csr & w1 & E1 & [s Es]).
  unfold mbind at 1, M_bind at 1. rewrite E1.
  destruct (key_live (outside w1)) as (k & o2 & E2).
  destruct (finalize_live csr k 5000 o2) as (co & o3 & E3).
  destruct (download_live co o3) as (cert & o4 & E4).
  destruct (Hgood co o3 cert) as [c Hc]; [|by rewrite E4|].
  { rewrite (finalize_domain csr k 5000 o2 co) by (by rewrite E3).
    apply (spec_validation_loop (λ _, True) _ _ d) in E1 as [_ E1]; [by apply E1|].
    eapply new_order_domain. by rewrite Hord. }
  destruct (set_certificate_up d c s) as [s' E5].
  exists (mkLeWorld (Some s') o4).
  unfold insert_certificate, mbind, M_bind, on_outside, context, on_store, get_store, unwrap, lift.
  rewrite E2. simpl. rewrite E3. simpl. rewrite E4. simpl. rewrite Hc, Es. by rewrite E5.
Qed.
End acme.
End contract.
End lemmas.

(** ** Properties *)

(** C32. A bundle whose certificates are on lines of their own. With two or more,
    the store is given the first as leaf and the second as its chain, and the
    others are dropped; with a single one, nothing is stored: the text after
    its last line is parsed as a chain. Without a final newline a single
    certificate is stored. *)
Theorem insert_certificate_bundle {T} `{AcmeApi T} `{!Store T} (domain leaf_pem key_pem : string)
    (blocks : list string) (leaf : X509) (key : PKey) (w : LeWorld T)
    (Hempty : x509_from_pem "" = None)
    (Hblocks : Forall (λ b, ends_at end_marker b = true ∧ trim b = b) (leaf_pem :: blocks))
    (Hleaf : x509_from_pem leaf_pem = Some leaf) (Hkey : private_key_from_pem key_pem = Some key) :
  let store c := context "failed to save certificate in the store: "
                   (on_store (set_certificate domain (mkCertificate _ key leaf c))) w in
  insert_certificate domain leaf_pem key_pem w = store None ∧
  insert_certificate domain (concat_str ((λ b, b +:+ newline) <$> leaf_pem :: blocks)) key_pem w =
    match blocks with
    | [] => (Err (Failed "x509"), w)
    | chain_pem :: _ =>
        match x509_from_pem chain_pem with
        | Some chain => store (Some chain)
        | None => (Err (Failed "x509"), w)
        end
    end.
Proof.
  intros store. unfold insert_certificate, bundle_certificate. split.
  - apply Forall_cons in Hblocks as [[Hb Ht] _].
    assert (split_inclusive end_marker leaf_pem = [leaf_pem]) as ->.
    { rewrite <- (app_nil_r_str leaf_pem) at 1. by rewrite split_inclusive_ends_at. }
    rewrite fmap_cons, Ht. unfold parse_x509_cert, parse_private_key. simpl.
    rewrite Hleaf, Hkey. done.
  - fold (pem_bundle (leaf_pem :: blocks)). rewrite split_pem_bundle by done.
    unfold parse_x509_cert, parse_private_key. destruct blocks as [|chain_pem blocks]; simpl.
    + by rewrite Hleaf, Hempty.
    + rewrite Hleaf. simpl. destruct (x509_from_pem chain_pem); [|done]. simpl. by rewrite Hkey.
Qed.

(** C18. However an order ends, certificates of other domains are untouched; if it
    succeeds the store holds, for its domain, the certificate of the bundle
    the account has persisted; otherwise the store keeps what it held. *)
Theorem order_installs_certificate {T} `{AcmeApi T} `{!Store T, !StoreView T, !AcmeView T}
    (Hs : StoreSpec T) (Ha : AcmeLaws T) (fuel : nat) (domain : string) (account : Account)
    (w w' : LeWorld T) (r : res stop unit)
    (Hrun : create_order_for_domain fuel domain account w = (r, w')) :
  (∀ d, d ≠ domain → held w' d = held w d ∧ saved (outside w') d = saved (outside w) d) ∧
  ((r = Ok tt ∧ ∃ cert c, saved (outside w') domain = Some cert ∧ held w' domain = Some c ∧
      bundle_certificate (cert_certificate cert) (cert_private_key cert) = Ok c) ∨
   (r ≠ Ok tt ∧ held w' domain = held w domain)).
Proof. exact (create_order_outcome fuel domain account w r w' Hrun). Qed.

(** Orders end: when the authority can be reached and checks what the store
    holds, two rounds of the loop are enough, the order succeeds and the store
    holds the certificate of the domain. *)
Theorem order_completes {T} `{AcmeApi T} `{!Store T, !StoreView T, !AcmeView T}
    (Hs : StoreSpec T) (Ha : AcmeLaws T) (Hu : StoreUp T) (Hl : AcmeLive T) (Hv : AcmeAccepts T)
    (n : nat) (domain : string) (account : Account) (w : LeWorld T) (ord : NewOrder) (o : Outside)
    (Hstore : is_Some (le_store w))
    (Hord : new_order account domain [] (outside w) = (Ok ord, o))
    (Hgood : ∀ co o cert, cert_order_domain co = domain → fst (download_and_save_cert co o) = Ok cert →
       ∃ c, bundle_certificate (cert_certificate cert) (cert_private_key cert) = Ok c) :
  ∃ w' cert c, create_order_for_domain (2 + n) domain account w = (Ok tt, w') ∧
    saved (outside w') domain = Some cert ∧ held w' domain = Some c ∧
    bundle_certificate (cert_certificate cert) (cert_private_key cert) = Ok c.
Proof.
  destruct (create_order_live n domain account w ord o Hstore Hord Hgood) as [w' E].
  destruct (create_order_outcome _ _ _ _ _ _ E) as [_ [(_ & cert & c & Hc)|[[] _]]]; [|done].
  by exists w', cert, c.
Qed.

(** A refresh that fails is ignored: as long as the authority cannot be asked
    about the order while its challenges are found valid, the loop goes on for
    as many rounds as it is given. *)
Theorem refresh_errors_ignored {T} `{AcmeApi T} `{!Store T} (fuel : nat) (ord : NewOrder)
    (w : LeWorld T)
    (I : LeWorld T → Prop) (Hw : I w) (Hc : confirm_validations ord = None)
    (Hch : ∀ w, I w → ∃ w', handle_http_01_challenge ord w = (Ok tt, w') ∧ I w')
    (Hr : ∀ w, I w → ∃ e o, refresh ord (outside w) = (Err e, o) ∧ I (mkLeWorld (le_store w) o)) :
  ∃ w', validation_loop fuel ord w = (Err Running, w') ∧ I w'.
Proof.
  revert w Hw. induction fuel as [|n IH]; intros w Hw; [by eexists|]. simpl. rewrite Hc.
  destruct (Hch w Hw) as (w1 & E1 & Hw1). destruct (Hr w1 Hw1) as (e & o & E2 & Hw2).
  unfold context, attempt, on_outside, mbind, M_bind. rewrite E1. simpl. rewrite E2. simpl. by apply IH.
Qed.

(** C19. A self-signed certificate is for good: once a store that works holds a
    certificate for a domain the account has none of, no tick of either loop
    replaces it. *)
Theorem self_signed_sticks `{LbApi, PathTreeApi} {T} `{AcmeApi T} `{!Store T, !StoreView T, !AcmeView T}
    (Hs : StoreSpec T) (Ha : AcmeLaws T) (Hu : StoreUp T)
    (fuel : nat) (config : Config) (account : Account) (events : list LeEvent) (domain : string)
    (c : Certificate) (w : LeWorld T)
    (Hheld : held w domain = Some c) (Hnone : saved (outside w) domain = None) :
  let w' := snd (le_loops fuel config account events w) in
  held w' domain = Some c ∧ saved (outside w') domain = None.
Proof.
  apply (stable_loops fuel config account domain (settled domain c)); [|..|done].
  - apply settled_about.
  - intros b. apply settled_watch.
  - apply settled_renew.
Qed.

(** A persisted certificate that cannot be used is never replaced by the loop
    that watches the routes: its domain stays without a certificate, without a
    self-signed one too. *)
Theorem unusable_certificate_never_served `{LbApi, PathTreeApi} {T} `{AcmeApi T}
    `{!Store T, !StoreView T, !AcmeView T} (Hs : StoreSpec T) (Ha : AcmeLaws T) (Hu : StoreUp T)
    (fuel : nat) (account : Account) (routes : list (string * RouteStoreContainer))
    (domain : string) (cert : AcmeCert) (w : LeWorld T)
    (Hheld : held w domain = None) (Hsaved : saved (outside w) domain = Some cert)
    (Hbad : ∀ c, bundle_certificate (cert_certificate cert) (cert_private_key cert) ≠ Ok c) :
  let w' := snd (watch_for_route_changes fuel account routes w) in
  held w' domain = None ∧ is_Some (saved (outside w') domain).
Proof.
  destruct (stable_watch fuel account domain (unusable domain) (unusable_about domain)
              (unusable_watch fuel account domain) routes w) as [Hh (cert' & Hc & _)]; eauto.
  split; eauto.
Qed.

(** C33. The renewal changes the certificate of a domain only when the domain is
    routed and, when its turn comes, the persisted certificate has thirty
    days left or fewer; and then the domain still has a certificate. *)
Theorem renewal_only_when_due `{LbApi, PathTreeApi} {T} `{AcmeApi T}
    `{!Store T, !StoreView T, !AcmeView T} (Hs : StoreSpec T) (Ha : AcmeLaws T)
    (fuel : nat) (config : Config) (account : Account)
    (routes : list (string * RouteStoreContainer)) (domain : string) (w w' : LeWorld T) r
    (Hrun : check_for_certificates_expiration fuel config account routes w = (r, w'))
    (Hchange : held w' domain ≠ held w domain) :
  is_Some (held w' domain) ∧
  ∃ pre c post w1 cert, routes = pre ++ (domain, c) :: post ∧
    renew_domains fuel account pre w = (Ok tt, w1) ∧ saved (outside w1) domain = Some cert ∧
    (valid_days_left cert (snd (account_certificate account domain (outside w1))) ≤ 30)%Z.
Proof.
  unfold check_for_certificates_expiration in Hrun. destruct (_ =? 0)%N; [by injection Hrun as <- <-|].
  destruct (renew_domains_outcome _ _ domain _ _ _ _ Hrun)
    as [?|(Hi & pre & c & post & w1 & Hr & Hp & cert & Hc & Hd)]; [done|].
  split; [done|]. by exists pre, c, post, w1, cert.
Qed.

(** ** A concrete authority for the examples *)

#[local] Existing Instances toy_lb toy_pt toy_pki toy_redis toy_persist.

(** The domains validated, the certificates persisted (the flag tells a
    bundle of two from a lone certificate), the persisted account. *)
Record ToyOutside := mkToyOutside {
  toy_ok : list string;
  toy_saved : gmap string (string * bool);
  toy_disk : @Persisted toy_redis toy_persist }.

Definition toy_block (x : string) : string := "CERT " +:+ x +:+ end_marker.

(** Orders of any domain but [localhost] are accepted; a challenge is valid
    when [accepts] says so; certificates are good for [toy_days] days. *)
Definition toy_authority {T} (name token : string → string) (accepts : string → T → bool)
    (toy_days : Z) (refresh_up : bool) : AcmeApi T := {|
  Outside := ToyOutside;
  persisted := toy_disk;
  set_persisted := λ p o, mkToyOutside (toy_ok o) (toy_saved o) p;
  Directory := unit;
  Account := string;
  NewOrder := string * bool;
  Auth := string;
  CsrOrder := string;
  CertOrder := string;
  AcmeCert := string * bool;
  AcmeKey := unit;
  directory_from_url := λ _ _ o, (Ok tt, o);
  directory_account := λ _ email o, (Ok email, o);
  account_certificate := λ _ d o, (Ok (toy_saved o !! d), o);
  new_order := λ _ d _ o, (if String.eqb d "localhost" then Err "rejected" else Ok (d, false), o);
  confirm_validations := λ ord, if snd ord then Some (fst ord) else None;
  authorizations := λ ord o, (Ok [fst ord], o);
  domain_name := name;
  http_token := token;
  http_proof := λ a, "proof " +:+ a;
  validate := λ _ a s o,
    if accepts a s
    then (Ok tt, mkToyOutside (a :: toy_ok o) (toy_saved o) (toy_disk o)) else (Err "invalid", o);
  refresh := λ ord o,
    (if refresh_up then Ok (fst ord, bool_decide (fst ord ∈ toy_ok o)) else Err "offline", o);
  create_p384_key := λ o, (Ok tt, o);
  finalize_pkey := λ csr _ _ o, (Ok csr, o);
  download_and_save_cert := λ co o,
    (Ok (co, true), mkToyOutside (toy_ok o) (<[co := (co, true)]> (toy_saved o)) (toy_disk o));
  cert_certificate := λ c,
    concat_str ((λ b, b +:+ newline) <$> toy_block (fst c) :: (if snd c then [toy_block "R3"] else []));
  cert_private_key := λ c, "KEY " +:+ fst c;
  valid_days_left := λ _ _, toy_days;
  rsa_generate := λ _ o, (Ok "rsa", o);
  append_entry_by_text := λ k v l, Some (l ++ [(k, v)]);
  x509_sign := λ _ k, Some ("signed by " +:+ k) |}.

Section toy.
Context (name token : string → string) (accepts : string → MemoryStore → bool).
Context (toy_days : Z) (refresh_up : bool).
#[local] Existing Instance toy_authority.
Notation authority := (toy_authority name token accepts toy_days).

Definition toy_authority_view (up : bool) : @AcmeView toy_pki toy_redis toy_persist MemoryStore (authority up) := {|
  saved := λ (o : @Outside toy_pki toy_redis toy_persist MemoryStore (authority up)) d, toy_saved o !! d;
  order_domain := fst;
  csr_domain := λ c, c;
  cert_order_domain := λ c, c;
  auths_of := λ ord, [fst ord];
  validated := λ (o : ToyOutside) a, a ∈ toy_ok o |}.

Lemma toy_authority_laws :
  @AcmeLaws toy_pki toy_redis toy_persist MemoryStore (authority refresh_up) (toy_authority_view refresh_up).
Proof.
  split; simpl; try done; try (intros; by simplify_eq).
  - intros a d alt o ord. by case_match; intros [= <-].
  - intros [d []] csr; simpl; by intros [= <-].
  - intros n a s o d. simpl. by case_match.
  - intros ord o ord'. by case_match; intros [= <-].
  - intros co o c [= <-]. by rewrite lookup_insert_eq.
  - intros co o d Hd. by rewrite lookup_insert_ne.
Qed.

Lemma toy_authority_live :
  @AcmeLive toy_pki toy_redis toy_persist MemoryStore (authority true) (toy_authority_view true).
Proof.
  split; simpl.
  - intros ord o. by exists o.
  - intros ord o Ha. eexists _, o. split; [done|]. simpl.
    rewrite bool_decide_true; [by eexists|]. apply Ha, elem_of_cons. by left.
  - intros o. by eexists _, _.
  - intros csr k n o. by eexists _, _.
  - intros co o. by eexists _, _.
Qed.
End toy.

(** The authority that looks into the store itself. *)
Definition toy_acme : Z → bool → AcmeApi MemoryStore :=
  toy_authority (λ a, a) (λ a, "token " +:+ a)
    (λ a s, bool_decide (inner_challenges s !! a = Some ("token " +:+ a, "proof " +:+ a))).

Definition toy_acme_view days up : @AcmeView toy_pki toy_redis toy_persist MemoryStore (toy_acme days up) :=
  toy_authority_view _ _ _ days up.

Lemma toy_acme_laws days up :
  @AcmeLaws toy_pki toy_redis toy_persist MemoryStore (toy_acme days up) (toy_acme_view days up).
Proof. apply toy_authority_laws. Qed.

Lemma toy_acme_live days :
  @AcmeLive toy_pki toy_redis toy_persist MemoryStore (toy_acme days true) (toy_acme_view days true).
Proof. apply toy_authority_live. Qed.

Lemma toy_acme_accepts toy_days up :
  @AcmeAccepts toy_pki toy_redis toy_persist MemoryStore _ (toy_acme toy_days up) (toy_acme_view toy_days up).
Proof.
  split. simpl. intros n a s o Hc. rewrite bool_decide_true by done. eexists. split; [done|]. simpl.
  split; [apply elem_of_cons; by left|]. intros b Hb. apply elem_of_cons. by right.
Qed.

Definition me days up : @Account toy_pki toy_redis toy_persist MemoryStore (toy_acme days up) := "me@a.test".

Definition pending_order days up : @NewOrder toy_pki toy_redis toy_persist MemoryStore (toy_acme days up) :=
  ("a.test", false).

(** A store and an authority that have seen nothing. *)
Definition toy_world days up : @LeWorld MemoryStore _ _ _ (toy_acme days up) :=
  @mkLeWorld MemoryStore _ _ _ (toy_acme days up) (Some MemoryStore_new)
    (mkToyOutside [] ∅ nothing_persisted).

Definition with_cert days up (d : string) (c : @Certificate toy_pki) (w : @LeWorld MemoryStore _ _ _ (toy_acme days up)) :=
  snd (@on_store MemoryStore _ _ _ (toy_acme days up) _ (set_certificate d c) w).
Definition with_saved days up (d : string) (c : string * bool) (w : @LeWorld MemoryStore _ _ _ (toy_acme days up))
    : @LeWorld MemoryStore _ _ _ (toy_acme days up) :=
  @mkLeWorld MemoryStore _ _ _ (toy_acme days up) (le_store w)
    (mkToyOutside [] {[d := c]} nothing_persisted).
Definition toy_container : RouteStoreContainer := @RouteStoreContainer_new toy_lb toy_pt [].
Definition toy_routes : list (string * RouteStoreContainer) :=
  [("localhost", toy_container); ("a.test", toy_container)].

(** ** Witnesses *)

#[local] Existing Instances toy_acme toy_acme_view.

Lemma insert_certificate_bundle_witness :
  let w := toy_world 89 true in
  snd (insert_certificate "a.test" (pem_bundle [toy_block "a"; toy_block "R3"; toy_block "X1"]) "KEY k" w) =
    with_cert 89 true "a.test"
      (@mkCertificate toy_pki "k" ("a" +:+ end_marker) (Some ("R3" +:+ end_marker))) w ∧
  insert_certificate "a.test" (pem_bundle [toy_block "a"]) "KEY k" w = (Err (Failed "x509"), w).
Proof.
  split.
  - refine (eq_trans (f_equal snd (proj2 (insert_certificate_bundle "a.test" (toy_block "a") "KEY k"
      [toy_block "R3"; toy_block "X1"] (("a" +:+ end_marker) : @X509 toy_pki) ("k" : @PKey toy_pki) (toy_world 89 true)
      eq_refl _ eq_refl eq_refl))) _); [|reflexivity].
    by repeat constructor.
  - refine (proj2 (insert_certificate_bundle "a.test" (toy_block "a") "KEY k" []
      (("a" +:+ end_marker) : @X509 toy_pki) ("k" : @PKey toy_pki) (toy_world 89 true) eq_refl _ eq_refl eq_refl)).
    by repeat constructor.
Defined.

Lemma order_installs_certificate_witness :
  let w := toy_world 89 true in
  let w' := snd (create_order_for_domain 2 "a.test" (me 89 true) w) in
  ∃ cert c, saved (outside w') "a.test" = Some cert ∧ held w' "a.test" = Some c ∧
    bundle_certificate (cert_certificate cert) (cert_private_key cert) = Ok c.
Proof.
  intros w w'.
  destruct (order_installs_certificate MemoryStore_spec (toy_acme_laws 89 true) 2 "a.test" (me 89 true)
              w w' (Ok tt) ltac:(reflexivity))
    as [_ [[_ E]|[E _]]]; [exact E|by destruct E].
Defined.

Lemma order_completes_witness :
  let w := toy_world 89 true in
  ∃ w' cert c, create_order_for_domain 2 "a.test" (me 89 true) w = (Ok tt, w') ∧
    saved (outside w') "a.test" = Some cert ∧ held w' "a.test" = Some c ∧
    bundle_certificate (cert_certificate cert) (cert_private_key cert) = Ok c.
Proof.
  refine (order_completes MemoryStore_spec (toy_acme_laws 89 true) MemoryStore_up (toy_acme_live 89) (toy_acme_accepts 89 true)
            0 "a.test" (me 89 true) (toy_world 89 true) ("a.test", false) _ _ eq_refl _).
  - by eexists.
  - intros co o cert Hco [= <-]. simpl in Hco. subst co. eexists. reflexivity.
Defined.

Lemma refresh_errors_ignored_witness :
  ∃ w', validation_loop 100 (pending_order 89 false) (toy_world 89 false) = (Err Running, w') ∧
    is_Some (le_store w').
Proof.
  refine (refresh_errors_ignored 100 (pending_order 89 false)
            (toy_world 89 false) (λ w, is_Some (le_store w)) _ eq_refl _ _).
  - by eexists.
  - intros [st o] [s Hs]. simpl in Hs. subst st. exists (snd (handle_http_01_challenge (pending_order 89 false) (mkLeWorld (Some s) o))).
    unfold handle_http_01_challenge, handle_authorizations, handle_authorization, validate_challenge,
      context, on_store, on_outside, mbind, M_bind. simpl.
    rewrite bool_decide_true by apply lookup_insert_eq. split; [done|by eexists].
  - intros w Hw. by eexists _, _.
Defined.

Lemma self_signed_sticks_witness :
  let w := snd (watch_for_route_changes 2 (me 89 true) [("localhost", toy_container)]
             (with_cert 89 true "localhost" (@mkCertificate toy_pki "rsa" "self" None) (toy_world 89 true))) in
  held w "localhost" = Some (@mkCertificate toy_pki "rsa" "self" None) ∧
  held (snd (le_loops 2 Config_default (me 89 true) [WatchTick toy_routes; RenewTick toy_routes] w)) "localhost"
    = Some (@mkCertificate toy_pki "rsa" "self" None).
Proof.
  intros w. assert (held w "localhost" = Some (@mkCertificate toy_pki "rsa" "self" None)) as Hh by reflexivity.
  split; [exact Hh|].
  exact (proj1 (self_signed_sticks MemoryStore_spec (toy_acme_laws 89 true) MemoryStore_up 2
    Config_default (me 89 true) [WatchTick toy_routes; RenewTick toy_routes] "localhost" _ w Hh eq_refl)).
Defined.

Lemma unusable_certificate_never_served_witness :
  let w := with_saved 89 true "a.test" ("a.test", false) (toy_world 89 true) in
  held (snd (watch_for_route_changes 2 (me 89 true) toy_routes w)) "a.test" = None.
Proof.
  refine (proj1 (unusable_certificate_never_served MemoryStore_spec (toy_acme_laws 89 true) MemoryStore_up
    2 (me 89 true) toy_routes "a.test" ("a.test", false)
    (with_saved 89 true "a.test" ("a.test", false) (toy_world 89 true)) eq_refl eq_refl _)).
  intros c. by vm_compute.
Defined.

Lemma renewal_only_when_due_witness :
  let w := with_saved 10 true "a.test" ("a.test", true) (toy_world 10 true) in
  let w' := snd (check_for_certificates_expiration 2 Config_default (me 10 true) toy_routes w) in
  is_Some (held w' "a.test").
Proof.
  intros w w'.
  exact (proj1 (renewal_only_when_due MemoryStore_spec (toy_acme_laws 10 true) 2 Config_default (me 10 true)
    toy_routes "a.test" w w'
    (Ok tt) ltac:(reflexivity)
    ltac:(vm_compute; discriminate))).
Defined.
