(* ===== verification/Coverage.v ===== *)
(** What the Let's Encrypt service is for: after one tick of the loop that
    watches the routes, every routed host has a certificate in the store, one
    the authority issued or, where it refuses the domain, a self-signed one. *)
From S2P Require Import Prelude Strs Config Stores Routes AcmeStorage LetsEncrypt.
#[local] Open Scope string_scope.
#[local] Open Scope list_scope.

(** ** What the authority does for a domain *)

Section authority.
Context {T : Type} `{AcmeApi T}.

Definition good_bundle (cert : AcmeCert) : Prop :=
  ∃ c, bundle_certificate (cert_certificate cert) (cert_private_key cert) = Ok c.

(** Orders of the domain are accepted, and end with certificates that can be
    used. *)
Definition accepts_orders `{!AcmeView T} (account : Account) (d : string) : Prop :=
  (∀ o, ∃ ord o', new_order account d [] o = (Ok ord, o')) ∧
  ∀ co o cert, cert_order_domain co = d → fst (download_and_save_cert co o) = Ok cert → good_bundle cert.

Definition refuses_orders (account : Account) (d : string) : Prop :=
  ∀ o, ∃ e o', new_order account d [] o = (Err e, o').

(** The builder makes a certificate for the name. *)
Definition self_signs (d : string) : Prop :=
  ∃ name, self_signed_name d = Some name ∧
  ∀ o, ∃ key o', rsa_generate 2048 o = (Ok key, o') ∧
    is_Some (x509_sign (mkX509Builder 2 name name key 0 365) key).

(** A host the service can find a certificate for. *)
Definition certifiable `{LbApi, PathTreeApi, !AcmeView T} (account : Account) (d : string) (c : RouteStoreContainer) : Prop :=
  accepts_orders account d ∨
  (refuses_orders account d ∧ self_signed_certificate c = true ∧ self_signs d).
End authority.

(** ** Lemmas *)

Section coverage.
Context `{LbApi, PathTreeApi} {T : Type} `{AcmeApi T} `{!Store T, !StoreView T, !AcmeView T}.
Context `{!StoreSpec T, !StoreUp T, !AcmeLaws T, !AcmeLive T, !AcmeAccepts T}.
Context (account : Account).
Context (Hfound : ∀ d o, ∃ cert o', account_certificate account d o = (Ok cert, o')).
Implicit Types w : LeWorld T.

(** The store works, and what the account has persisted can be used. *)
Definition ready w : Prop :=
  is_Some (le_store w) ∧ ∀ d cert, saved (outside w) d = Some cert → good_bundle cert.

Lemma held_store w d : is_Some (held w d) → is_Some (le_store w).
Proof. unfold held. destruct (le_store w); [by eexists|by intros [? [=]]]. Qed.

Lemma ready_outside w o :
  ready w → (∀ d, saved o d = saved (outside w) d) → ready (mkLeWorld (le_store w) o).
Proof. intros [Hs Hb] Ho. split; [done|]. intros d cert. simpl. rewrite Ho. apply Hb. Qed.

(** [m] gives [d] a certificate and touches no other domain. *)
Definition covers (d : string) (m : M (LeWorld T) stop unit) : Prop :=
  ∀ w, ready w → ∃ w', m w = (Ok tt, w') ∧ ready w' ∧ is_Some (held w' d) ∧
    ∀ d', d' ≠ d → held w' d' = held w d'.

Lemma insert_covers d cert :
  good_bundle cert → covers d (insert_certificate d (cert_certificate cert) (cert_private_key cert)).
Proof.
  intros [c Hc] w [[s Hs] Hb]. destruct (set_certificate_up d c s) as [s' Hset].
  assert (E : insert_certificate d (cert_certificate cert) (cert_private_key cert) w
              = (Ok tt, mkLeWorld (Some s') (outside w))).
  { unfold insert_certificate, context, on_store, get_store, unwrap, lift, mbind, M_bind.
    by rewrite Hc, Hs, Hset. }
  destruct (insert_certificate_outcome _ _ _ _ _ _ E) as (_ & Hoth & [(_ & x & _ & Hx)|[[] _]]); [|done].
  eexists. split; [exact E|]. split; [by split; [by eexists|]|]. split; [by eexists|done].
Qed.

Lemma order_covers n d : accepts_orders account d → covers d (create_order_for_domain (S (S n)) d account).
Proof.
  intros [Hacc Hgood] w [Hs Hb]. destruct (Hacc (outside w)) as (ord & o & Hord).
  destruct (create_order_live n d account w ord o Hs Hord) as [w' E]; [exact Hgood|].
  destruct (create_order_outcome _ _ _ _ _ _ E) as [U [(_ & cert & c & Hc & Hh & Hbun)|[[] _]]]; [|done].
  exists w'. split; [done|]. split; [|split; [by eexists|intros d' Hd; by apply U]].
  split; [apply (held_store _ d); by eexists|]. intros d' cert' Hd'.
  destruct (decide (d' = d)) as [->|Hne].
  - rewrite Hc in Hd'. injection Hd' as <-. by exists c.
  - apply (Hb d'). by rewrite <- (proj2 (U d' Hne)).
Qed.

Lemma refused_order n d w :
  refuses_orders account d →
  ∃ e o, create_order_for_domain n d account w = (Err (Failed e), mkLeWorld (le_store w) o) ∧
    ∀ d', saved o d' = saved (outside w) d'.
Proof.
  intros Href. destruct (Href (outside w)) as (e & o & E). exists e, o. split.
  - unfold create_order_for_domain, on_outside, mbind, M_bind. by rewrite E.
  - intros d'. pose proof (new_order_keeps account d [] (outside w) d') as Hk. by rewrite E in Hk.
Qed.

Lemma self_signed_covers d : self_signs d → covers d (create_self_signed_certificate d true).
Proof.
  intros (name & Hname & Hsign) w [[s Hs] Hb].
  destruct (Hsign (outside w)) as (key & o & Hkey & [x Hx]).
  set (c := mkCertificate _ key x None). destruct (set_certificate_up d c s) as [s' Hset].
  assert (Ho : ∀ d', saved o d' = saved (outside w) d')
    by (intros d'; pose proof (rsa_keeps 2048 (outside w) d') as Hk; by rewrite Hkey in Hk).
  destruct (set_certificate_spec _ _ _ _ _ Hset) as [(_ & _ & Hc)|[[? ?] _]]; [|done].
  exists (mkLeWorld (Some s') o). split; [|split; [|split]].
  - unfold create_self_signed_certificate, context, on_store, on_outside, get_store, unwrap, lift, mbind, M_bind.
    simpl. rewrite Hkey. simpl. rewrite Hname. simpl. rewrite Hx. simpl. fold c. by rewrite Hs, Hset.
  - split; [by eexists|]. intros d' cert. simpl. rewrite Ho. apply Hb.
  - unfold held. simpl. rewrite Hc, decide_True by done. by eexists.
  - intros d' Hne. unfold held. simpl. by rewrite Hc, decide_False, Hs.
Qed.

Lemma handle_covers n d c w :
  certifiable account d c → ready w → held w d = None →
  ∃ w', handle_certificate_for_domain (S (S n)) d account (self_signed_certificate c) w = (Ok tt, w') ∧
    ready w' ∧ is_Some (held w' d) ∧ ∀ d', d' ≠ d → held w' d' = held w d'.
Proof.
  intros Hcert Hw Hnone. destruct (Hfound d (outside w)) as (x & o & Hx).
  assert (Ho : ∀ d', saved o d' = saved (outside w) d')
    by (intros d'; pose proof (account_certificate_keeps account d (outside w) d') as Hk; by rewrite Hx in Hk).
  pose proof (account_certificate_ok account d (outside w) x) as Hsaved. rewrite Hx in Hsaved.
  specialize (Hsaved eq_refl). pose proof (ready_outside w o Hw Ho) as Hw1.
  set (w1 := mkLeWorld (le_store w) o) in *.
  unfold handle_certificate_for_domain, mbind at 1, M_bind at 1, attempt at 1, on_outside at 1.
  rewrite Hx. simpl. fold w1. destruct x as [cert|].
  - destruct (proj1 Hw) as [s Hs].
    destruct (has_certificate_exact d w1 None s Hs Hnone) as (w2 & E2 & U2 & Eo2 & Hs2).
    assert (Hw2 : ready w2) by (split; [done|]; rewrite Eo2; apply Hw1).
    destruct (insert_covers d cert) with (w := w2) as (w3 & E3 & Hw3 & Hd & Hoth);
      [by apply (proj2 Hw d)|done|].
    exists w3. split_and!; [|done|done|].
    + unfold mbind, M_bind, attempt. rewrite E2. simpl. by rewrite E3.
    + intros d' Hne. rewrite Hoth by done. by apply U2.
  - destruct Hcert as [Hacc|(Href & -> & Hself)].
    + destruct (order_covers n d Hacc w1 Hw1) as (w2 & E2 & Hw2 & Hd & Hoth).
      exists w2. split_and!; [|done..]. unfold mbind, M_bind, attempt. by rewrite E2.
    + destruct (refused_order (S (S n)) d w1 Href) as (e & o2 & E2 & Ho2).
      destruct (self_signed_covers d Hself _ (ready_outside w1 o2 Hw1 Ho2)) as (w3 & E3 & Hw3 & Hd & Hoth).
      exists w3. split_and!; [|done..]. unfold mbind, M_bind, attempt. rewrite E2. cbv beta iota. by rewrite E3.
Qed.

(** A tick covers the hosts it is given, and uncovers none. *)
Lemma watch_covers n routes w :
  Forall (λ r, certifiable account r.1 r.2) routes → ready w →
  ∃ w', watch_for_route_changes (S (S n)) account routes w = (Ok tt, w') ∧ ready w' ∧
    (∀ d, d ∈ routes.*1 → is_Some (held w' d)) ∧ ∀ d, is_Some (held w d) → is_Some (held w' d).
Proof.
  revert w. induction routes as [|[d c] routes IH]; intros w Hall Hw.
  { exists w. split_and!; [done|done|by intros d ?%elem_of_nil|done]. }
  apply Forall_cons in Hall as [Hd Hall].
  assert (∃ w1, (exists_already ← has_certificate d;
      if exists_already : bool then mret tt
      else handle_certificate_for_domain (S (S n)) d account (self_signed_certificate c)) w = (Ok tt, w1) ∧
    ready w1 ∧ is_Some (held w1 d) ∧ ∀ d', is_Some (held w d') → is_Some (held w1 d'))
    as (w1 & E1 & Hw1 & Hd1 & Hm1).
  { destruct (proj1 Hw) as [s Hs].
    destruct (has_certificate_exact d w _ s Hs eq_refl) as (w2 & E2 & U2 & Eo2 & Hs2).
    assert (Hw2 : ready w2) by (split; [done|]; rewrite Eo2; apply Hw).
    assert (Hh2 : ∀ d', held w2 d' = held w d') by (intros d'; by apply U2).
    unfold mbind, M_bind. rewrite E2. destruct (held w d) as [x|] eqn:Ex; simpl.
    - exists w2. split_and!; [done|done|rewrite Hh2, Ex; by eexists|]. intros d'. by rewrite Hh2.
    - destruct (handle_covers n d c w2 Hd Hw2) as (w3 & E3 & Hw3 & Hd3 & Hoth); [by rewrite Hh2|].
      exists w3. split_and!; [done|done|done|]. intros d' Hd'.
      destruct (decide (d' = d)) as [->|Hne]; [done|]. by rewrite Hoth, Hh2. }
  destruct (IH w1 Hall Hw1) as (w' & E & Hw' & Hcov & Hm). exists w'. split_and!; [|done| |by auto].
  - unfold mbind, M_bind in E1. cbn [watch_for_route_changes]. unfold mbind, M_bind.
    destruct (has_certificate d w) as [[b|?|] w0]; simpl in E1 |- *; [|done..].
    destruct b; rewrite E1; exact E.
  - intros d' Hd'. rewrite fmap_cons in Hd'. apply elem_of_cons in Hd' as [->|Hd']; [by apply Hm|by apply Hcov].
Qed.
End coverage.
