(* ===== verification/Issuance.v ===== *)
(** Issuing a certificate, across the components that take part: the Let's
    Encrypt service puts the challenge in the store, the plain-HTTP front
    answers the authority's request from it, the service puts the certificate
    in the store, and the TLS callback presents it. The authority is assumed
    to accept a challenge whose request is answered with the proof; that it
    gets that answer is proved of the front. *)
From S2P Require Import Prelude Strs Config Stores Http HttpLb AcmeStorage LetsEncrypt.
#[local] Open Scope string_scope.
#[local] Open Scope list_scope.

(** ** The authority over HTTP *)

(** A request of the authority for the challenge of [host], on a fresh
    connection. *)
Record challenge_request `{HttpApi} (host token : string) (s : Session) : Prop := {
  request_for : HttpLB_get_host s = host;
  request_path : uri_path (req_uri s) = "/.well-known/acme-challenge/" +:+ token;
  request_healthy : io s = [];
  request_fresh : written s = [] }.

Section http.
Context `{HttpApi, UriBuilder, Pki} {T : Type} `{!Store T}.

(** The body of a complete 200 answer of the front to a request. *)
Definition http_fetch (store : T) (request : Session) : option string :=
  match HttpLB_request_filter (mkFront (Some store) request) with
  | (Ok true, f) =>
      match written (front_session f) with
      | [WriteHeader h false; WriteBody body true] =>
          if N.eqb (resp_status h) 200 then Some body else None
      | _ => None
      end
  | _ => None
  end.

Lemma challenge_answer store store' request host token proof h :
  challenge_request host token request → host ≠ "" → has_char "/" token = false →
  get_challenge host store = (Ok (Some (token, proof)), store') →
  text_headers (build_no_case 200) (String.length proof) = Ok h →
  HttpLB_request_filter (mkFront (Some store) request) =
    (Ok true, answered h proof (mkFront (Some store') request)).
Proof.
  intros [Hh Hp Hio _] Hne Ht Hg Htext. unfold HttpLB_request_filter, mbind, M_bind, gets, lift, throw. simpl.
  rewrite Hh, (proj2 (String.eqb_neq _ _) Hne), Hp.
  assert (Hpre : starts_with "/.well-known/acme-challenge" ("/.well-known/acme-challenge/" +:+ token) = true)
    by exact (starts_with_app "/.well-known/acme-challenge" (String "/" token)).
  rewrite (acme_path_not_ping _ Hpre), Hpre. unfold store_challenge. simpl. rewrite Hg. simpl.
  change ("/.well-known/acme-challenge/" +:+ token)
    with ("/.well-known/acme-challenge" +:+ String "/" token).
  rewrite last_segment_app, String.eqb_refl by done. simpl. rewrite Htext.
  by apply send_text_healthy.
Qed.

Lemma fetch_stored_challenge `{!HeaderLaws} store store' request host token proof h :
  challenge_request host token request → host ≠ "" → has_char "/" token = false →
  get_challenge host store = (Ok (Some (token, proof)), store') →
  text_headers (build_no_case 200) (String.length proof) = Ok h →
  http_fetch store request = Some proof.
Proof.
  intros Hreq Hne Ht Hg Htext. unfold http_fetch.
  rewrite (challenge_answer _ _ _ _ _ _ _ Hreq Hne Ht Hg Htext). simpl.
  rewrite (request_fresh _ _ _ Hreq). simpl.
  destruct (text_headers_get _ _ _ Htext) as (-> & _). by rewrite N.eqb_refl.
Qed.
End http.

(** ** The authority's law *)

(** The authority asks for [http://<domain>/.well-known/acme-challenge/<token>]
    and accepts the challenge when the answer is the proof; domains are not
    empty and tokens are base64url texts, without a slash. *)
Class AcmeHttp `{HttpApi, UriBuilder, Pki, PersistApi} (T : Type)
    `{!Store T, !AcmeApi T, !AcmeView T} := {
  authority_request : Auth → Session;
  authority_request_shape a : challenge_request (domain_name a) (http_token a) (authority_request a);
  domain_nonempty a : domain_name a ≠ "";
  token_no_slash a : has_char "/" (http_token a) = false;
  validate_http n a s o :
    http_fetch s (authority_request a) = Some (http_proof a) →
    ∃ o', validate n a s o = (Ok tt, o') ∧ validated o' a ∧ ∀ b, validated o b → validated o' b }.


(** What is assumed of the authority in the theorems about orders follows
    from its HTTP behaviour and from the front's. *)
Lemma front_makes_accepted `{HttpApi, UriBuilder, Pki, PersistApi} {T : Type}
    `{!Store T, !StoreView T, !StoreUp T, !AcmeApi T, !AcmeView T, !AcmeHttp T, !HeaderLaws} :
  plain_headers → AcmeAccepts T.
Proof.
  intros Hplain. split. intros n a s o Hc. apply validate_http.
  destruct (get_challenge_up (domain_name a) s) as [s' Hg]. rewrite Hc in Hg.
  destruct (Hplain (String.length (http_proof a))) as [h Hh].
  eapply fetch_stored_challenge; [apply authority_request_shape|apply domain_nonempty
    |apply token_no_slash|exact Hg|exact Hh].
Qed.

(** The handshake of a domain the store holds a certificate for. *)
Lemma handshake_presents `{SslApi} {T : Type} `{!Store T, !StoreView T, !StoreUp T}
    store ssl domain c s1 s2 s3 :
  certs_of store domain = Some c → servername ssl = Some domain →
  ssl_use_private_key (cert_key c) ssl = Some s1 → ssl_use_certificate (cert_leaf c) s1 = Some s2 →
  match cert_chain c with Some chain => ssl_add_chain_cert chain s2 | None => Some s2 end = Some s3 →
  ∃ cell, certificate_callback (Some store, ssl) = (Ok tt, (cell, s3)).
Proof.
  intros Hc Hn E1 E2 E3. unfold certificate_callback. simpl. rewrite Hn. simpl.
  destruct (get_certificate_up domain store) as [store' ->]. rewrite Hc, E1. simpl. rewrite E2. simpl.
  rewrite E3. by eexists.
Qed.

(** ** Properties *)

(** C15. Issuance, from the order to the handshake, for any store that works and
    any authority that takes the order, checks challenges over HTTP and
    finalises the order: the order of a domain
    succeeds in two rounds, because the front answers the authority's requests
    with the proofs the service stored; the store then holds the certificate
    of the bundle the account has saved; and every handshake for the
    domain on the store that the order left presents its key, leaf and chain. *)
Theorem issuance_end_to_end `{HttpApi, UriBuilder, Pki, PersistApi, !SslApi} {T : Type}
    `{!Store T, !StoreView T, !AcmeApi T, !AcmeView T, !AcmeHttp T}
    (Hh : HeaderLaws) (Hs : StoreSpec T) (Hu : StoreUp T) (Ha : AcmeLaws T) (Hl : AcmeLive T)
    (Hplain : plain_headers)
    (n : nat) (domain : string) (account : Account) (w : LeWorld T) (ord : NewOrder) (o : Outside)
    (Hstore : is_Some (le_store w))
    (Hord : new_order account domain [] (outside w) = (Ok ord, o))
    (Hgood : ∀ co o cert, cert_order_domain co = domain → fst (download_and_save_cert co o) = Ok cert →
       ∃ c, bundle_certificate (cert_certificate cert) (cert_private_key cert) = Ok c) :
  ∃ w' cert c, create_order_for_domain (2 + n) domain account w = (Ok tt, w') ∧
    saved (outside w') domain = Some cert ∧
    bundle_certificate (cert_certificate cert) (cert_private_key cert) = Ok c ∧
    ∀ ssl s1 s2 s3, servername ssl = Some domain →
      ssl_use_private_key (cert_key c) ssl = Some s1 →
      ssl_use_certificate (cert_leaf c) s1 = Some s2 →
      match cert_chain c with Some chain => ssl_add_chain_cert chain s2 | None => Some s2 end = Some s3 →
      ∃ cell, certificate_callback (le_store w', ssl) = (Ok tt, (cell, s3)).
Proof.
  pose proof (front_makes_accepted Hplain) as Hv.
  destruct (create_order_live n domain account w ord o Hstore Hord Hgood) as [w' E].
  destruct (create_order_outcome _ _ _ _ _ _ E) as [_ [(_ & cert & c & Hc & Hheld & Hb)|[[] _]]]; [|done].
  exists w', cert, c. split_and!; [done..|].
  intros ssl s1 s2 s3 Hn E1 E2 E3. unfold held in Hheld.
  destruct (le_store w') as [store|]; [|done]. simpl in Hheld. by eapply handshake_presents.
Qed.

(** C20. Replicas share challenges through Redis: what one replica stores for a
    domain, the front of another that has nothing cached for the domain serves
    to the authority. *)
Theorem challenge_served_by_replica `{HttpApi, UriBuilder, Base64, Pki, RedisApi, CertJson}
    (Hh : HeaderLaws) (Hj : CertJsonLaws) (Hr : RedisLaws) (Hplain : plain_headers)
    (a a' b : RedisStore) (domain token proof : string) (request : Session)
    (Hset : RedisStore_set_challenge domain token proof a = (Ok tt, a'))
    (Hup : pool_get (pool a') = true) (Hcache : challenge_cache b !! domain = None)
    (Hreq : challenge_request domain token request) (Hd : domain ≠ "") (Ht : has_char "/" token = false) :
  http_fetch (set_pool (pool a') b) request = Some proof.
Proof.
  destruct (Hplain (String.length proof)) as [h Hhd].
  pose proof (set_challenge_writes _ _ _ _ _ Hset) as Hw.
  eapply (fetch_stored_challenge _ (cache_challenge domain (token, proof) (set_pool (pool a') b))
            request domain token proof h Hreq Hd Ht); [|done].
  unfold get_challenge, RedisStore_Store, RedisStore_get_challenge, load_challenge_from_redis. munfold. simpl.
  rewrite Hcache, Hup. fold (redis_challenge (pool a') domain). by rewrite Hw.
Qed.

(** ** A concrete authority that asks over HTTP *)

#[local] Existing Instances toy_http toy_uri toy_base64 toy_pki toy_redis toy_json toy_persist toy_ssl.

Definition name_of (auth : string) : string := "www." +:+ auth.
Definition token_of (auth : string) : string := "tok".

Definition http_request (host token : string) : Session :=
  let path := "/.well-known/acme-challenge/" +:+ token in
  mkSession toy_http "GET" (mkUri path None (Some host) (Some path) path) [] [] [] None None false.

Lemma http_request_shape host token : challenge_request host token (http_request host token).
Proof. done. Qed.

Definition http_accepts (auth : string) (s : MemoryStore) : bool :=
  bool_decide (http_fetch s (http_request (name_of auth) (token_of auth)) = Some ("proof " +:+ auth)).

Definition http_acme : AcmeApi MemoryStore := toy_authority name_of token_of http_accepts 89 true.
#[local] Existing Instance http_acme.
Definition http_acme_view : @AcmeView toy_pki toy_redis toy_persist MemoryStore http_acme :=
  toy_authority_view _ _ _ 89 true.
#[local] Existing Instance http_acme_view.

Definition http_request_of : @Auth toy_pki toy_redis toy_persist MemoryStore http_acme → Session :=
  λ a, http_request (name_of a) (token_of a).

Definition http_acme_http : AcmeHttp MemoryStore.
Proof.
  refine (Build_AcmeHttp _ _ _ _ _ MemoryStore _ _ _ (http_request_of) _ _ _ _).
  - intros a. apply http_request_shape.
  - done.
  - done.
  - intros n a s o Hf. simpl. unfold http_accepts. rewrite bool_decide_true by exact Hf.
    eexists. split; [done|]. simpl. split; [apply elem_of_cons; by left|].
    intros b Hb. apply elem_of_cons. by right.
Defined.
#[local] Existing Instance http_acme_http.

Definition http_world : LeWorld MemoryStore :=
  @mkLeWorld MemoryStore _ _ _ http_acme (Some MemoryStore_new) (mkToyOutside [] ∅ nothing_persisted).
Definition http_account : @Account toy_pki toy_redis toy_persist MemoryStore http_acme := "me@a.test".
Definition http_order : @NewOrder toy_pki toy_redis toy_persist MemoryStore http_acme := ("a.test", false).
Definition toy_client : Ssl := (("a.test", []) : string * list string).

(** ** Witnesses *)

Lemma issuance_end_to_end_witness :
  ∃ w' cert c, create_order_for_domain 2 "a.test" http_account http_world = (Ok tt, w') ∧
    saved (outside w') "a.test" = Some cert ∧
    bundle_certificate (cert_certificate cert) (cert_private_key cert) = Ok c ∧
    ∀ ssl s1 s2 s3, servername ssl = Some "a.test" →
      ssl_use_private_key (cert_key c) ssl = Some s1 →
      ssl_use_certificate (cert_leaf c) s1 = Some s2 →
      match cert_chain c with Some chain => ssl_add_chain_cert chain s2 | None => Some s2 end = Some s3 →
      ∃ cell, certificate_callback (le_store w', ssl) = (Ok tt, (cell, s3)).
Proof.
  refine (issuance_end_to_end toy_http_laws MemoryStore_spec MemoryStore_up (toy_authority_laws _ _ _ 89 true)
            (toy_authority_live _ _ _ 89) toy_plain_headers 0 "a.test" http_account http_world http_order
            _ _ eq_refl _).
  - by eexists.
  - intros co o cert Hco [= <-]. simpl in Hco. subst co. eexists. reflexivity.
Defined.

Lemma challenge_served_by_replica_witness :
  http_fetch (set_pool (pool (snd (RedisStore_set_challenge "b.test" "t2" "p2" toy_store))) toy_store)
    (http_request "b.test" "t2") = Some "p2".
Proof.
  refine (challenge_served_by_replica toy_http_laws toy_json_laws toy_redis_laws toy_plain_headers
            toy_store _ toy_store "b.test" "t2" "p2" (http_request "b.test" "t2") _ _ _ _ _ _);
    [reflexivity..|apply http_request_shape|done|done].
Defined.
