(* ===== verification/Reload.v ===== *)
(** Reloading the configuration (services/config/mod.rs): which files are
    watched, which events restart the process; and the functions that HCL
    configuration files can call (config/hcl.rs).
    The poll watcher, the file system and HCL's evaluator are parameters. *)
From S2P Require Import Prelude Strs Config.
#[local] Open Scope string_scope.
#[local] Open Scope list_scope.

(** ** The file watcher *)

(** What an event ends in: [exec] replaces the process, or has failed and the
    process sends itself SIGQUIT. *)
Inductive Reaction :=
| Ignored
| Replaced (cmd : string) (args : list string)
| Quit_sent (cmd : string) (args : list string).

(** The process: [current_exe], [args], and whether [exec] succeeds. *)
Record Process := mkProcess {
  current_exe : option string;
  process_args : list string;
  exec_succeeds : bool }.

Definition is_hcl_path (path : string) : bool := bool_decide (path_extension path = Some "hcl").

(** [notif] is [None] for an error of the watcher. *)
Definition handle_event (p : Process) (notif : option (list string)) : Reaction :=
  match notif with
  | None => Ignored
  | Some paths =>
      if negb (existsb is_hcl_path paths) then Ignored
      else match current_exe p with
           | None => Ignored
           | Some cmd =>
               let current_args := drop 1 (process_args p) in
               if exec_succeeds p then Replaced cmd current_args else Quit_sent cmd current_args
           end
  end.

Section watcher.
(** The working directory, [Path::exists], and [Watcher::watch], [false]
    being an error. *)
Context (cwd : option string) (exists_ watch : string → bool).

(** The state is the list of watched paths. *)
Definition watch_file_or_dir (path : string) : M (list string) string unit :=
  match path_absolute cwd path with
  | None => mret tt
  | Some absolute_path =>
      if exists_ absolute_path then
        if watch absolute_path then modify (λ l, l ++ [absolute_path]) else crash
      else mret tt
  end.

Fixpoint watch_all (paths : list string) : M (list string) string unit :=
  match paths with
  | [] => mret tt
  | p :: rest => _ ← watch_file_or_dir p; watch_all rest
  end.

(** The result is the period of the polling; [None] when nothing is watched. *)
Definition FileWatcherService_start (config : Config) : M (list string) string (option N) :=
  if negb (default true (ar_enabled (cfg_auto_reload config))) then mret None
  else match config_path config with
       | Some path_buf =>
           let config_file_yaml := path_join path_buf "proksi.yaml" in
           let config_file_hcl := path_join path_buf "proksi.hcl" in
           _ ← watch_file_or_dir config_file_hcl;
           _ ← watch_file_or_dir config_file_yaml;
           _ ← watch_all (ar_paths (cfg_auto_reload config));
           let secs := default 60%N (ar_interval_secs (cfg_auto_reload config)) in
           if (secs =? 0)%N then crash else mret (Some secs)
       | None => mret None
       end.
End watcher.

(** ** HCL functions *)

(** [hcl]: values, and the evaluation of a document in a context of functions. *)
Inductive ParamType := ParamType_String.
Record FuncDef (Value : Type) := mkFuncDef {
  fd_params : list ParamType;
  fd_func : list Value → res string Value }.
Arguments mkFuncDef {Value} _ _.
Arguments fd_params {Value} _.
Arguments fd_func {Value} _.

Class HclApi := {
  Value : Type;
  value_as_str : Value → option string;
  Value_String : string → Value;
  Value_Number : N → Value;
  eval_from_str : list (string * FuncDef Value) → string → res string Value }.

Section hcl.
Context `{HclApi}.
(** The CPUs, the environment ([None] for an absent variable), the working
    directory and the content of the files that can be opened. *)
Context (cpus : N) (env : string → option string) (cwd : option string) (file : string → option string).

Definition num_cpus (_ : list Value) : res string Value := Ok (Value_Number cpus).

(** [args[0].as_str().unwrap()] *)
Definition first_str (args : list Value) : res string string :=
  v ← unwrap (args !! 0%nat); unwrap (value_as_str v).

Definition get_env_var (args : list Value) : res string Value :=
  key ← first_str args;
  match var ← env key; from_utf8 var with
  | None => Err ("Environment variable " +:+ key +:+ " not found")
  | Some var => Ok (Value_String var)
  end.

(** The context, given the function behind [import]. *)
Definition hcl_context (read_hcl_file : list Value → res string Value)
    : list (string * FuncDef Value) :=
  [("env", mkFuncDef [ParamType_String] get_env_var);
   ("import", mkFuncDef [ParamType_String] read_hcl_file);
   ("num_cpus", mkFuncDef [] num_cpus)].

(** [depth] is the number of nested imports the stack has room for: beyond
    it, the process aborts. *)
Fixpoint read_hcl_file (depth : nat) (args : list Value) : res string Value :=
  match depth with
  | O => Panic
  | S depth' =>
      path ← first_str args;
      if negb (bool_decide (ascii_lowercase <$> path_extension path = Some "hcl")) then
        Err ("File must be a HCL file: " +:+ path)
      else
        match absolute ← path_absolute cwd path; file absolute with
        | None => Err ("file not found: " +:+ path)
        | Some bytes =>
            contents ← unwrap (from_utf8 bytes);
            match eval_from_str (hcl_context (read_hcl_file depth')) contents with
            | Ok v => Ok v
            | Err e => Err ("failed to parse hcl file: " +:+ e)
            | Panic => Panic
            end
        end
  end.

Definition get_hcl_context (depth : nat) : list (string * FuncDef Value) :=
  hcl_context (read_hcl_file depth).

Definition HclFormat_from_str (depth : nat) (text : string) : res string Value :=
  eval_from_str (get_hcl_context depth) text.
End hcl.

(** ** Lemmas *)

Section lemmas.
Context (cwd : option string) (exists_ watch : string → bool).

Definition watchable (path : string) : option string :=
  absolute ← path_absolute cwd path; if exists_ absolute then Some absolute else None.

Lemma watch_file_or_dir_spec path l l' :
  watch_file_or_dir cwd exists_ watch path l = (Ok tt, l') → l' = l ++ omap watchable [path].
Proof.
  unfold watch_file_or_dir, watchable. simpl.
  destruct (path_absolute cwd path) as [a|]; simpl; [|intros [= <-]; by rewrite app_nil_r].
  destruct (exists_ a); [|intros [= <-]; by rewrite app_nil_r].
  by destruct (watch a); [intros [= <-]|].
Qed.

Lemma watch_all_spec paths l l' :
  watch_all cwd exists_ watch paths l = (Ok tt, l') → l' = l ++ omap watchable paths.
Proof.
  revert l. induction paths as [|p rest IH]; intros l; [intros [= <-]; by rewrite app_nil_r|].
  simpl. unfold mbind at 1, M_bind.
  destruct (watch_file_or_dir cwd exists_ watch p l) as [[[]|e|] l1] eqn:E; [|done..].
  intros ->%IH. apply watch_file_or_dir_spec in E as ->. rewrite <- app_assoc.
  by rewrite <- omap_app.
Qed.
End lemmas.

Lemma split_char_snoc c p s :
  has_char c s = false → ∃ x l, split_char c (p +:+ String c s) = (x :: l) ++ [s].
Proof.
  intros Hs. induction p as [|a p (x & l & IH)].
  - exists "", []. change (split_char c ("" +:+ String c s)) with (split_char c (String c s)). simpl.
    rewrite bool_decide_true by done. by rewrite split_char_no_sep.
  - rewrite app_cons_str. simpl. rewrite IH. case_bool_decide; [by exists "", (x :: l)|].
    by exists (String a x), l.
Qed.

Lemma path_file_name_below dir f :
  has_char "/" f = false → f ≠ "" → f ≠ "." → f ≠ ".." →
  path_file_name (dir +:+ String "/" f) = Some f.
Proof.
  intros Hf H1 H2 H3. unfold path_file_name.
  destruct (split_char_snoc "/" dir f Hf) as (x & l & ->).
  rewrite List.filter_app. simpl.
  apply String.eqb_neq in H1, H2, H3. rewrite H1, H2. simpl.
  rewrite List.rev_app_distr. simpl. by rewrite H3.
Qed.

Lemma import_itself `{HclApi} cpus env cwd file path contents absolute v depth :
  value_as_str v = Some path → ascii_lowercase <$> path_extension path = Some "hcl" →
  path_absolute cwd path = Some absolute → file absolute = Some contents → utf8_valid contents = true →
  (∀ import, eval_from_str (hcl_context cpus env import) contents = import [v]) →
  read_hcl_file cpus env cwd file depth [v] = Panic.
Proof.
  intros Hv He Ha Hf Hu Heval. induction depth as [|n IH]; [done|]. simpl.
  unfold first_str. simpl. rewrite Hv. simpl. rewrite bool_decide_true by done. simpl.
  rewrite Ha. simpl. rewrite Hf. unfold from_utf8. rewrite Hu. simpl. by rewrite Heval, IH.
Qed.

(** ** Properties *)

(** A started watcher has registered, in order, those of the two files of the
    configuration directory and of the extra paths that exist when it starts;
    it starts exactly when a configuration path is given and reloading is not
    disabled. *)
Theorem watched_files cwd exists_ watch config secs l :
  FileWatcherService_start cwd exists_ watch config [] = (Ok (Some secs), l) →
  ar_enabled (cfg_auto_reload config) ≠ Some false ∧
  secs = default 60%N (ar_interval_secs (cfg_auto_reload config)) ∧ secs ≠ 0%N ∧
  ∃ path, config_path config = Some path ∧
    l = omap (watchable cwd exists_)
          (path_join path "proksi.hcl" :: path_join path "proksi.yaml" ::
           ar_paths (cfg_auto_reload config)).
Proof.
  unfold FileWatcherService_start. intros E.
  destruct (negb (default true (ar_enabled (cfg_auto_reload config)))) eqn:Hen; [done|].
  split; [intros Hf; by rewrite Hf in Hen|].
  destruct (config_path config) as [path|]; [|done]. unfold mbind, M_bind in E.
  destruct (watch_file_or_dir _ _ _ _ []) as [[[]|e|] l1] eqn:E1; [|done..].
  destruct (watch_file_or_dir _ _ _ _ l1) as [[[]|e|] l2] eqn:E2; [|done..].
  destruct (watch_all _ _ _ _ l2) as [[[]|e|] l3] eqn:E3; [|done..].
  apply watch_file_or_dir_spec in E1 as ->. apply watch_file_or_dir_spec in E2 as ->.
  apply watch_all_spec in E3 as ->.
  destruct (N.eqb_spec (default 60%N (ar_interval_secs (cfg_auto_reload config))) 0) as [|Hne]; [done|].
  injection E as <- <-. split; [done|]. split; [done|]. exists path. split; [done|].
  change (path_join path "proksi.hcl" :: path_join path "proksi.yaml" :: ar_paths (cfg_auto_reload config))
    with ([path_join path "proksi.hcl"] ++ [path_join path "proksi.yaml"] ++ ar_paths (cfg_auto_reload config)).
  by rewrite !omap_app, app_assoc.
Qed.

(** An event restarts the process exactly when one of its paths has the
    extension [hcl]: a change of the YAML files that the configuration was
    loaded from, the watched one included, never does. *)
Theorem restart_needs_hcl p notif :
  (handle_event p notif ≠ Ignored ↔
     is_Some (current_exe p) ∧
     ∃ paths path, notif = Some paths ∧ path ∈ paths ∧ path_extension path = Some "hcl") ∧
  ∀ dir, handle_event p (Some [dir +:+ "/proksi.yaml"]) = Ignored ∧
         handle_event p (Some [dir +:+ "/proksi.yml"]) = Ignored.
Proof.
  split.
  - unfold handle_event. destruct notif as [paths|]; [|naive_solver].
    destruct (existsb is_hcl_path paths) eqn:E; simpl.
    + apply existsb_exists in E as (path & Hin & Hext). apply bool_decide_eq_true in Hext.
      apply list_elem_of_In in Hin. destruct (current_exe p) as [cmd|]; [|split; [done|by intros [[] _]]].
      split; [|by destruct (exec_succeeds p)]. intros _. split; [by eexists|]. by exists paths, path.
    + split; [done|]. intros (_ & paths' & path & [= <-] & Hin & Hext).
      apply not_true_iff_false in E. destruct E. apply existsb_exists. exists path.
      split; [by apply list_elem_of_In|by apply bool_decide_eq_true].
  - intros dir. unfold handle_event, is_hcl_path, path_extension. simpl.
    change (dir +:+ "/proksi.yaml") with (dir +:+ String "/" "proksi.yaml").
    change (dir +:+ "/proksi.yml") with (dir +:+ String "/" "proksi.yml").
    by rewrite !path_file_name_below.
Qed.

(** A file that imports itself aborts the process, whatever the size of the
    stack. *)
Theorem import_cycle_aborts `{HclApi} cpus env cwd file path contents absolute v depth
    (Hv : value_as_str v = Some path)
    (Hext : ascii_lowercase <$> path_extension path = Some "hcl")
    (Habs : path_absolute cwd path = Some absolute) (Hfile : file absolute = Some contents)
    (Hutf8 : utf8_valid contents = true)
    (Heval : ∀ import, eval_from_str (hcl_context cpus env import) contents = import [v]) :
  HclFormat_from_str cpus env cwd file depth contents = Panic.
Proof.
  unfold HclFormat_from_str, get_hcl_context. rewrite Heval. by eapply import_itself.
Qed.

(** ** Witnesses *)

(** Documents that are the call of one function. *)
Definition toy_hcl : HclApi := {|
  Value := string;
  value_as_str := Some;
  Value_String := id;
  Value_Number := show_N;
  eval_from_str := λ ctx text,
    match split_once " " text with
    | Some (f, arg) =>
        match List.find (λ d, String.eqb (fst d) f) ctx with
        | Some (_, d) => fd_func d [arg]
        | None => Err "unknown function"
        end
    | None => Ok text
    end |}.
#[local] Existing Instance toy_hcl.

Lemma import_cycle_aborts_witness :
  HclFormat_from_str 4 (λ _, None) (Some "/etc") (λ f, if String.eqb f "/etc/a.hcl" then Some "import a.hcl" else None)
    100 "import a.hcl" = Panic.
Proof. by apply (import_cycle_aborts (H := toy_hcl) 4 _ _ _ "a.hcl" "import a.hcl" "/etc/a.hcl" "a.hcl"). Defined.

Definition reloading : Config :=
  {| service_name := "proksi"; cfg_store := StoreConfig_default;
     cfg_server := cfg_server Config_default; cfg_daemon := false; cfg_upgrade := false;
     worker_threads := None; config_path := Some "/etc/proksi"; cfg_logging := cfg_logging Config_default;
     cfg_auto_reload := mkAutoReload (Some true) (Some 5%N) ["routes.hcl"; "absent.hcl"];
     cfg_docker := Docker_default; cfg_lets_encrypt := LetsEncrypt_default; cfg_paths := Path_default;
     cfg_routes := [] |}.
Definition toy_exists (f : string) : bool :=
  bool_decide (f ∈ ["/etc/proksi/proksi.yaml"; "/srv/routes.hcl"]).

Lemma watched_files_witness :
  let l := snd (FileWatcherService_start (Some "/srv") toy_exists (λ _, true) reloading []) in
  l = ["/etc/proksi/proksi.yaml"; "/srv/routes.hcl"] ∧ config_path reloading = Some "/etc/proksi".
Proof.
  intros l.
  destruct (watched_files (Some "/srv") toy_exists (λ _, true) reloading 5%N l ltac:(reflexivity))
    as (_ & _ & _ & path & Hp & Hl).
  split; [rewrite Hl; injection Hp as <-; reflexivity|reflexivity].
Defined.
