(* ===== verification/Background.v ===== *)
(** The background services together (services/mod.rs): one task joins the
    routing service, the health checks, the configuration watcher, the Docker
    label service and the Let's Encrypt service. They share the route store,
    the certificate store and the channel of messages, and take turns on one
    thread: each turn runs from one [await] that can wait to the next. A panic
    of any of them aborts the process, so a run has only turns that return. *)
From S2P Require Import Prelude Strs Config Stores Http Routes Plugins Oauth2 Middleware Router HttpLb Discovery RouteTable HealthCheck AcmeStorage LetsEncrypt Coverage Issuance Docker Reload.
#[local] Open Scope string_scope.
#[local] Open Scope list_scope.

(** ** The channel of messages *)

(** [tokio::sync::broadcast], for one sender and one receiver. [recv] is [None]
    while there is nothing to receive. *)
Class Broadcast := {
  Channel : Type;
  Receiver : Type;
  channel : nat → Channel;
  send : MsgProxy → Channel → Channel;
  subscribe : Channel → Receiver;
  recv : Receiver → Channel → option (Recv * Receiver) }.

(** How many messages are kept, whether a receiver is one of the channel, and
    the messages it has not received yet. *)
Class BroadcastView `{Broadcast} := {
  capacity : Channel → nat;
  listening : Receiver → Channel → Prop;
  unread : Receiver → Channel → list MsgProxy }.

(** The channel keeps at least the messages asked for; a receiver gets those
    sent after it subscribed, in order; one that is more messages behind than
    are kept gets an error. *)
Class BroadcastLaws `{BroadcastView} : Prop := {
  channel_capacity n : (n ≤ capacity (channel n))%nat;
  send_capacity m ch : capacity (send m ch) = capacity ch;
  subscribe_listens ch : listening (subscribe ch) ch;
  send_listens m rx ch : listening rx ch → listening rx (send m ch);
  recv_listens rx ch r rx' : listening rx ch → recv rx ch = Some (r, rx') → listening rx' ch;
  subscribe_unread ch : unread (subscribe ch) ch = [];
  send_unread m rx ch : listening rx ch → unread rx (send m ch) = unread rx ch ++ [m];
  recv_nothing rx ch : listening rx ch → unread rx ch = [] → recv rx ch = None;
  recv_first rx ch m rest :
    listening rx ch → unread rx ch = m :: rest → (length (unread rx ch) ≤ capacity ch)%nat →
    ∃ rx', recv rx ch = Some (Received m, rx') ∧ unread rx' ch = rest;
  recv_lagged rx ch :
    listening rx ch → (capacity ch < length (unread rx ch))%nat → ∃ rx', recv rx ch = Some (RecvError, rx') }.

(** The order in which the route store is iterated. *)
Class StoreIter `{LbApi, PathTreeApi} := {
  store_iter : gmap string RouteStoreContainer → list (string * RouteStoreContainer) }.
Class StoreIterLaws `{StoreIter} : Prop := { store_iter_perm m : store_iter m ≡ₚ map_to_list m }.

(** ** State *)

(** The statics and the locals of the services: ROUTE_STORE and the container
    the health check holds, GLOBAL_STORE, what is outside the process, the
    channel, the receiver of the routing service while it is in its loop, and
    the watched paths. *)
Record Background (T : Type) `{LbApi, PathTreeApi, AcmeApi T, Broadcast} := mkBackground {
  bg_sys : Sys;
  bg_store : option T;
  bg_outside : Outside;
  bg_channel : Channel;
  bg_receiver : option Receiver;
  bg_watched : list string }.
Arguments mkBackground {T _ _ _ _ _ _ _} _ _ _ _ _ _.
Arguments bg_sys {T _ _ _ _ _ _ _} _.
Arguments bg_store {T _ _ _ _ _ _ _} _.
Arguments bg_outside {T _ _ _ _ _ _ _} _.
Arguments bg_channel {T _ _ _ _ _ _ _} _.
Arguments bg_receiver {T _ _ _ _ _ _ _} _.
Arguments bg_watched {T _ _ _ _ _ _ _} _.

(** What the start of the services leaves running: the client of the label
    service, whether its loop is entered, the polling period of the watcher,
    and the account of the Let's Encrypt service. *)
Record Joined (T : Type) `{AcmeApi T, DockerApi} := mkJoined {
  j_labels : LabelService;
  j_docker : bool;
  j_poll : option N;
  j_account : option Account }.
Arguments mkJoined {T _ _ _ _ _} _ _ _ _.
Arguments j_labels {T _ _ _ _ _} _.
Arguments j_docker {T _ _ _ _ _} _.
Arguments j_poll {T _ _ _ _ _} _.
Arguments j_account {T _ _ _ _ _} _.

(** The turns of the services. *)
Inductive BgEvent :=
| Wake
| CheckStart (host : string)
| CheckEnd
| DockerTick (reply : DockerReply)
| LeWatch
| LeRenew.

Section background.
Context `{HttpApi, Dns, LbApi, PathTreeApi, Discovery.Files, DockerApi, LabelJson, SocketText, RouteIter}.
Context {T : Type} `{AcmeApi T} `{!Store T, Broadcast, !StoreIter}.
Notation Background := (Background T).

Definition set_sys (x : Sys) (s : Background) : Background :=
  mkBackground x (bg_store s) (bg_outside s) (bg_channel s) (bg_receiver s) (bg_watched s).
Definition set_channel (x : Channel) (s : Background) : Background :=
  mkBackground (bg_sys s) (bg_store s) (bg_outside s) x (bg_receiver s) (bg_watched s).
Definition set_receiver (x : option Receiver) (s : Background) : Background :=
  mkBackground (bg_sys s) (bg_store s) (bg_outside s) (bg_channel s) x (bg_watched s).
Definition set_watched (x : list string) (s : Background) : Background :=
  mkBackground (bg_sys s) (bg_store s) (bg_outside s) (bg_channel s) (bg_receiver s) x.

Definition bg_routes (s : Background) : gmap string RouteStoreContainer := sys_routes (bg_sys s).
Definition set_routes (x : gmap string RouteStoreContainer) (s : Background) : Background :=
  set_sys (mkSys _ _ x (pending (bg_sys s))) s.

(** The parts of the state the services work on. *)
Definition bg_registry (s : Background) : Registry T := mkRegistry (bg_routes s) (bg_store s).
Definition set_registry (x : Registry T) (s : Background) : Background :=
  mkBackground (mkSys _ _ (reg_routes x) (pending (bg_sys s))) (reg_store x) (bg_outside s) (bg_channel s)
    (bg_receiver s) (bg_watched s).
Definition bg_le (s : Background) : LeWorld T := mkLeWorld (bg_store s) (bg_outside s).
Definition set_le (x : LeWorld T) (s : Background) : Background :=
  mkBackground (bg_sys s) (le_store x) (outside x) (bg_channel s) (bg_receiver s) (bg_watched s).

Definition stop_text (e : stop) : string := match e with Failed msg => msg | Running => "running" end.
Definition on_le {A} (m : M (LeWorld T) stop A) : M Background string A := λ s,
  let '(r, w) := m (bg_le s) in (map_err stop_text r, set_le w s).

(** ** The start *)

Section start.
(** The working directory, [Path::exists], [Watcher::watch]. *)
Context (cwd : option string) (exists_ watch : string → bool).

(** The routing service up to its loop. *)
Definition start_routing (config : Config) : M Background string unit :=
  _ ← zoom bg_registry set_registry (add_routes_from_config (cfg_routes config));
  modify (λ s, set_receiver (Some (subscribe (bg_channel s))) s).

(** The services are made, then polled for the first time in the order of the
    [join!]; each runs until it waits for a message or a tick. *)
Definition BackgroundFunctionService_start (config : Config) : M Background string (Joined T) :=
  docker_service ← lift (LabelService_new config);
  _ ← start_routing config;
  poll ← zoom bg_watched set_watched (FileWatcherService_start cwd exists_ watch config);
  docker ← lift (docker_running (cfg_docker config));
  account ← on_le (open_account cwd config);
  mret (mkJoined docker_service docker poll account).
End start.

(** ** The turns *)

Section turns.
Context (fuel : nat) (config : Config) (j : Joined T).

Definition send_all (msgs : list MsgRoute) (s : Background) : Background :=
  set_channel (fold_left (λ ch m, send (NewRoute m) ch) msgs (bg_channel s)) s.

(** [None]: the service has nothing to do, or does not run. The routing
    service leaves its loop at the first thing it receives that is not a
    route. *)
Definition bg_run (e : BgEvent) (s : Background) : option (res string unit * Background) :=
  match e with
  | Wake =>
      rx ← bg_receiver s;
      '(r, rx') ← recv rx (bg_channel s);
      match r with
      | Received (NewRoute m) =>
          let '(r, routes) := Discovery.watch_for_route_changes m (bg_routes s) in
          Some (r, set_receiver (Some rx') (set_routes routes s))
      | _ => Some (Ok tt, set_receiver None s)
      end
  | CheckStart host => sys ← check_read host (bg_sys s); Some (Ok tt, set_sys sys s)
  | CheckEnd => sys ← check_insert (bg_sys s); Some (Ok tt, set_sys sys s)
  | DockerTick reply =>
      if j_docker j then
        match get_routes_from_docker (docker_mode (cfg_docker config)) reply with
        | Ok hosts => Some (Ok tt, send_all (send_route_message hosts) s)
        | Err e => Some (Err e, s)
        | Panic => Some (Panic, s)
        end
      else None
  | LeWatch =>
      account ← j_account j;
      Some (on_le (le_tick fuel config account (WatchTick (store_iter (bg_routes s)))) s)
  | LeRenew =>
      account ← j_account j;
      Some (on_le (le_tick fuel config account (RenewTick (store_iter (bg_routes s)))) s)
  end.

(** Turns that return, through states that satisfy [P]. *)
Inductive bg_trace (P : Background → Prop) : Background → list BgEvent → Background → Prop :=
| bg_nil s : P s → bg_trace P s [] s
| bg_cons s e s1 es s2 :
    P s → bg_run e s = Some (Ok tt, s1) → bg_trace P s1 es s2 → bg_trace P s (e :: es) s2.

(** The messages that the Docker ticks among [es] send. *)
Definition tick_messages (e : BgEvent) : list MsgRoute :=
  match e with
  | DockerTick reply =>
      match get_routes_from_docker (docker_mode (cfg_docker config)) reply with
      | Ok hosts => send_route_message hosts
      | _ => []
      end
  | _ => []
  end.
Definition announced (es : list BgEvent) : list MsgRoute := concat (tick_messages <$> es).
End turns.

(** ** Lemmas: what a turn does to the routes *)

Section lemmas.
Context `{!LbLaws, !BroadcastView, !BroadcastLaws}.
Context (fuel : nat) (config : Config) (j : Joined T).
Implicit Types s : Background.
Notation run := (bg_run fuel config j).

Lemma wake_or_not e : e = Wake ∨ e ≠ Wake.
Proof. destruct e; [by left|by right..]. Qed.

(** A turn other than a [Wake] leaves the receiver alone, sends what its tick
    has to send, and is one of the health checks or leaves the routes alone. *)
Lemma run_other e s s' :
  run e s = Some (Ok tt, s') → e ≠ Wake →
  bg_receiver s' = bg_receiver s ∧ bg_channel s' = bg_channel (send_all (tick_messages config e) s) ∧
  ((∃ ev, (∀ m, ev ≠ RouteMessage m) ∧ HealthCheck.step (bg_sys s) ev (bg_sys s')) ∨ bg_sys s' = bg_sys s).
Proof.
  intros E Hne. destruct e as [|host| |reply| |]; simpl in E; [done|..].
  - destruct (check_read host (bg_sys s)) as [sys|] eqn:Es; [|done]. injection E as <-.
    split_and!; [done..|]. left. exists (CheckRead host). split; [done|]. by apply step_run.
  - destruct (check_insert (bg_sys s)) as [sys|] eqn:Es; [|done]. injection E as <-.
    split_and!; [done..|]. left. exists CheckInsert. split; [done|]. by apply step_run.
  - destruct (j_docker j); [|done]. simpl. destruct (get_routes_from_docker _ _); [|done..].
    injection E as <-. split_and!; [done..|by right].
  - destruct (j_account j); [|done]. unfold on_le in E. simpl in E.
    destruct (LetsEncrypt.watch_for_route_changes _ _ _ _). injection E as _ <-. split_and!; [done..|by right].
  - destruct (j_account j); [|done]. unfold on_le in E. simpl in E.
    destruct (check_for_certificates_expiration _ _ _ _ _). injection E as _ <-. split_and!; [done..|by right].
Qed.

(** What a [Wake] that returns does: a message is applied, or the loop ends. *)
Lemma run_wake s s' :
  run Wake s = Some (Ok tt, s') →
  ∃ rx, bg_receiver s = Some rx ∧
    ((∃ m rx' routes', recv rx (bg_channel s) = Some (Received (NewRoute m), rx') ∧
        Discovery.watch_for_route_changes m (bg_routes s) = (Ok tt, routes') ∧
        s' = set_receiver (Some rx') (set_routes routes' s)) ∨
     (∃ r rx', recv rx (bg_channel s) = Some (r, rx') ∧ (∀ m, r ≠ Received (NewRoute m)) ∧
        s' = set_receiver None s)).
Proof.
  simpl. destruct (bg_receiver s) as [rx|]; [|done]. simpl. intros E. exists rx. split; [done|].
  destruct (recv rx (bg_channel s)) as [[r rx']|]; [|done]. simpl in E.
  destruct r as [[m|c|]|]; [left|right; injection E as <-; eexists _, rx'; by split_and!..].
  destruct (Discovery.watch_for_route_changes m (bg_routes s)) as [r routes'] eqn:Em.
  injection E as -> <-. by exists m, rx', routes'.
Qed.

Lemma send_all_listens msgs s rx :
  listening rx (bg_channel s) → listening rx (bg_channel (send_all msgs s)).
Proof.
  unfold send_all. simpl. generalize (bg_channel s). induction msgs as [|m msgs IH]; intros ch; simpl; [done|].
  intros Hl. by apply IH, send_listens.
Qed.

Lemma send_all_unread msgs s rx :
  listening rx (bg_channel s) →
  unread rx (bg_channel (send_all msgs s)) = unread rx (bg_channel s) ++ (NewRoute <$> msgs).
Proof.
  unfold send_all. simpl. generalize (bg_channel s). induction msgs as [|m msgs IH]; intros ch Hl; simpl.
  - by rewrite app_nil_r.
  - rewrite IH by by apply send_listens. by rewrite send_unread, <- app_assoc.
Qed.

Lemma send_all_capacity msgs s : capacity (bg_channel (send_all msgs s)) = capacity (bg_channel s).
Proof.
  unfold send_all. simpl. generalize (bg_channel s). induction msgs as [|m msgs IH]; intros ch; simpl; [done|].
  by rewrite IH, send_capacity.
Qed.

(** The invariant of [HealthCheck] survives every turn, and stored hosts stay. *)
Lemma run_ok e s s' : run e s = Some (Ok tt, s') → sys_ok (bg_sys s) → sys_ok (bg_sys s').
Proof.
  intros E Hok. destruct (wake_or_not e) as [->|Hne].
  - destruct (run_wake _ _ E) as (rx & _ & [(m & rx' & routes' & _ & Hm & ->)|(r & rx' & _ & _ & ->)]); [|done].
    apply (step_ok (bg_sys s) (RouteMessage m)); [|exact Hok]. apply step_run. simpl. unfold bg_routes in Hm. by rewrite Hm.
  - destruct (run_other _ _ _ E Hne) as (_ & _ & [(ev & _ & Hs)| ->]); [by eapply step_ok|done].
Qed.

Lemma run_keeps_hosts e s s' h :
  run e s = Some (Ok tt, s') → is_Some (bg_routes s !! h) → is_Some (bg_routes s' !! h).
Proof.
  intros E Hh. destruct (wake_or_not e) as [->|Hne].
  - destruct (run_wake _ _ E) as (rx & _ & [(m & rx' & routes' & _ & Hm & ->)|(r & rx' & _ & _ & ->)]); [|done].
    by eapply watch_keeps_hosts.
  - unfold bg_routes in *. destruct (run_other _ _ _ E Hne) as (_ & _ & [(ev & _ & Hs)| ->]); [by eapply step_keeps_hosts|done].
Qed.

(** No turn but a [Wake] adds a host. *)
Lemma run_adds_no_host e s s' h :
  run e s = Some (Ok tt, s') → e ≠ Wake → sys_ok (bg_sys s) →
  is_Some (bg_routes s' !! h) → is_Some (bg_routes s !! h).
Proof.
  intros E Hne [_ Hp] Hh. unfold bg_routes in *.
  destruct (run_other _ _ _ E Hne) as (_ & _ & [(ev & Hev & Hs)|Heq]); [|by rewrite Heq in Hh].
  destruct Hs as [routes h' c Hc|routes h' c|routes p msg routes' Hm]; simpl in *; [done| |by destruct (Hev msg)].
  destruct (decide (h = h')) as [->|Hd]; [by apply (Hp h' c)|]. by rewrite lookup_insert_ne in Hh.
Qed.

Lemma trace_from_P P s es s' : bg_trace fuel config j P s es s' → P s.
Proof. by destruct 1. Qed.

Lemma trace_sys_ok P s es s' : bg_trace fuel config j P s es s' → sys_ok (bg_sys s) → sys_ok (bg_sys s').
Proof. induction 1; [done|]. intros Hok. eauto using run_ok. Qed.
(** The routing service listens to the channel of the services. *)
Definition linked (s : Background) : Prop :=
  ∀ rx, bg_receiver s = Some rx → listening rx (bg_channel s).

Lemma run_linked e s s' : run e s = Some (Ok tt, s') → linked s → linked s'.
Proof.
  intros E Hl rx. destruct (wake_or_not e) as [->|Hne].
  - destruct (run_wake _ _ E) as (rx0 & Hrx0 & [(m & rx' & routes' & Hr & _ & ->)|(r & rx' & _ & _ & ->)]); [|done].
    intros [= <-]. eapply recv_listens; [by apply Hl|exact Hr].
  - destruct (run_other _ _ _ E Hne) as (-> & -> & _). intros Hrx. by apply send_all_listens, Hl.
Qed.

Lemma trace_linked P s es s' : bg_trace fuel config j P s es s' → linked s → linked s'.
Proof. induction 1; [done|]. intros. eauto using run_linked. Qed.

(** ** Lemmas: the start *)

Lemma start_ok cwd exists_ watch s0 s1 j1 :
  BackgroundFunctionService_start cwd exists_ watch config s0 = (Ok j1, s1) →
  bg_sys s0 = mkSys _ _ ∅ None →
  sys_ok (bg_sys s1) ∧ bg_channel s1 = bg_channel s0 ∧ bg_receiver s1 = Some (subscribe (bg_channel s0)).
Proof.
  intros E Hs0. unfold BackgroundFunctionService_start, start_routing, zoom, on_le, lift, modify, mbind, M_bind in E.
  destruct (LabelService_new config); [|done..].
  destruct (add_routes_from_config (cfg_routes config) (bg_registry s0)) as [[[]|?|] reg] eqn:Er; [|done..].
  assert (Hreg : routes_ok (reg_routes reg)).
  { eapply add_config_keeps; [exact Er|]. unfold bg_registry, bg_routes. simpl. rewrite Hs0. apply map_Forall_empty. }
  cbv beta iota in E. destruct (FileWatcherService_start _ _ _ _ _) as [[?|?|] ws]; [|done..].
  cbv beta iota in E. destruct (docker_running _); [|done..].
  destruct (open_account _ _ _) as [[?|?|] w]; [|done..]. simpl in E. injection E as <- <-. simpl.
  split; [|done]. split; [done|]. simpl. by rewrite Hs0.
Qed.

(** The services start with the certificates of the store and those that the
    configured routes name. *)
Definition configures_certificate (d : string) : Prop :=
  ∃ route, route ∈ cfg_routes config ∧ with_certificate route ∧ route_host route = d.

Lemma open_account_store cwd w r w' : open_account cwd config w = (r, w') → le_store w' = le_store w.
Proof.
  unfold open_account, LetsEncrypt.expect, on_outside, mbind, M_bind.
  destruct (negb _); [by intros [= _ <-]|].
  destruct (zoom _ _ _ _) as [[p|e|] o1]; simpl; [|by intros [= _ <-]..].
  destruct (directory_from_url _ _ _) as [[dir|e|] o2]; simpl; [|by intros [= _ <-]..].
  destruct (directory_account _ _ _) as [[a|e|] o3]; simpl; by intros [= _ <-].
Qed.

Lemma start_store `{!StoreView T, !StoreSpec T} cwd exists_ watch s0 s1 j1 :
  BackgroundFunctionService_start cwd exists_ watch config s0 = (Ok j1, s1) →
  only_touched configures_certificate (bg_store s0) (bg_store s1).
Proof.
  intros E. unfold BackgroundFunctionService_start, start_routing, zoom, on_le, lift, modify, mbind, M_bind in E.
  destruct (LabelService_new config); [|done..].
  pose proof (touches_config configures_certificate (cfg_routes config)
    ltac:(intros route ??; by exists route) (bg_registry s0)) as Ht.
  destruct (add_routes_from_config (cfg_routes config) (bg_registry s0)) as [[[]|?|] reg]; [|done..].
  cbv beta iota in E. destruct (FileWatcherService_start _ _ _ _ _) as [[?|?|] ws]; [|done..].
  cbv beta iota in E. destruct (docker_running _); [|done..].
  destruct (open_account _ _ _) as [[?|?|] w] eqn:Ea; [|done..]. apply open_account_store in Ea.
  simpl in E, Ea. injection E as <- <-. simpl. by rewrite Ea.
Qed.

(** A configured route with a header to add that is not valid, and upstreams
    that resolve. *)
Definition bad_route (route : Route) : Prop :=
  is_Some (try_from_iter (upstream_text <$> route_upstreams route)) ∧
  ∃ h hs, route_headers route = Some h ∧ rh_add h = Some hs ∧
    Exists (λ h, HeaderName_from_str (rha_name h) = None ∨ HeaderValue_from_str (rha_value h) = None) hs.

Lemma config_stops pre route post (reg reg' : Registry T) :
  add_routes_from_config (pre ++ route :: post) reg = (Ok tt, reg') →
  reg_routes reg !! route_host route = None → route_host route ∉ route_host <$> pre → ¬ bad_route route.
Proof.
  revert reg. induction pre as [|r pre IH]; intros reg E Hnone Hnot; cbn [app add_routes_from_config] in E;
    [pose proof (ssl_silent route reg) as Hs|pose proof (ssl_silent r reg) as Hs];
    unfold mbind at 1, M_bind in E; destruct (catch_ok _ reg) as [[x|e|] reg1]; try done; simpl in Hs;
    unfold mbind at 1, M_bind, on_routes at 1, zoom in E;
    destruct (add_route_to_router _ _ _ _ _ _ _ (reg_routes reg1)) as [[[]|e|] routes] eqn:Ea; try done.
  - intros ([lb Hlb] & h & hs & Hh & Hadd & Hbad). rewrite Hs in Ea. clear E.
    unfold add_route_to_router, get_state, lift, modify, mbind, M_bind in Ea. rewrite Hlb in Ea.
    unfold get_route_by_key in Ea. rewrite Hnone in Ea. simpl in Ea. unfold build_container in Ea.
    rewrite Hh in Ea. simpl in Ea. rewrite Hadd in Ea.
    destruct (parse_headers hs) as [add|e|] eqn:Ep; [|done..]. by eapply parse_headers_valid.
  - rewrite fmap_cons, not_elem_of_cons in Hnot. destruct Hnot as [Hne Hnot]. apply (IH _ E); [|done].
    simpl. rewrite (add_route_other _ _ _ _ _ _ _ _ _ _ _ Ea) by done. by rewrite Hs.
Qed.

Lemma start_stops cwd exists_ watch s0 s1 j1 pre route post :
  BackgroundFunctionService_start cwd exists_ watch config s0 = (Ok j1, s1) →
  bg_routes s0 = ∅ → cfg_routes config = pre ++ route :: post →
  route_host route ∉ route_host <$> pre → ¬ bad_route route.
Proof.
  intros E Hs0 Hr Hnot.
  unfold BackgroundFunctionService_start, start_routing, zoom, lift, modify, mbind, M_bind in E.
  destruct (LabelService_new config); [|done..]. rewrite Hr in E.
  destruct (add_routes_from_config _ (bg_registry s0)) as [[[]|?|] reg] eqn:Er; [|done..].
  eapply config_stops; [exact Er| |done]. unfold bg_registry. simpl. rewrite Hs0. apply lookup_empty.
Qed.

(** ** Lemmas: delivery *)

(** No more messages wait than the channel keeps. *)
Definition roomy (s : Background) : Prop :=
  ∀ rx, bg_receiver s = Some rx → (length (unread rx (bg_channel s)) ≤ capacity (bg_channel s))%nat.

(** Of the messages [sent], each waits, or its host is routed if its upstreams
    resolve. *)
Definition delivering (sent : list MsgRoute) (s : Background) : Prop :=
  ∃ rx msgs, bg_receiver s = Some rx ∧ listening rx (bg_channel s) ∧
  unread rx (bg_channel s) = NewRoute <$> msgs ∧
  ∀ m, m ∈ sent → m ∈ msgs ∨ (is_Some (backends (of_message m)) → is_Some (bg_routes s !! msg_host m)).

Lemma watch_adds m routes routes' :
  Discovery.watch_for_route_changes m routes = (Ok tt, routes') →
  is_Some (backends (of_message m)) → is_Some (routes' !! msg_host m).
Proof.
  unfold backends, Discovery.watch_for_route_changes. simpl. intros E [bs Hb].
  unfold add_route_to_router, get_state, lift, modify, mbind, M_bind, mret, M_ret in E.
  destruct (try_from_iter _); [|done].
  destruct (bool_decide _ && _) eqn:Hg.
  - injection E as <-. apply andb_true_iff in Hg as [Hg _]. by apply bool_decide_eq_true in Hg.
  - destruct (build_container _ _ _ _ _ _ _) as [c|e|]; [|done..]. injection E as <-.
    unfold insert_route. rewrite lookup_insert_eq. by eexists.
Qed.

Lemma run_delivers sent e s s' :
  run e s = Some (Ok tt, s') → roomy s → delivering sent s → delivering (sent ++ tick_messages config e) s'.
Proof.
  intros E Hroom (rx & msgs & Hrx & Hl & Hun & Hsent). destruct (wake_or_not e) as [->|Hne].
  - destruct (run_wake _ _ E) as (rx0 & Hrx0 & Hcase). assert (rx0 = rx) as -> by congruence.
    destruct msgs as [|m msgs].
    { apply recv_nothing in Hun; [|done]. rewrite Hun in Hcase. by destruct Hcase as [(? & ? & ? & ? & _)|(? & ? & ? & _)]. }
    destruct (recv_first rx (bg_channel s) (NewRoute m) (fmap (M:=list) NewRoute msgs) Hl Hun (Hroom rx Hrx)) as (rx1 & Hr1 & Hun1).
    destruct Hcase as [(m' & rx' & routes' & Hr & Hm & ->)|(r & rx' & Hr & Hnot & _)];
      rewrite Hr1 in Hr; injection Hr as <- <-; [|by destruct (Hnot m)].
    exists rx1, msgs. split; [done|]. split; [by eapply recv_listens|]. split; [done|]. simpl. rewrite app_nil_r. intros x Hx.
    destruct (Hsent x Hx) as [[->|Hin]%elem_of_cons|Hroute]; [right|by left|right].
    + by apply (watch_adds m (bg_routes s)).
    + intros Hb. eapply watch_keeps_hosts; [exact Hm|]. by apply Hroute.
  - destruct (run_other _ _ _ E Hne) as (Hr & Hc & _). exists rx, (msgs ++ tick_messages config e).
    split; [by rewrite Hr|]. rewrite Hc. split; [by apply send_all_listens|].
    split; [by rewrite send_all_unread, Hun, fmap_app|].
    intros m [Hm|Hm]%elem_of_app.
    + destruct (Hsent m Hm) as [?|Hroute]; [left; apply elem_of_app; by left|right].
      intros Hb. eapply run_keeps_hosts; [exact E|]. by apply Hroute.
    + left. apply elem_of_app. by right.
Qed.

Lemma trace_delivers s es s' sent :
  bg_trace fuel config j roomy s es s' → delivering sent s → delivering (sent ++ announced config es) s'.
Proof.
  intros Ht. revert sent. induction Ht as [s Hs|s e s1 es s2 Hs E Ht IH]; intros sent Hd.
  - unfold announced. simpl. by rewrite app_nil_r.
  - unfold announced. simpl. rewrite app_assoc. apply IH. by apply run_delivers with (s := s).
Qed.

(** Nothing waits. *)
Definition quiet (s : Background) : Prop := ∀ rx, bg_receiver s = Some rx → unread rx (bg_channel s) = [].

Lemma delivered_hosts s es s' m :
  bg_trace fuel config j roomy s es s' → delivering [] s → quiet s' →
  m ∈ announced config es → is_Some (backends (of_message m)) → is_Some (bg_routes s' !! msg_host m).
Proof.
  intros Ht Hd Hq Hm. destruct (trace_delivers _ _ _ _ Ht Hd) as (rx & msgs & Hrx & _ & Hun & Hsent).
  rewrite (Hq rx Hrx) in Hun. destruct msgs; [|done].
  destruct (Hsent m Hm) as [?%elem_of_nil|?]; done.
Qed.

Lemma start_delivering s : bg_receiver s = Some (subscribe (bg_channel s)) → delivering [] s.
Proof.
  intros Hr. exists (subscribe (bg_channel s)), []. split; [done|]. split; [apply subscribe_listens|]. split; [apply subscribe_unread|].
  by intros m ?%elem_of_nil.
Qed.

(** ** Lemmas: a flood *)

(** The receiver has left the loop, or will at its next turn. *)
Definition flooded (s : Background) : Prop :=
  linked s ∧ ∀ rx, bg_receiver s = Some rx → (capacity (bg_channel s) < length (unread rx (bg_channel s)))%nat.

Lemma flooded_turn s s' :
  flooded s → run Wake s = Some (Ok tt, s') → bg_receiver s' = None ∧ bg_sys s' = bg_sys s.
Proof.
  intros [Hl Hf] E. destruct (run_wake _ _ E) as (rx & Hrx & Hcase).
  destruct (recv_lagged rx (bg_channel s) (Hl rx Hrx) (Hf rx Hrx)) as [rx1 Hr1]. rewrite Hr1 in Hcase.
  by destruct Hcase as [(? & ? & ? & ? & _)|(r & rx' & _ & _ & ->)].
Qed.

Lemma run_flooded e s s' : run e s = Some (Ok tt, s') → flooded s → flooded s'.
Proof.
  intros E Hfl. split; [eapply run_linked; [exact E|apply Hfl]|]. intros rx Hrx.
  destruct (wake_or_not e) as [->|Hne]; [destruct (flooded_turn _ _ Hfl E); congruence|].
  destruct (run_other _ _ _ E Hne) as (Hr & -> & _). rewrite Hr in Hrx. destruct Hfl as [Hl Hf].
  rewrite send_all_capacity, send_all_unread, length_app by by apply Hl. specialize (Hf rx Hrx). lia.
Qed.

Lemma trace_flooded P s es s' h :
  bg_trace fuel config j P s es s' → flooded s → sys_ok (bg_sys s) →
  is_Some (bg_routes s' !! h) → is_Some (bg_routes s !! h).
Proof.
  intros Ht. induction Ht as [|s e s1 es s2 _ E _ IH]; [done|]. intros Hf Hok Hh.
  specialize (IH (run_flooded _ _ _ E Hf) (run_ok _ _ _ E Hok) Hh). destruct (wake_or_not e) as [->|Hne].
  - unfold bg_routes in *. destruct (flooded_turn _ _ Hf E) as [_ Hs]. by rewrite Hs in IH.
  - by eapply run_adds_no_host.
Qed.

Lemma receiver_gone P s es s' :
  bg_trace fuel config j P s es s' → bg_receiver s = None → bg_receiver s' = None.
Proof.
  induction 1 as [|s e s1 es s2 _ E _ IH]; [done|]. intros Hn. apply IH.
  destruct (wake_or_not e) as [->|Hne]; [|by destruct (run_other _ _ _ E Hne) as [-> _]].
  destruct (run_wake _ _ E) as (rx & Hrx & _). congruence.
Qed.

Lemma flooded_wake P s es s' :
  bg_trace fuel config j P s es s' → flooded s → Wake ∈ es → bg_receiver s' = None.
Proof.
  induction 1 as [|s e s1 es s2 _ E Ht IH]; [by intros _ ?%elem_of_nil|].
  intros Hf [<-|Hin]%elem_of_cons; [|by apply IH; [eapply run_flooded|]].
  eapply receiver_gone; [exact Ht|]. by destruct (flooded_turn _ _ Hf E).
Qed.

Lemma start_configured cwd exists_ watch s0 s1 j1 r :
  BackgroundFunctionService_start cwd exists_ watch config s0 = (Ok j1, s1) →
  bg_sys s0 = mkSys _ _ ∅ None → r ∈ cfg_routes config → is_Some (backends (of_route r)) →
  is_Some (bg_routes s1 !! route_host r).
Proof.
  intros E Hs0 Hin Hb.
  unfold BackgroundFunctionService_start, start_routing, zoom, on_le, lift, modify, mbind, M_bind in E.
  destruct (LabelService_new config); [|done..].
  destruct (add_routes_from_config (cfg_routes config) (bg_registry s0)) as [[[]|?|] reg] eqn:Er; [|done..].
  assert (Hreg : is_Some (reg_routes reg !! route_host r)).
  { destruct (simulates_config (cfg_routes config) ∅ (bg_registry s0) (Ok tt) reg) as (all & rest & Eall & R & Hrest).
    - unfold bg_registry, bg_routes. simpl. rewrite Hs0. intros h. by rewrite !lookup_empty.
    - exact Er.
    - rewrite (Hrest (ex_intro _ tt eq_refl)), app_nil_r in Eall. subst all.
      pose proof (represents_lookup _ _ (route_host r) R) as Hh.
      destruct (table_total (of_route <$> cfg_routes config) (of_route r)) as [an Han];
        [by apply list_elem_of_fmap_2|done|].
      change (fold_left announce (of_route <$> cfg_routes config) ∅ !! route_host r = Some an) in Han.
      rewrite Han in Hh. destruct (reg_routes reg !! route_host r); [by eexists|done]. }
  cbv beta iota in E. destruct (FileWatcherService_start _ _ _ _ _) as [[?|?|] ws]; [|done..].
  cbv beta iota in E. destruct (docker_running _); [|done..].
  destruct (open_account _ _ _) as [[?|?|] w]; [|done..]. simpl in E. by injection E as <- <-.
Qed.

Lemma bg_trace_keeps_hosts P s es s' h :
  bg_trace fuel config j P s es s' → is_Some (bg_routes s !! h) → is_Some (bg_routes s' !! h).
Proof. induction 1; [done|]. intros. eauto using run_keeps_hosts. Qed.

(** ** Lemmas: a message that panics *)

(** The headers do not parse, and the upstreams resolve, to backends other than
    those of the host's route, if it has one. *)
Definition fatal (m : MsgRoute) (routes : gmap string RouteStoreContainer) : Prop :=
  ¬ harmless m ∧ ∃ bs, backends (of_message m) = Some bs ∧
  ∀ c, routes !! msg_host m = Some c → ¬ (∀ b, b ∈ get_backend (load_balancer c) ↔ b ∈ bs).

Lemma fatal_panics m routes : fatal m routes → fst (Discovery.watch_for_route_changes m routes) = Panic.
Proof.
  intros (Hh & bs & Hb & Hn). unfold backends in Hb. simpl in Hb.
  unfold Discovery.watch_for_route_changes, add_route_to_router, get_state, lift, modify, mbind, M_bind, mret, M_ret.
  destruct (try_from_iter _) as [lb|]; [|done]. injection Hb as Hb. unfold get_route_by_key.
  assert (bool_decide (is_Some (routes !! msg_host m)) && negb (has_new_backend (msg_host m) lb routes) = false) as ->.
  { apply andb_false_iff. destruct (routes !! msg_host m) as [c|] eqn:Ec; [right|by left].
    apply negb_false_iff, has_new_backend_spec. exists c. split; [done|]. rewrite Hb. by apply Hn. }
  unfold build_container. simpl. assert (Hp := parse_headers_no_error (host_headers_add m)).
  destruct (parse_headers (host_headers_add m)) as [add|e|] eqn:E; [|by destruct (Hp e)|done].
  destruct Hh. by exists add.
Qed.

Lemma watch_no_error m routes e : fst (Discovery.watch_for_route_changes m routes) ≠ Err e.
Proof.
  unfold Discovery.watch_for_route_changes, add_route_to_router, get_state, lift, modify, mbind, M_bind, mret, M_ret.
  destruct (try_from_iter _); [|done]. destruct (bool_decide _ && _); [done|]. unfold build_container. simpl.
  pose proof (parse_headers_no_error (host_headers_add m)) as Hp.
  by destruct (parse_headers (host_headers_add m)) as [?|e'|]; [|destruct (Hp e')|].
Qed.

(** The messages before it are applied, unless one is fatal too; then the
    process is gone. *)
Lemma wakes_to_panic pre m post rx s :
  bg_receiver s = Some rx → listening rx (bg_channel s) →
  unread rx (bg_channel s) = NewRoute <$> (pre ++ m :: post) →
  (length (pre ++ m :: post) ≤ capacity (bg_channel s))%nat →
  msg_host m ∉ msg_host <$> pre → fatal m (bg_routes s) →
  ∃ n s', (n ≤ length pre)%nat ∧ bg_trace fuel config j (λ _, True) s (repeat Wake n) s' ∧
    fst <$> bg_run fuel config j Wake s' = Some Panic.
Proof.
  revert rx s. induction pre as [|m0 pre IH]; intros rx s Hrx Hl Hun Hcap Hnot Hfatal.
  - exists 0%nat, s. split; [done|]. split; [by constructor|]. simpl. rewrite Hrx. simpl.
    destruct (recv_first rx (bg_channel s) (NewRoute m) (fmap (M:=list) NewRoute post) Hl Hun) as (rx' & -> & _);
      [by rewrite Hun, length_fmap|]. simpl.
    pose proof (fatal_panics _ _ Hfatal) as Hp.
    destruct (Discovery.watch_for_route_changes m (bg_routes s)) as [r routes]. simpl in Hp. by rewrite Hp.
  - rewrite fmap_cons, not_elem_of_cons in Hnot. destruct Hnot as [Hne Hnot].
    destruct (recv_first rx (bg_channel s) (NewRoute m0) (fmap (M:=list) NewRoute (pre ++ m :: post)) Hl Hun)
      as (rx' & Hr & Hun'); [by rewrite Hun, length_fmap|].
    pose proof (watch_no_error m0 (bg_routes s)) as Herr.
    destruct (Discovery.watch_for_route_changes m0 (bg_routes s)) as [[[]|e|] routes] eqn:Ew;
      [|by destruct (Herr e)|].
    2: { exists 0%nat, s. split; [lia|]. split; [by constructor|]. simpl. rewrite Hrx. simpl. rewrite Hr. simpl. by rewrite Ew. }
    destruct (IH rx' (set_receiver (Some rx') (set_routes routes s))) as (n & s' & Hn & Ht & Hp); try done.
    + by eapply recv_listens.
    + simpl in *. lia.
    + destruct Hfatal as (? & bs & ? & Hc). split; [done|]. exists bs. split; [done|].
      change (bg_routes (set_receiver _ _)) with routes.
      by rewrite (add_route_other _ _ _ _ _ _ _ _ _ _ _ Ew).
    + exists (S n), s'. split; [simpl; lia|]. split; [|done]. eapply bg_cons; [done| |exact Ht]. simpl. rewrite Hrx. simpl.
      rewrite Hr. simpl. by rewrite Ew.
Qed.

(** A tick of the Let's Encrypt service leaves the routes alone and, when it
    can, gives each of their hosts a certificate. *)
Lemma watch_tick_certifies `{!StoreIterLaws, !StoreView T, !AcmeView T, !StoreSpec T, !StoreUp T, !AcmeLaws T}
    `{!AcmeLive T, !AcmeAccepts T} n account s
    (Hfound : ∀ d o, ∃ cert o', account_certificate account d o = (Ok cert, o')) :
  fuel = S (S n) → j_account j = Some account → ready (bg_le s) →
  (∀ h c, bg_routes s !! h = Some c → certifiable account h c) →
  ∃ s', bg_run fuel config j LeWatch s = Some (Ok tt, s') ∧ bg_sys s' = bg_sys s ∧
    ∀ h, is_Some (bg_routes s !! h) → is_Some (held (bg_le s') h).
Proof.
  intros -> Hacc Hready Hcert.
  destruct (watch_covers account Hfound n (store_iter (bg_routes s)) (bg_le s)) as (w & E & _ & Hcov & _); [|done|].
  - apply Forall_forall. intros [h c] Hin. apply Hcert. rewrite store_iter_perm in Hin. by apply elem_of_map_to_list.
  - exists (set_le w s). split_and!; [|done|].
    + simpl. rewrite Hacc. unfold on_le. simpl. by rewrite E.
    + intros h [c Hc]. destruct w as [st o]. apply (Hcov h), list_elem_of_fmap.
      exists (h, c). split; [done|]. rewrite store_iter_perm. by apply elem_of_map_to_list.
Qed.
End lemmas.
End background.

(** ** Properties *)

(** C12. From a label or a configured route to a certificate. Once the services have
    started, and as long as the channel keeps every message until the routing
    service gets to it: when nothing waits in the channel, every host that is
    configured, or that a Docker tick has announced, with upstreams that
    resolve is routed; and the next tick of the Let's Encrypt service leaves
    every routed host, those included, with a certificate in the store. This is
    for an authority that is up and checks its challenges over HTTP, a store
    that works, look-ups of certificates that do not fail, and hosts that can be
    certified: each is accepted by the authority, or refused with self-signing
    enabled. *)
Theorem announced_hosts_certified
    `{HttpApi, UriBuilder, Dns, LbApi, PathTreeApi, Discovery.Files, DockerApi, LabelJson, SocketText, RouteIter}
    {T : Type} `{AcmeApi T} `{!Store T, Broadcast, !StoreIter, !BroadcastView, !StoreView T, !AcmeView T, !AcmeHttp T}
    (Hlb : LbLaws) (Hbc : BroadcastLaws) (Hit : StoreIterLaws) (Hh : HeaderLaws) (Hs : StoreSpec T) (Hu : StoreUp T)
    (Ha : AcmeLaws T) (Hl : AcmeLive T) (Hplain : plain_headers)
    n config cwd exists_ watch s0 j s1 es s2 account
    (Hempty : bg_sys s0 = mkSys _ _ ∅ None)
    (Hstart : BackgroundFunctionService_start cwd exists_ watch config s0 = (Ok j, s1))
    (Hrun : bg_trace (2 + n) config j roomy s1 es s2) (Hquiet : quiet s2)
    (Haccount : j_account j = Some account)
    (Hfound : ∀ d o, ∃ cert o', account_certificate account d o = (Ok cert, o'))
    (Hready : ready (bg_le s2))
    (Hcert : ∀ h c, bg_routes s2 !! h = Some c → certifiable account h c) :
  ∃ s3, bg_run (2 + n) config j LeWatch s2 = Some (Ok tt, s3) ∧
    (∀ h c, bg_routes s3 !! h = Some c → container_ok c ∧ is_Some (held (bg_le s3) h)) ∧
    (∀ r, r ∈ cfg_routes config → is_Some (backends (of_route r)) → is_Some (bg_routes s3 !! route_host r)) ∧
    (∀ m, m ∈ announced config es → is_Some (backends (of_message m)) → is_Some (bg_routes s3 !! msg_host m)).
Proof.
  pose proof (front_makes_accepted Hplain) as Hv.
  destruct (start_ok _ _ _ _ _ _ _ Hstart Hempty) as (Hok & Hch & Hrx). rewrite <- Hch in Hrx.
  destruct (watch_tick_certifies (2 + n) config j n account s2 Hfound eq_refl Haccount Hready Hcert)
    as (s3 & E & Hsys & Hheld).
  assert (Hroutes : bg_routes s3 = bg_routes s2) by (unfold bg_routes; by rewrite Hsys).
  exists s3. rewrite Hroutes. split_and!; [done| | |].
  - intros h c Hc. split; [|apply Hheld; by eexists].
    by apply (proj1 (trace_sys_ok _ _ _ _ _ _ _ Hrun Hok) h).
  - intros r Hr Hb. eapply bg_trace_keeps_hosts; [exact Hrun|]. by eapply start_configured.
  - intros m Hm Hb. eapply delivered_hosts; [exact Hrun|by apply start_delivering|done..].
Qed.

(** C13. A flood ends the discovery. One tick of the label service sends its
    messages without a pause; if they are more than the channel keeps, the
    routing service gets an error instead of a message and leaves its loop:
    from that tick on, whatever the services do, no host is ever added, those
    of the flood included, and after the next turn of the routing service
    nothing receives messages any more. *)
Theorem flood_ends_discovery
    `{HttpApi, Dns, LbApi, PathTreeApi, Discovery.Files, DockerApi, LabelJson, SocketText, RouteIter}
    {T : Type} `{AcmeApi T} `{!Store T, Broadcast, !StoreIter, !BroadcastView}
    (Hlb : LbLaws) (Hbc : BroadcastLaws)
    fuel config cwd exists_ watch s0 j s1 es s2 reply hosts es' s3
    (Hempty : bg_sys s0 = mkSys _ _ ∅ None)
    (Hstart : BackgroundFunctionService_start cwd exists_ watch config s0 = (Ok j, s1))
    (Hrun : bg_trace fuel config j (λ _, True) s1 es s2)
    (Hreply : get_routes_from_docker (docker_mode (cfg_docker config)) reply = Ok hosts)
    (Hmany : (capacity (bg_channel s2) < length (send_route_message hosts))%nat)
    (Hrest : bg_trace fuel config j (λ _, True) s2 (DockerTick reply :: es') s3) :
  (∀ h, is_Some (bg_routes s3 !! h) → is_Some (bg_routes s2 !! h)) ∧
  (Wake ∈ es' → bg_receiver s3 = None).
Proof.
  destruct (start_ok _ _ _ _ _ _ _ Hstart Hempty) as (Hok & Hch & Hrx). rewrite <- Hch in Hrx.
  assert (Hl : linked s2).
  { eapply trace_linked; [exact Hrun|]. intros rx Hrx'. rewrite Hrx in Hrx'. injection Hrx' as <-. apply subscribe_listens. }
  apply (trace_sys_ok _ _ _ _ _ _ _ Hrun) in Hok.
  inversion Hrest as [|? ? s2' ? ? _ E Hes']; subst.
  assert (Hne : DockerTick reply ≠ Wake) by done.
  destruct (run_other _ _ _ _ _ _ E Hne) as (Hr & Hc & _).
  assert (Hf : flooded s2').
  { split; [by eapply run_linked|]. intros rx Hrx'. rewrite Hr in Hrx'. rewrite Hc. unfold tick_messages.
    rewrite Hreply, send_all_capacity, send_all_unread, length_app, length_fmap by by apply Hl. lia. }
  split; [|intros Hw; by eapply flooded_wake].
  intros h Hh. eapply run_adds_no_host; [exact E|done|done|].
  eapply trace_flooded; [exact Hes'|done| |done]. by eapply run_ok.
Qed.

(** C14. One label takes the proxy down. If the labels of a container or service,
    the first of its host in the daemon's reply, ask for a header to add whose
    name or value is not valid, nothing on the way checks it: with an idle
    channel that has room for the messages of the tick, the routing service
    panics, and the process ends, at the latest when it gets to the message of
    that host, provided one is sent, its upstreams resolve, and the host has no
    route yet, or one with other backends. Messages with valid headers never
    make it panic. *)
Theorem label_header_aborts
    `{HttpApi, Dns, LbApi, PathTreeApi, Discovery.Files, DockerApi, LabelJson, SocketText, RouteIter}
    {T : Type} `{AcmeApi T} `{!Store T, Broadcast, !StoreIter, !BroadcastView}
    (Hlb : LbLaws) (Hri : RouteIterLaws) (Hbc : BroadcastLaws)
    fuel config j (s : Background T) rx reply hosts before labels after host hs
    (Hdocker : j_docker j = true) (Hrx : bg_receiver s = Some rx) (Hl : listening rx (bg_channel s))
    (Hidle : unread rx (bg_channel s) = [])
    (Hreply : get_routes_from_docker (docker_mode (cfg_docker config)) reply = Ok hosts)
    (Hroom : (length (send_route_message hosts) ≤ capacity (bg_channel s))%nat)
    (Hlabels : label_sets (docker_mode (cfg_docker config)) reply = before ++ labels :: after)
    (Hfirst : Forall (λ ls, ¬ announces ls host) before) (Hhost : announces labels host)
    (Hadd : adds_headers labels hs)
    (Hbad : Exists (λ h, HeaderName_from_str (rha_name h) = None ∨ HeaderValue_from_str (rha_value h) = None) hs)
    (Hsent : host ∈ msg_host <$> send_route_message hosts)
    (Hnew : ∀ m, m ∈ send_route_message hosts → msg_host m = host →
       ∃ bs, backends (of_message m) = Some bs ∧
         ∀ c, bg_routes s !! host = Some c → ¬ (∀ b, b ∈ get_backend (load_balancer c) ↔ b ∈ bs)) :
  (∃ n s', bg_trace fuel config j (λ _, True) s (DockerTick reply :: repeat Wake n) s' ∧
     fst <$> bg_run fuel config j Wake s' = Some Panic) ∧
  (∀ s', fst <$> bg_run fuel config j Wake s' = Some Panic →
     ∃ rx m rx', bg_receiver s' = Some rx ∧ recv rx (bg_channel s') = Some (Received (NewRoute m), rx') ∧
       ¬ harmless m).
Proof.
  split.
  - apply list_elem_of_fmap in Hsent as (m & Hm & Hin).
    destruct (labels_read _ _ _ _ _ _ _ _ Hreply Hlabels Hfirst Hhost Hadd) as (r & Hr & Hrh).
    destruct (sent_of_route hosts m Hin) as (r' & Hr' & Hmh). rewrite Hm, Hr' in Hr. injection Hr as ->.
    rewrite Hrh in Hmh. simpl in Hmh.
    assert (Hfatal : fatal m (bg_routes s)).
    { split.
      - intros [add Hp]. rewrite Hmh in Hp. by eapply parse_headers_valid.
      - destruct (Hnew m Hin (eq_sym Hm)) as (bs & Hbs & Hc). exists bs. by rewrite <- Hm. }
    pose proof (sent_hosts_nodup hosts) as Hnd.
    apply list_elem_of_split in Hin as (pre & post & Hmsgs). rewrite Hmsgs in Hroom, Hnd.
    rewrite fmap_app, fmap_cons in Hnd. apply NoDup_app in Hnd as (_ & Hnot & _).
    set (s1 := send_all (send_route_message hosts) s).
    destruct (wakes_to_panic fuel config j pre m post rx s1) as (n & s' & _ & Ht & Hp); try done.
    + by apply send_all_listens.
    + subst s1. by rewrite send_all_unread, Hidle, Hmsgs.
    + subst s1. by rewrite send_all_capacity.
    + intros Hi. apply (Hnot _ Hi). by left.
    + exists n, s'. split; [|done]. apply bg_cons with s1; [done| |exact Ht]. simpl. by rewrite Hdocker, Hreply.
  - intros s' E. simpl in E. destruct (bg_receiver s') as [rx'|]; [|done]. simpl in E.
    destruct (recv rx' (bg_channel s')) as [[[[m'|c|]|] rx'']|] eqn:Er; try done. simpl in E.
    exists rx', m', rx''. split_and!; [done|done|]. intros Hh.
    pose proof (harmless_returns m' (bg_routes s') Hh) as Hok.
    destruct (Discovery.watch_for_route_changes m' (bg_routes s')). simpl in *. congruence.
Qed.

(** ** A concrete channel and daemon for the examples *)

(** The channel as all it was ever sent, a receiver as a position in it; the
    number of messages kept is the next power of two. *)
Definition toy_broadcast : Broadcast := {|
  Channel := nat * list MsgProxy;
  Receiver := nat;
  channel := λ n, (2 ^ Nat.log2_up n, [])%nat;
  send := λ m ch, (ch.1, ch.2 ++ [m]);
  subscribe := λ ch, length ch.2;
  recv := λ rx ch,
    if (length ch.2 <=? rx)%nat then None
    else if (ch.1 <? length ch.2 - rx)%nat then Some (RecvError, length ch.2 - ch.1)%nat
    else (λ m, (Received m, S rx)) <$> ch.2 !! rx |}.
Definition toy_broadcast_view : @BroadcastView toy_broadcast :=
  @Build_BroadcastView toy_broadcast fst (λ rx ch, (rx ≤ length ch.2)%nat) (λ rx ch, drop rx ch.2).

Lemma toy_broadcast_laws : @BroadcastLaws toy_broadcast toy_broadcast_view.
Proof.
  split; simpl.
  - intros n. destruct (decide (1 < n)%nat); [by apply Nat.log2_up_spec|].
    rewrite Nat.log2_up_eqn0 by lia. simpl. lia.
  - done.
  - done.
  - intros m rx ch Hl. rewrite length_app. lia.
  - intros rx ch r rx' Hl. destruct (length ch.2 <=? rx)%nat eqn:E; [done|]. apply Nat.leb_gt in E.
    destruct (_ <? _)%nat; [intros [= _ <-]; lia|].
    destruct (ch.2 !! rx) as [m|] eqn:Em; [|done]. intros [= _ <-]. by apply lookup_lt_Some in Em.
  - intros ch. by rewrite drop_ge.
  - intros m rx ch Hl. by rewrite drop_app_le.
  - intros rx ch Hl Hd. apply (f_equal length) in Hd. rewrite length_drop in Hd. simpl in Hd.
    by rewrite (proj2 (Nat.leb_le _ _)) by lia.
  - intros rx ch m rest Hl Hd Hlen. assert (Hm : ch.2 !! rx = Some m)
      by (rewrite <- (Nat.add_0_r rx), <- lookup_drop, Hd; done).
    pose proof (lookup_lt_Some _ _ _ Hm). rewrite length_drop in Hlen.
    rewrite (proj2 (Nat.leb_gt _ _)), (proj2 (Nat.ltb_ge _ _)), Hm by lia. simpl.
    exists (S rx). split; [done|]. apply drop_S in Hm. rewrite Hm in Hd. by injection Hd.
  - intros rx ch Hl Hlen. rewrite length_drop in Hlen.
    rewrite (proj2 (Nat.leb_gt _ _)), (proj2 (Nat.ltb_lt _ _)) by lia. by eexists.
Qed.

Definition toy_docker : DockerApi := {|
  DockerClient := string;
  connect_with_unix := λ endpoint _, Ok endpoint;
  connect_with_http := λ endpoint _, Ok endpoint;
  connect_with_local_defaults := Ok "local" |}.

#[local] Existing Instances toy_http toy_uri toy_dns toy_lb toy_pt toy_files toy_docker toy_label_json
  toy_socket toy_route_iter toy_pki toy_redis toy_persist http_acme http_acme_view http_acme_http
  toy_broadcast toy_broadcast_view.

Definition toy_store_iter : StoreIter := {| store_iter := map_to_list |}.
#[local] Existing Instance toy_store_iter.
Lemma toy_store_iter_laws : StoreIterLaws.
Proof. by split. Qed.

Definition toy_config : Config :=
  mkConfig "proksi" StoreConfig_default (cfg_server Config_default) false false (Some 1%N) None
    (cfg_logging Config_default) AutoReload_default container_mode
    (mkLetsEncrypt "me@a.test" (Some true) (Some true) None) Path_default [web_route None].

Definition toy_background : Background MemoryStore :=
  @mkBackground MemoryStore toy_lb toy_pt _ _ _ http_acme toy_broadcast
    (mkSys _ _ ∅ None) (Some MemoryStore_new) (mkToyOutside [] ∅ nothing_persisted) (channel 10) None [].
Definition toy_joined : Joined MemoryStore :=
  mkJoined (mkLabelService toy_config ("local" : DockerClient)) true None (Some http_account).
Definition toy_start := BackgroundFunctionService_start (Some "/srv") (λ _, true) (λ _, true) toy_config toy_background.
Definition after (es : list BgEvent) : Background MemoryStore :=
  fold_left (λ s e, match bg_run 2 toy_config toy_joined e s with Some (_, s') => s' | None => s end) es (snd toy_start).

(** Containers with one address each, of distinct hosts. *)
Definition labelled (host : string) : DockerContainer :=
  mkDockerContainer (Some [("proksi.enabled", "true"); ("proksi.host", host); ("proksi.port", "80")])
    (Some (Some [Some "10.0.0.1"])).
Definition tick (hosts : list string) : BgEvent := DockerTick (mkReply None (Some (labelled <$> hosts))).
Definition many_hosts : list string := (λ n, "h" +:+ show_N (N.of_nat n) +:+ ".test") <$> seq 0 17.

Lemma after_trace (P : Background MemoryStore → Prop) es es' :
  (∀ n, (n ≤ length es')%nat → P (after (es ++ take n es'))) →
  (∀ n e, es' !! n = Some e → fst <$> bg_run 2 toy_config toy_joined e (after (es ++ take n es')) = Some (Ok tt)) →
  bg_trace 2 toy_config toy_joined P (after es) es' (after (es ++ es')).
Proof.
  revert es. induction es' as [|e es' IH]; intros es HP Hrun.
  - rewrite app_nil_r. constructor. specialize (HP 0%nat). rewrite app_nil_r in HP. apply HP. simpl. lia.
  - pose proof (Hrun 0%nat e eq_refl) as He. simpl in He. rewrite app_nil_r in He.
    destruct (bg_run 2 toy_config toy_joined e (after es)) as [[r s1]|] eqn:E; [|done]. simpl in He. injection He as ->.
    assert (Hs1 : after (es ++ [e]) = s1) by (unfold after in *; rewrite fold_left_app; simpl; by rewrite E).
    apply bg_cons with s1; [|exact E|].
    + specialize (HP 0%nat). simpl in HP. rewrite app_nil_r in HP. apply HP. lia.
    + rewrite <- Hs1. replace (es ++ e :: es') with ((es ++ [e]) ++ es') by by rewrite <- app_assoc.
      apply IH; intros n; rewrite <- app_assoc; [intros Hn; apply (HP (S n)); simpl; lia|].
      intros e' He'. by apply (Hrun (S n)).
Qed.

Lemma toy_started : toy_start = (Ok toy_joined, snd toy_start).
Proof. assert (E : fst toy_start = Ok toy_joined) by reflexivity. rewrite <- E. apply surjective_pairing. Qed.

Lemma stored_key {A} (m : gmap string A) h c keys : (map_to_list m).*1 = keys → m !! h = Some c → h ∈ keys.
Proof. intros <- Hc. apply list_elem_of_fmap. exists (h, c). split; [done|]. by apply elem_of_map_to_list. Qed.

Lemma toy_certifiable h c : h ∈ ["a.test"; "b.test"] → certifiable http_account h c.
Proof.
  intros Hh. left. assert (h = "a.test" ∨ h = "b.test") as [-> | ->] by set_solver;
    (split; [intros o; by eexists _, _|]);
    intros co o cert Hco [= <-]; simpl in Hco; subst co; by eexists.
Qed.

(** ** Witnesses *)

Definition b_message : MsgRoute := mkMsgRoute "b.test" ["10.0.0.1:80"] [] [] [] [] false.
Definition b_announced : list BgEvent := [tick ["b.test"]; CheckStart "a.test"; Wake; CheckEnd].

Lemma announced_hosts_certified_witness :
  ∃ s3, bg_run 2 toy_config toy_joined LeWatch (after b_announced) = Some (Ok tt, s3) ∧
    is_Some (held (bg_le s3) "a.test") ∧ is_Some (held (bg_le s3) "b.test").
Proof.
  destruct (announced_hosts_certified toy_lb_laws toy_broadcast_laws toy_store_iter_laws toy_http_laws
      MemoryStore_spec MemoryStore_up (toy_authority_laws _ _ _ 89 true) (toy_authority_live _ _ _ 89)
      toy_plain_headers 0 toy_config (Some "/srv") (λ _, true) (λ _, true) toy_background toy_joined
      (snd toy_start) b_announced (after b_announced) http_account)
    as (s3 & E & Hheld & Hconf & Hann).
  - reflexivity.
  - exact toy_started.
  - apply (after_trace roomy [] b_announced).
    + intros n Hn rx. do 5 (destruct n as [|n]; [vm_compute; intros [= <-]; lia|]). simpl in Hn. lia.
    + intros n e. do 4 (destruct n as [|n]; [intros [= <-]; vm_compute; reflexivity|]). done.
  - intros rx. vm_compute. by intros [= <-].
  - reflexivity.
  - intros d o. by eexists _, _.
  - split; [by eexists|]. intros d cert Hd. exfalso.
    assert (Hempty : ∀ m : gmap string (string * bool), m = ∅ → m !! d = Some cert → False)
      by (intros m ->; by rewrite lookup_empty).
    refine (Hempty (toy_saved (bg_outside (after b_announced))) _ Hd). reflexivity.
  - intros h c Hc. apply toy_certifiable. refine (stored_key _ _ _ _ _ Hc). vm_compute. reflexivity.
  - exists s3. split; [exact E|]. split.
    + destruct (Hconf (web_route None)) as [c Hc]; [by left|by eexists|]. by apply (Hheld "a.test" c).
    + destruct (Hann b_message) as [c Hc]; [vm_compute; by left|by eexists|]. by apply (Hheld "b.test" c).
Defined.

(** Seventeen hosts in one tick, of a channel that keeps sixteen messages. *)
Lemma flood_ends_discovery_witness :
  bg_receiver (after [tick many_hosts; Wake; tick ["b.test"]]) = None ∧
  bg_routes (after [tick many_hosts; Wake; tick ["b.test"]]) !! "b.test" = None.
Proof.
  assert (Hlen : match get_routes_from_docker DockerServiceMode_Container
      (mkReply None (Some (labelled <$> many_hosts))) with
    | Ok hosts => length (send_route_message hosts) | _ => 0%nat end = 17%nat) by (vm_compute; reflexivity).
  destruct (get_routes_from_docker DockerServiceMode_Container (mkReply None (Some (labelled <$> many_hosts))))
    as [hosts|e|] eqn:Ehosts; [|discriminate..].
  destruct (flood_ends_discovery toy_lb_laws toy_broadcast_laws 2 toy_config (Some "/srv") (λ _, true) (λ _, true)
      toy_background toy_joined (snd toy_start) [] (snd toy_start)
      (mkReply None (Some (labelled <$> many_hosts))) hosts [Wake; tick ["b.test"]]
      (after [tick many_hosts; Wake; tick ["b.test"]])) as [Hnone Hgone].
  - reflexivity.
  - exact toy_started.
  - by constructor.
  - exact Ehosts.
  - rewrite Hlen. change (16 < 17)%nat. lia.
  - apply (after_trace (λ _, True) [] [tick many_hosts; Wake; tick ["b.test"]]); [done|].
    intros n e. do 3 (destruct n as [|n]; [intros [= <-]; vm_compute; reflexivity|]). done.
  - split; [apply Hgone; by left|].
    assert (Hno : ¬ is_Some (bg_routes (snd toy_start) !! "b.test")) by (apply eq_None_not_Some; reflexivity).
    apply eq_None_not_Some. intros Hb. exact (Hno (Hnone "b.test" Hb)).
Defined.

(** A label that adds a header whose name has a line feed in it. *)
Definition header_labels : LabelJson := {|
  json_header_add := λ v, Some [mkRouteHeaderAdd v "1"]; json_header_remove := λ _, None; json_value := λ _, None |}.
#[local] Existing Instance header_labels.
Definition bad_container : DockerContainer :=
  mkDockerContainer (Some [("proksi.enabled", "true"); ("proksi.host", "d.test"); ("proksi.port", "80");
    ("proksi.headers.add", String "010" "x")]) (Some (Some [Some "10.0.0.1"])).
Definition bad_labels : list (string * string) := default [] (container_labels bad_container).
Definition bad_reply : DockerReply := mkReply None (Some [labelled "b.test"; bad_container]).
Definition bad_message : MsgRoute :=
  mkMsgRoute "d.test" ["10.0.0.1:80"] [] [mkRouteHeaderAdd (String "010" "x") "1"] [] [] false.

Lemma label_header_aborts_witness :
  ∃ n s', bg_trace 2 toy_config toy_joined (λ _, True) (snd toy_start) (DockerTick bad_reply :: repeat Wake n) s' ∧
    fst <$> bg_run 2 toy_config toy_joined Wake s' = Some Panic.
Proof.
  assert (Hmsgs : match get_routes_from_docker DockerServiceMode_Container bad_reply with
    | Ok hosts => send_route_message hosts = [b_message; bad_message] | _ => False end)
    by (vm_compute; reflexivity).
  destruct (get_routes_from_docker DockerServiceMode_Container bad_reply) as [hosts|e|] eqn:Ehosts;
    [|destruct Hmsgs..].
  refine (proj1 (label_header_aborts toy_lb_laws toy_route_iter_laws toy_broadcast_laws 2 toy_config toy_joined
    (snd toy_start) 0%nat bad_reply hosts [default [] (container_labels (labelled "b.test"))] bad_labels [] "d.test"
    [mkRouteHeaderAdd (String "010" "x") "1"] _ _ _ _ _ _ _ _ _ _ _ _ _)).
  - reflexivity.
  - reflexivity.
  - change (0 ≤ 0)%nat. lia.
  - reflexivity.
  - exact Ehosts.
  - rewrite Hmsgs. change (2 ≤ 16)%nat. lia.
  - reflexivity.
  - constructor; [|constructor]. intros (_ & Hh & _). vm_compute in Hh. discriminate.
  - split_and!; [reflexivity|reflexivity|discriminate|discriminate].
  - eexists _, _, []. split_and!; [|by intros []%elem_of_nil|reflexivity].
    exact (eq_refl ([("proksi.enabled", "true"); ("proksi.host", "d.test"); ("proksi.port", "80")] ++
      [("proksi.headers.add", String "010" "x")])).
  - constructor. left. reflexivity.
  - rewrite Hmsgs. right. by left.
  - intros m Hm Hd. rewrite Hmsgs in Hm. apply elem_of_cons in Hm as [-> |Hm%list_elem_of_singleton]; [discriminate|].
    subst m. eexists. split; [reflexivity|]. intros c Hc. exfalso. vm_compute in Hc. discriminate.
Defined.
