(* ===== verification/Startup.v ===== *)
(** Start-up (main.rs): from the configuration to the services Pingora runs.
    [main] is a computation on what it sets up, in the order of the code: the
    subscriber of the logs, the global store, the server with its services.
    The global store is a trait object: either store behind one interface. *)
From S2P Require Import Prelude Strs Config Stores Discovery Logger.
#[local] Open Scope string_scope.
#[local] Open Scope list_scope.

(** ** The store as a trait object *)

(** [Arc<dyn Store>] of the two implementations. *)
Inductive DynStore `{Pki, RedisApi} :=
| Dyn_Memory (s : MemoryStore)
| Dyn_Redis (s : RedisStore).

Section dyn_store.
Context `{Base64, Pki, RedisApi, CertJson}.

(** Dispatch of a method. *)
Definition dyn {A} (m : M MemoryStore string A) (r : M RedisStore string A) : M DynStore string A := λ s,
  match s with
  | Dyn_Memory s => let '(x, s') := m s in (x, Dyn_Memory s')
  | Dyn_Redis s => let '(x, s') := r s in (x, Dyn_Redis s')
  end.

#[export] Instance DynStore_Store : Store DynStore := {|
  get_certificate := λ d, dyn (get_certificate d) (get_certificate d);
  set_certificate := λ d c, dyn (set_certificate d c) (set_certificate d c);
  get_certificates := dyn get_certificates get_certificates;
  get_challenge := λ d, dyn (get_challenge d) (get_challenge d);
  set_challenge := λ d t p, dyn (set_challenge d t p) (set_challenge d t p) |}.

#[export] Instance DynStore_StoreView : StoreView DynStore := {|
  certs_of := λ s, match s with Dyn_Memory s => certs_of s | Dyn_Redis s => certs_of s end;
  challenges_of := λ s, match s with Dyn_Memory s => challenges_of s | Dyn_Redis s => challenges_of s end |}.
End dyn_store.

(** ** External code *)

(** [Opt], [TlsSettings] and the services of Pingora, as what is set in them. *)
Record Opt := mkOpt {
  opt_daemon : bool;
  opt_upgrade : bool;
  opt_conf : option string;
  opt_nocapture : bool;
  opt_test : bool }.

Record TlsSettings := mkTlsSettings {
  tls_h2 : bool;
  tls_servername_callback : bool;
  tls_min_version : option SslVersion;
  tls_max_version : option SslVersion }.

Inductive Listener := Tcp (addr : string) | Tls (addr : string) (settings : TlsSettings).

Record HttpService := mkHttpService {
  hs_listeners : list Listener;
  hs_threads : option N }.

Inductive AnyService :=
| BackgroundServices (config : Config)
| LoggerReceiver (config : Config)
| PublicHttp (service : HttpService)
| SecureHttps (service : HttpService).

(** [r2d2::Pool] on a Redis URL, and the calls of the set-up that can fail.
    [server_bootstrap] is [Panic] when Pingora ends the process, as it does
    when it is to upgrade and the descriptors of the old server cannot be
    loaded, or when it is only to test the configuration. *)
Class StartApi `{RedisApi} := {
  pool_open : string → option Redis;
  server_new : Opt → res string unit;
  server_bootstrap : Opt → res string unit;
  tls_with_callbacks : res string unit;
  set_min_proto : SslVersion → res string unit;
  set_max_proto : SslVersion → res string unit }.

(** ** State *)

(** [tracing_subscriber::fmt]: [with_ansi] is not called for JSON. *)
Record Subscriber := mkSubscriber {
  sub_json : bool;
  sub_max_level : LevelFilter;
  sub_ansi : option bool;
  sub_writer : ProxyLog }.

Record Server := mkServer {
  srv_opts : Opt;
  srv_bootstrapped : bool;
  srv_services : list AnyService }.

Record Main `{Pki, RedisApi} := mkMain {
  mn_subscriber : option Subscriber;
  mn_store : option DynStore;
  mn_server : option Server;
  mn_running : bool }.

Definition nothing_started `{Pki, RedisApi} : Main := mkMain _ _ None None None false.

(** ** Definitions *)

Section main.
Context `{Base64, Pki, StartApi, CertJson}.

Definition set_subscriber (x : Subscriber) (s : Main) : Main :=
  mkMain _ _ (Some x) (mn_store s) (mn_server s) (mn_running s).
Definition set_store (x : DynStore) (s : Main) : Main :=
  mkMain _ _ (mn_subscriber s) (init_store x (mn_store s)) (mn_server s) (mn_running s).
Definition set_server (x : Server) (s : Main) : Main :=
  mkMain _ _ (mn_subscriber s) (mn_store s) (Some x) (mn_running s).
Definition run_forever (s : Main) : Main :=
  mkMain _ _ (mn_subscriber s) (mn_store s) (mn_server s) true.

(** [expect] on a result. *)
Definition expect {A} (r : res string A) : res string A :=
  match r with Err _ => Panic | r => r end.

(** The subscriber of the configuration's log format. *)
Definition subscriber (config : Logging) : Subscriber :=
  let appender := ProxyLog_new (log_enabled config) (log_access_logs_enabled config)
                    (log_error_logs_enabled config) in
  match log_format config with
  | LogFormat_Json => mkSubscriber true (LevelFilter_from (log_level config)) None appender
  | _ => mkSubscriber false (LevelFilter_from (log_level config))
           (Some (bool_decide (log_path config = None))) appender
  end.

Definition init_global_store (config : StoreConfig) : M Main string unit :=
  match store_type config with
  | StoreType_Memory => modify (set_store (Dyn_Memory MemoryStore_new))
  | StoreType_Redis =>
      redis_url ← lift (unwrap (redis_url config));
      client ← lift (expect (ok_or "redis" (pool_open redis_url)));
      modify (set_store (Dyn_Redis (RedisStore_new client)))
  end.

Definition pingora_opts (config : Config) : Opt :=
  mkOpt (cfg_daemon config) (cfg_upgrade config) None false false.

(** The settings of the TLS listener. *)
Definition tls_settings : res string TlsSettings :=
  _ ← expect tls_with_callbacks;
  _ ← set_min_proto TLS1_2;
  _ ← set_max_proto TLS1_3;
  Ok (mkTlsSettings true true (Some TLS1_2) (Some TLS1_3)).

(** [loaded] is what [load] returns for "/etc/proksi/configs". *)
Definition main (loaded : res string Config) : M Main string unit :=
  proxy_config ← lift (expect loaded);
  let https_address := default "" (https_address (cfg_server proxy_config)) in
  let le_address := default "" (http_address (cfg_server proxy_config)) in
  _ ← modify (set_subscriber (subscriber (cfg_logging proxy_config)));
  _ ← init_global_store (cfg_store proxy_config);
  let opts := pingora_opts proxy_config in
  _ ← lift (server_new opts);
  _ ← lift (server_bootstrap opts);
  let http_public_service := mkHttpService [Tcp le_address] None in
  tls_settings ← lift tls_settings;
  let https_secure_service :=
    mkHttpService [Tls https_address tls_settings] (worker_threads proxy_config) in
  _ ← modify (set_server (mkServer opts true
        [BackgroundServices proxy_config; LoggerReceiver proxy_config;
         PublicHttp http_public_service; SecureHttps https_secure_service]));
  modify run_forever.

(** ** Lemmas *)

Lemma dyn_outcome {A} (m : M MemoryStore string A) (r : M RedisStore string A) s x s' :
  dyn m r s = (x, s') →
  match s with
  | Dyn_Memory s => ∃ s1, m s = (x, s1) ∧ s' = Dyn_Memory s1
  | Dyn_Redis s => ∃ s1, r s = (x, s1) ∧ s' = Dyn_Redis s1
  end.
Proof.
  unfold dyn. destruct s as [s|s]; [destruct (m s)|destruct (r s)]; intros [= <- <-]; by eexists.
Qed.

Lemma DynStore_spec : RedisLaws → StoreSpec DynStore.
Proof.
  intros Hl.
  split; [intros d s x s' E|intros d c s x s' E|intros s x s' E|intros d s x s' E|intros d tok prf s x s' E];
    apply dyn_outcome in E; destruct s as [s|s]; destruct E as (s1 & E & ->);
    first [exact (get_certificate_spec _ _ _ _ E)|exact (set_certificate_spec _ _ _ _ _ E)
          |exact (get_certificates_spec _ _ _ E)|exact (get_challenge_spec _ _ _ _ E)
          |exact (set_challenge_spec _ _ _ _ _ _ E)].
Qed.

(** A store that can be opened. *)
Definition store_opens (config : StoreConfig) (store : DynStore) : Prop :=
  match store_type config with
  | StoreType_Memory => store = Dyn_Memory MemoryStore_new
  | StoreType_Redis =>
      ∃ url client, redis_url config = Some url ∧ pool_open url = Some client ∧
        store = Dyn_Redis (RedisStore_new client)
  end.

Lemma init_global_store_ok config s s' :
  init_global_store config s = (Ok tt, s') → ∃ store, store_opens config store ∧ s' = set_store store s.
Proof.
  unfold init_global_store, store_opens, mbind, M_bind, lift, modify, unwrap, expect, ok_or.
  destruct (store_type config); [intros [= <-]; by eexists|].
  destruct (redis_url config) as [url|]; [|done]. destruct (pool_open url) as [client|] eqn:Ec; [|done].
  intros [= <-]. eexists. split; [by exists url, client|done].
Qed.

Lemma init_global_store_opens config s store :
  store_opens config store → init_global_store config s = (Ok tt, set_store store s).
Proof.
  unfold init_global_store, store_opens, mbind, M_bind, lift, modify, unwrap, expect, ok_or.
  destruct (store_type config); [by intros ->|]. intros (url & client & -> & Hc & ->). by rewrite Hc.
Qed.
(** What runs when start-up has succeeded. *)
Definition running (config : Config) (store : DynStore) : Main :=
  mkMain _ _ (Some (subscriber (cfg_logging config))) (Some store)
    (Some (mkServer (pingora_opts config) true
       [BackgroundServices config; LoggerReceiver config;
        PublicHttp (mkHttpService [Tcp (default "" (http_address (cfg_server config)))] None);
        SecureHttps (mkHttpService
          [Tls (default "" (https_address (cfg_server config)))
             (mkTlsSettings true true (Some TLS1_2) (Some TLS1_3))]
          (worker_threads config))]))
    true.

(** The calls of Pingora and OpenSSL that start-up makes succeed. *)
Definition server_accepts (config : Config) : Prop :=
  server_new (pingora_opts config) = Ok tt ∧ server_bootstrap (pingora_opts config) = Ok tt ∧
  tls_with_callbacks = Ok tt ∧ set_min_proto TLS1_2 = Ok tt ∧ set_max_proto TLS1_3 = Ok tt.

Lemma main_ok loaded s' :
  main loaded nothing_started = (Ok tt, s') ↔
  ∃ config store, loaded = Ok config ∧ store_opens (cfg_store config) store ∧
    server_new (pingora_opts config) = Ok tt ∧ server_bootstrap (pingora_opts config) = Ok tt ∧
    tls_with_callbacks = Ok tt ∧ set_min_proto TLS1_2 = Ok tt ∧ set_max_proto TLS1_3 = Ok tt ∧ s' = running config store.
Proof.
  unfold main, tls_settings, mbind, M_bind, res_bind, lift, modify. split.
  - destruct loaded as [config|e|]; [|done..]. simpl.
    destruct (init_global_store _ _) as [[[]|e|] s1] eqn:Es; [|done..].
    destruct (init_global_store_ok _ _ _ Es) as (store & Hopen & ->).
    destruct (server_new _) as [[]|e|] eqn:En; [|done..].
    destruct (server_bootstrap _) as [[]|e|] eqn:Eb; [|done..].
    destruct tls_with_callbacks as [[]|e|]; [|done..]. simpl.
    destruct (set_min_proto _) as [[]|e|]; [|done..]. simpl.
    destruct (set_max_proto _) as [[]|e|]; [|done..]. intros [= <-].
    by exists config, store.
  - intros (config & store & -> & Hopen & Hn & Hb & Ht & Hmin & Hmax & ->). simpl.
    rewrite (init_global_store_opens _ _ _ Hopen), Hn, Hb, Ht. simpl. rewrite Hmin. simpl. by rewrite Hmax.
Qed.
End main.

(** ** Properties *)

Section properties.
Context `{Base64, Pki, StartApi, CertJson}.

(** The trait object keeps the contract of the [Store] trait, whichever store
    it holds: what is proved of the proxy against the interface holds of the
    store that [main] installs. *)
Theorem dyn_store_contract : RedisLaws → StoreSpec DynStore.
Proof. apply DynStore_spec. Qed.

(** Start-up gets to [run_forever] exactly when the configuration loads, its
    store can be opened and Pingora accepts the options, bootstraps and accepts
    the TLS versions.
    What runs then: a store of the configured type, installed before any
    service, and four services in this order, the background services, the
    logger, the HTTP front on its address, the HTTPS proxy on its own with the
    configured threads, HTTP/2, and TLS from 1.2 to 1.3. *)
Theorem main_runs_iff loaded s' :
  main loaded nothing_started = (Ok tt, s') ↔
  ∃ config store, loaded = Ok config ∧ store_opens (cfg_store config) store ∧
    server_new (pingora_opts config) = Ok tt ∧ server_bootstrap (pingora_opts config) = Ok tt ∧
    tls_with_callbacks = Ok tt ∧ set_min_proto TLS1_2 = Ok tt ∧ set_max_proto TLS1_3 = Ok tt ∧
    s' = mkMain _ _ (Some (subscriber (cfg_logging config))) (Some store)
      (Some (mkServer (pingora_opts config) true
         [BackgroundServices config; LoggerReceiver config;
          PublicHttp (mkHttpService [Tcp (default "" (http_address (cfg_server config)))] None);
          SecureHttps (mkHttpService
            [Tls (default "" (https_address (cfg_server config)))
               (mkTlsSettings true true (Some TLS1_2) (Some TLS1_3))]
            (worker_threads config))]))
      true.
Proof. apply main_ok. Qed.

(** A configuration that asks for Redis without a URL passes validation, but
    start-up panics on it, with the logs set up and no service; the Let's
    Encrypt service would have used a default URL. *)
Theorem redis_without_url_panics config
    (Hvalid : check_config config = Ok tt)
    (Hredis : store_type (cfg_store config) = StoreType_Redis)
    (Hurl : redis_url (cfg_store config) = None) :
  main (Ok config) nothing_started =
    (Panic, mkMain _ _ (Some (subscriber (cfg_logging config))) None None false).
Proof.
  unfold main, init_global_store, mbind, M_bind, lift, modify, unwrap. simpl. by rewrite Hredis, Hurl.
Qed.
End properties.

(** ** Witnesses *)

Definition toy_start_api : @StartApi toy_redis := {|
  pool_open := λ _, Some (@pool toy_pki toy_redis toy_store);
  server_new := λ _, Ok tt;
  server_bootstrap := λ _, Ok tt;
  tls_with_callbacks := Ok tt;
  set_min_proto := λ _, Ok tt;
  set_max_proto := λ _, Ok tt |}.
#[local] Existing Instances toy_base64 toy_pki toy_redis toy_json toy_start_api.

Definition redis_config : Config :=
  mkConfig "proksi" (mkStoreConfig StoreType_Redis None) (cfg_server Config_default) false false (Some 1%N) None
    (cfg_logging Config_default) AutoReload_default Docker_default LetsEncrypt_default Path_default [].

Lemma dyn_store_contract_witness : StoreSpec DynStore.
Proof. apply (dyn_store_contract toy_redis_laws). Defined.

Lemma redis_without_url_panics_witness :
  check_config redis_config = Ok tt ∧ fst (main (Ok redis_config) nothing_started) = Panic ∧
  mn_server (snd (main (Ok redis_config) nothing_started)) = None.
Proof.
  assert (Hv : check_config redis_config = Ok tt) by reflexivity.
  rewrite (redis_without_url_panics redis_config Hv eq_refl eq_refl). by split_and!.
Defined.

Lemma main_runs_iff_witness :
  (srv_services <$> mn_server (snd (main (Ok Config_default) nothing_started))) =
  Some [BackgroundServices Config_default; LoggerReceiver Config_default;
        PublicHttp (mkHttpService [Tcp "0.0.0.0:80"] None);
        SecureHttps (mkHttpService
          [Tls "0.0.0.0:443" (mkTlsSettings true true (Some TLS1_2) (Some TLS1_3))] (Some 2%N))].
Proof.
  assert (E : main (Ok Config_default) nothing_started = (Ok tt, snd (main (Ok Config_default) nothing_started)))
    by reflexivity.
  apply main_runs_iff in E as (config & store & Hc & _ & _ & _ & _ & _ & _ & ->). by injection Hc as <-.
Defined.
