(* ===== verification/Restart.v ===== *)
(** Reloading as it ends (services/config/mod.rs with main.rs, services/mod.rs
    and config/mod.rs): an event of the file watcher replaces the process
    image, and the new image goes through start-up, with the start of all its
    services, as the first one did. The state is the process; a step is
    something that happens to it, with what the world looks like then: an event
    of the watcher, a turn of a background service, a TLS handshake, a request
    to either front. A panic of any of them ends the process. *)
From S2P Require Import Prelude Strs Config Stores Http Routes Router HttpLb Discovery RouteTable HealthCheck AcmeStorage LetsEncrypt Issuance Docker Reload Background Startup.
#[local] Open Scope string_scope.
#[local] Open Scope list_scope.

(** ** State *)

Section state.
Context `{HttpApi, LbApi, PathTreeApi, Pki, RedisApi} `{!PersistApi, !AcmeApi DynStore, Broadcast, !SslApi}.

(** The world at one moment: the file system as [load], the watcher and the
    certificates of the routes see it, what [Figment::extract] makes of it,
    [current_exe], whether [exec] succeeds, the calls of start-up that can
    fail, the resolver, the clients of Docker, what is outside the process, and
    the listeners that Pingora can bind. *)
Record Moment := mkMoment {
  m_is_file : string → bool;
  m_exists : string → bool;
  m_extract : list FigmentSource → res string Config;
  m_cwd : option string;
  m_watch : string → bool;
  m_exe : option string;
  m_exec : bool;
  m_start : StartApi;
  m_dns : Dns;
  m_files : Discovery.Files;
  m_docker : DockerApi;
  m_outside : Outside;
  m_binds : Listener → bool }.

(** A proxy that runs: the moment it was started at, its command line (the
    program first), the configuration it was started with, what [main] set up,
    what the start of the background services left, and their state now, the
    routes and the store of certificates included. *)
Record Running := mkRunning {
  run_at : Moment;
  run_args : list string;
  run_config : Config;
  run_main : Main;
  run_joined : @Joined DynStore _ _ _ _ (m_docker run_at);
  run_bg : Background DynStore }.

(** What happens: the watcher names paths, or an error; a turn of a background
    service; a handshake; a request to the HTTP front; a request to the HTTPS
    proxy, which changes neither routes nor store: only whether one of its
    phases panics matters here. *)
Inductive Happening :=
| Notified (notif : option (list string))
| Turn (e : BgEvent)
| Handshake (ssl : Ssl)
| FrontRequest (session : Session)
| ProxyRequest (r : res error unit).
Definition Event : Type := Moment * Happening.

Definition set_bg (bg : Background DynStore) (r : Running) : Running :=
  mkRunning (run_at r) (run_args r) (run_config r) (run_main r) (run_joined r) bg.

(** The paths that are watched, [None] when the watcher returned at once. *)
Definition run_watched (r : Running) : option (list string) :=
  _ ← j_poll (run_joined r); Some (bg_watched (run_bg r)).
End state.

(** ** Definitions *)

Section restart.
Context `{HttpApi, LbApi, PathTreeApi, LabelJson, SocketText, RouteIter, UriBuilder, Base64, Pki, RedisApi, CertJson}.
Context `{!PersistApi, !AcmeApi DynStore, Broadcast, !SslApi, !StoreIter}.
(** clap's [Config::parse] on what follows the program; it ends the process
    when it fails. *)
Context (parse : list string → option Config).
(** The rounds of the loops that a turn of the Let's Encrypt service is given. *)
Context (fuel : nat).

(** What [load] returns to [main]. *)
Definition load_now (m : Moment) (parsed : Config) : res string Config :=
  load (m_is_file m) (m_exists m) (m_extract m) parsed "/etc/proksi/configs".

(** The services when [main] starts them: [broadcast::channel(10)], and no
    route. *)
Definition unstarted (m : Moment) (s : Main) : Background DynStore :=
  mkBackground (mkSys _ _ ∅ None) (mn_store s) (m_outside m) (channel 10) None [].
Definition services_now (m : Moment) (config : Config) (s : Main)
    : res string (@Joined DynStore _ _ _ _ (m_docker m)) * Background DynStore :=
  BackgroundFunctionService_start (H0 := m_dns m) (H5 := m_files m) (H6 := m_docker m)
    (m_cwd m) (m_exists m) (m_watch m) config (unstarted m s).

(** [run_forever] opens the listeners of every service; it ends the process
    when one of them cannot be bound. *)
Definition service_listeners (service : AnyService) : list Listener :=
  match service with
  | PublicHttp s | SecureHttps s => hs_listeners s
  | BackgroundServices _ | LoggerReceiver _ => []
  end.
Definition listens (m : Moment) (s : Main) : bool :=
  match mn_server s with
  | Some server => forallb (m_binds m) (srv_services server ≫= service_listeners)
  | None => true
  end.

(** A process from its start, [None] when it ends before or in start-up. The
    start of the logger does not panic ([prepare_returns] of Logger). *)
Definition boot (m : Moment) (args : list string) : option Running :=
  parsed ← parse (drop 1 args);
  match load_now m parsed, main (H2 := m_start m) (load_now m parsed) nothing_started with
  | Ok config, (Ok _, s) =>
      match services_now m config s with
      | (Ok joined, bg) => if listens m s then Some (mkRunning m args config s joined bg) else None
      | _ => None
      end
  | _, _ => None
  end.

(** What is left of a result that may be a panic. *)
Definition unless_panic {E A B} (x : res E A * B) : option B :=
  match x with (Panic, _) => None | (_, b) => Some b end.

Definition set_cell (cell : option DynStore) (s : Background DynStore) : Background DynStore :=
  mkBackground (bg_sys s) cell (bg_outside s) (bg_channel s) (bg_receiver s) (bg_watched s).

(** What happens to the state of the services; [None] is a panic. *)
Definition bg_happens (r : Running) (m : Moment) (h : Happening) : option (Background DynStore) :=
  match h with
  | Notified _ => Some (run_bg r)
  | Turn e =>
      match bg_run (H0 := m_dns m) fuel (run_config r) (run_joined r) e (run_bg r) with
      | Some x => unless_panic x
      | None => Some (run_bg r)
      end
  | Handshake ssl =>
      '(cell, _) ← unless_panic (certificate_callback (bg_store (run_bg r), ssl));
      Some (set_cell cell (run_bg r))
  | FrontRequest session =>
      front ← unless_panic (HttpLB_request_filter (mkFront (bg_store (run_bg r)) session));
      Some (set_cell (global_store front) (run_bg r))
  | ProxyRequest x => unless_panic (x, run_bg r)
  end.

(** One event; the process that gets SIGQUIT ends. *)
Definition on_event (r : Running) (e : Event) : option Running :=
  let '(m, h) := e in
  match h, run_watched r with
  | Notified notif, Some _ =>
      match handle_event (mkProcess (m_exe m) (run_args r) (m_exec m)) notif with
      | Ignored => Some r
      | Replaced cmd args => boot m (cmd :: args)
      | Quit_sent _ _ => None
      end
  | _, _ => bg ← bg_happens r m h; Some (set_bg bg r)
  end.

Fixpoint on_events (r : Running) (es : list Event) : option Running :=
  match es with
  | [] => Some r
  | e :: es => r' ← on_event r e; on_events r' es
  end.

(** The image that goes on: what happens to its services, event by event. *)
Fixpoint goes_on (r : Running) (es : list Event) : option Running :=
  match es with
  | [] => Some r
  | (m, h) :: es => bg ← bg_happens r m h; goes_on (set_bg bg r) es
  end.

(** ** Lemmas *)

(** What a start takes: a command line that parses, a configuration that loads
    (and is valid then), a store that opens, calls that Pingora accepts, the
    start of every background service, and listeners that can be bound. *)
Record starts (m : Moment) (args : list string) (r : Running) : Prop := {
  st_at : run_at r = m;
  st_args : run_args r = args;
  st_parsed : ∃ parsed, parse (drop 1 args) = Some parsed ∧ load_now m parsed = Ok (run_config r);
  st_valid : valid_config (run_config r);
  st_main : ∃ store, @store_opens _ _ (m_start m) (cfg_store (run_config r)) store ∧
    run_main r = running (run_config r) store;
  st_accepted : server_accepts (H2 := m_start m) (run_config r);
  st_services : services_now (run_at r) (run_config r) (run_main r) = (Ok (run_joined r), run_bg r);
  st_listens : listens m (run_main r) = true }.

Lemma load_now_valid m parsed config : load_now m parsed = Ok config → valid_config config.
Proof. intros Hl. unfold load_now, load in Hl. by apply load_from_path_Ok in Hl as [_ Hv]. Qed.

Lemma boot_starts m args r : boot m args = Some r ↔ starts m args r.
Proof.
  unfold boot. split.
  - destruct (parse (drop 1 args)) as [parsed|] eqn:Hp; [|done]. simpl.
    destruct (load_now m parsed) as [config|e|] eqn:Hl; [|done..].
    destruct (main (H2 := m_start m) (Ok config) nothing_started) as [[[]|e|] s] eqn:Hm; [|done..].
    destruct (services_now m config s) as [[joined|e|] bg] eqn:Hs; [|done..].
    destruct (listens m s) eqn:Hli; [|done]. intros [= <-].
    apply main_ok in Hm as (c & store & [= <-] & Hopen & Hn & Hb & Ht & Hmin & Hmax & ->).
    split; simpl; [done..|by exists parsed|by eapply load_now_valid|by exists store|by split_and!|done|done].
  - destruct r as [at_ args' config s joined bg].
    intros [Ha Hargs (parsed & Hp & Hl) _ (store & Hopen & Hmain) (Hn & Hb & Ht & Hmin & Hmax) Hs Hli].
    simpl in *. subst at_ args'. rewrite Hp. simpl. rewrite Hl.
    rewrite (proj2 (main_ok (H2 := m_start m) (Ok config) (running config store))).
    + rewrite <- Hmain, Hs. by rewrite Hli.
    + exists config, store. by split_and!.
Qed.

(** An event that ends the running image. *)
Definition restarts (r : Running) (e : Event) : Prop :=
  is_Some (run_watched r) ∧ is_Some (m_exe e.1) ∧
  ∃ paths path, e.2 = Notified (Some paths) ∧ path ∈ paths ∧ path_extension path = Some "hcl".

(** The command line of the image that replaces it. *)
Definition next_args (r : Running) (m : Moment) : list string :=
  default "" (m_exe m) :: drop 1 (run_args r).

(** Its decision, as [handle_event] takes it. *)
Definition restartsb (r : Running) (e : Event) : bool :=
  bool_decide (is_Some (run_watched r)) && bool_decide (is_Some (m_exe e.1)) &&
  match e.2 with Notified (Some paths) => existsb is_hcl_path paths | _ => false end.

Lemma restartsb_spec r e : restartsb r e = true ↔ restarts r e.
Proof.
  unfold restartsb, restarts. rewrite !andb_true_iff, !bool_decide_eq_true. split.
  - intros [[Hw Hx] He]. split_and!; [done..|]. destruct (e.2) as [[paths|]| | | |]; try done.
    apply existsb_exists in He as (path & Hin & Hext). apply bool_decide_eq_true in Hext.
    exists paths, path. by rewrite list_elem_of_In.
  - intros (Hw & Hx & paths & path & He & Hin & Hext). split; [done|]. rewrite He.
    apply existsb_exists. exists path. split; [by rewrite <- list_elem_of_In|by apply bool_decide_eq_true].
Qed.

#[export] Instance restarts_dec r e : Decision (restarts r e).
Proof. refine (cast_if (decide (restartsb r e = true))); by rewrite <- restartsb_spec. Defined.

Lemma set_same_bg (r : Running) : set_bg (run_bg r) r = r.
Proof. by destruct r. Qed.

(** An event either leaves the image alone or tries to replace it. *)
Lemma on_event_spec r m h :
  on_event r (m, h) =
  if decide (restarts r (m, h)) then (if m_exec m then boot m (next_args r m) else None)
  else bg ← bg_happens r m h; Some (set_bg bg r).
Proof.
  destruct (restartsb r (m, h)) eqn:Hb.
  - rewrite decide_True by (by apply restartsb_spec). unfold restartsb in Hb. simpl in *.
    rewrite !andb_true_iff, !bool_decide_eq_true in Hb. destruct Hb as [[[l ->] [cmd Hc]] Hp].
    destruct h as [[paths|]| | | |]; try done. unfold handle_event, next_args. simpl in *. rewrite Hp, Hc. simpl.
    by destruct (m_exec m).
  - rewrite decide_False by (by rewrite <- restartsb_spec, Hb). unfold restartsb in Hb. simpl in *.
    destruct h as [notif| | | |]; try done. destruct (run_watched r) as [l|]; [|done]. simpl. rewrite set_same_bg.
    unfold handle_event. destruct notif as [paths|]; [|done].
    simpl in *. destruct (existsb is_hcl_path paths); [|done]. by destruct (m_exe m).
Qed.

Lemma restarts_set_bg bg r e : restarts (set_bg bg r) e ↔ restarts r e.
Proof. unfold restarts, run_watched. simpl. by destruct (j_poll (run_joined r)); split; intros [[] ?]. Qed.

Lemma on_events_app r es1 es2 :
  on_events r (es1 ++ es2) = r' ← on_events r es1; on_events r' es2.
Proof. revert r. induction es1 as [|e es1 IH]; intros r; [done|]. simpl. by destruct (on_event r e); simpl. Qed.

Lemma goes_on_snoc r es m h r' :
  goes_on r es = Some r' → goes_on r (es ++ [(m, h)]) = bg ← bg_happens r' m h; Some (set_bg bg r').
Proof.
  revert r. induction es as [|[m1 h1] es IH]; intros r; simpl; [by intros [= ->]|].
  destruct (bg_happens r m1 h1) as [bg|]; [|done]. simpl. apply IH.
Qed.

(** Only the state of the services changes as it goes on. *)
Lemma goes_on_image r es r' : goes_on r es = Some r' → r' = set_bg (run_bg r') r.
Proof.
  revert r. induction es as [|[m h] es IH]; intros r; simpl; [intros [= ->]; by rewrite set_same_bg|].
  destruct (bg_happens r m h) as [bg|]; [|done]. simpl. by intros ->%IH.
Qed.

(** The store of a process that has just started with the in-memory store: no
    challenge, and no certificate but those its configuration names. *)
Lemma starts_empty m args r d :
  RedisLaws → starts m args r → store_type (cfg_store (run_config r)) = StoreType_Memory →
  ∃ store, bg_store (run_bg r) = Some store ∧ challenges_of store d = None ∧
    (¬ configures_certificate (run_config r) d → certs_of store d = None).
Proof.
  intros Hl Hs Hm. pose proof (DynStore_spec Hl) as Hspec. destruct (st_main _ _ _ Hs) as (store & Hopen & Hmain).
  unfold store_opens in Hopen. rewrite Hm in Hopen. subst store.
  pose proof (st_services _ _ _ Hs) as Hser. rewrite Hmain in Hser.
  destruct (start_store _ _ _ _ _ _ _ Hser _ eq_refl) as (store & E & Hch & Hc).
  exists store. split; [done|]. split; [by rewrite Hch|]. intros Hd. by rewrite Hc.
Qed.

(** A configuration whose routing service panics as it starts: a route, the
    first of its host, has a header that is not valid, and upstreams that
    resolve. *)
Definition header_stops (m : Moment) (config : Config) : Prop := ∃ pre route post,
  cfg_routes config = pre ++ route :: post ∧ route_host route ∉ route_host <$> pre ∧
  bad_route (H0 := m_dns m) route.

Lemma starts_without m args r : starts m args r → ¬ header_stops m (run_config r).
Proof.
  intros Hs (pre & route & post & Hr & Hnot & Hbad). pose proof (st_services _ _ _ Hs) as Hser.
  pose proof (st_at _ _ _ Hs) as <-. by eapply start_stops in Hbad.
Qed.

(** What came before a process that is up, or down, after some events. *)
Definition up_since (m0 : Moment) (es : list Event) (r : Running) : Prop :=
  ∃ before m h after r1,
    (m0, Notified None) :: es = before ++ (m, h) :: after ∧ starts m (run_args r) r1 ∧
    Forall (λ e, ¬ restarts r1 e) after ∧ goes_on r1 after = Some r.
Definition down_since (r0 : Running) (es : list Event) : Prop :=
  ∃ before m h after r,
    es = before ++ (m, h) :: after ∧ on_events r0 before = Some r ∧
    if decide (restarts r (m, h)) then m_exec m = false ∨ ∀ r', ¬ starts m (next_args r m) r'
    else bg_happens r m h = None.

Lemma down_since_app r0 es es' : down_since r0 es → down_since r0 (es ++ es').
Proof.
  intros (before & m & h & after & r & -> & Hrest). exists before, m, h, (after ++ es'), r.
  by rewrite <- app_assoc.
Qed.

Lemma history m0 args r0 es :
  boot m0 args = Some r0 →
  match on_events r0 es with
  | Some r => up_since m0 es r ∧ drop 1 (run_args r) = drop 1 args
  | None => down_since r0 es
  end.
Proof.
  intros Hb. apply boot_starts in Hb. induction es as [|[m h] es IH] using rev_ind; simpl.
  - split; [|by rewrite (st_args _ _ _ Hb)]. exists [], m0, (Notified None), [], r0.
    split_and!; [done| |done..]. by rewrite (st_args _ _ _ Hb).
  - rewrite on_events_app. destruct (on_events r0 es) as [r|] eqn:Hr; [|by apply down_since_app].
    destruct IH as [Hup Hargs]. cbn [mbind option_bind on_events]. rewrite on_event_spec.
    destruct (decide (restarts r (m, h))) as [Hres|Hres]; cbn [mbind option_bind].
    + destruct (m_exec m) eqn:He; cbn [mbind option_bind];
        [|exists es, m, h, [], r; rewrite decide_True by done; split_and!; auto].
      destruct (boot m (next_args r m)) as [r'|] eqn:Hb'; cbn [mbind option_bind].
      * apply boot_starts in Hb'. pose proof (st_args _ _ _ Hb') as Ha. split; [|by rewrite Ha].
        exists ((m0, Notified None) :: es), m, h, [], r'. rewrite Ha. by split_and!.
      * exists es, m, h, [], r. rewrite decide_True by done. split_and!; auto. right.
        intros r' Hs%boot_starts. congruence.
    + destruct (bg_happens r m h) as [bg|] eqn:Hbg; cbn [mbind option_bind];
        [|exists es, m, h, [], r; rewrite decide_False by done; by split_and!].
      split; [|done]. destruct Hup as (before & m1 & h1 & after & r1 & Heq & Hs & Hall & Hgo).
      exists before, m1, h1, (after ++ [(m, h)]), r1.
      apply (f_equal (.++ [(m, h)])) in Heq. rewrite <- app_assoc in Heq.
      split_and!; [done..| |by rewrite (goes_on_snoc _ _ _ _ _ Hgo), Hbg]. apply Forall_app. split; [done|].
      constructor; [|done]. by rewrite <- (restarts_set_bg (run_bg r)), <- (goes_on_image _ _ _ Hgo).
Qed.
End restart.

(** ** Properties *)

Section properties.
Context `{HttpApi, LbApi, PathTreeApi, LabelJson, SocketText, RouteIter, UriBuilder, Base64, Pki, RedisApi, CertJson}.
Context `{!PersistApi, !AcmeApi DynStore, Broadcast, !SslApi, !StoreIter}.
Context (parse : list string → option Config) (fuel : nat).

(** C21. A change of an .hcl file replaces the running proxy at once; a proxy runs
    afterwards exactly when [exec] succeeds and the same command line, with
    the world as it is then, goes through start-up, the start of every
    background service and the binding of the listeners included. It is the
    freshly started one: with the in-memory store, it has no challenge, and no
    certificate but those its configuration names, whatever the replaced one
    held. When the new configuration does not load, or has a header that is
    not valid on the first route of a host with upstreams that resolve, no
    proxy runs any more, whatever happens afterwards. *)
Theorem reload_survives_iff (Hl : RedisLaws) r m notif (Hr : restarts r (m, Notified notif)) :
  (∀ r', on_event parse fuel r (m, Notified notif) = Some r' ↔
     m_exec m = true ∧ starts parse m (next_args r m) r') ∧
  (∀ r' d, on_event parse fuel r (m, Notified notif) = Some r' →
     store_type (cfg_store (run_config r')) = StoreType_Memory →
     ∃ store, bg_store (run_bg r') = Some store ∧ challenges_of store d = None ∧
       (¬ configures_certificate (run_config r') d → certs_of store d = None)) ∧
  ((∀ parsed config, parse (drop 1 (run_args r)) = Some parsed → load_now m parsed = Ok config →
      header_stops m config) →
   ∀ es, on_events parse fuel r ((m, Notified notif) :: es) = None).
Proof.
  assert (Hiff : ∀ r', on_event parse fuel r (m, Notified notif) = Some r' ↔
                   m_exec m = true ∧ starts parse m (next_args r m) r').
  { intros r'. rewrite on_event_spec, decide_True by done.
    destruct (m_exec m); [rewrite boot_starts|]; naive_solver. }
  split_and!; [done| |].
  - intros r' d Ho Hm. apply Hiff in Ho as [_ Hs]. by eapply starts_empty.
  - intros Hstop es.
    change (on_events parse fuel r ((m, Notified notif) :: es))
      with (r' ← on_event parse fuel r (m, Notified notif); on_events parse fuel r' es).
    destruct (on_event parse fuel r (m, Notified notif)) as [r'|] eqn:Ho; [|done].
    destruct (proj1 (Hiff r') eq_refl) as [_ Hs]. destruct (st_parsed _ _ _ _ Hs) as (parsed & Hp & Hload).
    destruct (starts_without _ _ _ _ Hs). by eapply Hstop.
Qed.

(** C22. After any sequence of events, a proxy that runs has the arguments of the
    first start and a valid configuration: it was started at one of the
    moments, no event since then replaced it, and its routes and its store are
    what the turns of its services, the handshakes and the requests made of
    those it was started with. When none runs, there is the event that ended
    the last one: a restart whose [exec] or start-up failed, or a panic of a
    service, a handshake or a request. *)
Theorem reload_history m0 args r0 es (Hb : boot parse m0 args = Some r0) :
  match on_events parse fuel r0 es with
  | Some r => up_since parse fuel m0 es r ∧ drop 1 (run_args r) = drop 1 args ∧ valid_config (run_config r)
  | None => down_since parse fuel r0 es
  end.
Proof.
  pose proof (history parse fuel m0 args r0 es Hb) as Hh. destruct (on_events parse fuel r0 es) as [r|]; [|done].
  destruct Hh as [Hup Ha]. split_and!; [done..|].
  destruct Hup as (? & ? & ? & ? & r1 & _ & Hs & _ & Hgo). rewrite (goes_on_image _ _ _ _ Hgo).
  exact (st_valid _ _ _ _ Hs).
Qed.

(** C23. With the Redis store nothing is lost: a certificate that was stored before
    a reload is returned by the store of the new process, when its connection
    reads what the old one wrote. *)
Theorem reload_keeps_redis (Hb : Base64Laws) (Hp : PkiLaws) (Hj : CertJsonLaws) (Hl : RedisLaws)
    r e r' (a a' : RedisStore) d c
    (Hready : pem_ready c) (Hset : set_certificate d c (Dyn_Redis a) = (Ok tt, Dyn_Redis a'))
    (He : restarts r e) (Hev : on_event parse fuel r e = Some r')
    (Hredis : store_type (cfg_store (run_config r')) = StoreType_Redis)
    (Hopen : ∀ url client, redis_url (cfg_store (run_config r')) = Some url →
       @pool_open _ (m_start e.1) url = Some client →
       pool_get client = true ∧ ∀ k, redis_get client k = redis_get (pool a') k) :
  ∃ store, mn_store (run_main r') = Some store ∧ fst (get_certificate d store) = Ok (Some c).
Proof.
  destruct e as [m h]. rewrite on_event_spec, decide_True in Hev by done.
  destruct (m_exec m); [|done]. apply boot_starts in Hev.
  destruct (st_main _ _ _ _ Hev) as (store & Hstore & Hmain). rewrite Hmain. exists store. split; [done|].
  unfold store_opens in Hstore. rewrite Hredis in Hstore. destruct Hstore as (url & client & Hurl & Hclient & ->).
  destruct (Hopen _ _ Hurl Hclient) as [Hup Hsame].
  simpl in Hset. destruct (RedisStore_set_certificate d c a) as [x a1] eqn:Ea. injection Hset as -> ->.
  pose proof (set_certificate_writes _ _ _ _ Hready Ea) as Hw. unfold redis_cert in Hw. rewrite <- Hsame in Hw.
  simpl. unfold RedisStore_get_certificate. munfold. rewrite load_from_redis_eq. simpl.
  by rewrite lookup_empty, Hup; unfold redis_cert; rewrite Hw.
Qed.
End properties.

(** ** Witnesses *)

#[local] Existing Instances toy_http toy_uri toy_lb toy_pt toy_label_json toy_socket toy_route_iter toy_base64
  toy_pki toy_redis toy_json toy_persist toy_ssl toy_broadcast toy_store_iter.

Definition dyn_acme : AcmeApi DynStore :=
  toy_authority name_of token_of (λ a s, match s with Dyn_Memory s => http_accepts a s | Dyn_Redis _ => false end)
    89 true.
#[local] Existing Instance dyn_acme.

(** A directory with one HCL file, which reloading is switched on in. *)
Definition site (threads : N) (store : StoreConfig) (routes : list Route) : Config :=
  {| service_name := "proksi"; cfg_store := store;
     cfg_server := cfg_server Config_default; cfg_daemon := false; cfg_upgrade := false;
     worker_threads := Some threads; config_path := Some "/etc/proksi"; cfg_logging := cfg_logging Config_default;
     cfg_auto_reload := mkAutoReload (Some true) (Some 5%N) [];
     cfg_docker := Docker_default; cfg_lets_encrypt := LetsEncrypt_default; cfg_paths := Path_default;
     cfg_routes := routes |}.

(** The moment at which the file holds this configuration. *)
Definition at_config (config : Config) (start : StartApi) : Moment := {|
  m_is_file := λ _, false; m_exists := λ f, String.eqb f "/etc/proksi/proksi.hcl"; m_extract := λ _, Ok config;
  m_cwd := Some "/"; m_watch := λ _, true; m_exe := Some "/usr/bin/proksi"; m_exec := true; m_start := start;
  m_dns := toy_dns; m_files := toy_files; m_docker := toy_docker;
  m_outside := mkToyOutside [] ∅ nothing_persisted; m_binds := λ _, true |}.
Definition at_threads (threads : N) : Moment :=
  at_config (site threads StoreConfig_default [web_route None]) toy_start_api.
Definition one_command (args : list string) : option Config :=
  if bool_decide (args = ["-c"; "/etc/proksi"]) then Some (site 1 StoreConfig_default []) else None.
Definition hcl_change : Happening := Notified (Some ["/etc/proksi/proksi.hcl"]).
Definition hcl_changed (threads : N) : Event := (at_threads threads, hcl_change).
Definition first_args : list string := ["proksi"; "-c"; "/etc/proksi"].

Definition no_service : @Joined DynStore _ _ _ _ toy_docker :=
  mkJoined (mkLabelService Config_default ("local" : @DockerClient toy_docker)) false None None.
Definition started : Running :=
  default (mkRunning (at_threads 2) [] Config_default nothing_started no_service
             (unstarted (at_threads 2) nothing_started))
    (boot one_command (at_threads 2) first_args).

(** A route with a header whose name has a line feed in it. *)
Definition bad_header_route : Route :=
  mkRoute "b.test" None None None None
    (Some (mkRouteHeader (Some [mkRouteHeaderAdd (String "010" "x") "1"]) None)) [web] None.
Definition bad_site : Config := site 3 StoreConfig_default [web_route None; bad_header_route].

Lemma reload_survives_iff_witness :
  (∃ r', on_event one_command 2 started (hcl_changed 3) = Some r' ∧ worker_threads (run_config r') = Some 3%N ∧
     starts one_command (at_threads 3) ["/usr/bin/proksi"; "-c"; "/etc/proksi"] r' ∧
     is_Some (bg_routes (run_bg r') !! "a.test")) ∧
  on_events one_command 2 started [hcl_changed 0; hcl_changed 3] = None ∧
  on_events one_command 2 started [(at_config bad_site toy_start_api, hcl_change); hcl_changed 3] = None.
Proof.
  assert (Hr : ∀ m, m_exe m = Some "/usr/bin/proksi" → restarts started (m, hcl_change)).
  { intros m Hm. apply restartsb_spec. unfold restartsb. cbn [fst snd]. rewrite Hm. reflexivity. }
  split_and!.
  - destruct (reload_survives_iff one_command 2 toy_redis_laws started (at_threads 3) _ (Hr (at_threads 3) eq_refl)) as [Hiff _].
    destruct (on_event one_command 2 started (hcl_changed 3)) as [r'|] eqn:Ho; [|discriminate Ho].
    exists r'. split; [reflexivity|]. destruct (proj1 (Hiff r') Ho) as [_ Hs].
    assert (Hw : (worker_threads ∘ run_config <$> Some r') = Some (Some 3%N)) by (rewrite <- Ho; reflexivity).
    assert (Ha : ((λ r, bool_decide (is_Some (bg_routes (run_bg r) !! "a.test"))) <$> Some r') = Some true)
      by (rewrite <- Ho; vm_compute; reflexivity).
    injection Hw as Hw. injection Ha as Ha. apply bool_decide_eq_true in Ha. by split_and!.
  - apply (reload_survives_iff one_command 2 toy_redis_laws started (at_threads 0) _ (Hr (at_threads 0) eq_refl)).
    intros parsed config [= <-] Hload. vm_compute in Hload. discriminate.
  - apply (reload_survives_iff one_command 2 toy_redis_laws started (at_config bad_site toy_start_api) _
      (Hr (at_config bad_site toy_start_api) eq_refl)).
    intros parsed config [= <-] Hload.
    assert (E : Ok (E := string) bad_site = Ok config) by (rewrite <- Hload; vm_compute; reflexivity).
    injection E as <-.
    exists [web_route None], bad_header_route, []. split_and!; [reflexivity|by intros ?%list_elem_of_singleton|].
    split; [by eexists|]. eexists _, _. split_and!; [reflexivity..|]. constructor. left. reflexivity.
Defined.

(** A handshake, then the files are changed to an invalid configuration, and
    back; and a request that panics. *)
Lemma reload_history_witness :
  let es := [(at_threads 4, Notified (Some ["/etc/proksi/proksi.yaml"])); (at_threads 4, Handshake toy_client);
             hcl_changed 0; hcl_changed 2] in
  on_events one_command 2 started es = None ∧ down_since one_command 2 started es ∧
  down_since one_command 2 started [(at_threads 4, ProxyRequest Panic)].
Proof.
  intros es. assert (Hb : boot one_command (at_threads 2) first_args = Some started) by reflexivity.
  pose proof (reload_history one_command 2 (at_threads 2) first_args started es Hb) as Hh.
  pose proof (reload_history one_command 2 (at_threads 2) first_args started [(at_threads 4, ProxyRequest Panic)] Hb) as Hp.
  assert (Hn : on_events one_command 2 started es = None) by reflexivity. rewrite Hn in Hh.
  assert (Hn' : on_events one_command 2 started [(at_threads 4, ProxyRequest Panic)] = None) by reflexivity.
  rewrite Hn' in Hp. by split_and!.
Defined.

(** The same site on Redis, whose connections see what was stored. *)
Definition redis_site : Config := site 2 (mkStoreConfig StoreType_Redis (Some "redis://db")) [].
Definition after_storing : RedisStore := snd (RedisStore_set_certificate "a.test" toy_cert toy_store).
Definition redis_start : @StartApi toy_redis := {|
  pool_open := λ _, Some (pool after_storing);
  server_new := λ _, Ok tt;
  server_bootstrap := λ _, Ok tt;
  tls_with_callbacks := Ok tt;
  set_min_proto := λ _, Ok tt;
  set_max_proto := λ _, Ok tt |}.

Lemma reload_keeps_redis_witness :
  match on_event one_command 2 started (at_config redis_site redis_start, hcl_change) with
  | Some r' => ∃ store, mn_store (run_main r') = Some store ∧
                 fst (get_certificate "a.test" store) = Ok (Some toy_cert)
  | None => False
  end.
Proof.
  set (e := (at_config redis_site redis_start, hcl_change) : Event).
  destruct (on_event one_command 2 started e) as [r'|] eqn:Ev; [|discriminate Ev].
  assert (Hc : (run_config <$> Some r') = Some redis_site) by (rewrite <- Ev; reflexivity). injection Hc as Hc.
  apply (reload_keeps_redis one_command 2 toy_base64_laws toy_pki_laws toy_json_laws toy_redis_laws started e r'
    toy_store after_storing "a.test" toy_cert).
  - intros ch _. by eexists.
  - reflexivity.
  - apply restartsb_spec. reflexivity.
  - exact Ev.
  - by rewrite Hc.
  - intros url client _ [= <-]. split; [reflexivity|done].
Defined.
