(* ===== verification/AccessLog.v ===== *)
(** From a request to its line in the log: the event of [Router]'s logging
    callback, the subscriber that main.rs sets up, its writer and the receiver.
    The text of an event is tracing_subscriber's, a parameter. *)
From S2P Require Import Prelude Strs Config Stores Http Routes Plugins Oauth2 Middleware Router Discovery DiskCache Caching Lifecycle AsyncIo Logger Startup.
#[local] Open Scope string_scope.
#[local] Open Scope list_scope.

(** ** Events *)

(** The line that [tracing_subscriber::fmt] formats. *)
Class Formatter := { format_event : Subscriber → AccessLog → string }.

(** [with_max_level]: more verbose events than the level are dropped. *)
Definition verbosity (l : LevelFilter) : nat :=
  match l with ERROR => 1 | WARN => 2 | INFO => 3 | DEBUG => 4 | TRACE => 5 end.
Definition level_enabled (max level : LevelFilter) : bool := (verbosity level <=? verbosity max)%nat.

(** Level and fields of the event of the callback. *)
Definition access_metadata : Metadata := mkMetadata INFO
  ["method"; "path"; "query"; "host"; "duration_ms"; "user_agent"; "referer"; "client_ip"; "status_code";
   "http_version"; "reused_connection"; "peer_addr"; "request_id"; "access_log"].

Section access_log.
Context `{HttpApi, LbApi, PathTreeApi, Formatter}.

(** The subscriber with an event: the level, then the writer for its metadata. *)
Definition emit (sub : Subscriber) (meta : Metadata) (line : string) (chan : list string) : list string :=
  if level_enabled (sub_max_level sub) (meta_level meta)
  then fst (StdoutWriter_write (make_writer_for (sub_writer sub) meta) line chan) else chan.

(** What Pingora keeps of a session for the callback: its addresses, and the
    response header written last. *)
Definition status_written (d : Downstream) : N :=
  match d with RespondError code => code | WriteHeader h _ => resp_status h | WriteBody _ _ => 0 end.
Definition is_header (d : Downstream) : bool := match d with WriteBody _ _ => false | _ => true end.
Definition finished (http2 : bool) (client : option string) (s : Session) : Finished :=
  mkFinished http2 client (status_written <$> last (filter is_header (written s))).

(** A request at its end: its duration, the client, the exchange. *)
Record Ended := mkEnded {
  end_elapsed : N; end_http2 : bool; end_client : option string; end_exchange : Exchange }.

Definition event_of (e : Ended) : AccessLog :=
  logging (end_elapsed e) (finished (end_http2 e) (end_client e) (session (end_exchange e))) (end_exchange e).

Fixpoint log_requests (sub : Subscriber) (es : list Ended) (chan : list string) : list string :=
  match es with
  | [] => chan
  | e :: es => log_requests sub es (emit sub access_metadata (format_event sub (event_of e)) chan)
  end.

(** ** Lemmas *)

(** The levels that include INFO. *)
Definition level_has_info (l : LogLevel) : bool :=
  match l with LogLevel_Warn | LogLevel_Error => false | _ => true end.

(** The settings under which access logs are written. *)
Definition access_logged (config : Logging) : bool :=
  log_enabled config && log_access_logs_enabled config &&
  level_enabled (LevelFilter_from (log_level config)) INFO.

Lemma subscriber_level config : sub_max_level (subscriber config) = LevelFilter_from (log_level config).
Proof. unfold subscriber. by destruct (log_format config). Qed.
Lemma subscriber_writer config :
  sub_writer (subscriber config) =
  mkProxyLog (log_enabled config) (log_access_logs_enabled config) (log_error_logs_enabled config).
Proof. unfold subscriber. by destruct (log_format config). Qed.

Lemma emit_access config line chan :
  emit (subscriber config) access_metadata line chan = chan ++ (if access_logged config then [line] else []).
Proof.
  unfold emit, access_logged, make_writer_for, StdoutWriter_write.
  rewrite subscriber_level, subscriber_writer. simpl.
  destruct (level_enabled _ INFO); [|by rewrite andb_false_r, app_nil_r].
  destruct (log_enabled config), (log_access_logs_enabled config), (log_error_logs_enabled config);
    simpl; by rewrite ?app_nil_r.
Qed.

Lemma log_requests_lines config es chan :
  log_requests (subscriber config) es chan =
  chan ++ (if access_logged config then (λ e, format_event (subscriber config) (event_of e)) <$> es else []).
Proof.
  revert chan. induction es as [|e es IH]; intros chan; simpl.
  - destruct (access_logged config); by rewrite app_nil_r.
  - rewrite IH, emit_access. destruct (access_logged config); by rewrite <- app_assoc.
Qed.

Lemma status_of_answer (w : list Downstream) h (body : list string) :
  status_written <$> last (filter is_header (w ++ WriteHeader h false :: ((λ t, WriteBody t false) <$> body))) =
  Some (resp_status h).
Proof.
  rewrite filter_app. simpl.
  assert (Hb : filter is_header ((λ t, WriteBody t false) <$> body) = []) by by induction body.
  rewrite filter_cons_True by done. rewrite Hb. by rewrite last_snoc.
Qed.
End access_log.

(** ** Properties *)


(** What the line of a forwarded request says: with the conditions under
    which a request is forwarded, its event has the method, the path and the
    referer of the client's request, the status the upstream answered, the
    address of the peer, and, on a route with request_id, the identifier that
    the upstream and the client got. *)
Theorem forwarded_request_logged `{HttpApi, LbApi, PathTreeApi, Base64, JwtApi, ShortCrypt, CookieApi, HttpClient, HashIter}
    `{Dns} `{!CacheMetaApi} `{MetaJson, CacheHash, Disk} {net : Network}
    (Hl : HeaderLaws) (Hit : HashIterLaws) (Hlb : LbLaws) env elapsed given p w b http2 client
    (Hfilter : Router_request_filter env (px_world p) = (Ok false, w))
    (Hx : healthy (px_exchange p))
    (Hok : container_ok (route_container (ctx (exchange w))))
    (Hvalid : headers_valid (route_container (ctx (exchange w))))
    (Hid : insertable "x-request-id" (env_uuid env))
    (Hoff : cache_storage (session (exchange w)) = None)
    (Hsel : select (load_balancer (route_container (ctx (exchange w)))) = Some b) :
  ∃ peer req resp p', serve env elapsed given p = (Ok (FromUpstream peer req resp), p') ∧
    let event := event_of (mkEnded elapsed http2 client (px_exchange p')) in
    log_method event = req_method (session (px_exchange p)) ∧
    Router.log_path event = uri_path (req_uri (session (px_exchange p))) ∧
    log_referer event = to_str_or_empty (req_headers (session (px_exchange p))) "referer" ∧
    log_status_code event = resp_status (ans_header (answer peer req)) ∧
    log_peer_addr event = peer_address peer ∧
    (is_Some (rsc_plugins (route_container (ctx (exchange w))) !! "request_id") →
       log_request_id event = Some (env_uuid env) ∧
       hm_get_all (up_req_headers req) "x-request-id" = [env_uuid env]).
Proof.
  destruct (forwarded env elapsed given p w b Hfilter Hx Hok Hvalid Hid Hoff Hsel)
    as (peer & req & resp & p' & E & _ & _ & Hreq & Hst & _ & Hw & Hpeer & Ho & _).
  destruct (filter_passed _ _ _ Hfilter) as (_ & _ & Hident & _ & _ & Hh & Hu & Hm).
  exists peer, req, resp, p'. split; [done|]. simpl. unfold px_exchange in *.
  rewrite (onward_method _ _ Ho), (onward_uri _ _ Ho), (onward_headers _ _ Ho), Hm, Hu, Hh, Hpeer, Hw.
  rewrite status_of_answer. split_and!; [done..|]. intros Hplug. split.
  - rewrite (onward_id _ _ Ho). by apply Hident.
  - rewrite Hreq. unfold as_sent, stamped. by rewrite decide_True.
Qed.

(** ** Witnesses *)

#[local] Existing Instances toy_http toy_lb toy_pt toy_base64 toy_jwt toy_crypt toy_cookies
  toy_client toy_hash_iter toy_dns toy_meta toy_meta_json toy_disk toy_network numbered.
#[local] Existing Instances toy_time toy_log_files toy_log_sinks toy_buf_writer.

Definition toy_formatter : Formatter := {|
  format_event := λ _ a, log_method a +:+ " " +:+ Router.log_path a +:+ " " +:+ show_N (log_status_code a) |}.
#[local] Existing Instance toy_formatter.

Lemma forwarded_request_logged_witness :
  let x := toy_request "/page" [("referer", "from")] in
  ∃ peer req resp p', serve toy_env 7 [] (at_edge None x) = (Ok (FromUpstream peer req resp), p') ∧
    let event := event_of (mkEnded 7 false None (px_exchange p')) in
    log_status_code event = 200%N ∧ log_referer event = "from" ∧ log_request_id event = Some "5f0c2a1e-uuid".
Proof.
  intros x.
  destruct (forwarded_request_logged toy_http_laws toy_hash_iter_laws toy_lb_laws toy_env 7 [] (at_edge None x) _
    ("10.0.0.1", 443%N) false None (filter_pair toy_env (px_world (at_edge None x)) eq_refl))
    as (peer & req & resp & p' & E & _ & _ & Href & Hst & _ & Hplug);
    [reflexivity|exact (edge_ok None)|exact (edge_headers None)|by apply toy_insertable|reflexivity|reflexivity|].
  exists peer, req, resp, p'.
  refine (conj E (conj Hst (conj Href (proj1 (Hplug _))))). by eexists.
Defined.

(** The same request twice; and with a level that excludes it. *)
Definition warn_logging : Logging :=
  mkLogging true LogLevel_Warn true true LogFormat_Json (Some "/var/log") LogRotation_Minutely.
Definition twice : list Ended :=
  let x := toy_request "/page" [] in [mkEnded 7 false None x; mkEnded 8 false None x].

