(* ===== verification/Prototypes.v ===== *)
(** Code that nothing calls yet: the plugin interface of crates/plugins_api and
    its only component, the session of wasm/js_plugin.rs, the event of
    tools/mod.rs, and the benchmark of src/benches, which reads a shared map in
    two ways. wit_bindgen's generated types are those of the interface;
    arc_swap, DashMap and criterion are parameters. *)
From S2P Require Import Prelude Strs Config AsyncIo Logger.
#[local] Open Scope string_scope.
#[local] Open Scope list_scope.

(** ** The plugin interface (plugins_api/src/lib.rs) *)

Module PluginApi.

Inductive Context := mkContext.
Inductive Session := mkSession.

(** [unimplemented!()] *)
Definition get_header (self : Session) (key : string) : res unit (option string) := Panic.
Definition req_header : res unit (option bool) := Panic.

(** The trait; [default_on_request_filter] is what an implementation gets that
    does not write its own. *)
Class Plugin := {
  new_ctx : string → string;
  on_request_filter : Session → Context → res unit bool }.
Definition default_on_request_filter (session : Session) (ctx : Context) : res unit bool := Ok true.

(** The guest that the crate exports. *)
Definition Component_new_ctx (ctx : string) : string := "hello".
Definition Component_on_request_filter (session : Session) (ctx : string) : res unit bool := Ok true.

End PluginApi.

(** ** The JavaScript prototype (wasm/js_plugin.rs) *)

Inductive SessionTest := SessionTest_new.
Definition SessionTest_get_header (key : string) : string := "test".

(** ** tools/mod.rs *)

(** Level and fields of the event. *)
Definition _access_log (attrs : option N) : Metadata := mkMetadata INFO
  ["message"; "duration"; "log"; "path"; "host"; "headers"; "method"; "backend"; "status"].

(** It lacks the field by which the writer knows access logs, so it would be
    written with them disabled. *)
Lemma tool_event_no_access_log attrs errors :
  skip_log (make_writer_for (mkProxyLog true false errors) (_access_log attrs)) = false.
Proof. by destruct errors. Qed.

(** ** The benchmark (benches/dashmap_arc.rs) *)

Module Benchmark.

Inductive ComplexStruct := mkComplexStruct {
  cs_string : string;
  cs_arc : option ComplexStruct;
  cs_map : gmap string ComplexStruct }.
Definition ComplexStruct_default : ComplexStruct :=
  mkComplexStruct "hello" (Some (mkComplexStruct "hello" None ∅)) ∅.

(** [arc_swap::ArcSwap] in one thread, and [dashmap::DashMap]. *)
Class SharedMaps := {
  ArcSwap : Type;
  from_pointee : gmap string ComplexStruct → ArcSwap;
  as_load : ArcSwap → gmap string ComplexStruct;
  rcu : (gmap string ComplexStruct → gmap string ComplexStruct) → ArcSwap → ArcSwap;
  DashMap : Type;
  dm_new : DashMap;
  dm_insert : string → ComplexStruct → DashMap → DashMap;
  dm_get : string → DashMap → option ComplexStruct }.
Class SharedMapsLaws `{SharedMaps} : Prop := {
  load_pointee m : as_load (from_pointee m) = m;
  load_rcu f a : as_load (rcu f a) = f (as_load a);
  dm_get_insert k v k' d : dm_get k' (dm_insert k v d) = if decide (k = k') then Some v else dm_get k' d }.

Section benchmark.
Context `{SharedMaps}.

(** [0..100], as the keys the loops make of it. *)
Definition keys : list string := (λ i, show_N (N.of_nat i)) <$> seq 0 100.

(** [v.get(&i.to_string()).unwrap()] in a loop. *)
Fixpoint read_all {T} (get : string → T → option ComplexStruct) (ks : list string) (v : T) : res unit unit :=
  match ks with
  | [] => Ok tt
  | k :: ks => _ ← unwrap (get k v); read_all get ks v
  end.

(** The [assert!] at the end. *)
Definition assert_some {A} (o : option A) : res unit unit := _ ← unwrap o; Ok tt.

Definition arc_swap_read_from_hashmap (_dummy : N) : res unit unit :=
  let pointee := fold_left (λ m k, <[k := ComplexStruct_default]> m) keys (∅ : gmap string ComplexStruct) in
  let pointee := <["default" := ComplexStruct_default]> pointee in
  let arc_swap := from_pointee pointee in
  _ ← read_all (λ k a, as_load a !! k) keys arc_swap;
  let arc_swap := rcu (λ v, <["default-2" := ComplexStruct_default]> v) arc_swap in
  assert_some (as_load arc_swap !! "default-2").

Definition dashmap_arc_read_from_hashmap (_dummy : N) : res unit unit :=
  let pointee := fold_left (λ m k, dm_insert k ComplexStruct_default m) keys dm_new in
  let arc_swap := dm_insert "default" ComplexStruct_default pointee in
  _ ← read_all dm_get keys arc_swap;
  let arc_swap := dm_insert "default-2" ComplexStruct_default arc_swap in
  assert_some (dm_get "default-2" arc_swap).

Lemma read_all_ok {T} (get : string → T → option ComplexStruct) ks v :
  (∀ k, k ∈ ks → is_Some (get k v)) → read_all get ks v = Ok tt.
Proof.
  induction ks as [|k ks IH]; intros Hg; [done|]. simpl. destruct (Hg k) as [x ->]; [by left|]. simpl.
  apply IH. intros k' Hk. apply Hg. by right.
Qed.

(** A map into which all the keys were inserted, one after the other. *)
Lemma inserted_found {T} (get : string → T → option ComplexStruct) (put : string → T → T) ks v :
  (∀ k k' v, is_Some (get k' (put k v)) ↔ k = k' ∨ is_Some (get k' v)) →
  ∀ k, k ∈ ks ∨ is_Some (get k v) → is_Some (get k (fold_left (λ m k, put k m) ks v)).
Proof.
  intros Hput. revert v. induction ks as [|k0 ks IH]; intros v k; simpl; [by intros [?%elem_of_nil|?]|].
  rewrite elem_of_cons. intros Hk. apply IH. rewrite Hput. naive_solver.
Qed.

(** Neither way of reading the map panics: both measure the whole work. *)
Lemma benchmarks_complete `{!SharedMapsLaws} n :
  arc_swap_read_from_hashmap n = Ok tt ∧ dashmap_arc_read_from_hashmap n = Ok tt.
Proof.
  assert (Hm : ∀ k k' (m : gmap string ComplexStruct),
    is_Some (<[k := ComplexStruct_default]> m !! k') ↔ k = k' ∨ is_Some (m !! k')).
  { intros k k' m. by rewrite lookup_insert_is_Some'. }
  assert (Hd : ∀ k k' d, is_Some (dm_get k' (dm_insert k ComplexStruct_default d)) ↔ k = k' ∨ is_Some (dm_get k' d)).
  { intros k k' d. rewrite dm_get_insert. case_decide; naive_solver. }
  split.
  - unfold arc_swap_read_from_hashmap. generalize keys. intros ks. rewrite read_all_ok.
    + cbn [mbind res_bind]. by rewrite load_rcu, lookup_insert_eq.
    + intros k Hk. rewrite load_pointee, Hm. right.
      apply (inserted_found (λ k (m : gmap string ComplexStruct), m !! k) (λ k, <[k := ComplexStruct_default]>));
        [done|by left].
  - unfold dashmap_arc_read_from_hashmap. generalize keys. intros ks. rewrite read_all_ok.
    + cbn [mbind res_bind]. by rewrite dm_get_insert, decide_True by done.
    + intros k Hk. apply Hd. right.
      apply (inserted_found dm_get (λ k, dm_insert k ComplexStruct_default)); [done|by left].
Qed.
End benchmark.

(** Laws that the library's own finite map meets. *)
Definition toy_maps : SharedMaps := {|
  ArcSwap := gmap string ComplexStruct; from_pointee := id; as_load := id; rcu := λ f, f;
  DashMap := gmap string ComplexStruct; dm_new := ∅; dm_insert := insert; dm_get := λ k m, m !! k |}.
Lemma toy_maps_laws : @SharedMapsLaws toy_maps.
Proof. split; [done|done|]. intros k v k' d. simpl. by rewrite lookup_insert. Qed.
End Benchmark.
