(* ===== verification/UnitTests.v ===== *)
(** The unit tests of the repository, run on the model: those of
    stores/memory_store.rs, for any certificates, of plugins/oauth2/shared.rs
    and of stores/routes.rs. A test is a computation that panics where an
    assertion of it fails. *)
From S2P Require Import Prelude Strs Config Stores Http Routes Plugins Oauth2.
#[local] Open Scope string_scope.
#[local] Open Scope list_scope.

(** [assert!] *)
Definition assert {S E} (b : bool) : M S E unit := if b then mret tt else crash.
(** [Result::unwrap] on what a method returns. *)
Definition unwrapped {S E A} (m : M S E A) : M S E A := λ s,
  match m s with (Err _, s') => (Panic, s') | r => r end.

(** ** stores/memory_store.rs *)

Section memory_store.
(** The helper that makes a self-signed certificate with OpenSSL. *)
Context `{Pki} (create_test_certificate : string → Certificate).

Definition test_certificate_storage : M MemoryStore string unit :=
  let domain := "example.com" in
  let cert := create_test_certificate domain in
  _ ← unwrapped (set_certificate domain cert);
  retrieved_cert ← get_certificate domain;
  _ ← assert (bool_decide (is_Some retrieved_cert));
  all_certs ← get_certificates;
  _ ← assert (bool_decide (size all_certs = 1%nat));
  assert (bool_decide (is_Some (all_certs !! domain))).

Definition test_challenge_storage : M MemoryStore string unit :=
  let domain := "example.com" in
  let token := "test-token" in
  let proof := "test-proof" in
  _ ← unwrapped (set_challenge domain token proof);
  challenge ← get_challenge domain;
  _ ← assert (bool_decide (is_Some challenge));
  '(retrieved_token, retrieved_proof) ← lift (unwrap challenge);
  _ ← assert (String.eqb retrieved_token token);
  assert (String.eqb retrieved_proof proof).

(** The two loops of [test_multiple_domains]. *)
Fixpoint add_domains (domains : list string) : M MemoryStore string unit :=
  match domains with
  | [] => mret tt
  | domain :: rest =>
      let cert := create_test_certificate domain in
      _ ← unwrapped (set_certificate domain cert);
      let token := domain +:+ "-token" in
      let proof := domain +:+ "-proof" in
      _ ← unwrapped (set_challenge domain token proof);
      add_domains rest
  end.
Fixpoint check_domains (domains : list string) : M MemoryStore string unit :=
  match domains with
  | [] => mret tt
  | domain :: rest =>
      cert ← get_certificate domain;
      _ ← assert (bool_decide (is_Some cert));
      challenge ← get_challenge domain;
      _ ← assert (bool_decide (is_Some challenge));
      '(token, proof) ← lift (unwrap challenge);
      _ ← assert (String.eqb token (domain +:+ "-token"));
      _ ← assert (String.eqb proof (domain +:+ "-proof"));
      check_domains rest
  end.

Definition test_multiple_domains : M MemoryStore string unit :=
  let domains := ["example.com"; "test.com"; "domain.org"] in
  _ ← add_domains domains;
  all_certs ← get_certificates;
  _ ← assert (bool_decide (size all_certs = length domains));
  check_domains domains.

Definition test_overwrite_challenge : M MemoryStore string unit :=
  let domain := "example.com" in
  _ ← unwrapped (set_challenge domain "token1" "proof1");
  _ ← unwrapped (set_challenge domain "token2" "proof2");
  found ← get_challenge domain;
  challenge ← lift (unwrap found);
  _ ← assert (String.eqb challenge.1 "token2");
  assert (String.eqb challenge.2 "proof2").

Definition test_nonexistent_data : M MemoryStore string unit :=
  cert ← get_certificate "nonexistent.com";
  _ ← assert (bool_decide (cert = None));
  challenge ← get_challenge "nonexistent.com";
  assert (bool_decide (challenge = None)).
End memory_store.

(** ** plugins/oauth2/shared.rs *)

(** [map.get(k).unwrap()] against a text. *)
Definition assert_param (map : gmap string string) (k v : string) : M unit string unit :=
  found ← lift (unwrap (map !! k)); assert (String.eqb found v).

Definition test_query_params_to_map : M unit string unit :=
  let map := from_string_to_query_params "team_id=team1&org_id=org1&email=user@example.com" in
  _ ← assert_param map "team_id" "team1";
  _ ← assert_param map "org_id" "org1";
  assert_param map "email" "user@example.com".

Definition test_query_params_to_map_with_empty_values : M unit string unit :=
  let map := from_string_to_query_params "team_id=&org_id=&email=" in
  _ ← assert_param map "team_id" "";
  _ ← assert_param map "org_id" "";
  assert_param map "email" "".

Definition test_query_params_to_map_with_non_existent_keys : M unit string unit :=
  let map := from_string_to_query_params "team_id=team1&org_id=org" in
  assert (bool_decide (map !! "state" = None)).

(** The user of a test, by its teams and organisations. *)
Definition user_of (teams orgs : list string) : OauthUser :=
  mkOauthUser "user@example.com" teams orgs [].
(** [json!] on an object of a type and a list of texts. *)
Definition validation (ty : string) (values : list string) : Value :=
  VObject [("type", VString ty); ("value", VArray (VString <$> values))].

Definition test_no_validations : M unit string unit :=
  assert (validate_user_from_provider (user_of [] []) None).

Definition test_invalid_validations : M unit string unit :=
  let user := user_of [] [] in
  _ ← assert (validate_user_from_provider user (Some VNull));
  assert (validate_user_from_provider user (Some (VString "not an array"))).

Definition test_validations_with_team_id : M unit string unit :=
  let user := user_of ["team1"] [] in
  let validations := VArray [validation "team_id" ["team1"; "team2"]] in
  assert (validate_user_from_provider user (Some validations)).

Definition test_validations_with_org_id : M unit string unit :=
  let user := user_of [] ["org1"] in
  let validations := VArray [validation "org_id" ["org1"; "org2"]] in
  assert (validate_user_from_provider user (Some validations)).

Definition test_validations_with_email : M unit string unit :=
  let user := user_of [] [] in
  let validations := VArray [validation "email" ["user@example.com"; "other@example.com"]] in
  assert (validate_user_from_provider user (Some validations)).

Definition test_validations_no_match : M unit string unit :=
  let user := user_of ["team1"] ["org1"] in
  let validations := VArray [validation "team_id" ["nonexistentteam"]; validation "org_id" ["nonexistentorg"];
                             validation "email" ["nonexistent@example.com"]] in
  let result := validate_user_from_provider user (Some validations) in
  assert (negb result).

(** ** stores/routes.rs *)

Definition test_router_container_defaults_empty_pattern `{Dns, LbApi, PathTreeApi} : M unit string unit :=
  load_balancer ← lift (unwrap (try_from_iter ["1.1.1.1:80"]));
  let route_store := RouteStoreContainer_new load_balancer in
  assert (bool_decide (pattern (path_matcher route_store) = None)).

(** ** Lemmas *)

Section lemmas.
Context `{Pki} (create_test_certificate : string → Certificate).

(** What the first loop leaves in the store. *)
Lemma add_domains_spec domains s :
  ∃ s', add_domains create_test_certificate domains s = (Ok tt, s') ∧
    dom (inner_certs s') = dom (inner_certs s) ∪ list_to_set domains ∧
    (∀ d, d ∈ domains → is_Some (inner_certs s' !! d) ∧
       inner_challenges s' !! d = Some (d +:+ "-token", d +:+ "-proof")) ∧
    ∀ d, d ∉ domains → inner_challenges s' !! d = inner_challenges s !! d.
Proof.
  revert s. induction domains as [|d ds IH]; intros s.
  - exists s. split; [done|]. split; [set_solver|]. split; [by intros d ?%elem_of_nil|done].
  - cbn [add_domains].
    set (s1 := mkMemoryStore _ (<[d := create_test_certificate d]> (inner_certs s))
                 (<[d := (d +:+ "-token", d +:+ "-proof")]> (inner_challenges s))).
    destruct (IH s1) as (s' & E1 & Hdom & Hin & Hout). exists s'. split; [exact E1|].
    split; [rewrite Hdom; unfold s1; simpl; set_solver|]. split.
    + intros d' Hd. destruct (decide (d' ∈ ds)) as [Hds|Hds]; [by apply Hin|].
      apply elem_of_cons in Hd as [->|]; [|done]. split.
      * apply elem_of_dom. rewrite Hdom. unfold s1. simpl. set_solver.
      * rewrite Hout by done. apply lookup_insert_eq.
    + intros d' [Hne Hds]%not_elem_of_cons. rewrite Hout by done. by apply lookup_insert_ne.
Qed.

Lemma check_domains_passes domains s :
  (∀ d, d ∈ domains → is_Some (inner_certs s !! d) ∧
     inner_challenges s !! d = Some (d +:+ "-token", d +:+ "-proof")) →
  check_domains domains s = (Ok tt, s).
Proof.
  induction domains as [|d ds IH]; intros Hs; [done|]. cbn [check_domains].
  destruct (Hs d) as [[c Hc] Hch]; [by left|].
  rewrite (bind_ok _ _ _ (Some c) s) by (by rewrite <- Hc).
  rewrite (bind_ok _ _ _ tt s) by (unfold assert; by rewrite bool_decide_true).
  rewrite (bind_ok _ _ _ (Some (d +:+ "-token", d +:+ "-proof")) s) by (by rewrite <- Hch).
  rewrite (bind_ok _ _ _ tt s) by done.
  rewrite (bind_ok _ _ _ (d +:+ "-token", d +:+ "-proof") s) by done.
  do 2 (rewrite (bind_ok _ _ _ tt s) by (unfold assert; by rewrite String.eqb_refl)).
  apply IH. intros d' Hd. apply Hs. by right.
Qed.
End lemmas.

(** ** Properties *)

(** The tests of the in-memory store pass on the model, whatever the
    certificates; and the one about several domains for any list of them: what
    is stored is read back, with as many certificates as there are domains. *)
Theorem memory_store_tests_pass `{Pki} (create_test_certificate : string → Certificate) domains :
  Forall (λ t, fst (t MemoryStore_new) = Ok tt)
    [test_certificate_storage create_test_certificate; test_challenge_storage;
     test_multiple_domains create_test_certificate; test_overwrite_challenge; test_nonexistent_data] ∧
  ∃ s, add_domains create_test_certificate domains MemoryStore_new = (Ok tt, s) ∧
    check_domains domains s = (Ok tt, s) ∧ size (inner_certs s) = size (list_to_set (C := gset string) domains).
Proof.
  split; [repeat constructor|].
  destruct (add_domains_spec create_test_certificate domains MemoryStore_new) as (s & E1 & Hdom & Hin & _).
  exists s. split; [done|]. split; [by apply check_domains_passes|].
  rewrite <- size_dom, Hdom. unfold MemoryStore_new. simpl. by rewrite dom_empty_L, (left_id_L ∅ (∪)).
Qed.

(** So do those of the query parameters, of the validations and, where its
    address resolves, of a new container. *)
Theorem oauth2_tests_pass `{Dns, LbApi, PathTreeApi} :
  Forall (λ t, fst (t tt) = Ok tt)
    [test_query_params_to_map; test_query_params_to_map_with_empty_values;
     test_query_params_to_map_with_non_existent_keys; test_no_validations; test_invalid_validations;
     test_validations_with_team_id; test_validations_with_org_id; test_validations_with_email;
     test_validations_no_match] ∧
  (is_Some (try_from_iter ["1.1.1.1:80"]) →
   fst (test_router_container_defaults_empty_pattern tt) = Ok tt).
Proof.
  split; [repeat constructor|]. intros [lb Hlb].
  unfold test_router_container_defaults_empty_pattern, unwrap, lift, mbind, M_bind. by rewrite Hlb.
Qed.
